(* ===== verification/_CoqProject ===== *)
-Q . S2P
Prelude.v
MemUtils.v
MemoryRegion.v
FreeList.v
Buddy.v
BuddyCanon.v
BitArray.v
Ports.v
Irq.v
PageProvider.v
KernelHeap.v
PageAllocator.v
PageReserve.v
Slab.v
Mallocator.v
Multiboot.v
MemoryInit.v
KernelMemory.v
SelfTest.v
CString.v
ForwardList.v
CircularList.v
Atomics.v
Scheduler.v
OStream.v
Emits.v
Types.v
Timer.v
Tasks.v
Liveness.v
Keyboard.v
Vga.v
Panic.v
Containers.v
Segments.v
Ps2.v
IrqEntry.v
ContextSwitch.v
Traps.v
Printers.v
KernelObject.v
Log.v
Boot.v
KernelMain.v
