(* ===== verification/Prelude.v ===== *)
(** * A verification library for the bolgenos-ng kernel

    bolgenos-ng is a small kernel for 32-bit PC hardware, written in C++ with its own
    runtime library.  This library models the kernel under [src/kernel] and proves what
    makes its parts correct.  Paths below are relative to [src/kernel].

    ** How the kernel is put together

    The boot loader passes an information structure to [kernel_main] ([main.cpp]).  The
    kernel loads its segments and interrupt gates, finds the memory above 1 MiB behind its
    own image and builds three allocators on it: a buddy system of page runs, a page
    allocator that remembers the length of every block in a bit array, and a chain of slabs
    for small objects.  It then registers interrupt handlers (8259 controller, timer, PS/2),
    runs its self tests and hands over to a cooperative scheduler, whose tasks log to the
    VGA console and a serial line and sleep on the timer.

    ** How a component is modelled

    A routine is a [prog St A]: a function from the state of its component to an [outcome],
    which is [Done] with a result and the new state, [Panic] for a call of [panic], [Fault]
    for what C++ leaves undefined, or [Fuel] when the bound given to a loop was too small.
    Machine integers are [Z] with their wraps written out ([u8], [u16], [u32], [s32], [s8];
    pointers, [size_t] and [unsigned long] have 32 bits).  Memory is one map from addresses to
    bytes ([mem]), so free-list links, bit arrays, slab elements, descriptors and screen cells
    are where the kernel keeps them.  Objects whose layout nothing depends on (list nodes, tasks,
    iterators) live in stores indexed by address.  A state is a [Record] with the fields of the
    class, an operation is a [Definition] or [Fixpoint] with the name of the function, and
    [zoom] runs the routine of a component on its part of a larger state; that is how components
    call each other.  Devices are what they answer: values of a port read come from a stream or from a
    class of devices.  [operator new] and [delete] are the members of a class, [KernelHeap],
    whose instance is the kernel's own allocator; where the code uses the null pointer of a
    full heap without a test, the outcome is a [Fault].  The containers take the address of a
    new node as an argument.

    ** The files

    Shared ground
    - [Prelude.v]: machine integers, outcomes and programs, memory, notations, tactics and
      the [kernel] hint databases.
    - [MemUtils.v]: [libkernelcxx/include/mem_utils.hpp], [impl/cstddef/byte.hpp], page constants.

    Memory
    - [MemoryRegion.v]: [memory/memory_region.hpp].
    - [FreeList.v]: [memory/free_list.*]; the list in memory refines sorted insertion,
      buddy removal and taking the lowest block; Floyd's cycle check.
    - [Buddy.v], [BuddyCanon.v]: [memory/buddy_allocator.*]; [put] and [get] on the set of
      free bytes, their round trip, and that this set determines the lists.
    - [BitArray.v]: [libkernelcxx/include/bitarray.hpp].
    - [PageProvider.v]: the class [PageProvider], what [alloc_pages] and [free_pages] promise.
    - [PageAllocator.v]: [memory/page_allocator.*], the instance of that class; [allocate] and
      [deallocate] with their interrupt guard, and their bodies, which the allocators above use.
    - [PageReserve.v]: how many pages are left: the page allocator as a provider that accounts for
      all pages of its region, so that a null pointer means that memory was short.
    - [KernelHeap.v]: the class [KernelHeap], [new] and [delete] of objects and arrays over
      [operator new], and stacks over [alloc_pages].
    - [Slab.v], [Mallocator.v]: [memory/slab.*], [memory/mallocator.*], against the class of
      pages alone.
    - [Multiboot.v], [MemoryInit.v]: [kobj/], [memory/memory.cpp]; how the allocators come up.
    - [KernelMemory.v]: [operator new], [alloc_pages] and their inverses as [memory/memory.cpp]
      and [src/cxxabi.cpp] define them, an instance of [KernelHeap].
    - [SelfTest.v]: [ost/src/]; the on-start tests pass on the kernel's own allocators.

    Runtime library
    - [CString.v]: [libkernelcxx/src/cstring.cpp], [src/string.cpp].
    - [ForwardList.v], [CircularList.v]: [forward_list.hpp], [ext/intrusive_circular_list.hpp].
    - [Containers.v]: [algorithm.hpp], [array.hpp], [ext/fixed_size_vector.hpp], [optional.hpp],
      [memory.hpp], [utility.hpp].
    - [OStream.v]: [src/ostream.cpp], [src/streambuf.cpp], the format guard and the bounded
      stream, against the class [StreamBuf].
    - [Emits.v]: the text that a printing program hands to its buffer; rules that derive it.
    - [Types.v]: [type_traits.hpp], [impl/type_traits/], [concepts.hpp]; types as data.
    - [Panic.v]: [src/error.cpp], [src/printk.cpp].
    - [Printers.v]: the [operator<<] of free lists, blocks, tasks, the task state segment, gates
      and static strings, over any [StreamBuf]; readers that give back what was printed.

    Processor and interrupts
    - [Ports.v], [Atomics.v]: [x86/include/bolgenos-ng/asm.hpp], [x86/eflags.hpp], [atomic.hpp].
    - [Segments.v]: descriptors, gates, the task state segment and the loading of tables.
    - [Irq.v]: [x86/src/irq.cpp], [threading/], the 8259 controller.
    - [IrqEntry.v]: the stub and dispatcher of [x86/src/idt.cpp].
    - [Traps.v]: [x86/src/traps.cpp], [src/backtrace.cpp], the printing of frames; the whole text that
      a trap leaves on the log.

    Devices
    - [Timer.v]: [devices/src/frequency_divider.cpp], [pit.cpp], [src/time.cpp]; a sleep yields to the
      scheduler, which may not be made yet.
    - [Keyboard.v], [Ps2.v]: [devices/src/keyboard.cpp], [devices/ps2/], against the class [PS2Device]
      of the controller and its clock and the class [Sleeping] of what a sleep yields to.
    - [Vga.v]: [devices/src/vga_console.cpp]; it refines an abstract terminal.
    - [Log.v]: [log/], [devices/serial/].

    The image
    - [KernelObject.v]: [kernel.ld] and [kobj/src/kernel_object.cpp]; the order of the linker's
      symbols and that they meet what the memory and the backtrace ask of them.

    Tasks and the whole
    - [Scheduler.v]: [sched/]; the step relation [sched_step] of the scheduler with arbitrary tasks
      over any [KernelHeap].
    - [ContextSwitch.v]: the assembly of the switch and of a task's first frame on the registers and the
      stack; it saves and restores what [Scheduler.v] keeps of a task.
    - [Tasks.v]: the tasks of [main.cpp] on the scheduler and the clock, the relation [sys_step].
    - [Liveness.v]: that every task gets its turn; runs of the system cut into laps.
    - [Boot.v]: [kernel_main] up to the scheduler, [src/cxxabi.cpp].
    - [KernelMain.v]: the whole of [kernel_main]: the start, the scheduler and the tasks, on the
      memory that the start has set up.

    ** What the theorems show

    - Invariants and refinement of the allocators: every operation keeps the free lists sorted,
      aligned, disjoint and fully merged, hands out blocks disjoint from everything in use,
      and gives back exactly what was taken ([buddy_put_correct], [buddy_get_correct],
      [buddy_get_put], [buddy_canonical], [page_allocate_correct], [page_deallocate_correct], the
      slab and [mallocator_] theorems, [free_list_put_refines], [self_tests_pass]).  Together they
      are a heap of disjoint blocks whose contents no call changes ([kernel_memory_is_heap]).
    - Safety and progress of concurrency: in every reachable state the scheduler and the tasks can
      go on, nothing finished is run again and all memory of a deleted task is given back, whatever
      else uses the heap in between ([scheduler_safe], [scheduler_round],
      [create_task_correct], [tasks_run]); no task starves while the clock has not wrapped
      ([tasks_live]); interrupts return to the code they interrupt
      ([interrupt_transparent]); locks restore the flag ([irq_lock_restores]); atomic operations
      are linear ([atomic_interleavings]).
    - Bring-up: [memory_init_correct], [kernel_segments_loaded], [ps2_initialize_correct] and
      their composition [kernel_boots], with every way the start can stop; [kernel_main_runs]
      joins it to the scheduler and the tasks.
    - Errors: what traps and panics print and do ([trap_handler_panics], [panic_is_final]), frees of foreign
      memory ([slab_deallocate_correct]), cyclic lists ([sanity_check_detects_cycles]).
    - Text and devices: printed numbers read back, bounded streams stay in bounds, log lines carry
      their headers, the console is a terminal, keys become characters ([number_printing_correct],
      [snprintf_stream_bounded], [log_lines_correct], [vga_console_refines],
      [keyboard_handle_byte_correct]), and free lists, tasks and the task state segment read back
      from what is printed of them ([show_FreeList_reads_back], [show_Task_reads_back],
      [show_TaskStateSegment_reads_back]).
    - Types and values: [type_traits_sound], [descriptor_roundtrip], [unique_ptr_owns].

    Each theorem with hypotheses is followed by a witness that applies it to a concrete state.
    Where the code does not do what it means to, the theorem says what it does.

    ** Bounds and fuel

    - Loops over pages and free lists take [fuel] above [2 ^ 20 + 1]: there are at most [2 ^ 20]
      page frames in 32 bits, so no list is longer.
    - The booted kernel and the self tests also need [2 ^ 29 <= fuel]: a slab has fewer than
      [2 ^ 29] elements because their sizes, eight bytes at least, add up to less than [2 ^ 32].
      [boot_fuel] is such a number.
    - A number is printed with at most 33 digits and signs ([digits_fuel]); other loops over
      text or lists take more fuel than the length of what they visit.
    - The wait for a PS/2 flag takes one turn for each millisecond and one more; with a scheduler each
      sleep ends because the clock advances ([naps]), and without one it ends or uses the null pointer.  The loop that
      drains the controller has no bound in the code; its theorems assume a device
      that runs empty ([drained]).
    - The backtrace ends for frame pointers that go up; [backtrace_cycles] shows that it
      does not end for two frames that point to each other.

    ** What is assumed of the compiler

    - [exchange] is right when its operand is in [eax]; [exchange_elsewhere] shows what happens otherwise.
    - The stubs written in assembly have no prologue ([IrqEntry.v]), and [switch_tasks_impl] ends with
      [pop ebp; ret] ([ContextSwitch.v]).

    ** What is not modelled

    - The code of the tasks on their stacks: between two switches a task is the place it is at
      ([place] in [Scheduler.v], the routines of [Tasks.v]).
    - The interrupt flag in the allocators above the page allocator: its guard is modelled with
      [allocate] and [deallocate] themselves, and leaves the flag as its shadow has it.
    - The bootstrap assembly and the loader itself: they are arguments or hypotheses.  The
      addresses of the linker are arguments of the files below [KernelMain.v], which takes
      them from [KernelObject.v].
    - Log statements inside other components; [Log.v] verifies the logger once, and
      [Printers.v] what the operators of kernel objects hand to it.
    - [memcpy] and [memmove], which the repository only declares, and traits that merely name a
      builtin of the compiler ([is_pod], [is_trivial], ...).
    - The host-side tests under [src/testing].
    - Caches, timing and the memory order of the processor: instructions take effect one after
      the other, as on the single processor the kernel drives. *)
From stdpp Require Import base tactics numbers list gmap strings sorting.
Open Scope Z_scope.

(** ** Machine integers

    The kernel is built for i686: [size_t], [uint32_t], pointers and
    [unsigned long] are 32 bits wide.  A machine integer is a [Z] and every
    operation that may leave its width is followed by a wrap. *)
Definition u8 (z : Z) : Z := z mod 2 ^ 8.
Definition u16 (z : Z) : Z := z mod 2 ^ 16.
Definition u32 (z : Z) : Z := z mod 2 ^ 32.

(** Two's complement reading of a 32-bit pattern ([int], [ptrdiff_t]). *)
Definition s32 (z : Z) : Z := (z + 2 ^ 31) mod 2 ^ 32 - 2 ^ 31.

(** [char] is signed on the target. *)
Definition s8 (z : Z) : Z := (z + 2 ^ 7) mod 2 ^ 8 - 2 ^ 7.

Definition nullptr : Z := 0.

(** ** Outcomes and programs

    A kernel routine runs on an explicit state.  It may return, stop in
    [panic] (which halts the machine and never returns), or execute something
    C++ leaves undefined ([Fault]: a null or out-of-range access, a division
    by zero).  [Fuel] is the outcome of a loop whose bound was too small; the
    theorems on looping code state which bound is enough. *)
Inductive outcome (A : Type) : Type :=
  | Done (a : A)
  | Panic (msg : string)
  | Fault (msg : string)
  | Fuel.
Arguments Done {A} a.
Arguments Panic {A} msg.
Arguments Fault {A} msg.
Arguments Fuel {A}.

Definition prog (St A : Type) : Type := St → outcome (A * St).

#[export] Instance prog_ret {St} : MRet (prog St) := λ A a s, Done (a, s).

#[export] Instance prog_bind {St} : MBind (prog St) := λ A B k p s,
  match p s with
  | Done (a, s') => k a s'
  | Panic m => Panic m
  | Fault m => Fault m
  | Fuel => Fuel
  end.

Definition panic {St A} (msg : string) : prog St A := λ _, Panic msg.
Definition fault {St A} (msg : string) : prog St A := λ _, Fault msg.
Definition no_fuel {St A} : prog St A := λ _, Fuel.
Definition gets {St A} (f : St → A) : prog St A := λ s, Done (f s, s).
Definition modify {St} (f : St → St) : prog St unit := λ s, Done (tt, f s).

(** [while (cond) body] *)
Fixpoint while_loop {St} (fuel : nat) (cond : prog St bool) (body : prog St unit)
    : prog St unit :=
  match fuel with
  | O => no_fuel
  | S n => b ← cond; if (b : bool) then body ;; while_loop n cond body else mret tt
  end.

(** Run a program on a component of a larger state. *)
Definition zoom {St T A} (get : St → T) (put : T → St → St) (p : prog T A) : prog St A :=
  λ s, match p (get s) with
       | Done (a, t) => Done (a, put t s)
       | Panic m => Panic m
       | Fault m => Fault m
       | Fuel => Fuel
       end.

(** A computation that does not touch the state. *)
Definition lift_outcome {St A} (o : outcome A) : prog St A := λ s,
  match o with
  | Done a => Done (a, s)
  | Panic msg => Panic msg
  | Fault msg => Fault msg
  | Fuel => Fuel
  end.

(** What a program returns, without the state. *)
Definition result {St A} (o : outcome (A * St)) : option A :=
  match o with Done (a, _) => Some a | _ => None end.

(** ** Byte-addressed memory

    One flat physical memory is shared by every component: free pages hold the
    links of the free lists, bit arrays and slabs live in allocated pages.  A
    cell that was never written reads as some byte; the model fixes it to 0. *)
Abbreviation mem := (gmap Z Z).

Definition load8 (m : mem) (a : Z) : Z := u8 (default 0 (m !! a)).
Definition store8 (m : mem) (a v : Z) : mem := <[a := u8 v]> m.

(** A 32-bit little-endian access, as [mov] does it. *)
Definition load32 (m : mem) (a : Z) : Z :=
  load8 m a + 2 ^ 8 * load8 m (a + 1) + 2 ^ 16 * load8 m (a + 2)
  + 2 ^ 24 * load8 m (a + 3).

Definition load16 (m : mem) (a : Z) : Z := load8 m a + 2 ^ 8 * load8 m (a + 1).

Definition store32 (m : mem) (a v : Z) : mem :=
  store8 (store8 (store8 (store8 m a v) (a + 1) (v / 2 ^ 8)) (a + 2) (v / 2 ^ 16))
    (a + 3) (v / 2 ^ 24).

(** ** Notations *)
Abbreviation in_block a b n := (b ≤ a ∧ a < b + n).
Declare Scope kernel_scope.
Delimit Scope kernel_scope with kernel.
Open Scope kernel_scope.

(** ** Lemmas on machine integers *)
Create HintDb kernel.
Create Rewrite HintDb kernel.

Lemma u32_small z : 0 ≤ z < 2 ^ 32 → u32 z = z.
Proof. apply Z.mod_small. Qed.

Lemma u32_range z : 0 ≤ u32 z < 2 ^ 32.
Proof. by apply Z.mod_pos_bound. Qed.

Lemma u16_small z : 0 ≤ z < 2 ^ 16 → u16 z = z.
Proof. apply Z.mod_small. Qed.

Lemma u8_small z : 0 ≤ z < 2 ^ 8 → u8 z = z.
Proof. apply Z.mod_small. Qed.

Lemma u8_range z : 0 ≤ u8 z < 2 ^ 8.
Proof. by apply Z.mod_pos_bound. Qed.

Lemma s32_small z : - 2 ^ 31 ≤ z < 2 ^ 31 → s32 z = z.
Proof. intros H. unfold s32. rewrite Z.mod_small; lia. Qed.

Lemma u32_s32 z : u32 (s32 z) = u32 z.
Proof.
  unfold u32, s32. rewrite Zminus_mod_idemp_l. f_equal. lia.
Qed.

Lemma u8_u8 z : u8 (u8 z) = u8 z.
Proof. unfold u8. by rewrite Z.mod_mod. Qed.

Lemma u32_u32 z : u32 (u32 z) = u32 z.
Proof. unfold u32. by rewrite Z.mod_mod. Qed.

#[export] Hint Resolve u32_range u8_range : kernel.
#[export] Hint Rewrite u8_u8 u32_u32 u32_s32 : kernel.

Lemma pow2_pos n : 0 ≤ n → 0 < 2 ^ n.
Proof. intros. by apply Z.pow_pos_nonneg. Qed.

Lemma shiftl_1 n : 0 ≤ n → Z.shiftl 1 n = 2 ^ n.
Proof. intros. rewrite Z.shiftl_mul_pow2 by done. lia. Qed.

(** ** Lemmas on memory *)
Lemma load8_store8_eq m a v : load8 (store8 m a v) a = u8 v.
Proof. unfold load8, store8. rewrite lookup_insert_eq. simpl. by autorewrite with kernel. Qed.

Lemma load8_store8_ne m a b v : a ≠ b → load8 (store8 m a v) b = load8 m b.
Proof. intros. unfold load8, store8. by rewrite lookup_insert_ne. Qed.

Lemma load8_range m a : 0 ≤ load8 m a < 2 ^ 8.
Proof. apply u8_range. Qed.

Lemma load8_store32_ne m a b v :
  ¬ in_block b a 4 → load8 (store32 m a v) b = load8 m b.
Proof. intros. unfold store32. rewrite !load8_store8_ne by lia. done. Qed.

Lemma load32_store32_ne m a b v :
  a + 4 ≤ b ∨ b + 4 ≤ a → load32 (store32 m a v) b = load32 m b.
Proof. intros. unfold load32. rewrite !load8_store32_ne by lia. done. Qed.

Lemma load32_store32_eq m a v : load32 (store32 m a v) a = u32 v.
Proof.
  unfold load32, store32.
  rewrite !load8_store8_eq, !load8_store8_ne, !load8_store8_eq,
    !load8_store8_ne, !load8_store8_eq, !load8_store8_ne, !load8_store8_eq by lia.
  unfold u8, u32.
  replace (v / 2 ^ 16) with (v / 2 ^ 8 / 2 ^ 8) by (by rewrite Z.div_div).
  replace (v / 2 ^ 24) with (v / 2 ^ 8 / 2 ^ 8 / 2 ^ 8) by (by rewrite !Z.div_div).
  Z.div_mod_to_equations. lia.
Qed.

Lemma load32_range m a : 0 ≤ load32 m a < 2 ^ 32.
Proof.
  unfold load32. pose proof (load8_range m a). pose proof (load8_range m (a + 1)).
  pose proof (load8_range m (a + 2)). pose proof (load8_range m (a + 3)). lia.
Qed.

(** Two memories agree away from a set of words. *)
Definition same_outside (ws : list Z) (m m' : mem) : Prop :=
  ∀ a, (∀ w, w ∈ ws → ¬ in_block a w 4) → load8 m' a = load8 m a.

Lemma same_outside_refl ws m : same_outside ws m m.
Proof. by intros a _. Qed.

Lemma same_outside_trans ws m1 m2 m3 :
  same_outside ws m1 m2 → same_outside ws m2 m3 → same_outside ws m1 m3.
Proof. intros H1 H2 a Ha. rewrite (H2 a), (H1 a); done. Qed.

Lemma same_outside_mono ws ws' m m' :
  ws ⊆ ws' → same_outside ws m m' → same_outside ws' m m'.
Proof. intros Hs H a Ha. apply H. intros w Hw. apply Ha. by apply Hs. Qed.

Lemma same_outside_store ws m m' a v :
  a ∈ ws → same_outside ws m m' → same_outside ws m (store32 m' a v).
Proof.
  intros Ha H b Hb. rewrite load8_store32_ne by (by apply Hb). by apply H.
Qed.

Lemma same_outside_load32 ws m m' a :
  same_outside ws m m' → (∀ w, w ∈ ws → w + 4 ≤ a ∨ a + 4 ≤ w) →
  load32 m' a = load32 m a.
Proof.
  intros H Ha. unfold load32.
  rewrite !(H _) by (intros w Hw; specialize (Ha w Hw); lia). done.
Qed.

#[export] Hint Resolve same_outside_refl same_outside_trans same_outside_store : kernel.

(** ** Lemmas on programs *)
Lemma bind_done {St A B} (p : prog St A) (k : A → prog St B) s a s' :
  p s = Done (a, s') → (p ≫= k) s = k a s'.
Proof. intros H. unfold mbind, prog_bind. by rewrite H. Qed.

Lemma bind_panic {St A B} (p : prog St A) (k : A → prog St B) s msg :
  p s = Panic msg → (p ≫= k) s = Panic msg.
Proof. intros H. unfold mbind, prog_bind. by rewrite H. Qed.

Lemma gets_bind {St A B} (f : St → A) (k : A → prog St B) s : (gets f ≫= k) s = k (f s) s.
Proof. done. Qed.
Lemma modify_bind {St B} (f : St → St) (k : unit → prog St B) s :
  (modify f ≫= k) s = k tt (f s).
Proof. done. Qed.
Lemma ret_bind {St A B} (a : A) (k : A → prog St B) s : (mret a ≫= k) s = k a s.
Proof. done. Qed.
Lemma bind_bind {St A B C} (p : prog St A) (f : A → prog St B) (k : B → prog St C) s :
  ((p ≫= f) ≫= k) s = (p ≫= λ a, f a ≫= k) s.
Proof. unfold mbind, prog_bind. by destruct (p s) as [[??]| | |]. Qed.

(** [step_prog] runs the primitive program at the head of the goal. *)
Ltac step_prog :=
  match goal with
  | |- context [mbind ?k (gets ?f) ?s] => rewrite (gets_bind f k s)
  | |- context [mbind ?k (modify ?f) ?s] => rewrite (modify_bind f k s)
  | |- context [mbind ?k (mret ?a) ?s] => rewrite (ret_bind a k s)
  | |- context [mbind ?k (mbind ?f ?p) ?s] => rewrite (bind_bind p f k s)
  end.

(** Arithmetic after unfolding the wraps. *)
Ltac zify_wraps := unfold u8, u16, u32, s32, s8 in *; Z.div_mod_to_equations; lia.

(** ** Bits *)
Lemma land_pow2 x o : 0 ≤ o → Z.land x (2 ^ o) = if Z.testbit x o then 2 ^ o else 0.
Proof.
  intros Ho. apply Z.bits_inj'. intros n Hn. rewrite Z.land_spec, Z.pow2_bits_eqb by done.
  destruct (Z.eqb_spec o n) as [->|].
  - rewrite andb_true_r. destruct (Z.testbit x n) eqn:E.
    + by rewrite Z.pow2_bits_true.
    + by rewrite Z.bits_0.
  - rewrite andb_false_r. destruct (Z.testbit x o).
    + by rewrite Z.pow2_bits_false.
    + by rewrite Z.bits_0.
Qed.

Lemma land_pow2_eqb x o : 0 ≤ o → (Z.land x (2 ^ o) =? 0) = negb (Z.testbit x o).
Proof.
  intros Ho. rewrite land_pow2 by done. pose proof (pow2_pos o Ho).
  destruct (Z.testbit x o); simpl; [apply Z.eqb_neq; lia|done].
Qed.

Lemma testbit_div x o : 0 ≤ o → Z.testbit x o = negb ((x / 2 ^ o) mod 2 =? 0).
Proof.
  intros Ho. pose proof (Z.testbit_spec' x o Ho) as H. destruct (Z.testbit x o); simpl in H;
    rewrite <- H; done.
Qed.

(** ** Sorted lists *)
Lemma StronglySorted_lt_NoDup (l : list Z) : StronglySorted Z.lt l → NoDup l.
Proof.
  induction 1 as [|x l Hs IH Hall]; constructor; [|done].
  intros Hx. rewrite Forall_forall in Hall. specialize (Hall x Hx). lia.
Qed.

(** Split a sorted list at a value. *)
Lemma sorted_split (f : Z) (l : list Z) : StronglySorted Z.lt l →
  ∃ lo hi, l = lo ++ hi ∧ Forall (λ x, x < f) lo ∧ Forall (λ x, f ≤ x) hi.
Proof.
  induction 1 as [|x l Hs (lo & hi & -> & Hlo & Hhi) Hall].
  - by exists [], [].
  - destruct (decide (x < f)).
    + exists (x :: lo), hi. auto.
    + exists [], (x :: lo ++ hi). split_and!; [done..|].
      constructor; [lia|]. eapply Forall_impl; [done|]. simpl. lia.
Qed.

Lemma StronglySorted_app_iff (l1 l2 : list Z) :
  StronglySorted Z.lt (l1 ++ l2) ↔
  StronglySorted Z.lt l1 ∧ StronglySorted Z.lt l2 ∧ ∀ x y, x ∈ l1 → y ∈ l2 → x < y.
Proof.
  induction l1 as [|x l1 IH]; simpl.
  - split; [|tauto]. intros H. split_and!; [constructor|done|]. intros x y Hx.
    by apply elem_of_nil in Hx.
  - split.
    + inversion_clear 1 as [|? ? Hs Hall]. apply IH in Hs as (H1 & H2 & H3).
      rewrite Forall_app, !Forall_forall in Hall. destruct Hall as [Ha Hb]. split_and!.
      * constructor; [done|]. by apply Forall_forall.
      * done.
      * intros a b Hain Hbin. apply elem_of_cons in Hain as [->|Hain]; auto.
    + intros (Hs & H2 & H3). inversion_clear Hs as [|? ? Hs1 Hall]. constructor.
      * apply IH. split_and!; [done..|]. intros a b Hain. apply H3. by right.
      * apply Forall_app. split; [done|]. apply Forall_forall. intros b Hb.
        apply H3; [by left|done].
Qed.

(** Sorted insertion. *)
Fixpoint insert_block (f : Z) (l : list Z) : list Z :=
  match l with
  | [] => [f]
  | x :: l' => if x <? f then x :: insert_block f l' else f :: l
  end.

Lemma insert_block_split f lo hi :
  Forall (λ x, x < f) lo → Forall (λ x, f ≤ x) hi →
  insert_block f (lo ++ hi) = lo ++ f :: hi.
Proof.
  induction 1 as [|x lo Hx Hlo IH]; intros Hhi; simpl.
  - destruct Hhi as [|y hi Hy Hhi]; simpl; [done|].
    destruct (Z.ltb_spec y f); [lia|done].
  - destruct (Z.ltb_spec x f); [|lia]. by rewrite IH.
Qed.

Lemma elem_of_insert_block f l x : x ∈ insert_block f l ↔ x = f ∨ x ∈ l.
Proof.
  induction l as [|y l IH]; simpl; [by rewrite list_elem_of_singleton, elem_of_nil; tauto|].
  destruct (y <? f); rewrite !elem_of_cons, ?IH; tauto.
Qed.
