(* ===== verification/MemUtils.v ===== *)
(** * Alignment and byte helpers

    [libkernelcxx/include/mem_utils.hpp] and
    [libkernelcxx/include/impl/cstddef/byte.hpp], with the page constants of
    [config/default.cmake] and the page-pointer arithmetic the allocators use. *)
From stdpp Require Import base tactics numbers list gmap strings.
From S2P Require Import Prelude.

(** ** Configuration ([config/default.cmake]) *)
Definition PAGE_SIZE : Z := 4096.
Definition HZ : Z := 10.
Definition KERNEL_STACK_SIZE : Z := 16 * 1024.

(** ** [mem_utils.hpp] *)

(** [shiftmask(value, offset, mask)] on an unsigned value. *)
Definition shiftmask (value offset mask : Z) : Z :=
  Z.land (Z.shiftr value offset) mask.

(** [align_down<Boundary>(value)] for a 32-bit [value]. *)
Definition align_down (Boundary value : Z) : Z :=
  Z.land (u32 value) (u32 (Z.lnot (u32 (Boundary - 1)))).

Definition align_up (Boundary value : Z) : Z :=
  let alignment_mask := Boundary - 1 in
  if Z.land value alignment_mask =? 0 then value
  else u32 (align_down Boundary value + Boundary).

Definition is_aligned_at_least (Boundary value : Z) : bool :=
  align_up Boundary value =? value.

(** [copy_byte(from, to)] and [read_byte(from)]. *)
Definition copy_byte (m : mem) (from to : Z) : mem := store8 m to (load8 m from).
Definition read_byte (m : mem) (from : Z) : Z := load8 m from.

(** ** [lib::byte] *)
Definition byte_shl (b shift : Z) : Z := u8 (Z.shiftl b shift).
Definition byte_shr (b shift : Z) : Z := u8 (Z.shiftr b shift).
(** [operand <<= shift] on the caller's byte: the parameter is a copy, and the result refers
    to the copy. *)
Definition byte_shl_assign (shift : Z) : prog Z Z := b ← gets (λ operand, operand); mret (byte_shl b shift).
Definition byte_shr_assign (shift : Z) : prog Z Z := b ← gets (λ operand, operand); mret (byte_shr b shift).
Definition byte_or (lhs rhs : Z) : Z := u8 (Z.lor lhs rhs).
Definition byte_and (lhs rhs : Z) : Z := u8 (Z.land lhs rhs).
Definition byte_xor (lhs rhs : Z) : Z := u8 (Z.lxor lhs rhs).
(** The source applies no complement. *)
Definition byte_not (lhs : Z) : Z := u8 lhs.
Definition to_integer (bits : Z) (is_signed : bool) (b : Z) : Z :=
  if is_signed then (b + 2 ^ (bits - 1)) mod 2 ^ bits - 2 ^ (bits - 1)
  else b mod 2 ^ bits.

(** ** Pointers to page frames ([page.hpp])

    A [page_frame_t *] is a byte address; adding to it or subtracting two of
    them counts in pages.  A difference is a 32-bit [ptrdiff_t]. *)
Definition frame_add (p n : Z) : Z := u32 (p + PAGE_SIZE * n).
Definition frame_diff (p q : Z) : Z := s32 (p - q) / PAGE_SIZE.

(** ** Lemmas *)

(** The compound shifts compute the shifted byte and leave the operand as it was. *)
Lemma byte_shift_assign_lost operand shift :
  byte_shl_assign shift operand = Done (byte_shl operand shift, operand) ∧
  byte_shr_assign shift operand = Done (byte_shr operand shift, operand).
Proof. done. Qed.

Lemma land_ones_mod v k : 0 ≤ k → Z.land v (2 ^ k - 1) = v mod 2 ^ k.
Proof. intros. rewrite <- Z.land_ones by done. f_equal. rewrite Z.ones_equiv. lia. Qed.

Lemma u32_mask k : 0 ≤ k ≤ 32 →
  u32 (Z.lnot (u32 (2 ^ k - 1))) = 2 ^ 32 - 2 ^ k.
Proof.
  intros Hk. pose proof (pow2_pos k ltac:(lia)).
  pose proof (Z.pow_le_mono_r 2 k 32 ltac:(lia) ltac:(lia)).
  rewrite (u32_small (2 ^ k - 1)) by lia. unfold Z.lnot, u32.
  symmetry. apply (Z.mod_unique _ _ (-1)); lia.
Qed.

(** Masking the low bits of a 32-bit value clears its remainder. *)
Lemma land_high_mask k v : 0 ≤ k ≤ 32 → 0 ≤ v < 2 ^ 32 →
  Z.land v (2 ^ 32 - 2 ^ k) = v - v mod 2 ^ k.
Proof.
  intros Hk Hv.
  assert (Hm : 2 ^ 32 - 2 ^ k = Z.ldiff (Z.ones 32) (Z.ones k)).
  { rewrite <- Z.sub_nocarry_ldiff.
    - rewrite !Z.ones_equiv. lia.
    - apply Z.bits_inj'. intros n Hn. rewrite Z.ldiff_spec, Z.bits_0.
      destruct (decide (n < k)).
      + rewrite (Z.ones_spec_low 32 n), andb_false_r by lia. done.
      + rewrite (Z.ones_spec_high k n) by lia. done. }
  rewrite Hm, Z.ldiff_land, Z.land_assoc, Z.land_ones, Z.mod_small by lia.
  rewrite <- Z.ldiff_land, Z.ldiff_ones_r, Z.shiftr_div_pow2, Z.shiftl_mul_pow2 by lia.
  pose proof (Z.div_mod v (2 ^ k)). pose proof (pow2_pos k). lia.
Qed.

Lemma align_down_spec k v : 0 ≤ k < 32 → 0 ≤ v < 2 ^ 32 →
  align_down (2 ^ k) v = v - v mod 2 ^ k.
Proof.
  intros Hk Hv. unfold align_down.
  rewrite u32_mask, u32_small, land_high_mask by lia. done.
Qed.

(** The smallest multiple of the boundary above the value, wrapped. *)
Lemma align_up_spec k v : 0 ≤ k < 32 → 0 ≤ v < 2 ^ 32 →
  align_up (2 ^ k) v = u32 ((v + (2 ^ k - 1)) / 2 ^ k * 2 ^ k).
Proof.
  intros Hk Hv. unfold align_up. pose proof (pow2_pos k ltac:(lia)).
  rewrite land_ones_mod, align_down_spec by lia.
  pose proof (Z.div_mod v (2 ^ k) ltac:(lia)).
  pose proof (Z.mod_pos_bound v (2 ^ k) ltac:(lia)).
  destruct (Z.eqb_spec (v mod 2 ^ k) 0) as [E|E].
  - replace ((v + (2 ^ k - 1)) / 2 ^ k) with (v / 2 ^ k).
    + rewrite u32_small by lia. lia.
    + apply (Z.div_unique _ _ _ (2 ^ k - 1)); lia.
  - f_equal. replace ((v + (2 ^ k - 1)) / 2 ^ k) with (v / 2 ^ k + 1); [lia|].
    apply (Z.div_unique _ _ _ (v mod 2 ^ k - 1)); lia.
Qed.

Lemma frame_add_small p n : 0 ≤ p + PAGE_SIZE * n < 2 ^ 32 →
  frame_add p n = p + PAGE_SIZE * n.
Proof. apply u32_small. Qed.
