(* ===== verification/MemoryRegion.v ===== *)
(** * Memory regions

    [memory/memory_region.hpp]: a half-open range of page frames. *)
From stdpp Require Import base tactics numbers list gmap strings.
From S2P Require Import Prelude MemUtils.

Record MemoryRegion : Type := mkMemoryRegion { begin_ : Z; end_ : Z }.

Definition MemoryRegion_default : MemoryRegion := mkMemoryRegion nullptr nullptr.
Definition region_set_begin (address : Z) (r : MemoryRegion) : MemoryRegion :=
  mkMemoryRegion address (end_ r).
Definition region_set_end (address : Z) (r : MemoryRegion) : MemoryRegion :=
  mkMemoryRegion (begin_ r) address.

Definition region_owns (r : MemoryRegion) (frame : Z) : bool :=
  (begin_ r <=? frame) && (frame <? end_ r).
(** A signed page index. *)
Definition region_index_of (r : MemoryRegion) (frame : Z) : Z := frame_diff frame (begin_ r).
Definition region_size (r : MemoryRegion) : Z := u32 (frame_diff (end_ r) (begin_ r)).

(** A region whose pages have nonnegative 31-bit byte distance. *)
Definition region_ok (r : MemoryRegion) : Prop :=
  0 ≤ begin_ r ≤ end_ r ∧ begin_ r mod PAGE_SIZE = 0 ∧ end_ r mod PAGE_SIZE = 0 ∧
  end_ r < 2 ^ 32 ∧ end_ r - begin_ r < 2 ^ 31.

Lemma region_size_ok r : region_ok r → region_size r = (end_ r - begin_ r) / PAGE_SIZE.
Proof. unfold region_ok, region_size, frame_diff, PAGE_SIZE. zify_wraps. Qed.

Lemma region_index_ok r p : region_ok r → region_owns r p = true →
  region_index_of r p = (p - begin_ r) / PAGE_SIZE.
Proof.
  unfold region_ok, region_owns, region_index_of, frame_diff, PAGE_SIZE.
  rewrite andb_true_iff, Z.leb_le, Z.ltb_lt. zify_wraps.
Qed.
