(* ===== verification/FreeList.v ===== *)
(** * Free lists of page blocks

    [memory/free_list.hpp] and [memory/free_list.cpp].  A free list keeps
    blocks of [2^order] pages sorted by address; the link of a block is stored
    in the first word of the block itself, so the list lives in the shared
    memory.  [put] merges a block with its buddy when the buddy is free. *)
From stdpp Require Import base tactics numbers list gmap strings sorting.
From S2P Require Import Prelude MemUtils.

(** ** State *)
Record FreeList : Type := mkFreeList {
  stats_items : Z;
  list_ : Z;
  order_ : Z;
  disable_squashing_ : bool
}.

(** A default-constructed free list. *)
Definition FreeList_default : FreeList := mkFreeList 0 nullptr 0 false.

Definition set_items (n : Z) (fl : FreeList) : FreeList :=
  mkFreeList n (list_ fl) (order_ fl) (disable_squashing_ fl).
Definition set_list (p : Z) (fl : FreeList) : FreeList :=
  mkFreeList (stats_items fl) p (order_ fl) (disable_squashing_ fl).

(** The methods run on the memory and on the object. *)
Abbreviation fl_prog := (prog (mem * FreeList)).

(** [item->next] and [item->next = v]. *)
Definition get_next (item : Z) : fl_prog Z :=
  if item =? nullptr then fault "null dereference"
  else gets (λ s, load32 s.1 item).
Definition set_next (item v : Z) : fl_prog unit :=
  if item =? nullptr then fault "null dereference"
  else modify (λ s, (store32 s.1 item v, s.2)).

Definition get_list : fl_prog Z := gets (λ s, list_ s.2).
Definition put_list (p : Z) : fl_prog unit := modify (λ s, (s.1, set_list p s.2)).
Definition incr_items : fl_prog unit :=
  modify (λ s, (s.1, set_items (u32 (stats_items s.2 + 1)) s.2)).
Definition decr_items : fl_prog unit :=
  modify (λ s, (s.1, set_items (u32 (stats_items s.2 - 1)) s.2)).

(** ** File-local helpers *)
Definition are_consequent (first second order : Z) : bool :=
  frame_diff second first =? Z.shiftl 1 order.

Definition is_the_first_in_buddy (frame order : Z) : bool :=
  Z.land (frame_diff frame nullptr) (Z.shiftl 1 order) =? 0.

(** ** [find_last_lesser]: the result is [(last_lesser, prelast_lesser)]. *)
Fixpoint find_last_lesser_loop (fuel : nat) (new_item item last_lesser prelast_lesser : Z)
    : fl_prog (Z * Z) :=
  match fuel with
  | O => no_fuel
  | S n =>
      if negb (item =? nullptr) && (item <? new_item) then
        item' ← get_next item;
        find_last_lesser_loop n new_item item' item last_lesser
      else mret (last_lesser, prelast_lesser)
  end.

Definition find_last_lesser (fuel : nat) (new_item : Z) : fl_prog (Z * Z) :=
  l ← get_list;
  find_last_lesser_loop fuel new_item l nullptr nullptr.

(** ** [sanity_check] *)
Definition advance (it : Z) : fl_prog Z :=
  if it =? nullptr then mret it else get_next it.

(** The [do .. while] loop of the two iterators. *)
Fixpoint sanity_loop (fuel : nat) (slow_iter fast_iter : Z) : fl_prog (Z * Z) :=
  match fuel with
  | O => no_fuel
  | S n =>
      slow ← advance slow_iter;
      fast1 ← advance fast_iter;
      fast ← advance fast1;
      if negb (slow =? nullptr) && negb (fast =? nullptr) && negb (slow =? fast)
      then sanity_loop n slow fast
      else mret (slow, fast)
  end.

Fixpoint length_loop (fuel : nat) (it length : Z) : fl_prog Z :=
  match fuel with
  | O => no_fuel
  | S n =>
      if it =? nullptr then mret length
      else it' ← get_next it; length_loop n it' (u32 (length + 1))
  end.

Definition sanity_check (fuel : nat) : fl_prog unit :=
  l ← get_list;
  its ← sanity_loop fuel l l;
  if (its.1 =? its.2) && negb (its.1 =? nullptr) then
    panic "FreeList loop detected!"
  else
    length ← length_loop fuel l 0;
    items ← gets (λ s, stats_items s.2);
    if negb (length =? items) then panic "FreeList stats are invalid!"
    else mret tt.

(** ** Methods *)
Definition FreeList_initialize (fuel : nat) (order : Z) (disable_squashing : bool)
    : fl_prog bool :=
  modify (λ s, (s.1, mkFreeList (stats_items s.2) nullptr order disable_squashing)) ;;
  sanity_check fuel ;;
  mret true.

Definition FreeList_get (fuel : nat) : fl_prog Z :=
  free_item ← get_list;
  (if negb (free_item =? nullptr) then
     l ← get_list;
     n ← get_next l;
     put_list n ;;
     set_next free_item nullptr ;;
     decr_items
   else mret tt) ;;
  sanity_check fuel ;;
  mret free_item.

(** The common tails of [put]: leave with an element more or an element less. *)
Definition leave_inserted (fuel : nat) : fl_prog Z :=
  incr_items ;; sanity_check fuel ;; mret nullptr.
Definition leave_squashed (fuel : nat) (frame : Z) : fl_prog Z :=
  decr_items ;; sanity_check fuel ;; mret frame.

Definition link_first (new_item : Z) : fl_prog unit :=
  l ← get_list; set_next new_item l ;; put_list new_item.
Definition link_after (last_lesser new_item : Z) : fl_prog unit :=
  n ← get_next last_lesser; set_next new_item n ;; set_next last_lesser new_item.

(** The part of [put] that knows the last block below the new one. *)
Definition put_at (fuel : nat) (frame last_lesser prelast_lesser : Z) : fl_prog Z :=
  let new_item := frame in
  disabled ← gets (λ s, disable_squashing_ s.2);
  order ← gets (λ s, order_ s.2);
  if (disabled : bool) then
    (if last_lesser =? nullptr then link_first new_item
     else link_after last_lesser new_item) ;;
    leave_inserted fuel
  else if last_lesser =? nullptr then
    l ← get_list;
    if are_consequent frame l order && is_the_first_in_buddy frame order then
      n ← get_next l;
      put_list n ;; leave_squashed fuel frame
    else
      link_first new_item ;; leave_inserted fuel
  else
  next_item ← get_next last_lesser;
  if are_consequent last_lesser frame order && is_the_first_in_buddy last_lesser order then
    (if negb (prelast_lesser =? nullptr) then
       n ← get_next last_lesser; set_next prelast_lesser n
     else
       n ← get_next last_lesser; put_list n) ;;
    set_next last_lesser nullptr ;;
    leave_squashed fuel last_lesser
  else if are_consequent frame next_item order && is_the_first_in_buddy frame order then
    n ← get_next next_item;
    set_next last_lesser n ;; leave_squashed fuel frame
  else
    link_after last_lesser new_item ;; leave_inserted fuel.

Definition FreeList_put (fuel : nat) (frame : Z) : fl_prog Z :=
  let new_item := frame in
  set_next new_item nullptr ;;
  l ← get_list;
  if l =? nullptr then
    put_list new_item ;; leave_inserted fuel
  else
    found ← find_last_lesser fuel new_item;
    put_at fuel frame found.1 found.2.

(** * Verification *)

(** ** Blocks

    The blocks of a list of order [o] are [2^o] pages long and aligned. *)
Definition MAX_ORDER : Z := 10.
Definition block_size (o : Z) : Z := PAGE_SIZE * 2 ^ o.

(** A usable page address: not null, page-aligned, inside the address space. *)
Definition node_ok (x : Z) : Prop := 0 < x ∧ x mod PAGE_SIZE = 0 ∧ x + PAGE_SIZE ≤ 2 ^ 32.

Definition block_ok (o x : Z) : Prop :=
  0 < x ∧ x mod block_size o = 0 ∧ x + block_size o ≤ 2 ^ 32.

(** The block [f] is split off its buddy at the next order. *)
Definition buddy_of (o f : Z) : Z :=
  if f mod block_size (o + 1) =? 0 then f + block_size o else f - block_size o.

(** Reduce a goal about an order in range to its eleven instances. *)
Ltac cases_order o :=
  let H := fresh in
  assert (H : o = 0 ∨ o = 1 ∨ o = 2 ∨ o = 3 ∨ o = 4 ∨ o = 5 ∨ o = 6 ∨ o = 7 ∨ o = 8
    ∨ o = 9 ∨ o = 10) by (unfold MAX_ORDER in *; lia);
  repeat (destruct H as [H|H]); subst o.

Ltac unfold_blocks := unfold node_ok, block_ok, block_size, buddy_of, PAGE_SIZE, nullptr in *.

(** Close a goal about blocks of one concrete order by arithmetic. *)
Ltac block_arith o :=
  unfold_blocks; cases_order o; simpl in *; Z.div_mod_to_equations; lia.

Lemma block_ok_node o x : 0 ≤ o ≤ MAX_ORDER → block_ok o x → node_ok x.
Proof. intros. block_arith o. Qed.

Lemma squash_test o a b : 0 ≤ o ≤ MAX_ORDER → block_ok o a →
  (b = nullptr ∨ a ≤ b ∧ block_ok o b) →
  (are_consequent a b o && is_the_first_in_buddy a o) =
  bool_decide (b = a + block_size o ∧ a mod block_size (o + 1) = 0).
Proof.
  intros Ho Ha Hb. unfold are_consequent, is_the_first_in_buddy.
  rewrite !shiftl_1, land_pow2_eqb, testbit_div by lia. rewrite negb_involutive.
  unfold frame_diff, s32.
  match goal with |- ?x = bool_decide ?P => destruct (bool_decide_reflect P) as [H|H];
    [apply andb_true_intro; split; apply Z.eqb_eq
    |apply andb_false_iff; rewrite !Z.eqb_neq] end.
  - block_arith o.
  - block_arith o.
  - block_arith o.
Qed.

(** ** The list in memory

    [lseg m p l q]: following the links from [p] visits the blocks of [l] and
    arrives at [q]. *)
Fixpoint lseg (m : mem) (p : Z) (l : list Z) (q : Z) : Prop :=
  match l with
  | [] => p = q
  | x :: l' => p = x ∧ node_ok x ∧ lseg m (load32 m x) l' q
  end.

Definition chain (m : mem) (p : Z) (l : list Z) : Prop := lseg m p l nullptr.

(** The pointer to the first block of [l ++ [q]]. *)
Definition first_of (l : list Z) (q : Z) : Z := default q (head l).

Lemma node_ok_apart x y : node_ok x → node_ok y → x ≠ y → x + 4 ≤ y ∨ y + 4 ≤ x.
Proof. unfold_blocks. Z.div_mod_to_equations. lia. Qed.

Lemma node_ok_not_null x : node_ok x → (x =? nullptr) = false.
Proof. unfold_blocks. intros. apply Z.eqb_neq. lia. Qed.

Lemma node_ok_range x : node_ok x → 0 ≤ x < 2 ^ 32.
Proof. unfold_blocks. lia. Qed.

Lemma node_ok_u32 x : node_ok x → u32 x = x.
Proof. intros. by apply u32_small, node_ok_range. Qed.

Lemma lseg_app m p l1 l2 q :
  lseg m p (l1 ++ l2) q ↔ ∃ r, lseg m p l1 r ∧ lseg m r l2 q.
Proof.
  revert p. induction l1 as [|x l1 IH]; intros p; simpl.
  - split; [by eauto|]. by intros (r & -> & H).
  - split.
    + intros (? & ? & (r & ? & ?)%IH). by exists r.
    + intros (r & (? & ? & ?) & ?). split_and!; [done..|]. apply IH. by exists r.
Qed.

Lemma lseg_first m p l q : lseg m p l q → p = first_of l q.
Proof. destruct l; simpl; unfold first_of; simpl; [done|by intros [-> _]]. Qed.

Lemma lseg_nodes m p l q : lseg m p l q → Forall node_ok l.
Proof.
  revert p. induction l as [|x l IH]; intros p; [by constructor|].
  intros (-> & Hx & H). constructor; eauto.
Qed.

(** Segments are insensitive to writes elsewhere. *)
Lemma lseg_same ws m m' p l q :
  same_outside ws m m' → Forall node_ok ws → (∀ x, x ∈ l → x ∉ ws) →
  lseg m p l q → lseg m' p l q.
Proof.
  intros Hm Hws. revert p. induction l as [|x l IH]; intros p Hl; [done|].
  intros (-> & Hx & H). simpl. split_and!; [done..|].
  rewrite (same_outside_load32 ws m m' x Hm).
  - apply IH; [|done]. intros y Hy. apply Hl. by right.
  - intros w Hw. rewrite Forall_forall in Hws. apply node_ok_apart; auto.
    intros ->. eapply Hl; [by left|done].
Qed.

Lemma lseg_ext m m' p l q : (∀ x, x ∈ l → load32 m' x = load32 m x) →
  lseg m p l q → lseg m' p l q.
Proof.
  revert p. induction l as [|x l IH]; intros p Hm; [done|]. intros (-> & Hx & H).
  simpl. split_and!; [done..|]. rewrite Hm by (by left). apply IH; [|done].
  intros y Hy. apply Hm. by right.
Qed.

Lemma lseg_store m p l q a v : node_ok a → a ∉ l →
  lseg m p l q → lseg (store32 m a v) p l q.
Proof.
  intros Ha Hl. apply (lseg_same [a]).
  - apply same_outside_store; [by left|apply same_outside_refl].
  - by apply Forall_singleton.
  - intros x Hx ->%list_elem_of_singleton. done.
Qed.

Lemma lseg_snoc m p l x q :
  lseg m p (l ++ [x]) q ↔ lseg m p l x ∧ node_ok x ∧ load32 m x = q.
Proof.
  rewrite lseg_app. simpl. split.
  - by intros (r & H & -> & Hx & E).
  - intros (H & Hx & E). by exists x.
Qed.

(** Writing the link of the last block redirects the segment. *)
Lemma lseg_snoc_store m p l x q v : 0 ≤ v < 2 ^ 32 → x ∉ l →
  lseg m p (l ++ [x]) q → lseg (store32 m x v) p (l ++ [x]) v.
Proof.
  intros Hv Hx (H & Hok & _)%lseg_snoc. apply lseg_snoc.
  split_and!; [by apply lseg_store|done|]. rewrite load32_store32_eq. by apply u32_small.
Qed.

Lemma chain_cons m p x l : chain m p (x :: l) ↔ p = x ∧ node_ok x ∧ chain m (load32 m x) l.
Proof. done. Qed.

Lemma chain_null m p l : chain m p l → (p =? nullptr) = bool_decide (l = []).
Proof.
  destruct l as [|x l]; [by intros ->|]. intros (-> & Hx & _).
  by rewrite node_ok_not_null.
Qed.

(** ** Stepping the primitive programs *)
Lemma get_next_done m fl x : node_ok x → get_next x (m, fl) = Done (load32 m x, (m, fl)).
Proof. intros H. unfold get_next. by rewrite node_ok_not_null. Qed.

Lemma set_next_done m fl x v :
  node_ok x → set_next x v (m, fl) = Done (tt, (store32 m x v, fl)).
Proof. intros H. unfold set_next. by rewrite node_ok_not_null. Qed.

(** [advance] moves to the tail of a chain. *)
Lemma advance_done m fl p l : chain m p l →
  advance p (m, fl) = Done (first_of (tail l) nullptr, (m, fl)) ∧
  chain m (first_of (tail l) nullptr) (tail l).
Proof.
  intros H. unfold advance. rewrite (chain_null m p l H).
  destruct l as [|x l]; simpl.
  - unfold chain in H. simpl in H. subst p. done.
  - destruct H as (-> & Hx & H). rewrite get_next_done by done.
    pose proof (lseg_first _ _ _ _ H) as E. rewrite E in *. done.
Qed.

(** ** [sanity_check] accepts a well-formed list

    The fast iterator is [lf], a suffix of what the slow one still has to
    visit; a list without repetition keeps them on different blocks. *)
Lemma sanity_loop_ok m fl fuel mid lf :
  chain m (first_of (mid ++ lf) nullptr) (mid ++ lf) →
  chain m (first_of lf nullptr) lf →
  NoDup (mid ++ lf) → (length lf < fuel)%nat →
  ∃ s f, sanity_loop fuel (first_of (mid ++ lf) nullptr) (first_of lf nullptr) (m, fl)
         = Done ((s, f), (m, fl)) ∧ ((s =? f) && negb (s =? nullptr) = false).
Proof.
  revert mid lf. induction fuel as [|fuel IH]; intros mid lf Hs Hf Hnd Hlen; [lia|].
  simpl. destruct (advance_done m fl _ _ Hs) as [Ws Hs'].
  destruct (advance_done m fl _ _ Hf) as [Wf Hf'].
  destruct (advance_done m fl _ _ Hf') as [Wf2 Hf2].
  rewrite (bind_done _ _ _ _ _ Ws), (bind_done _ _ _ _ _ Wf), (bind_done _ _ _ _ _ Wf2).
  rewrite (chain_null _ _ _ Hs'), (chain_null _ _ _ Hf2).
  destruct lf as [|a [|b lf]].
  1, 2: simpl; rewrite andb_false_r; simpl; eexists _, _; split; [done|];
    apply andb_negb_r.
  assert (Htl : tail (mid ++ a :: b :: lf) = tail (mid ++ [a; b]) ++ lf).
  { destruct mid; simpl; [done|]. by rewrite <- app_assoc. }
  assert (Hne : ∃ c mid', tail (mid ++ [a; b]) = c :: mid').
  { destruct mid as [|? [|]]; simpl; eauto. }
  destruct Hne as (c & mid' & Hne).
  rewrite Htl in *. simpl tail in *.
  assert (Hnd' : NoDup (tail (mid ++ [a; b]) ++ lf)).
  { rewrite <- Htl. destruct mid; simpl in *; by inversion Hnd. }
  rewrite Hne in *. simpl in Hnd'. simpl (bool_decide (_ = [])).
  destruct lf as [|d lf]; simpl.
  - eexists _, _. split; [done|]. apply andb_negb_r.
  - unfold first_of at 1 2. simpl. destruct (Z.eqb_spec c d) as [->|Hcd]; simpl.
    { exfalso. inversion Hnd' as [|? ? Hin _]. apply Hin. set_solver. }
    apply (IH (c :: mid') (d :: lf)); simpl in *; [done..|lia].
Qed.

Lemma length_loop_ok m fl fuel p l n :
  chain m p l → (length l < fuel)%nat → 0 ≤ n → n + Z.of_nat (length l) < 2 ^ 32 →
  length_loop fuel p n (m, fl) = Done (n + Z.of_nat (length l), (m, fl)).
Proof.
  revert p l n. induction fuel as [|fuel IH]; intros p l n Hc Hf Hn Hl; [lia|].
  simpl. rewrite (chain_null _ _ _ Hc). destruct l as [|x l]; simpl in *.
  - unfold mret, prog_ret. do 2 f_equal. lia.
  - destruct Hc as (-> & Hx & Hc). rewrite (bind_done _ _ _ _ _ (get_next_done _ _ _ Hx)).
    rewrite u32_small by lia. rewrite (IH _ l) by (done || lia). do 2 f_equal. lia.
Qed.

(** A list of sorted usable pages fits the address space. *)
Lemma sorted_pages_length (l : list Z) (hi : Z) :
  StronglySorted Z.lt l → Forall node_ok l → Forall (λ x, x < hi) l → 0 ≤ hi →
  hi mod PAGE_SIZE = 0 → PAGE_SIZE * Z.of_nat (length l) ≤ hi.
Proof.
  revert hi. induction l as [|x l IH] using rev_ind; intros hi Hs Hok Hhi H0 Hm;
    [simpl; unfold PAGE_SIZE; lia|].
  apply StronglySorted_app_iff in Hs as (Hs & _ & Hlt).
  rewrite Forall_app, !Forall_singleton in Hok, Hhi. destruct Hok as [Hok Hx], Hhi as [_ Hxh].
  rewrite length_app. simpl.
  assert (PAGE_SIZE * Z.of_nat (length l) ≤ x).
  { apply IH; [done..| |unfold node_ok in Hx; lia|unfold node_ok in Hx; tauto].
    apply Forall_forall. intros y Hy. apply Hlt; [done|by apply list_elem_of_singleton]. }
  unfold_blocks. Z.div_mod_to_equations. lia.
Qed.

(** ** The representation of a list of blocks *)
Record FreeList_rep (m : mem) (fl : FreeList) (l : list Z) : Prop := {
  rep_chain : chain m (list_ fl) l;
  rep_items : stats_items fl = Z.of_nat (length l);
  rep_sorted : StronglySorted Z.lt l
}.

Lemma rep_nodes m fl l : FreeList_rep m fl l → Forall node_ok l.
Proof. intros [Hc _ _]. eapply lseg_nodes, Hc. Qed.

Lemma rep_bound m fl l : FreeList_rep m fl l → Z.of_nat (length l) ≤ 2 ^ 20.
Proof.
  intros H. pose proof (rep_nodes _ _ _ H) as Hn.
  enough (PAGE_SIZE * Z.of_nat (length l) ≤ 2 ^ 32) by (unfold PAGE_SIZE in *; lia).
  apply sorted_pages_length; [apply H|done| |lia|done].
  eapply Forall_impl; [done|]. unfold_blocks. simpl. lia.
Qed.

Lemma sanity_check_ok fuel m fl l :
  FreeList_rep m fl l → (length l < fuel)%nat →
  sanity_check fuel (m, fl) = Done (tt, (m, fl)).
Proof.
  intros H Hf. pose proof (rep_bound _ _ _ H) as Hb. destruct H as [Hc Hi Hs].
  unfold sanity_check, get_list. rewrite gets_bind. simpl.
  pose proof (lseg_first _ _ _ _ Hc) as Hl. rewrite Hl in Hc |- *.
  destruct (sanity_loop_ok m fl fuel [] l) as (s & f & W & Hsf); [done..| |done|].
  { by apply StronglySorted_lt_NoDup. }
  simpl in W. rewrite (bind_done _ _ _ _ _ W). simpl. rewrite Hsf.
  rewrite (bind_done _ _ _ _ _ (length_loop_ok m fl fuel _ l 0 Hc Hf ltac:(lia) ltac:(lia))).
  rewrite gets_bind. simpl. rewrite Hi, Z.eqb_refl. done.
Qed.

(** ** [find_last_lesser] *)
Definition last_two (lo : list Z) (acc : Z * Z) : Z * Z :=
  foldl (λ acc x, (x, acc.1)) acc lo.

Lemma last_two_snoc lo x acc : last_two (lo ++ [x]) acc = (x, (last_two lo acc).1).
Proof. unfold last_two. by rewrite foldl_app. Qed.

Lemma find_last_lesser_loop_ok m fl fuel f lo hi p acc :
  chain m p (lo ++ hi) → Forall (λ x, x < f) lo → Forall (λ x, f ≤ x) hi →
  (length lo < fuel)%nat →
  find_last_lesser_loop fuel f p acc.1 acc.2 (m, fl) = Done (last_two lo acc, (m, fl)).
Proof.
  revert lo p acc. induction fuel as [|fuel IH]; intros lo p acc Hc Hlo Hhi Hf; [lia|].
  simpl. rewrite (chain_null _ _ _ Hc). destruct lo as [|x lo]; simpl in *.
  - destruct hi as [|y hi]; [by destruct acc|]. destruct Hc as (-> & _).
    apply Forall_cons_1 in Hhi as [Hy _]. destruct (Z.ltb_spec y f); [lia|].
    by destruct acc.
  - apply Forall_cons_1 in Hlo as [Hx Hlo]. destruct Hc as (-> & Hok & Hc).
    destruct (Z.ltb_spec x f); [|lia]. simpl.
    rewrite (bind_done _ _ _ _ _ (get_next_done _ _ _ Hok)).
    apply (IH lo _ (x, acc.1)); [done..|lia].
Qed.

(** ** Surgery on the list *)
Lemma link_first_done m fl l f :
  chain m (list_ fl) l → node_ok f → f ∉ l →
  ∃ m', link_first f (m, fl) = Done (tt, (m', set_list f fl)) ∧
        chain m' f (f :: l) ∧ same_outside [f] m m'.
Proof.
  intros Hc Hf Hl. unfold link_first, get_list. rewrite gets_bind. simpl.
  rewrite (bind_done _ _ _ _ _ (set_next_done _ _ _ _ Hf)).
  eexists. split; [done|]. split.
  - split; [done|]. split; [done|].
    simpl. rewrite load32_store32_eq.
    apply lseg_store; [done..|]. pose proof (lseg_first _ _ _ _ Hc) as E.
    destruct l as [|x l]; unfold first_of in E; simpl in E; rewrite E in *; [done|].
    destruct Hc as (_ & Hx & Hc). rewrite node_ok_u32; done.
  - apply same_outside_store; [by left|apply same_outside_refl].
Qed.

Lemma link_after_done m fl p lo x hi f :
  chain m p (lo ++ x :: hi) → NoDup (lo ++ x :: hi) → node_ok f → f ∉ lo ++ x :: hi →
  ∃ m', link_after x f (m, fl) = Done (tt, (m', fl)) ∧
        chain m' p (lo ++ x :: f :: hi) ∧ same_outside [f; x] m m'.
Proof.
  intros Hc Hnd Hf Hl. rewrite cons_middle, app_assoc in Hc, Hl, Hnd.
  apply lseg_app in Hc as (r & Hx & Hhi).
  pose proof Hx as (_ & Hxo & Er)%lseg_snoc.
  rewrite not_elem_of_app in Hl. destruct Hl as [Hl1 Hl2].
  apply NoDup_app in Hnd as (Hnd1 & Hnd2 & _).
  assert (Hr : 0 ≤ r < 2 ^ 32) by (rewrite <- Er; apply load32_range).
  unfold link_after. rewrite (bind_done _ _ _ _ _ (get_next_done _ _ _ Hxo)).
  rewrite (bind_done _ _ _ _ _ (set_next_done _ _ _ _ Hf)), set_next_done by done.
  eexists. split; [done|]. split.
  - replace (lo ++ x :: f :: hi) with ((lo ++ [x]) ++ f :: hi) by (by rewrite <- app_assoc).
    apply lseg_app. exists f. split.
    + eapply lseg_snoc_store.
      * by apply node_ok_range.
      * apply NoDup_app in Hnd1 as (_ & Hd & _). intros Hin. apply (Hd x Hin). by left.
      * by apply lseg_store.
    + split_and!; [done..|]. rewrite load32_store32_ne.
      * rewrite load32_store32_eq, Er, u32_small by done.
        apply lseg_store; [done| |by apply lseg_store].
        intros Hin. apply (Hnd2 x); [|done]. apply elem_of_app. right. by left.
      * apply node_ok_apart; [done..|]. intros ->. apply Hl1. apply elem_of_app. right. by left.
  - apply same_outside_store; [by right; left|].
    apply same_outside_store; [by left|apply same_outside_refl].
Qed.

Lemma unlink_after m p lo y x hi :
  chain m p (lo ++ y :: x :: hi) → NoDup (lo ++ y :: x :: hi) →
  chain (store32 m y (load32 m x)) p (lo ++ y :: hi).
Proof.
  intros Hc Hnd. rewrite cons_middle, app_assoc in Hc, Hnd.
  apply lseg_app in Hc as (r & Hy & (-> & Hx & Hhi)).
  pose proof Hy as (_ & Hyo & _)%lseg_snoc.
  apply NoDup_app in Hnd as (Hnd1 & Hnd2 & _).
  replace (lo ++ y :: hi) with ((lo ++ [y]) ++ hi) by (by rewrite <- app_assoc).
  apply lseg_app. exists (load32 m x). split.
  - eapply lseg_snoc_store; [apply load32_range| |done].
    apply NoDup_app in Hnd1 as (_ & Hd & _). intros Hin. apply (Hd y Hin). by left.
  - apply lseg_store; [done| |done]. intros Hin. apply (Hnd2 y); [clear; set_solver|by right].
Qed.

(** ** The two ways out of [put] *)
Lemma leave_inserted_done fuel m fl l :
  chain m (list_ fl) l → stats_items fl + 1 = Z.of_nat (length l) →
  StronglySorted Z.lt l → (length l < fuel)%nat →
  leave_inserted fuel (m, fl) =
    Done (nullptr, (m, set_items (Z.of_nat (length l)) fl)) ∧
  FreeList_rep m (set_items (Z.of_nat (length l)) fl) l.
Proof.
  intros Hc Hi Hs Hf.
  assert (H : FreeList_rep m (set_items (Z.of_nat (length l)) fl) l) by done.
  split; [|done]. pose proof (rep_bound _ _ _ H).
  unfold leave_inserted, incr_items. rewrite modify_bind. simpl.
  rewrite Hi, u32_small by lia.
  by rewrite (bind_done _ _ _ _ _ (sanity_check_ok _ _ _ _ H Hf)).
Qed.

Lemma leave_squashed_done fuel m fl l f :
  chain m (list_ fl) l → stats_items fl = Z.of_nat (length l) + 1 →
  StronglySorted Z.lt l → (length l < fuel)%nat →
  leave_squashed fuel f (m, fl) = Done (f, (m, set_items (Z.of_nat (length l)) fl)) ∧
  FreeList_rep m (set_items (Z.of_nat (length l)) fl) l.
Proof.
  intros Hc Hi Hs Hf.
  assert (H : FreeList_rep m (set_items (Z.of_nat (length l)) fl) l) by done.
  split; [|done]. pose proof (rep_bound _ _ _ H).
  unfold leave_squashed, decr_items. rewrite modify_bind. simpl.
  rewrite Hi, Z.add_simpl_r, u32_small by lia.
  by rewrite (bind_done _ _ _ _ _ (sanity_check_ok _ _ _ _ H Hf)).
Qed.

(** ** Specification of [put] and [get] on sorted lists of blocks *)
Definition spec_put (disabled : bool) (o f : Z) (l : list Z) : Z * list Z :=
  let b := buddy_of o f in
  if negb disabled && bool_decide (b ∈ l) then (Z.min f b, filter (λ x, x ≠ b) l)
  else (nullptr, insert_block f l).

Definition spec_get (l : list Z) : Z * list Z :=
  match l with [] => (nullptr, []) | x :: l' => (x, l') end.

(** ** Where the buddy of a block sits in the list *)
Lemma buddy_below o x f : 0 ≤ o ≤ MAX_ORDER → block_ok o x → block_ok o f → x < f →
  bool_decide (f = x + block_size o ∧ x mod block_size (o + 1) = 0)
  = bool_decide (x = buddy_of o f).
Proof.
  intros Ho Hx Hf Hlt. apply bool_decide_ext. unfold buddy_of.
  destruct (Z.eqb_spec (f mod block_size (o + 1)) 0); block_arith o.
Qed.

Lemma buddy_above o f y : 0 ≤ o ≤ MAX_ORDER → block_ok o f → block_ok o y → f < y →
  bool_decide (y = f + block_size o ∧ f mod block_size (o + 1) = 0)
  = bool_decide (y = buddy_of o f).
Proof.
  intros Ho Hf Hy Hlt. apply bool_decide_ext. unfold buddy_of.
  destruct (Z.eqb_spec (f mod block_size (o + 1)) 0); block_arith o.
Qed.

Lemma buddy_range o f : 0 ≤ o ≤ MAX_ORDER →
  buddy_of o f = f + block_size o ∨ buddy_of o f = f - block_size o.
Proof. intros. unfold buddy_of. case_match; auto. Qed.

Lemma block_apart o x y : 0 ≤ o ≤ MAX_ORDER → block_ok o x → block_ok o y → x < y →
  x + block_size o ≤ y.
Proof. intros. block_arith o. Qed.

Lemma buddy_adjacent o f lo hi : 0 ≤ o ≤ MAX_ORDER → block_ok o f →
  Forall (block_ok o) (lo ++ hi) → StronglySorted Z.lt (lo ++ hi) →
  Forall (λ x, x < f) lo → Forall (λ x, f < x) hi → buddy_of o f ∈ lo ++ hi →
  (∃ lo', lo = lo' ++ [buddy_of o f]) ∨ (∃ hi', hi = buddy_of o f :: hi').
Proof.
  intros Ho Hf Hok Hs Hlo Hhi Hb. apply StronglySorted_app_iff in Hs as (Hs1 & Hs2 & _).
  rewrite Forall_app, !Forall_forall in Hok. destruct Hok as [Ok1 Ok2].
  rewrite Forall_forall in Hlo, Hhi. pose proof (buddy_range o f Ho) as Hr.
  apply elem_of_app in Hb as [Hb|Hb].
  - left. destruct lo as [|x lo _] using rev_ind; [by apply elem_of_nil in Hb|]. exists lo.
    apply StronglySorted_app_iff in Hs1 as (_ & _ & Hlt). setoid_rewrite elem_of_app in Ok1.
    setoid_rewrite elem_of_app in Hlo.
    apply elem_of_app in Hb as [Hb|Hb%list_elem_of_singleton]; [|by rewrite Hb].
    assert (Hx : x ∈ [x]) by by left.
    pose proof (block_apart o x f Ho (Ok1 x (or_intror Hx)) Hf (Hlo x (or_intror Hx))).
    pose proof (Hlt _ _ Hb Hx).
    pose proof (block_apart o _ x Ho (Ok1 _ (or_introl Hb)) (Ok1 x (or_intror Hx)) ltac:(done)).
    unfold block_size, PAGE_SIZE in *. pose proof (pow2_pos o). lia.
  - right. destruct hi as [|y hi]; [by apply elem_of_nil in Hb|]. exists hi.
    apply elem_of_cons in Hb as [Hb|Hb]; [by rewrite Hb|].
    assert (Hy : y ∈ y :: hi) by by left.
    inversion_clear Hs2 as [|? ? _ Hall]. rewrite Forall_forall in Hall.
    pose proof (Hall _ Hb).
    pose proof (block_apart o f y Ho Hf (Ok2 y Hy) (Hhi y Hy)).
    pose proof (block_apart o y _ Ho (Ok2 y Hy) (Ok2 _ ltac:(by right)) ltac:(done)).
    unfold block_size, PAGE_SIZE in *. pose proof (pow2_pos o). lia.
Qed.

Lemma filter_ne_id (b : Z) (l : list Z) : b ∉ l → filter (λ x, x ≠ b) l = l.
Proof.
  induction l as [|x l IH]; intros Hb; [done|].
  rewrite not_elem_of_cons in Hb. destruct Hb as [Hx Hl].
  rewrite filter_cons_True by auto. by rewrite IH.
Qed.

Lemma filter_remove (b : Z) (l1 l2 : list Z) : NoDup (l1 ++ b :: l2) →
  filter (λ x, x ≠ b) (l1 ++ b :: l2) = l1 ++ l2.
Proof.
  intros (Hnd1 & Hd & Hnd2)%NoDup_app. rewrite filter_app, filter_cons_False by auto.
  f_equal; apply filter_ne_id; [|by inversion Hnd2].
  intros Hb. apply (Hd b Hb). by left.
Qed.

(** ** [put] against its specification *)
Ltac step :=
  first
    [ step_prog
    | match goal with
      | H : node_ok ?x |- context [mbind ?k (get_next ?x) ?s] =>
          rewrite (bind_done (get_next x) k s _ _ (get_next_done s.1 s.2 x H))
      | H : node_ok ?x |- context [mbind ?k (set_next ?x ?v) ?s] =>
          rewrite (bind_done (set_next x v) k s _ _ (set_next_done s.1 s.2 x v H))
      end ];
  cbn [fst snd negb andb set_list set_items list_ stats_items order_ disable_squashing_].

Section Put.
Context (fuel : nat) (m : mem) (fl : FreeList) (f : Z) (lo hi : list Z).
Context (Ho : 0 ≤ order_ fl ≤ MAX_ORDER) (Hrep : FreeList_rep m fl (lo ++ hi)).
Context (Hf : block_ok (order_ fl) f) (Hok : Forall (block_ok (order_ fl)) (lo ++ hi)).
Context (Hlo : Forall (λ x, x < f) lo) (Hhi : Forall (λ x, f < x) hi).
Context (Hfuel : (S (length (lo ++ hi)) < fuel)%nat).

Let m1 := store32 m f nullptr.

Definition puts_to (r : Z) (l' : list Z) : Prop :=
  ∃ m' fl', FreeList_put fuel f (m, fl) = Done (r, (m', fl')) ∧
    FreeList_rep m' fl' l' ∧ same_outside (f :: lo ++ hi) m m' ∧
    order_ fl' = order_ fl ∧ disable_squashing_ fl' = disable_squashing_ fl.

Lemma put_fresh : f ∉ lo ++ hi.
Proof.
  rewrite Forall_forall in Hlo, Hhi. intros [H|H]%elem_of_app.
  - specialize (Hlo _ H). lia.
  - specialize (Hhi _ H). lia.
Qed.

Lemma put_node : node_ok f.
Proof. eapply block_ok_node, Hf. done. Qed.

Lemma put_chain1 : chain m1 (list_ fl) (lo ++ hi).
Proof. apply lseg_store; [apply put_node|apply put_fresh|apply Hrep]. Qed.

Lemma put_same1 : same_outside (f :: lo ++ hi) m m1.
Proof. apply same_outside_store; [by left|apply same_outside_refl]. Qed.

Lemma put_sorted_in : StronglySorted Z.lt (lo ++ f :: hi).
Proof.
  pose proof (rep_sorted _ _ _ Hrep) as (H1 & H2 & H3)%StronglySorted_app_iff.
  rewrite Forall_forall in Hlo. apply StronglySorted_app_iff. split_and!; [done| |].
  - by constructor.
  - intros x y Hx [->|Hy]%elem_of_cons; auto.
Qed.

Lemma put_nodup : NoDup (lo ++ hi).
Proof. apply StronglySorted_lt_NoDup, Hrep. Qed.

Lemma put_find :
  find_last_lesser fuel f (m1, fl) = Done (last_two lo (nullptr, nullptr), (m1, fl)).
Proof.
  unfold find_last_lesser, get_list. step.
  apply (find_last_lesser_loop_ok m1 fl fuel f lo hi _ (nullptr, nullptr)).
  - apply put_chain1.
  - done.
  - eapply Forall_impl; [done|]. simpl. lia.
  - rewrite length_app in Hfuel. lia.
Qed.

(** Insertion between [lo] and [hi]. *)
Lemma put_link_in last_lesser :
  last_lesser = (last_two lo (nullptr, nullptr)).1 →
  ∃ m' p', (if last_lesser =? nullptr then link_first f else link_after last_lesser f) (m1, fl)
    = Done (tt, (m', set_list p' fl)) ∧ chain m' p' (lo ++ f :: hi) ∧
    same_outside (f :: lo ++ hi) m m'.
Proof.
  intros ->. pose proof put_chain1 as Hc. pose proof put_fresh as Hfr.
  pose proof put_node as Hn. pose proof put_same1 as Hs1. pose proof put_nodup as Hnd.
  destruct lo as [|x lo' _] using rev_ind; simpl.
  - destruct (link_first_done m1 fl hi f Hc Hn Hfr) as (m' & W & Hc' & Hs).
    exists m', f. split_and!; [done..|]. eapply same_outside_trans; [exact Hs1|].
    eapply same_outside_mono; [|done]. clear. set_solver.
  - rewrite last_two_snoc. simpl. rewrite <- !app_assoc in Hc, Hfr |- *. simpl in *.
    pose proof (lseg_nodes _ _ _ _ Hc) as Hns. rewrite Forall_app, Forall_cons in Hns.
    destruct Hns as (_ & Hx & _). rewrite node_ok_not_null by done.
    rewrite <- app_assoc in Hnd.
    destruct (link_after_done m1 fl _ lo' x hi f Hc Hnd Hn Hfr) as (m' & W & Hc' & Hs).
    exists m', (list_ fl). split_and!; [by destruct fl|done|].
    eapply same_outside_trans; [exact Hs1|].
    eapply same_outside_mono; [|done]. clear. set_solver.
Qed.

Definition last_lesser : Z := (last_two lo (nullptr, nullptr)).1.
Definition prelast_lesser : Z := (last_two lo (nullptr, nullptr)).2.

Lemma put_prefix : lo ++ hi ≠ [] →
  FreeList_put fuel f (m, fl) = put_at fuel f last_lesser prelast_lesser (m1, fl).
Proof.
  intros Hne. unfold FreeList_put, get_list. pose proof put_node. step. step.
  rewrite (chain_null _ _ _ (rep_chain _ _ _ Hrep)), bool_decide_eq_false_2 by done.
  by rewrite (bind_done _ _ _ _ _ put_find).
Qed.

Lemma put_leave_inserted m' p' :
  chain m' p' (lo ++ f :: hi) →
  ∃ fl', leave_inserted fuel (m', set_list p' fl) = Done (nullptr, (m', fl')) ∧
    FreeList_rep m' fl' (lo ++ f :: hi) ∧
    order_ fl' = order_ fl ∧ disable_squashing_ fl' = disable_squashing_ fl.
Proof.
  intros Hc. pose proof (rep_items _ _ _ Hrep) as Hi. rewrite length_app in Hi, Hfuel.
  eexists. destruct (leave_inserted_done fuel m' (set_list p' fl) (lo ++ f :: hi)) as [W Hr];
    [done|rewrite length_app; simpl; lia|apply put_sorted_in|rewrite length_app; simpl; lia|].
  split_and!; [done..|by destruct fl|by destruct fl].
Qed.

Lemma put_leave_squashed m' p' r l' :
  chain m' p' l' → S (length l') = length (lo ++ hi) → StronglySorted Z.lt l' →
  ∃ fl', leave_squashed fuel r (m', set_list p' fl) = Done (r, (m', fl')) ∧
    FreeList_rep m' fl' l' ∧
    order_ fl' = order_ fl ∧ disable_squashing_ fl' = disable_squashing_ fl.
Proof.
  intros Hc Hl Hs. pose proof (rep_items _ _ _ Hrep) as Hi.
  eexists. destruct (leave_squashed_done fuel m' (set_list p' fl) l' r) as [W Hr];
    [done|simpl; lia|done|lia|].
  split_and!; [done..|by destruct fl|by destruct fl].
Qed.

(** The squashing tests of the three branches, by the position of the buddy. *)
Lemma last_lesser_cases :
  (lo = [] ∧ last_lesser = nullptr) ∨
  (∃ lo', lo = lo' ++ [last_lesser] ∧ prelast_lesser = (last_two lo' (nullptr, nullptr)).1 ∧
     node_ok last_lesser ∧ block_ok (order_ fl) last_lesser ∧ last_lesser < f ∧
     load32 m1 last_lesser = first_of hi nullptr).
Proof.
  pose proof put_chain1 as Hc. unfold last_lesser, prelast_lesser.
  destruct lo as [|x lo' _] using rev_ind; [by left|right]. exists lo'.
  rewrite last_two_snoc. simpl. rewrite <- app_assoc in Hc. apply lseg_app in Hc as (r & _ & Hc).
  destruct Hc as (-> & Hx & Hc). 
  apply Forall_app in Hok as [Hok1 _]. rewrite Forall_app, Forall_singleton in Hok1.
  rewrite Forall_app, Forall_singleton in Hlo.
  split_and!; try tauto. eapply lseg_first, Hc.
Qed.

Lemma first_of_hi : first_of hi nullptr = nullptr ∨
  f < first_of hi nullptr ∧ block_ok (order_ fl) (first_of hi nullptr).
Proof.
  rewrite Forall_app in Hok. destruct Hok as [_ Hok2].
  destruct hi as [|y hi']; [by left|right]. simpl.
  apply Forall_cons_1 in Hok2 as [? _]. by apply Forall_cons_1 in Hhi as [? _].
Qed.

Lemma test_next : (are_consequent f (first_of hi nullptr) (order_ fl)
    && is_the_first_in_buddy f (order_ fl))
  = bool_decide (head hi = Some (buddy_of (order_ fl) f)).
Proof.
  destruct first_of_hi as [E|[Hlt Hb]].
  - rewrite E, squash_test by auto. apply bool_decide_ext.
    assert (Hnb : nullptr ≠ f + block_size (order_ fl)).
    { unfold_blocks. pose proof (pow2_pos (order_ fl)). lia. }
    destruct hi as [|y hi']; [naive_solver|].
    unfold first_of in E. simpl in E. rewrite Forall_app, Forall_cons in Hok.
    destruct Hok as (_ & Hy & _). subst y. unfold_blocks. lia.
  - rewrite squash_test, buddy_above by (auto with lia). apply bool_decide_ext.
    destruct hi as [|y hi']; unfold first_of in *; simpl in *; [|naive_solver].
    unfold_blocks. lia.
Qed.

Lemma test_last : block_ok (order_ fl) last_lesser → last_lesser < f →
  (are_consequent last_lesser f (order_ fl)
    && is_the_first_in_buddy last_lesser (order_ fl))
  = bool_decide (last_lesser = buddy_of (order_ fl) f).
Proof. intros Hb Hlt. rewrite squash_test by (auto with lia). by apply buddy_below. Qed.

Lemma put_insert :
  disable_squashing_ fl = true ∨ buddy_of (order_ fl) f ∉ lo ++ hi →
  puts_to nullptr (lo ++ f :: hi).
Proof.
  intros Hb. unfold puts_to. destruct (decide (lo ++ hi = [])) as [E|Hne].
  - apply app_eq_nil in E as [E1 E2]. pose proof put_node as Hn.
    assert (Hc : chain m1 f (lo ++ f :: hi)).
    { rewrite E1, E2. split_and!; [done..|]. apply load32_store32_eq. }
    destruct (put_leave_inserted m1 f Hc) as (fl' & W & Hr & ? & ?).
    exists m1, fl'. split_and!; [|done|apply put_same1|done..].
    unfold FreeList_put, get_list, put_list. step. step.
    rewrite (chain_null _ _ _ (rep_chain _ _ _ Hrep)), bool_decide_eq_true_2
      by (by rewrite E1, E2). step. apply W.
  - rewrite put_prefix by done. unfold put_at. step. step.
    destruct (put_link_in last_lesser eq_refl) as (m' & p' & W & Hc & Hs).
    destruct (put_leave_inserted m' p' Hc) as (fl' & W' & Hr & ? & ?).
    exists m', fl'. split_and!; [|done..].
    destruct (disable_squashing_ fl) eqn:Ed.
    { by rewrite (bind_done _ _ _ _ _ W). }
    destruct Hb as [|Hb]; [done|].
    assert (Hb1 : head hi ≠ Some (buddy_of (order_ fl) f)).
    { intros E. destruct hi; simplify_eq/=. apply Hb, elem_of_app. right. by left. }
    destruct last_lesser_cases as [[El E0]|(lo' & El & _ & Hx & Hxb & Hlt & Hld)].
    + rewrite E0 in *. simpl in *. unfold get_list. step.
      pose proof (lseg_first _ _ _ _ put_chain1) as Ef. rewrite El in Ef. simpl in Ef.
      rewrite Ef, test_next, bool_decide_eq_false_2 by done.
      by rewrite (bind_done _ _ _ _ _ W).
    + rewrite node_ok_not_null in * by done. step.
      rewrite test_last, bool_decide_eq_false_2, Hld, test_next, bool_decide_eq_false_2;
        [by rewrite (bind_done _ _ _ _ _ W)|done| |done|done].
      intros E. apply Hb. rewrite El, <- E, !elem_of_app. left. right. by left.
Qed.

Lemma put_merge_right hi' : disable_squashing_ fl = false →
  hi = buddy_of (order_ fl) f :: hi' → puts_to f (lo ++ hi').
Proof.
  intros Ed Eh. unfold puts_to. pose proof put_chain1 as Hc1. pose proof put_nodup as Hnd.
  pose proof (rep_sorted _ _ _ Hrep) as Hsort. pose proof put_same1 as Hs1.
  rewrite put_prefix by (rewrite Eh; by destruct lo).
  set (b := buddy_of (order_ fl) f) in *.
  assert (Hf1 : first_of hi nullptr = b) by (by rewrite Eh).
  assert (Ht : are_consequent f (first_of hi nullptr) (order_ fl)
    && is_the_first_in_buddy f (order_ fl) = true).
  { rewrite test_next. apply bool_decide_eq_true_2. by rewrite Eh. }
  pose proof (lseg_nodes _ _ _ _ Hc1) as Hns. rewrite Eh, Forall_app, Forall_cons in Hns.
  destruct Hns as (_ & Hbn & _).
  assert (Hlen : S (length (lo ++ hi')) = length (lo ++ hi)).
  { rewrite Eh, !length_app. simpl. lia. }
  assert (Hs' : StronglySorted Z.lt (lo ++ hi')).
  { rewrite Eh, cons_middle in Hsort.
    apply StronglySorted_app_iff in Hsort as (S1 & (_ & S2 & _)%(StronglySorted_app_iff [b]) & S3).
    apply StronglySorted_app_iff. split_and!; [done..|]. intros x y Hx Hy.
    apply S3; [done|by right]. }
  unfold put_at. step. step. rewrite Ed.
  destruct last_lesser_cases as [[El E0]|(lo' & El & _ & Hx & Hxb & Hlt & Hld)].
  - rewrite E0, Z.eqb_refl. unfold get_list, put_list. step.
    pose proof (lseg_first _ _ _ _ Hc1) as Ef. rewrite El in Ef. simpl in Ef.
    rewrite Ef, Ht, Hf1. step. step.
    assert (Hc2 : chain m1 (load32 m1 b) (lo ++ hi')).
    { rewrite El, Eh in Hc1. rewrite El. apply Hc1. }
    destruct (put_leave_squashed m1 _ f _ Hc2 Hlen Hs') as (fl' & W & Hr & ? & ?).
    exists m1, fl'. split_and!; [done..|congruence].
  - rewrite node_ok_not_null by done. step. rewrite test_last by done.
    rewrite bool_decide_eq_false_2.
    2: { intros E. fold b in E. rewrite Eh in Hhi. apply Forall_cons_1 in Hhi as [? _]. lia. }
    rewrite Hld, Ht, Hf1. step. step.
    assert (Hc2 : chain (store32 m1 last_lesser (load32 m1 b)) (list_ fl) (lo ++ hi')).
    { rewrite El, Eh, <- app_assoc in Hc1, Hnd. rewrite El, <- app_assoc.
      by apply unlink_after. }
    destruct (put_leave_squashed _ (list_ fl) f _ Hc2 Hlen Hs') as (fl' & W & Hr & ? & ?).
    eexists _, fl'. split_and!; [by destruct fl; apply W|done| |done|congruence].
    apply same_outside_store; [right; rewrite El, !elem_of_app; left; right; by left|done].
Qed.

Lemma put_merge_left lo' : disable_squashing_ fl = false →
  lo = lo' ++ [buddy_of (order_ fl) f] → puts_to (buddy_of (order_ fl) f) (lo' ++ hi).
Proof.
  intros Ed El. unfold puts_to. pose proof put_chain1 as Hc1. pose proof put_nodup as Hnd.
  pose proof (rep_sorted _ _ _ Hrep) as Hsort. pose proof put_same1 as Hs1.
  rewrite put_prefix by (rewrite El; by destruct lo').
  destruct last_lesser_cases as [[E0 _]|(lo2 & E2 & Ep & Hx & Hxb & Hlt & Hld)].
  { rewrite E0 in El. by destruct lo'. }
  assert ((lo2 = lo') ∧ (last_lesser = buddy_of (order_ fl) f)) as [-> Eb].
  { rewrite El in E2. apply app_inj_tail in E2 as [-> ?]. done. }
  pose proof (test_last Hxb Hlt) as Ht. rewrite bool_decide_eq_true_2 in Ht by done.
  rewrite <- Eb in *. set (b := last_lesser) in *.
  assert (Hbl : (b ∉ lo') ∧ (b ∉ hi) ∧ NoDup (lo' ++ hi)).
  { rewrite El, <- app_assoc in Hnd. apply NoDup_app in Hnd as (N1 & N2 & N3).
    inversion_clear N3 as [|? ? N4 N5]. split_and!; [|done|].
    - intros Hin. apply (N2 b Hin). by left.
    - apply NoDup_app. split_and!; [done| |done]. intros x Hx1 Hx2.
      apply (N2 x Hx1). by right. }
  destruct Hbl as (Hb1 & Hb2 & Hnd').
  assert (Hlen : S (length (lo' ++ hi)) = length (lo ++ hi)).
  { rewrite El, !length_app. simpl. lia. }
  assert (Hs' : StronglySorted Z.lt (lo' ++ hi)).
  { rewrite El in Hsort. apply StronglySorted_app_iff in Hsort as (S1 & S2 & S3).
    apply StronglySorted_app_iff in S1 as (S1 & _ & _).
    apply StronglySorted_app_iff. split_and!; [done..|]. intros x y Hx1 Hx2.
    apply S3; [|done]. apply elem_of_app. by left. }
  assert (Hin : b ∈ f :: lo ++ hi).
  { right. rewrite El, !elem_of_app. left. right. by left. }
  unfold put_at. step. step. rewrite Ed, node_ok_not_null by done. step.
  rewrite Ht, Ep. destruct lo' as [|z lo' _] using rev_ind.
  - cbn [last_two foldl fst]. rewrite Z.eqb_refl. unfold put_list. cbn [negb].
    step. step. step. step.
    assert (Hc2 : chain (store32 m1 b nullptr) (load32 m1 b) hi).
    { apply lseg_store; [done..|]. rewrite El in Hc1. apply Hc1. }
    destruct (put_leave_squashed _ (load32 m1 b) b _ Hc2 Hlen Hs') as (fl' & W & Hr & ? & ?).
    eexists _, fl'. split_and!; [done..| |done|congruence]. by apply same_outside_store.
  - rewrite last_two_snoc. cbn [fst]. rewrite El in Hc1.
    rewrite <- !app_assoc in Hc1. simpl in Hc1.
    pose proof (lseg_nodes _ _ _ _ Hc1) as Hns. rewrite Forall_app, Forall_cons in Hns.
    destruct Hns as (_ & Hz & _). rewrite node_ok_not_null by done.
    cbn [negb]. step. step. step. step.
    assert (Hzin : z ∈ f :: lo ++ hi).
    { right. rewrite El, !elem_of_app. left. left. right. by left. }
    assert (Hc2 : chain (store32 (store32 m1 z (load32 m1 b)) b nullptr) (list_ fl)
      ((lo' ++ [z]) ++ hi)).
    { apply lseg_store; [done|rewrite not_elem_of_app; tauto|].
      rewrite <- app_assoc. apply unlink_after; [done|].
      rewrite El, <- !app_assoc in Hnd. done. }
    destruct (put_leave_squashed _ (list_ fl) b _ Hc2 Hlen Hs') as (fl' & W & Hr & ? & ?).
    eexists _, fl'. split_and!; [by destruct fl; apply W|done| |done|congruence].
    by do 2 (apply same_outside_store; [done|]).
Qed.
End Put.

(** [put] implements its specification on every list and every fresh block. *)
Lemma FreeList_put_done fuel m fl l f :
  0 ≤ order_ fl ≤ MAX_ORDER → FreeList_rep m fl l → Forall (block_ok (order_ fl)) l →
  block_ok (order_ fl) f → f ∉ l → (S (length l) < fuel)%nat →
  let '(r, l') := spec_put (disable_squashing_ fl) (order_ fl) f l in
  ∃ m' fl', FreeList_put fuel f (m, fl) = Done (r, (m', fl')) ∧
    FreeList_rep m' fl' l' ∧ same_outside (f :: l) m m' ∧
    order_ fl' = order_ fl ∧ disable_squashing_ fl' = disable_squashing_ fl.
Proof.
  intros Ho Hrep Hok Hf Hfr Hfuel.
  destruct (sorted_split f l (rep_sorted _ _ _ Hrep)) as (lo & hi & -> & Hlo & Hhi).
  assert (Hhi' : Forall (λ x, f < x) hi).
  { rewrite Forall_forall in Hhi |- *. intros x Hx. specialize (Hhi x Hx). simpl in Hhi.
    destruct (decide (f = x)) as [->|]; [|lia]. exfalso. apply Hfr, elem_of_app. by right. }
  pose proof (put_nodup m fl lo hi Hrep) as Hnd.
  unfold spec_put. destruct (negb _ && _) eqn:E.
  - apply andb_true_iff in E as [Ed%negb_true_iff Hb%bool_decide_eq_true].
    destruct (buddy_adjacent _ f lo hi Ho Hf Hok (rep_sorted _ _ _ Hrep) Hlo Hhi' Hb)
      as [[lo' El]|[hi' Eh]].
    + pose proof (put_merge_left fuel m fl f lo hi Ho Hrep Hf Hok Hlo Hhi' Hfuel lo' Ed El) as W.
      assert (buddy_of (order_ fl) f < f).
      { rewrite El, Forall_app, Forall_singleton in Hlo. tauto. }
      assert (Efil : filter (λ x, x ≠ buddy_of (order_ fl) f) (lo ++ hi) = lo' ++ hi).
      { rewrite El, <- app_assoc in Hnd |- *. by apply filter_remove. }
      rewrite Z.min_r, Efil by lia. apply W.
    + pose proof (put_merge_right fuel m fl f lo hi Ho Hrep Hf Hok Hlo Hhi' Hfuel hi' Ed Eh) as W.
      assert (f < buddy_of (order_ fl) f).
      { rewrite Eh in Hhi'. by apply Forall_cons_1 in Hhi' as [? _]. }
      assert (Efil : filter (λ x, x ≠ buddy_of (order_ fl) f) (lo ++ hi) = lo ++ hi').
      { rewrite Eh in Hnd |- * at 1. by apply filter_remove. }
      rewrite Z.min_l, Efil by lia. apply W.
  - rewrite insert_block_split by done.
    apply (put_insert fuel m fl f lo hi Ho Hrep Hf Hok Hlo Hhi' Hfuel).
    apply andb_false_iff in E as [Ed%negb_false_iff|Hb%bool_decide_eq_false]; auto.
Qed.

Lemma FreeList_get_done fuel m fl l :
  FreeList_rep m fl l → (length l < fuel)%nat →
  let '(r, l') := spec_get l in
  ∃ m' fl', FreeList_get fuel (m, fl) = Done (r, (m', fl')) ∧
    FreeList_rep m' fl' l' ∧ same_outside l m m' ∧
    order_ fl' = order_ fl ∧ disable_squashing_ fl' = disable_squashing_ fl.
Proof.
  intros Hrep Hfuel. unfold FreeList_get, get_list, put_list, decr_items.
  pose proof (rep_bound _ _ _ Hrep) as Hb. pose proof (rep_nodes _ _ _ Hrep) as Hns.
  destruct l as [|x l]; simpl.
  - exists m, fl. step. rewrite (chain_null _ _ _ (rep_chain _ _ _ Hrep)). simpl.
    split_and!; [|done|apply same_outside_refl|done..]. step.
    by rewrite (bind_done _ _ _ _ _ (sanity_check_ok _ _ _ _ Hrep Hfuel)),
      (rep_chain _ _ _ Hrep).
  - destruct Hrep as [(Hl & Hx & Hc) Hi Hs]. inversion_clear Hs as [|? ? Hs1 Hs2].
    assert (Hxl : x ∉ l).
    { intros Hin. rewrite Forall_forall in Hs2. specialize (Hs2 x Hin). lia. }
    step. rewrite Hl, node_ok_not_null by done. cbn [negb]. repeat step. rewrite Hl. repeat step.
    simpl in *.
    assert (H : FreeList_rep (store32 m x nullptr)
      (set_items (Z.of_nat (length l)) (set_list (load32 m x) fl)) l).
    { split; [|done..]. by apply lseg_store. }
    rewrite Hi, u32_small by lia.
    replace (Z.of_nat (S (length l)) - 1) with (Z.of_nat (length l)) by lia.
    rewrite (bind_done _ _ _ _ _ (sanity_check_ok fuel _ _ _ H ltac:(lia))).
    eexists _, _. split_and!; [done..| |done|done].
    apply same_outside_store; [by left|apply same_outside_refl].
Qed.

(** ** Floyd's test in [sanity_check] *)
Definition iter_next (m : mem) (k : nat) (p : Z) : Z := Nat.iter k (load32 m) p.

Lemma iter_next_plus m i j p : iter_next m (i + j) p = iter_next m i (iter_next m j p).
Proof. unfold iter_next. apply Nat.iter_add. Qed.

(** The links from [p] never reach null and come back after [mu] steps with
    period [lambda]. *)
Definition loops (m : mem) (p : Z) (mu lambda : nat) : Prop :=
  (0 < lambda)%nat ∧ iter_next m (mu + lambda) p = iter_next m mu p ∧
  ∀ k, iter_next m k p ≠ nullptr.

Lemma loops_period m p mu lambda n k : loops m p mu lambda → (mu ≤ n)%nat →
  iter_next m (n + k * lambda) p = iter_next m n p.
Proof.
  intros (Hl & Hp & _) Hn. induction k as [|k IH]; [f_equal; lia|].
  replace (n + S k * lambda)%nat with ((n - mu + k * lambda) + (mu + lambda))%nat by lia.
  rewrite iter_next_plus, Hp, <- iter_next_plus, <- IH. f_equal. lia.
Qed.

Lemma loops_meet m p mu lambda : loops m p mu lambda →
  ∃ j, (0 < j ≤ mu + lambda)%nat ∧ iter_next m (2 * j) p = iter_next m j p.
Proof.
  intros H. pose proof H as (Hl & _ & _).
  exists (lambda * (mu / lambda + 1))%nat.
  pose proof (Nat.div_mod_eq mu lambda). pose proof (Nat.mod_upper_bound mu lambda).
  split; [nia|].
  replace (2 * (lambda * (mu / lambda + 1)))%nat
    with (lambda * (mu / lambda + 1) + (mu / lambda + 1) * lambda)%nat by lia.
  eapply loops_period; [done|nia].
Qed.

Lemma sanity_loop_meets m fl p : (∀ k, iter_next m k p ≠ nullptr) →
  ∀ fuel i j, (i < j ≤ i + fuel)%nat → iter_next m (2 * j) p = iter_next m j p →
  ∃ x, sanity_loop fuel (iter_next m i p) (iter_next m (2 * i) p) (m, fl)
       = Done ((x, x), (m, fl)) ∧ x ≠ nullptr.
Proof.
  intros Hnn. induction fuel as [|fuel IH]; intros i j Hj Hmeet; [lia|].
  assert (Hadv : ∀ k, advance (iter_next m k p) (m, fl)
    = Done (iter_next m (S k) p, (m, fl))).
  { intros k. unfold advance, get_next. by destruct (Z.eqb_spec (iter_next m k p) nullptr);
      [destruct (Hnn k)|]. }
  cbn [sanity_loop]. rewrite !(bind_done _ _ _ _ _ (Hadv _)).
  replace (S (S (2 * i))) with (2 * S i)%nat by lia.
  destruct (Z.eqb_spec (iter_next m (S i) p) nullptr); [by destruct (Hnn (S i))|].
  destruct (Z.eqb_spec (iter_next m (2 * S i) p) nullptr); [by destruct (Hnn (2 * S i)%nat)|].
  cbn [negb andb].
  destruct (Z.eqb_spec (iter_next m (S i) p) (iter_next m (2 * S i) p)) as [E|E]; cbn [negb].
  - rewrite <- E. by eexists.
  - apply (IH (S i) j); [|done]. assert (j ≠ S i) by (intros ->; congruence). lia.
Qed.

Lemma sanity_check_loops fuel m fl mu lambda :
  loops m (list_ fl) mu lambda → (mu + lambda ≤ fuel)%nat →
  sanity_check fuel (m, fl) = Panic "FreeList loop detected!".
Proof.
  intros H Hf. destruct (loops_meet _ _ _ _ H) as (j & Hj & Hm).
  destruct (sanity_loop_meets m fl (list_ fl) (proj2 (proj2 H)) fuel 0 j) as (x & W & Hx);
    [lia|done|].
  unfold sanity_check, get_list. step. simpl in W. rewrite (bind_done _ _ _ _ _ W).
  simpl. rewrite Z.eqb_refl. by destruct (Z.eqb_spec x nullptr).
Qed.

(** ** Releasing a block that is already in the list

    [put] clears the link of the block before it looks at the list, so a block
    that is still a member ends up linked to itself. *)
Lemma iter_next_lseg m p l x :
  lseg m p l x → node_ok x → load32 m x = x →
  ∀ k, iter_next m k p ≠ nullptr ∧ ((length l ≤ k)%nat → iter_next m k p = x).
Proof.
  intros H Hx Hself. revert p H. induction l as [|y l IH]; intros p H.
  - simpl in H. subst p.
    assert (E : ∀ k, iter_next m k x = x).
    { induction k as [|k IHk]; [done|]. unfold iter_next in *. simpl. by rewrite IHk. }
    intros k. rewrite E. split; [|done]. apply node_ok_range in Hx as ?.
    apply node_ok_not_null, Z.eqb_neq in Hx. done.
  - destruct H as (-> & Hy & H). intros [|k].
    + split; [|simpl; lia]. by apply Z.eqb_neq, node_ok_not_null.
    + replace (S k) with (k + 1)%nat by lia. rewrite iter_next_plus.
      destruct (IH _ H k) as [IH1 IH2]. split; [done|]. simpl. intros. apply IH2. lia.
Qed.

Lemma FreeList_put_twice fuel m fl l f :
  0 ≤ order_ fl ≤ MAX_ORDER → FreeList_rep m fl l → Forall (block_ok (order_ fl)) l →
  f ∈ l → (disable_squashing_ fl = true ∨ buddy_of (order_ fl) f ∉ l) →
  (S (length l) < fuel)%nat →
  FreeList_put fuel f (m, fl) = Panic "FreeList loop detected!".
Proof.
  intros Ho Hrep Hok Hin Hbuddy Hfuel.
  pose proof (rep_nodes _ _ _ Hrep) as Hns. pose proof (StronglySorted_lt_NoDup _ (rep_sorted _ _ _ Hrep)) as Hnd.
  apply list_elem_of_split in Hin as (lo & hi & ->).
  pose proof (rep_sorted _ _ _ Hrep) as (_ & _ & Hlt)%StronglySorted_app_iff.
  pose proof (rep_chain _ _ _ Hrep) as (r & Hlo & (-> & Hf & Hhi))%lseg_app.
  apply NoDup_app in Hnd as (Hnd & Hnd2 & _).
  assert (Hflo : f ∉ lo) by (intros H; apply (Hnd2 f H); by left).
  rewrite Forall_app, Forall_cons in Hok. destruct Hok as (Hoklo & Hokf & _).
  set (m1 := store32 m f nullptr).
  assert (Hlo1 : lseg m1 (list_ fl) lo f) by by apply lseg_store.
  assert (Hc1 : chain m1 (list_ fl) (lo ++ [f])).
  { apply lseg_snoc. split_and!; [done..|]. apply load32_store32_eq. }
  assert (Hltlo : Forall (λ x, x < f) lo).
  { apply Forall_forall. intros x Hx. apply Hlt; [done|by left]. }
  assert (Hnc : are_consequent f f (order_ fl) = false).
  { unfold are_consequent, frame_diff. rewrite shiftl_1, Z.sub_diag by lia.
    apply Z.eqb_neq. change (s32 0 / PAGE_SIZE) with 0. pose proof (pow2_pos (order_ fl)). lia. }
  unfold FreeList_put, get_list. step. step.
  rewrite (chain_null _ _ _ (rep_chain _ _ _ Hrep)), bool_decide_eq_false_2 by (by destruct lo).
  assert (Hfind : find_last_lesser fuel f (m1, fl)
    = Done (last_two lo (nullptr, nullptr), (m1, fl))).
  { unfold find_last_lesser, get_list. step.
    apply (find_last_lesser_loop_ok m1 fl fuel f lo [f] _ (nullptr, nullptr));
      [done..|by apply Forall_singleton|rewrite length_app in Hfuel; simpl in Hfuel; lia]. }
  rewrite (bind_done _ _ _ _ _ Hfind).
  assert (Hloop : ∀ m' fl', lseg m' (list_ fl') lo f → load32 m' f = f →
    leave_inserted fuel (m', fl') = Panic "FreeList loop detected!").
  { intros m' fl' Hl Hself. unfold leave_inserted, incr_items. step.
    apply bind_panic, (sanity_check_loops _ _ _ (length lo) 1);
      [|rewrite length_app in Hfuel; simpl in Hfuel; lia].
    pose proof (iter_next_lseg _ _ _ _ Hl Hf Hself) as Hit. split_and!; [lia| |].
    - rewrite !(proj2 (Hit _)) by lia. done.
    - intros k. apply Hit. }
  unfold put_at. step. step.
  destruct lo as [|x lo _] using rev_ind.
  - cbn [last_two foldl fst snd]. rewrite Z.eqb_refl. cbn in Hlo1.
    unfold link_first, get_list, put_list. simpl app in *.
    destruct (disable_squashing_ fl); repeat step; rewrite Hlo1, ?Hnc; cbn [andb];
      repeat step; (apply Hloop; [done|]); rewrite ?Hlo1, load32_store32_eq;
      by apply node_ok_u32.
  - rewrite last_two_snoc. cbn [fst snd].
    apply lseg_snoc in Hlo1 as (Hl0 & Hx & Hxf).
    rewrite Forall_app, Forall_singleton in Hltlo, Hoklo.
    rewrite node_ok_not_null by done. unfold link_after.
    assert (Hxl : (x ∉ lo) ∧ x ≠ f).
    { apply NoDup_app in Hnd as (_ & Hd & _).
      split; [|intros ->; apply Hflo, elem_of_app; right; by left].
      intros Hx'. apply (Hd x Hx'). by left. }
    assert (Hend : lseg (store32 (store32 m1 f (load32 m1 x)) x f) (list_ fl) (lo ++ [x]) f ∧
      load32 (store32 (store32 m1 f (load32 m1 x)) x f) f = f).
    { split.
      - eapply lseg_snoc_store; [by apply node_ok_range|tauto|].
        apply lseg_store; [done|done|]. by apply lseg_snoc.
      - rewrite load32_store32_ne by (apply node_ok_apart; tauto).
        rewrite load32_store32_eq, Hxf. by apply node_ok_u32. }
    destruct Hend as [He1 He2].
    destruct (disable_squashing_ fl); repeat step; [by apply Hloop|].
    destruct Hbuddy as [|Hb]; [done|]. destruct Hltlo as [_ Hltx], Hoklo as [_ Hokx]. simpl in Hltx.
    assert (Hle : x ≤ f) by lia.
    rewrite (squash_test _ _ _ Ho Hokx (or_intror (conj Hle Hokf))).
    rewrite buddy_below by done. rewrite bool_decide_eq_false_2.
    2: { intros E. apply Hb. rewrite <- E, !elem_of_app. left. right. by left. }
    rewrite Hxf, Hnc. cbn [andb]. repeat step. by apply Hloop.
Qed.

(** * Properties *)

(** C17: [put] implements the abstract [spec_put] on the sorted list of free
    blocks: it takes the buddy out and returns the merged block when the buddy
    is free and merging is enabled, inserts the block in address order
    otherwise, and writes nothing but the links of the blocks involved. *)
Theorem free_list_put_refines fuel m fl l f
    (Ho : 0 ≤ order_ fl ≤ MAX_ORDER) (Hrep : FreeList_rep m fl l)
    (Hok : Forall (block_ok (order_ fl)) l) (Hf : block_ok (order_ fl) f)
    (Hfresh : f ∉ l) (Hfuel : (S (length l) < fuel)%nat) :
  ∃ m' fl', FreeList_put fuel f (m, fl)
      = Done (fst (spec_put (disable_squashing_ fl) (order_ fl) f l), (m', fl')) ∧
    FreeList_rep m' fl' (snd (spec_put (disable_squashing_ fl) (order_ fl) f l)) ∧
    same_outside (f :: l) m m' ∧
    order_ fl' = order_ fl ∧ disable_squashing_ fl' = disable_squashing_ fl.
Proof.
  pose proof (FreeList_put_done fuel m fl l f Ho Hrep Hok Hf Hfresh Hfuel) as H.
  by destruct (spec_put _ _ _ _).
Qed.

(** [get] implements taking the block of the lowest address, or returns
    null on an empty list, and writes nothing but links of the list. *)
Theorem free_list_get_refines fuel m fl l
    (Hrep : FreeList_rep m fl l) (Hfuel : (length l < fuel)%nat) :
  ∃ m' fl', FreeList_get fuel (m, fl) = Done (fst (spec_get l), (m', fl')) ∧
    FreeList_rep m' fl' (snd (spec_get l)) ∧ same_outside l m m' ∧
    order_ fl' = order_ fl ∧ disable_squashing_ fl' = disable_squashing_ fl.
Proof.
  pose proof (FreeList_get_done fuel m fl l Hrep Hfuel) as H.
  by destruct (spec_get l).
Qed.

(** A block that is released twice is caught: [put] of a member of the
    list that it does not merge stops in the panic of [sanity_check]. *)
Theorem free_list_double_put fuel m fl l f
    (Ho : 0 ≤ order_ fl ≤ MAX_ORDER) (Hrep : FreeList_rep m fl l)
    (Hok : Forall (block_ok (order_ fl)) l) (Hin : f ∈ l)
    (Hbuddy : disable_squashing_ fl = true ∨ buddy_of (order_ fl) f ∉ l)
    (Hfuel : (S (length l) < fuel)%nat) :
  FreeList_put fuel f (m, fl) = Panic "FreeList loop detected!".
Proof. by apply (FreeList_put_twice fuel m fl l f). Qed.

(** C19: [sanity_check] finds every cycle: when the links from the head come
    back after [mu + lambda] steps, its two iterators meet and it panics, and
    [mu + lambda] rounds are enough. *)
Theorem sanity_check_detects_cycles fuel m fl mu lambda
    (Hloops : loops m (list_ fl) mu lambda) (Hfuel : (mu + lambda ≤ fuel)%nat) :
  sanity_check fuel (m, fl) = Panic "FreeList loop detected!".
Proof. by apply (sanity_check_loops fuel m fl mu lambda). Qed.

(** [initialize] drops the list but keeps the statistics: on an object that
    already counts items it panics instead of starting over. *)
Theorem free_list_initialize_again fuel m fl order disable
    (Hitems : stats_items fl ≠ 0) :
  FreeList_initialize (S fuel) order disable (m, fl) = Panic "FreeList stats are invalid!".
Proof.
  unfold FreeList_initialize. step. apply bind_panic. unfold sanity_check, get_list.
  rewrite gets_bind. cbn. by destruct (stats_items fl).
Qed.

(** ** Witnesses *)

(** Two free pages, linked, in a list of order 0. *)
Definition example_mem : mem := store32 ∅ 8192 20480.
Definition example_list : FreeList := mkFreeList 2 8192 0 false.

Lemma example_list_rep : FreeList_rep example_mem example_list [8192; 20480].
Proof. split; [repeat split; (reflexivity || done)|done|repeat constructor]. Qed.

Lemma example_list_blocks : Forall (block_ok 0) [8192; 20480].
Proof. by repeat constructor. Qed.

Lemma free_list_put_refines_witness :
  ∃ m' fl', FreeList_put 9 12288 (example_mem, example_list) = Done (8192, (m', fl')) ∧
    FreeList_rep m' fl' [20480].
Proof.
  destruct (free_list_put_refines 9 example_mem example_list [8192; 20480] 12288)
    as (m' & fl' & H1 & H2 & _);
    [by split|apply example_list_rep|apply example_list_blocks|by split_and!| |simpl; lia|].
  - rewrite !elem_of_cons, elem_of_nil. lia.
  - exists m', fl'. split; [exact H1|exact H2].
Defined.

Lemma free_list_get_refines_witness :
  ∃ m' fl', FreeList_get 9 (example_mem, example_list) = Done (8192, (m', fl')) ∧
    FreeList_rep m' fl' [20480].
Proof.
  destruct (free_list_get_refines 9 example_mem example_list [8192; 20480])
    as (m' & fl' & H1 & H2 & _); [apply example_list_rep|simpl; lia|].
  exists m', fl'. split; [exact H1|exact H2].
Defined.

Lemma free_list_double_put_witness :
  FreeList_put 9 20480 (example_mem, example_list) = Panic "FreeList loop detected!".
Proof.
  apply (free_list_double_put 9 example_mem example_list [8192; 20480] 20480);
    [by split|apply example_list_rep|apply example_list_blocks| | |simpl; lia].
  - rewrite !elem_of_cons. lia.
  - right. change (buddy_of _ _) with 16384. rewrite !elem_of_cons, elem_of_nil. lia.
Defined.

Lemma sanity_check_detects_cycles_witness :
  sanity_check 9 (store32 example_mem 20480 8192, example_list)
    = Panic "FreeList loop detected!".
Proof.
  apply (sanity_check_detects_cycles 9 _ _ 0 2); [|lia].
  assert (H : ∀ k, iter_next (store32 example_mem 20480 8192) k 8192 = 8192 ∨
                   iter_next (store32 example_mem 20480 8192) k 8192 = 20480).
  { induction k as [|k IH]; [by left|]. unfold iter_next in *. simpl Nat.iter.
    destruct IH as [-> | ->]; [right|left]; reflexivity. }
  split_and!; [lia|reflexivity|]. intros k. simpl list_. unfold nullptr.
  destruct (H k) as [-> | ->]; discriminate.
Defined.

Lemma free_list_initialize_again_witness :
  FreeList_initialize 9 3 false (example_mem, example_list) = Panic "FreeList stats are invalid!".
Proof. apply (free_list_initialize_again 8). discriminate. Defined.
