(* ===== verification/Buddy.v ===== *)
(** * The buddy system

    [memory/buddy_allocator.hpp] and [memory/buddy_allocator.cpp]: one free list
    per order from 0 to [MAX_ORDER], over one memory.  [put] cuts a run of pages
    into aligned blocks and lets every block climb the lists as long as it meets
    its buddy; [get] takes a block that is large enough and returns the rest. *)
From stdpp Require Import base functions tactics numbers list gmap strings sorting.
From S2P Require Import Prelude MemUtils MemoryRegion FreeList.

(** ** State *)
Record pblk_t : Type := mkPblk { blk_ptr : Z; blk_size : Z }.

Definition pblk_eqb (a b : pblk_t) : bool :=
  (blk_size a =? blk_size b) && (blk_ptr a =? blk_ptr b).

Record BuddyAllocator : Type := mkBuddy {
  allocations : Z;
  deallocations : Z;
  free_list_ : list FreeList;
  region_ : option MemoryRegion
}.

Definition BuddyAllocator_default : BuddyAllocator :=
  mkBuddy 0 0 (replicate 11 FreeList_default) None.

Abbreviation buddy_prog := (prog (mem * BuddyAllocator)).

Definition set_free_list (fls : list FreeList) (b : BuddyAllocator) : BuddyAllocator :=
  mkBuddy (allocations b) (deallocations b) fls (region_ b).

(** [free_list_[i].method()]: an index beyond the array is a fault. *)
Definition on_list {A} (i : Z) (p : prog (mem * FreeList) A) : buddy_prog A := λ s,
  match free_list_ s.2 !! Z.to_nat i with
  | None => Fault "free_list_ index out of range"
  | Some fl =>
      match p (s.1, fl) with
      | Done (a, (m, fl')) =>
          Done (a, (m, set_free_list (<[Z.to_nat i := fl']> (free_list_ s.2)) s.2))
      | Panic msg => Panic msg
      | Fault msg => Fault msg
      | Fuel => Fuel
      end
  end.

(** ** [initialize] *)
Fixpoint initialize_loop (fuel n : nat) (i : Z) : buddy_prog unit :=
  match n with
  | O => no_fuel
  | S n =>
      if i <=? MAX_ORDER then
        on_list i (FreeList_initialize fuel i (i =? MAX_ORDER)) ;;
        initialize_loop fuel n (u32 (i + 1))
      else mret tt
  end.

Definition BuddyAllocator_initialize (fuel : nat) (region : MemoryRegion) : buddy_prog unit :=
  modify (λ s, (s.1, mkBuddy (allocations s.2) (deallocations s.2) (free_list_ s.2)
                       (Some region))) ;;
  initialize_loop fuel 12 0.

Definition BuddyAllocator_region : buddy_prog (option MemoryRegion) :=
  gets (λ s, region_ s.2).

(** ** [compute_order] *)
Fixpoint order_by_address (n : nat) (page_number order : Z) : Z :=
  match n with
  | O => order
  | S n =>
      if (Z.land page_number 1 =? 0) && (order <? MAX_ORDER)
      then order_by_address n (Z.shiftr page_number 1) (order + 1)
      else order
  end.

(** [while ((size_t(1) << order) > blk.size) --order;] *)
Fixpoint order_by_size (n : nat) (size order : Z) : outcome Z :=
  match n with
  | O => Fuel
  | S n =>
      if 32 <=? order then Fault "shift out of range"
      else if size <? Z.shiftl 1 order then order_by_size n size (u32 (order - 1))
      else Done order
  end.

Definition compute_order (blk : pblk_t) : outcome Z :=
  let page_number := blk_ptr blk / PAGE_SIZE in
  order_by_size 12 (blk_size blk) (order_by_address 11 page_number 0).

(** ** [put] *)

(** [while ((squashed_pages = free_list_[putting_list].put(squashed_pages)))] *)
Fixpoint squash_loop (fuel n : nat) (squashed_pages putting_list : Z) : buddy_prog unit :=
  match n with
  | O => no_fuel
  | S n =>
      squashed_pages ← on_list putting_list (FreeList_put fuel squashed_pages);
      if squashed_pages =? nullptr then mret tt
      else squash_loop fuel n squashed_pages (u32 (putting_list + 1))
  end.

Definition bad_page_address (p : Z) : bool := negb (Z.land p (Z.shiftl 1 12 - 1) =? 0).

(** [while (blk.size)] of [put]. *)
Fixpoint put_loop (fuel n : nat) (blk : pblk_t) : buddy_prog unit :=
  match n with
  | O => no_fuel
  | S n =>
      if blk_size blk =? 0 then mret tt
      else
        block_order ← lift_outcome (compute_order blk);
        if bad_page_address (blk_ptr blk) then panic "bad page addr in while!"
        else
        squashed_pages ← on_list block_order (FreeList_put fuel (blk_ptr blk));
        (if squashed_pages =? nullptr then mret tt
         else squash_loop fuel 12 squashed_pages (u32 (block_order + 1))) ;;
        let block_size := Z.shiftl 1 block_order in
        put_loop fuel n
          (mkPblk (frame_add (blk_ptr blk) block_size) (u32 (blk_size blk - block_size)))
  end.

Definition BuddyAllocator_put (fuel : nat) (blk : pblk_t) : buddy_prog unit :=
  if blk_size blk =? 0 then mret tt
  else if bad_page_address (blk_ptr blk) then panic "put"
  else
    modify (λ s, (s.1, mkBuddy (allocations s.2) (u32 (deallocations s.2 + 1))
                         (free_list_ s.2) (region_ s.2))) ;;
    put_loop fuel fuel blk.

(** ** [get] *)

(** [while (pages > (size_t(1) << order)) ++order;] *)
Fixpoint order_for_pages (n : nat) (pages order : Z) : outcome Z :=
  match n with
  | O => Fuel
  | S n =>
      if 32 <=? order then Fault "shift out of range"
      else if Z.shiftl 1 order <? pages then order_for_pages n pages (order + 1)
      else Done order
  end.

(** The search for a list that still has a block: [(blk.ptr, order)]. *)
Fixpoint search_loop (fuel n : nat) (order : Z) : buddy_prog (Z * Z) :=
  match n with
  | O => no_fuel
  | S n =>
      if order <=? MAX_ORDER then
        ptr ← on_list order (FreeList_get fuel);
        if negb (ptr =? nullptr) then mret (ptr, order)
        else search_loop fuel n (order + 1)
      else mret (nullptr, order)
  end.

Definition BuddyAllocator_get (fuel : nat) (pages : Z) : buddy_prog pblk_t :=
  modify (λ s, (s.1, mkBuddy (u32 (allocations s.2 + 1)) (deallocations s.2)
                       (free_list_ s.2) (region_ s.2))) ;;
  order ← lift_outcome (order_for_pages 33 pages 0);
  if MAX_ORDER <? order then mret (mkPblk nullptr 0)
  else
    found ← search_loop fuel 12 order;
    let '(ptr, order) := found in
    if ptr =? nullptr then mret (mkPblk nullptr 0)
    else
      let extra_memory := mkPblk (frame_add ptr pages) (u32 (Z.shiftl 1 order - pages)) in
      (if negb (blk_size extra_memory =? 0) then BuddyAllocator_put fuel extra_memory
       else mret tt) ;;
      mret (mkPblk ptr pages).

(** * Verification *)

(** ** Families of free blocks

    [ls i] is the list of free blocks of order [i], for [i ≤ 10]. *)
Definition bsize (i : nat) : Z := block_size (Z.of_nat i).

(** The bytes that belong to some free block. *)
Definition owned (ls : nat → list Z) (a : Z) : Prop :=
  ∃ i b, (i ≤ 10)%nat ∧ b ∈ ls i ∧ in_block a b (bsize i).

(** Aligned, pairwise disjoint, and fully merged: no block lies beside its
    buddy, except at the top order. *)
Record wf (ls : nat → list Z) : Prop := {
  wf_blocks : ∀ i, (i ≤ 10)%nat → Forall (block_ok (Z.of_nat i)) (ls i);
  wf_disjoint : ∀ i j b c a, (i ≤ 10)%nat → (j ≤ 10)%nat → b ∈ ls i → c ∈ ls j →
    in_block a b (bsize i) → in_block a c (bsize j) → i = j ∧ b = c;
  wf_merged : ∀ i b, (i < 10)%nat → b ∈ ls i → buddy_of (Z.of_nat i) b ∉ ls i
}.

(** The abstract effect of releasing one aligned block. *)
Definition adds (ls ls' : nat → list Z) (P : Z → Prop) : Prop :=
  ∀ a, owned ls' a ↔ owned ls a ∨ P a.

Lemma adds_nothing ls P : (∀ a, ¬ P a) → adds ls ls P.
Proof. intros H a. specialize (H a). tauto. Qed.

(** ** Geometry *)
Lemma bsize_pos i : 0 < bsize i.
Proof. unfold bsize, block_size, PAGE_SIZE. pose proof (pow2_pos (Z.of_nat i)). lia. Qed.

Lemma bsize_ge i : PAGE_SIZE ≤ bsize i.
Proof. unfold bsize, block_size, PAGE_SIZE. pose proof (pow2_pos (Z.of_nat i)). lia. Qed.

Lemma in_block_self i b : in_block b b (bsize i).
Proof. pose proof (bsize_pos i). lia. Qed.

Lemma buddy_of_invol o f : 0 ≤ o ≤ MAX_ORDER → f mod block_size o = 0 →
  buddy_of o (buddy_of o f) = f.
Proof.
  intros Ho Hf. unfold buddy_of.
  repeat case_match; rewrite ?Z.eqb_eq, ?Z.eqb_neq in *; block_arith o.
Qed.

Lemma buddy_of_ne o f : 0 ≤ o ≤ MAX_ORDER → buddy_of o f ≠ f.
Proof.
  intros Ho. destruct (buddy_range o f Ho) as [->| ->]; unfold block_size, PAGE_SIZE;
    pose proof (pow2_pos o); lia.
Qed.

Lemma merge_block o f : 0 ≤ o < MAX_ORDER → block_ok o f → block_ok o (buddy_of o f) →
  block_ok (o + 1) (f `min` buddy_of o f) ∧
  ∀ a, in_block a (f `min` buddy_of o f) (block_size (o + 1)) ↔
       in_block a f (block_size o) ∨ in_block a (buddy_of o f) (block_size o).
Proof.
  intros Ho Hf. unfold buddy_of.
  destruct (Z.eqb_spec (f mod block_size (o + 1)) 0); intros Hb;
    (split; [|intros a]); block_arith o.
Qed.

(** ** One [put] on the family *)
Section SpecPut.
Context (ls : nat → list Z) (i : nat) (f : Z).
Context (Hwf : wf ls) (Hi : (i ≤ 10)%nat) (Hf : block_ok (Z.of_nat i) f).
Context (Hfresh : ∀ a, in_block a f (bsize i) → ¬ owned ls a).

Lemma fresh_not_elem : f ∉ ls i.
Proof. intros H. apply (Hfresh f (in_block_self i f)). exists i, f. eauto using in_block_self. Qed.

Lemma fresh_apart j b a : (j ≤ 10)%nat → b ∈ ls j → in_block a b (bsize j) →
  in_block a f (bsize i) → False.
Proof. intros Hj Hb Ha Haf. apply (Hfresh a Haf). by exists j, b. Qed.

Lemma wf_remove x : x ∈ ls i → wf (<[i := filter (λ y, y ≠ x) (ls i)]> ls).
Proof.
  intros Hx. set (ls' := <[i := _]> ls).
  assert (Hsub : ∀ j b, b ∈ ls' j → b ∈ ls j).
  { intros j b. unfold ls'. destruct (decide (j = i)) as [->|];
      rewrite ?fn_lookup_insert, ?fn_lookup_insert_ne by done; [|done].
    by intros [_ ?]%list_elem_of_filter. }
  split.
  - intros j Hj. rewrite Forall_forall. intros b Hb%Hsub.
    pose proof (wf_blocks _ Hwf j Hj) as H. rewrite Forall_forall in H. auto.
  - intros j k b c a Hj Hk Hb%Hsub Hc%Hsub. by apply (wf_disjoint _ Hwf).
  - intros j b Hj Hb%Hsub Hc%Hsub. by apply (wf_merged _ Hwf j b).
Qed.

Lemma owned_remove x : x ∈ ls i → ∀ a,
  owned ls a ↔ owned (<[i := filter (λ y, y ≠ x) (ls i)]> ls) a ∨ in_block a x (bsize i).
Proof.
  intros Hx a. split.
  - intros (j & b & Hj & Hb & Ha). destruct (decide (j = i ∧ b = x)) as [[-> ->]|Hne];
      [by right|left]. exists j, b. split_and!; [done| |tauto..].
    destruct (decide (j = i)) as [->|]; rewrite ?fn_lookup_insert, ?fn_lookup_insert_ne by done;
      [|done]. apply list_elem_of_filter. split; [|done]. intros ->. tauto.
  - intros [(j & b & Hj & Hb & Ha)|Ha]; [|by exists i, x].
    exists j, b. split_and!; [done| |tauto..]. revert Hb.
    destruct (decide (j = i)) as [->|]; rewrite ?fn_lookup_insert, ?fn_lookup_insert_ne by done;
      [|done]. by intros [_ ?]%list_elem_of_filter.
Qed.

Lemma remove_disjoint x a : x ∈ ls i → in_block a x (bsize i) →
  ¬ owned (<[i := filter (λ y, y ≠ x) (ls i)]> ls) a.
Proof.
  intros Hx Ha (j & b & Hj & Hb & Hab).
  destruct (decide (j = i)) as [->|Hne].
  - rewrite fn_lookup_insert in Hb. apply list_elem_of_filter in Hb as [Hbx Hb].
    destruct (wf_disjoint _ Hwf i i b x a); auto.
  - rewrite fn_lookup_insert_ne in Hb by done.
    destruct (wf_disjoint _ Hwf j i b x a); auto.
Qed.

Lemma elem_insert j b :
  b ∈ (<[i := insert_block f (ls i)]> ls) j ↔ b ∈ ls j ∨ (j = i ∧ b = f).
Proof.
  destruct (decide (j = i)) as [->|]; rewrite ?fn_lookup_insert, ?fn_lookup_insert_ne by done.
  - rewrite elem_of_insert_block. tauto.
  - tauto.
Qed.

Lemma wf_insert : (i = 10%nat ∨ buddy_of (Z.of_nat i) f ∉ ls i) →
  wf (<[i := insert_block f (ls i)]> ls).
Proof.
  intros Hb. split.
  - intros j Hj. rewrite Forall_forall. intros b [H|[-> ->]]%elem_insert; [|done].
    pose proof (wf_blocks _ Hwf j Hj) as H'. rewrite Forall_forall in H'. auto.
  - intros j k b c a Hj Hk [H1|[-> ->]]%elem_insert [H2|[-> ->]]%elem_insert Ha1 Ha2.
    + by apply (wf_disjoint _ Hwf j k b c a).
    + by destruct (fresh_apart j b a).
    + by destruct (fresh_apart k c a).
    + done.
  - intros j b Hj [H1|[-> ->]]%elem_insert [H2|[Ej E]]%elem_insert.
    + by apply (wf_merged _ Hwf j b).
    + subst j. destruct Hb as [->|Hb]; [lia|]. apply Hb.
      rewrite <- E, buddy_of_invol; [done|unfold MAX_ORDER; lia|].
      pose proof (wf_blocks _ Hwf i Hi) as H. rewrite Forall_forall in H. by apply H.
    + destruct Hb as [->|Hb]; [lia|]. by apply Hb.
    + revert E. apply buddy_of_ne. unfold MAX_ORDER. lia.
Qed.

Lemma adds_insert : adds ls (<[i := insert_block f (ls i)]> ls) (λ a, in_block a f (bsize i)).
Proof.
  intros a. split.
  - intros (j & b & Hj & [H|[-> ->]]%elem_insert & Ha); [left|by right]. by exists j, b.
  - intros [(j & b & Hj & H & Ha)|Ha].
    + exists j, b. rewrite elem_insert. auto.
    + exists i, f. rewrite elem_insert. auto.
Qed.

(** A [put] either inserts the block, or takes its buddy out and hands the
    merged block of the next order on. *)
Lemma spec_put_step r l' :
  spec_put (bool_decide (i = 10%nat)) (Z.of_nat i) f (ls i) = (r, l') →
  wf (<[i := l']> ls) ∧
  ((r = nullptr ∧ adds ls (<[i := l']> ls) (λ a, in_block a f (bsize i))) ∨
   ((i < 10)%nat ∧ block_ok (Z.of_nat (S i)) r ∧
    (∀ a, in_block a r (bsize (S i)) → ¬ owned (<[i := l']> ls) a) ∧
    ∀ a, owned (<[i := l']> ls) a ∨ in_block a r (bsize (S i))
         ↔ owned ls a ∨ in_block a f (bsize i))).
Proof.
  unfold spec_put. destruct (negb _ && _) eqn:E; intros [= <- <-].
  - apply andb_true_iff in E as [Hn%negb_true_iff%bool_decide_eq_false Hb%bool_decide_eq_true].
    split; [by apply wf_remove|right]. assert (Hlt : (i < 10)%nat) by lia.
    pose proof (wf_blocks _ Hwf i Hi) as Hbk. rewrite Forall_forall in Hbk.
    destruct (merge_block (Z.of_nat i) f) as [Hm1 Hm2];
      [unfold MAX_ORDER; lia|done|by apply Hbk|].
    replace (Z.of_nat i + 1) with (Z.of_nat (S i)) in * by lia.
    split_and!; [done|done| |].
    + intros a [Ha|Ha]%Hm2; [|by apply remove_disjoint]. intros Ho. apply (Hfresh a Ha).
      apply (owned_remove _ Hb a). by left.
    + intros a. rewrite (owned_remove _ Hb a). specialize (Hm2 a). unfold bsize in *. tauto.
  - split.
    + apply wf_insert. apply andb_false_iff in E as [E%negb_false_iff%bool_decide_eq_true|
        E%bool_decide_eq_false]; auto.
    + left. split; [done|]. apply adds_insert.
Qed.
End SpecPut.

(** ** The allocator represents a family *)
Record Buddy_rep (m : mem) (b : BuddyAllocator) (ls : nat → list Z) : Prop := {
  brep_length : length (free_list_ b) = 11%nat;
  brep_lists : ∀ i, (i ≤ 10)%nat → ∃ fl, free_list_ b !! i = Some fl ∧
    FreeList_rep m fl (ls i) ∧ order_ fl = Z.of_nat i ∧
    disable_squashing_ fl = bool_decide (i = 10%nat)
}.

(** Nothing but the free lists changed in the object. *)
Definition same_header (b b' : BuddyAllocator) : Prop :=
  allocations b' = allocations b ∧ deallocations b' = deallocations b ∧ region_ b' = region_ b.

(** Memory is unchanged where [P] does not hold. *)
Definition unchanged (P : Z → Prop) (m m' : mem) : Prop :=
  ∀ a, ¬ P a → load8 m' a = load8 m a.

Lemma unchanged_refl P m : unchanged P m m.
Proof. by intros a. Qed.

Lemma unchanged_trans (P Q R : Z → Prop) m1 m2 m3 :
  (∀ a, P a → R a) → (∀ a, Q a → R a) →
  unchanged P m1 m2 → unchanged Q m2 m3 → unchanged R m1 m3.
Proof. intros HP HQ H1 H2 a Ha. rewrite (H2 a), (H1 a); auto. Qed.

Lemma same_header_trans b1 b2 b3 : same_header b1 b2 → same_header b2 b3 → same_header b1 b3.
Proof. unfold same_header. intuition congruence. Qed.

(** A change confined to the links of one list and a fresh block. *)
Lemma same_outside_unchanged ws m m' (P : Z → Prop) :
  same_outside ws m m' → (∀ w a, w ∈ ws → in_block a w 4 → P a) → unchanged P m m'.
Proof. intros H HP a Ha. apply H. intros w Hw Hin. eauto. Qed.

Lemma Buddy_rep_other m m' b ls i fl' l' ws :
  Buddy_rep m b ls → wf ls → (i ≤ 10)%nat → same_outside ws m m' → Forall node_ok ws →
  (∀ j x, (j ≤ 10)%nat → j ≠ i → x ∈ ls j → x ∉ ws) →
  FreeList_rep m' fl' l' → order_ fl' = Z.of_nat i →
  disable_squashing_ fl' = bool_decide (i = 10%nat) →
  Buddy_rep m' (set_free_list (<[i := fl']> (free_list_ b)) b) (<[i := l']> ls).
Proof.
  intros [Hlen Hls] Hwf Hi Hs Hws Hdisj Hrep' Ho' Hd'. split; simpl.
  { by rewrite length_insert. }
  intros j Hj. destruct (decide (j = i)) as [->|Hne].
  - exists fl'. rewrite list_lookup_insert_eq by lia. rewrite fn_lookup_insert. done.
  - destruct (Hls j Hj) as (fl & Hlk & Hr & Ho & Hd). exists fl.
    rewrite list_lookup_insert_ne, fn_lookup_insert_ne by done. split_and!; try done.
    destruct Hr as [Hc ? ?]. split; [|done..]. apply (lseg_same ws m m'); eauto.
Qed.

(** ** One [put] on the representation *)
Lemma on_list_put fuel m b ls i f :
  Buddy_rep m b ls → wf ls → (i ≤ 10)%nat → block_ok (Z.of_nat i) f →
  (∀ a, in_block a f (bsize i) → ¬ owned ls a) → 2 ^ 20 + 1 < Z.of_nat fuel →
  let '(r, l') := spec_put (bool_decide (i = 10%nat)) (Z.of_nat i) f (ls i) in
  ∃ m' b', on_list (Z.of_nat i) (FreeList_put fuel f) (m, b) = Done (r, (m', b')) ∧
    Buddy_rep m' b' (<[i := l']> ls) ∧ same_header b b' ∧
    unchanged (λ a, owned ls a ∨ in_block a f (bsize i)) m m'.
Proof.
  intros Hrep Hwf Hi Hf Hfresh Hfuel.
  destruct (brep_lists _ _ _ Hrep i Hi) as (fl & Hlk & Hr & Ho & Hd).
  pose proof (rep_bound _ _ _ Hr) as Hb.
  assert (Hfn : f ∉ ls i) by (by apply fresh_not_elem).
  assert (Hord : 0 ≤ order_ fl ≤ MAX_ORDER) by (rewrite Ho; unfold MAX_ORDER; lia).
  pose proof (FreeList_put_done fuel m fl (ls i) f Hord Hr) as W.
  rewrite Ho, Hd in W. specialize (W (wf_blocks _ Hwf i Hi) Hf Hfn ltac:(lia)).
  destruct (spec_put _ _ _ _) as [r l']. destruct W as (m' & fl' & W & Hr' & Hs & Ho' & Hd').
  eexists m', _. split_and!.
  - unfold on_list. simpl. rewrite Nat2Z.id, Hlk, W. done.
  - eapply Buddy_rep_other; [done..| | |done|done|done].
    + constructor; [|by eapply rep_nodes]. eapply block_ok_node, Hf.
      unfold MAX_ORDER. lia.
    + intros j x Hj Hne Hx [->|Hin]%elem_of_cons.
      * apply (Hfresh f (in_block_self i f)). exists j, f. eauto using in_block_self.
      * by destruct (wf_disjoint _ Hwf j i x x x) as [? _]; auto using in_block_self.
  - done.
  - eapply same_outside_unchanged; [done|]. intros w a [->|Hw]%elem_of_cons Ha.
    + right. pose proof (bsize_ge i). unfold PAGE_SIZE in *. lia.
    + left. exists i, w. split_and!; [done..| |]; pose proof (bsize_ge i);
        unfold PAGE_SIZE in *; lia.
Qed.

(** ** One [get] on the representation *)
Lemma Buddy_rep_ext m b ls ls' : (∀ j, ls' j = ls j) → Buddy_rep m b ls' → Buddy_rep m b ls.
Proof.
  intros He [H1 H2]. split; [done|]. intros i Hi. destruct (H2 i Hi) as (fl & ?).
  exists fl. by rewrite <- He.
Qed.

Lemma on_list_get fuel m b ls i :
  Buddy_rep m b ls → wf ls → (i ≤ 10)%nat → 2 ^ 20 + 1 < Z.of_nat fuel →
  ∃ m' b', on_list (Z.of_nat i) (FreeList_get fuel) (m, b)
           = Done (fst (spec_get (ls i)), (m', b')) ∧
    Buddy_rep m' b' (<[i := snd (spec_get (ls i))]> ls) ∧ same_header b b' ∧
    unchanged (owned ls) m m' ∧ (ls i = [] → unchanged (λ _, False) m m').
Proof.
  intros Hrep Hwf Hi Hfuel.
  destruct (brep_lists _ _ _ Hrep i Hi) as (fl & Hlk & Hr & Ho & Hd).
  pose proof (rep_bound _ _ _ Hr) as Hb.
  pose proof (FreeList_get_done fuel m fl (ls i) Hr ltac:(lia)) as W.
  destruct (spec_get _) as [r l'] eqn:E. cbn [fst snd].
  destruct W as (m' & fl' & W & Hr' & Hs & Ho' & Hd'). eexists m', _. split_and!.
  - unfold on_list. simpl. rewrite Nat2Z.id, Hlk, W. done.
  - eapply Buddy_rep_other; [done..|by eapply rep_nodes| |done|congruence|congruence].
    intros j x Hj Hne Hx Hin.
    by destruct (wf_disjoint _ Hwf j i x x x) as [? _]; auto using in_block_self.
  - done.
  - eapply same_outside_unchanged; [done|]. intros w a Hw Ha.
    exists i, w. pose proof (bsize_ge i). unfold PAGE_SIZE in *. split_and!; [done..|lia|lia].
  - intros En. rewrite En in Hs. eapply same_outside_unchanged; [done|].
    by intros w a Hw%elem_of_nil.
Qed.

(** ** Climbing the orders *)
Lemma squash_loop_done fuel n i f m b ls :
  Buddy_rep m b ls → wf ls → (i ≤ 10)%nat → (10 - i < n)%nat → block_ok (Z.of_nat i) f →
  (∀ a, in_block a f (bsize i) → ¬ owned ls a) → 2 ^ 20 + 1 < Z.of_nat fuel →
  ∃ m' b' ls', squash_loop fuel n f (Z.of_nat i) (m, b) = Done (tt, (m', b')) ∧
    Buddy_rep m' b' ls' ∧ wf ls' ∧ same_header b b' ∧
    adds ls ls' (λ a, in_block a f (bsize i)) ∧ unchanged (owned ls') m m'.
Proof.
  revert i f m b ls. induction n as [|n IH]; intros i f m b ls Hrep Hwf Hi Hn Hf Hfresh Hfuel;
    [lia|].
  pose proof (on_list_put fuel m b ls i f Hrep Hwf Hi Hf Hfresh Hfuel) as W.
  destruct (spec_put _ _ _ _) as [r l'] eqn:E. destruct W as (m1 & b1 & W & Hrep1 & Hh1 & Hu1).
  destruct (spec_put_step ls i f Hwf Hi Hf Hfresh r l' E) as [Hwf1 Hcase].
  cbn [squash_loop]. rewrite (bind_done _ _ _ _ _ W).
  destruct Hcase as [[-> Hadd]|(Hlt & Hr & Hfr & Hadd)].
  - exists m1, b1, (<[i := l']> ls). split_and!; [done..|].
    intros a Ha. apply Hu1. intros H. apply Ha, Hadd, H.
  - assert (Hne : r =? nullptr = false).
    { apply Z.eqb_neq. unfold nullptr, block_ok in *. lia. }
    rewrite Hne, u32_small by lia. replace (Z.of_nat i + 1) with (Z.of_nat (S i)) by lia.
    destruct (IH (S i) r m1 b1 _ Hrep1 Hwf1 ltac:(lia) ltac:(lia) Hr Hfr Hfuel)
      as (m2 & b2 & ls2 & W2 & Hrep2 & Hwf2 & Hh2 & Hadd2 & Hu2).
    assert (Hadd' : adds ls ls2 (λ a, in_block a f (bsize i))).
    { intros a. rewrite (Hadd2 a). apply Hadd. }
    exists m2, b2, ls2. split_and!; [done..|by eapply same_header_trans|done|].
    eapply unchanged_trans; [|done|exact Hu1|exact Hu2]. simpl. intros a Ha. by apply Hadd'.
Qed.

(** ** [compute_order] *)
Lemma order_by_address_spec n pn order : 0 ≤ pn → 0 ≤ order → Z.of_nat n + order = 11 →
  order ≤ 10 →
  let o := order_by_address n pn order in
  order ≤ o ≤ 10 ∧ pn mod 2 ^ (o - order) = 0 ∧ (o = 10 ∨ pn mod 2 ^ (o + 1 - order) ≠ 0).
Proof.
  revert pn order. induction n as [|n IH]; intros pn order Hpn Ho Hn Hle; [lia|].
  cbn [order_by_address]. change (Z.land pn 1) with (Z.land pn (Z.ones 1)).
  rewrite Z.land_ones by lia. change (2 ^ 1) with 2. unfold MAX_ORDER.
  destruct (Z.eqb_spec (pn mod 2) 0) as [E|E]; cbn [andb].
  2:{ split_and!; [lia..| |].
      - by rewrite Z.sub_diag, Z.mod_1_r.
      - right. by replace (order + 1 - order) with 1 by lia. }
  destruct (Z.ltb_spec order 10).
  2:{ split_and!; [lia..| |lia]. by rewrite Z.sub_diag, Z.mod_1_r. }
  rewrite Z.shiftr_div_pow2 by lia. change (2 ^ 1) with 2.
  destruct (IH (pn / 2) (order + 1)) as (H1 & H2 & H3); [Z.div_mod_to_equations; lia|lia..|].
  assert (Hstep : ∀ k, 0 ≤ k → pn mod 2 ^ (k + 1) = 2 * ((pn / 2) mod 2 ^ k)).
  { intros k Hk. pose proof (pow2_pos k Hk). rewrite Z.pow_add_r by lia.
    rewrite Z.mul_comm, Z.rem_mul_r by lia. change (2 ^ 1) with 2. lia. }
  set (o := order_by_address n (pn / 2) (order + 1)) in *. split_and!; [lia..| |].
  - replace (o - order) with (o - (order + 1) + 1) by lia. rewrite Hstep; lia.
  - destruct H3 as [|H3]; [by left|right].
    replace (o + 1 - order) with (o + 1 - (order + 1) + 1) by lia. rewrite Hstep; lia.
Qed.

Lemma order_by_size_spec n size order : 1 ≤ size → 0 ≤ order ≤ 10 → order < Z.of_nat n →
  ∃ o, order_by_size n size order = Done o ∧ 0 ≤ o ≤ order ∧ 2 ^ o ≤ size ∧
    (o = order ∨ size < 2 ^ (o + 1)).
Proof.
  revert order. induction n as [|n IH]; intros order Hs Ho Hn; [lia|].
  cbn [order_by_size]. destruct (Z.leb_spec 32 order); [lia|]. rewrite shiftl_1 by lia.
  destruct (Z.ltb_spec size (2 ^ order)) as [Hlt|Hge]; [|exists order; auto with lia].
  assert (order ≠ 0) by (intros ->; change (2 ^ 0) with 1 in *; lia).
  rewrite u32_small by lia. destruct (IH (order - 1)) as (o & E & H1 & H2 & H3); [lia..|].
  exists o. split_and!; [done|lia..|]. right. destruct H3 as [->|H3]; [|done].
  by replace (order - 1 + 1) with order by lia.
Qed.

Lemma page_mod_block ptr o : 0 ≤ o → ptr mod PAGE_SIZE = 0 →
  ptr mod block_size o = PAGE_SIZE * ((ptr / PAGE_SIZE) mod 2 ^ o).
Proof.
  intros Ho H. unfold block_size. pose proof (pow2_pos o Ho).
  rewrite Z.rem_mul_r by (unfold PAGE_SIZE; lia). lia.
Qed.

Lemma mod_pow2_le pn a b : 0 ≤ a ≤ b → pn mod 2 ^ b = 0 → pn mod 2 ^ a = 0.
Proof.
  intros Hab H. pose proof (pow2_pos a). pose proof (pow2_pos b).
  apply Z.mod_divide in H; [|lia]. apply Z.mod_divide; [lia|].
  eapply Z.divide_trans; [|done]. exists (2 ^ (b - a)).
  rewrite <- Z.pow_add_r by lia. f_equal. lia.
Qed.

Lemma compute_order_done ptr size : 0 ≤ ptr → ptr mod PAGE_SIZE = 0 → 1 ≤ size →
  ∃ o, compute_order (mkPblk ptr size) = Done o ∧
    0 ≤ o ≤ MAX_ORDER ∧ ptr mod block_size o = 0 ∧ 2 ^ o ≤ size ∧
    ∀ o', o < o' ≤ MAX_ORDER → ptr mod block_size o' = 0 → size < 2 ^ o'.
Proof.
  intros Hp Hal Hs. unfold compute_order; cbn [blk_ptr blk_size].
  assert (Hpn : 0 ≤ ptr / PAGE_SIZE) by (unfold PAGE_SIZE; Z.div_mod_to_equations; lia).
  destruct (order_by_address_spec 11 (ptr / PAGE_SIZE) 0) as (H1 & H2 & H3); [done|lia..|].
  set (oa := order_by_address 11 _ 0) in *. rewrite Z.sub_0_r in *.
  destruct (order_by_size_spec 12 size oa) as (o & E & Ho & Hos & Hmax); [done|lia..|].
  exists o. unfold MAX_ORDER. split_and!; [done|lia..| |done|].
  - rewrite page_mod_block by (done || lia). rewrite (mod_pow2_le _ o oa); [lia..|done].
  - intros o' Ho' Hal'. destruct (decide (o = oa)) as [->|].
    + destruct H3 as [|H3]; [lia|]. rewrite page_mod_block in Hal' by (done || lia).
      destruct H3. apply (mod_pow2_le _ (oa + 1) o'); [lia|]. unfold PAGE_SIZE in *; lia.
    + destruct Hmax as [|Hmax]; [done|]. eapply Z.lt_le_trans; [done|].
      apply Z.pow_le_mono_r; lia.
Qed.

(** ** [put]: the run of pages, block by block *)
Definition run_bytes (ptr size a : Z) : Prop := in_block a ptr (PAGE_SIZE * size).

Lemma bad_page_address_aligned p : p mod PAGE_SIZE = 0 → bad_page_address p = false.
Proof.
  intros Hp. unfold bad_page_address. change (Z.shiftl 1 12 - 1) with (Z.ones 12).
  rewrite Z.land_ones by lia. change (2 ^ 12) with PAGE_SIZE. by rewrite Hp.
Qed.

Lemma run_split ptr size next o a : 0 ≤ o → 2 ^ o ≤ size →
  (size - 2 ^ o = 0 ∨ next = ptr + block_size o) →
  run_bytes ptr size a ↔ in_block a ptr (block_size o) ∨ run_bytes next (size - 2 ^ o) a.
Proof.
  intros Ho Hle Hnext. pose proof (pow2_pos o Ho). unfold run_bytes, block_size, PAGE_SIZE in *.
  destruct Hnext as [Hz| ->]; [|lia]. rewrite Hz. replace (2 ^ o) with size by lia. lia.
Qed.

Lemma put_block_done fuel o f m b ls :
  Buddy_rep m b ls → wf ls → 0 ≤ o ≤ MAX_ORDER → block_ok o f →
  (∀ a, in_block a f (block_size o) → ¬ owned ls a) → 2 ^ 20 + 1 < Z.of_nat fuel →
  ∃ m' b' ls', (sq ← on_list o (FreeList_put fuel f);
                if sq =? nullptr then mret tt else squash_loop fuel 12 sq (u32 (o + 1))) (m, b)
               = Done (tt, (m', b')) ∧
    Buddy_rep m' b' ls' ∧ wf ls' ∧ same_header b b' ∧
    adds ls ls' (λ a, in_block a f (block_size o)) ∧ unchanged (owned ls') m m'.
Proof.
  intros Hrep Hwf Ho Hf Hfresh Hfuel.
  destruct (squash_loop_done fuel 13 (Z.to_nat o) f m b ls)
    as (m' & b' & ls' & W & Hrest); try done; rewrite ?Z2Nat.id by lia;
    [unfold MAX_ORDER in *; lia..|done| |].
  { unfold bsize. rewrite Z2Nat.id by lia. done. }
  unfold bsize in Hrest. rewrite Z2Nat.id in W, Hrest by lia. exists m', b', ls'. by rewrite <- W.
Qed.

Lemma put_loop_done fuel n m b ls ptr size :
  Buddy_rep m b ls → wf ls → 2 ^ 20 + 1 < Z.of_nat fuel → 0 ≤ size < Z.of_nat n →
  (size = 0 ∨ 0 < ptr ∧ ptr mod PAGE_SIZE = 0 ∧ ptr + PAGE_SIZE * size ≤ 2 ^ 32) →
  (∀ a, run_bytes ptr size a → ¬ owned ls a) →
  ∃ m' b' ls', put_loop fuel n (mkPblk ptr size) (m, b) = Done (tt, (m', b')) ∧
    Buddy_rep m' b' ls' ∧ wf ls' ∧ same_header b b' ∧
    adds ls ls' (run_bytes ptr size) ∧ unchanged (owned ls') m m'.
Proof.
  intros Hrep Hwf Hfuel. revert m b ls ptr size Hrep Hwf.
  induction n as [|n IH]; intros m b ls ptr size Hrep Hwf Hn Hok Hfresh; [lia|].
  cbn [put_loop blk_size blk_ptr]. destruct (Z.eqb_spec size 0) as [->|Hne].
  { exists m, b, ls. split_and!; try done. apply adds_nothing. unfold run_bytes. lia. }
  destruct Hok as [|(Hp & Hal & Hend)]; [done|].
  destruct (compute_order_done ptr size) as (o & Eo & Ho & Hmod & Hle & _); [lia|done|lia|].
  assert (Hpo := pow2_pos o ltac:(lia)).
  assert (Hbs : block_size o = PAGE_SIZE * 2 ^ o) by done.
  unfold lift_outcome at 1. rewrite Eo. rewrite (bind_done _ _ _ o (m, b)) by done.
  rewrite bad_page_address_aligned by done.
  rewrite shiftl_1 by lia. rewrite <- bind_bind.
  destruct (put_block_done fuel o ptr m b ls)
    as (m1 & b1 & ls1 & W1 & Hrep1 & Hwf1 & Hh1 & Hadd1 & Hu1); try done.
  { split_and!; [done..|]. rewrite Hbs. unfold PAGE_SIZE in *; lia. }
  { intros a Ha. apply Hfresh. unfold run_bytes. rewrite Hbs in Ha. unfold PAGE_SIZE in *; lia. }
  rewrite (bind_done _ _ _ _ _ W1). rewrite (u32_small (size - 2 ^ o)) by (unfold PAGE_SIZE in *; lia).
  assert (Hcut : size - 2 ^ o = 0 ∨ frame_add ptr (2 ^ o) = ptr + block_size o).
  { destruct (decide (size = 2 ^ o)); [left; lia|right]. rewrite Hbs. unfold frame_add, PAGE_SIZE in *.
    rewrite u32_small; lia. }
  assert (Hsplit := λ a, run_split ptr size _ o a ltac:(lia) Hle Hcut).
  destruct (IH m1 b1 ls1 (frame_add ptr (2 ^ o)) (size - 2 ^ o))
    as (m2 & b2 & ls2 & W2 & Hrep2 & Hwf2 & Hh2 & Hadd2 & Hu2); [done|done|lia| | |].
  { destruct Hcut as [|Hcut]; [by left|right]. rewrite Hcut, Hbs in *.
    split_and!; [unfold PAGE_SIZE in *; lia| |unfold PAGE_SIZE in *; lia].
    rewrite Z.mul_comm, Z.mod_add by done. done. }
  { intros a Ha Hin. pose proof (Hsplit a) as Hs. apply Hadd1 in Hin as [Hin|Hin].
    - apply (Hfresh a); tauto.
    - unfold run_bytes in Ha. destruct Hcut as [Hz|Hcut]; [rewrite Hz in Ha|]; lia. }
  assert (Hadd : adds ls ls2 (run_bytes ptr size)).
  { intros a. rewrite (Hadd2 a), (Hadd1 a), (Hsplit a). tauto. }
  exists m2, b2, ls2. split_and!; try done; [by eapply same_header_trans|].
  eapply unchanged_trans; [|done|exact Hu1|exact Hu2]. intros a Ha. apply Hadd2. by left.
Qed.

Lemma BuddyAllocator_put_done fuel m b ls ptr size :
  Buddy_rep m b ls → wf ls → 2 ^ 20 + 1 < Z.of_nat fuel →
  0 < size → 0 < ptr → ptr mod PAGE_SIZE = 0 → ptr + PAGE_SIZE * size ≤ 2 ^ 32 →
  (∀ a, run_bytes ptr size a → ¬ owned ls a) →
  ∃ m' b' ls', BuddyAllocator_put fuel (mkPblk ptr size) (m, b) = Done (tt, (m', b')) ∧
    Buddy_rep m' b' ls' ∧ wf ls' ∧
    allocations b' = allocations b ∧ deallocations b' = u32 (deallocations b + 1) ∧
    region_ b' = region_ b ∧
    adds ls ls' (run_bytes ptr size) ∧ unchanged (owned ls') m m'.
Proof.
  intros Hrep Hwf Hfuel Hs Hp Hal Hend Hfresh. unfold BuddyAllocator_put; cbn [blk_size blk_ptr].
  destruct (Z.eqb_spec size 0); [lia|]. rewrite bad_page_address_aligned by done.
  rewrite modify_bind. cbn [fst snd].
  destruct (put_loop_done fuel fuel m (mkBuddy (allocations b) (u32 (deallocations b + 1))
    (free_list_ b) (region_ b)) ls ptr size) as (m' & b' & ls' & W & Hrep' & Hwf' & Hh & H1 & H2);
    try done; [by destruct Hrep|unfold PAGE_SIZE in *; lia|by right|].
  destruct Hh as (? & ? & ?). exists m', b', ls'. done.
Qed.

(** ** [get] *)
Lemma order_for_pages_spec n pages order : 0 ≤ order → Z.of_nat n + order = 33 →
  pages ≤ 2 ^ 31 → order ≤ 31 → (order = 0 ∨ 2 ^ (order - 1) < pages) →
  ∃ o, order_for_pages n pages order = Done o ∧ order ≤ o ≤ 31 ∧ pages ≤ 2 ^ o ∧
    (o = 0 ∨ 2 ^ (o - 1) < pages).
Proof.
  revert order. induction n as [|n IH]; intros order Ho Hn Hp Hle Hlt; [lia|].
  cbn [order_for_pages]. destruct (Z.leb_spec 32 order); [lia|]. rewrite shiftl_1 by lia.
  destruct (Z.ltb_spec (2 ^ order) pages) as [H1|H1]; [|exists order; auto with lia].
  assert (order ≠ 31) by (intros ->; lia).
  destruct (IH (order + 1)) as (o & E & ? & ? & ?); [lia..| |].
  - right. by replace (order + 1 - 1) with order by lia.
  - exists o. split_and!; auto with lia.
Qed.

Lemma filter_head x l : StronglySorted Z.lt (x :: l) → filter (λ y, y ≠ x) (x :: l) = l.
Proof.
  intros Hs%StronglySorted_lt_NoDup. rewrite NoDup_cons in Hs. destruct Hs as [Hx _].
  rewrite filter_cons_False by tauto. revert Hx. induction l as [|y l IH]; intros Hx; [done|].
  rewrite not_elem_of_cons in Hx. rewrite filter_cons_True by naive_solver.
  f_equal. naive_solver.
Qed.

(** What the search finds: the head of the first non-empty list. *)
Lemma search_loop_done fuel n i m b ls :
  Buddy_rep m b ls → wf ls → 2 ^ 20 + 1 < Z.of_nat fuel → (i ≤ 11)%nat → (11 - i < n)%nat →
  (∃ j x l', (i ≤ j ≤ 10)%nat ∧ (∀ k, (i ≤ k < j)%nat → ls k = []) ∧ ls j = x :: l' ∧
     ∃ m' b', search_loop fuel n (Z.of_nat i) (m, b) = Done ((x, Z.of_nat j), (m', b')) ∧
       Buddy_rep m' b' (<[j := l']> ls) ∧ same_header b b' ∧ unchanged (owned ls) m m') ∨
  (∀ j, (i ≤ j ≤ 10)%nat → ls j = []) ∧
     ∃ m' b', search_loop fuel n (Z.of_nat i) (m, b) = Done ((nullptr, 11), (m', b')) ∧
       Buddy_rep m' b' ls ∧ same_header b b' ∧ unchanged (λ _, False) m m'.
Proof.
  revert i m b. induction n as [|n IH]; intros i m b Hrep Hwf Hfuel Hi Hn; [lia|].
  cbn [search_loop]. unfold MAX_ORDER. destruct (Z.leb_spec (Z.of_nat i) 10) as [Hle|Hgt].
  2:{ right. replace (Z.of_nat i) with 11 by lia. split; [lia|]. by exists m, b. }
  destruct (on_list_get fuel m b ls i Hrep Hwf ltac:(lia) Hfuel) as (m1 & b1 & W & Hrep1 & Hh1 & Hu1 & Hm).
  rewrite (bind_done _ _ _ _ _ W). destruct (ls i) as [|x l] eqn:E; cbn [spec_get fst snd] in *.
  - specialize (Hm eq_refl). replace (Z.of_nat i + 1) with (Z.of_nat (S i)) by lia.
    destruct (IH (S i) m1 b1) as [(j & y & l' & Hj & Hlow & Ej & m2 & b2 & W2 & Hrep2 & Hh2 & Hu2)|
      (Hnil & m2 & b2 & W2 & Hrep2 & Hh2 & Hu2)]; [|done|done|lia..| |].
    + eapply Buddy_rep_ext; [|done]. intros j. destruct (decide (j = i)) as [->|];
        rewrite ?fn_lookup_insert, ?fn_lookup_insert_ne by done; done.
    + left. exists j, y, l'. split_and!; [lia..| |done|].
      { intros k Hk. destruct (decide (k = i)) as [->|]; [done|]. apply Hlow. lia. }
      exists m2, b2.
      split_and!; [done..|by eapply same_header_trans|].
      eapply unchanged_trans; [..|exact Hm|exact Hu2]; tauto.
    + right. split; [|exists m2, b2; split_and!; [done..|by eapply same_header_trans|];
        eapply unchanged_trans; [..|exact Hm|exact Hu2]; tauto].
      intros j Hj. destruct (decide (j = i)) as [->|]; [done|]. apply Hnil. lia.
  - left. exists i, x, l. split_and!; [lia..|done|]. exists m1, b1.
    assert (Hx : 0 < x).
    { pose proof (wf_blocks _ Hwf i ltac:(lia)) as H. rewrite E in H.
      apply Forall_cons_1 in H as [H _]. apply H. }
    destruct (Z.eqb_spec x nullptr); [unfold nullptr in *; lia|]. done.
Qed.

(** Taking the head of a list out of the family. *)
Lemma take_head m b ls j x l' : Buddy_rep m b ls → wf ls → (j ≤ 10)%nat → ls j = x :: l' →
  let ls1 := <[j := l']> ls in
  wf ls1 ∧ block_ok (Z.of_nat j) x ∧
  (∀ a, owned ls a ↔ owned ls1 a ∨ in_block a x (bsize j)) ∧
  (∀ a, in_block a x (bsize j) → ¬ owned ls1 a).
Proof.
  intros Hrep Hwf Hj E. destruct (brep_lists _ _ _ Hrep j Hj) as (fl & _ & [_ _ Hs] & _).
  rewrite E in Hs. pose proof (filter_head x l' Hs) as Hfl. rewrite <- E in Hfl.
  assert (Hx : x ∈ ls j) by (rewrite E; by left). cbv zeta. rewrite <- Hfl. split_and!.
  - by apply wf_remove.
  - pose proof (wf_blocks _ Hwf j Hj) as H. rewrite Forall_forall in H. auto.
  - by apply owned_remove.
  - intros a. by apply remove_disjoint.
Qed.

(** What a successful [get] promises: a page-aligned run carved out of the free
    memory, and nothing else. *)
Definition carved (ls ls' : nat → list Z) (p : pblk_t) : Prop :=
  0 < blk_ptr p ∧ blk_ptr p mod PAGE_SIZE = 0 ∧
  blk_ptr p + PAGE_SIZE * blk_size p ≤ 2 ^ 32 ∧
  (∀ a, owned ls a ↔ owned ls' a ∨ run_bytes (blk_ptr p) (blk_size p) a) ∧
  (∀ a, run_bytes (blk_ptr p) (blk_size p) a → ¬ owned ls' a).

Lemma block_ok_page j x : (j ≤ 10)%nat → block_ok (Z.of_nat j) x → x mod PAGE_SIZE = 0.
Proof.
  intros Hj (_ & Hmod & _). unfold block_size in Hmod.
  pose proof (pow2_pos (Z.of_nat j)). rewrite Z.rem_mul_r in Hmod by (unfold PAGE_SIZE; lia).
  pose proof (Z.mod_pos_bound x PAGE_SIZE eq_refl).
  pose proof (Z.mod_pos_bound (x / PAGE_SIZE) (2 ^ Z.of_nat j)). unfold PAGE_SIZE in *. lia.
Qed.

(** The tail of the found block goes back. *)
Lemma give_back_done fuel m b ls j x pages :
  Buddy_rep m b ls → wf ls → 2 ^ 20 + 1 < Z.of_nat fuel → (j ≤ 10)%nat →
  block_ok (Z.of_nat j) x → (∀ a, in_block a x (bsize j) → ¬ owned ls a) →
  0 ≤ pages ≤ 2 ^ Z.of_nat j →
  let extra := mkPblk (frame_add x pages) (u32 (Z.shiftl 1 (Z.of_nat j) - pages)) in
  ∃ m' b' ls', (if negb (blk_size extra =? 0) then BuddyAllocator_put fuel extra else mret tt) (m, b)
     = Done (tt, (m', b')) ∧
    Buddy_rep m' b' ls' ∧ wf ls' ∧ allocations b' = allocations b ∧ region_ b' = region_ b ∧
    adds ls ls' (λ a, in_block a x (bsize j) ∧ ¬ run_bytes x pages a) ∧ unchanged (owned ls') m m'.
Proof.
  intros Hrep Hwf Hfuel Hj Hx Hfresh Hp. cbv zeta; cbn [blk_size].
  pose proof (block_ok_page j x Hj Hx) as Hal. destruct Hx as (Hx & _ & Hend).
  assert (Hbs : bsize j = PAGE_SIZE * 2 ^ Z.of_nat j) by done.
  change (block_size (Z.of_nat j)) with (bsize j) in Hend. rewrite Hbs in *.
  rewrite shiftl_1 by lia. set (k := 2 ^ Z.of_nat j) in *.
  rewrite u32_small by (unfold PAGE_SIZE in *; lia).
  destruct (Z.eqb_spec (k - pages) 0) as [Hz|Hz]; cbn [negb].
  - exists m, b, ls. split_and!; try done. apply adds_nothing. unfold run_bytes.
    replace pages with k by lia. tauto.
  - rewrite frame_add_small by (unfold PAGE_SIZE in *; lia).
    destruct (BuddyAllocator_put_done fuel m b ls (x + PAGE_SIZE * pages) (k - pages))
      as (m' & b' & ls' & W & Hrep' & Hwf' & Ha & _ & Hr & Hadd & Hu);
      try done; [lia|unfold PAGE_SIZE in *; lia| |unfold PAGE_SIZE in *; lia| |].
    + by rewrite Z.mul_comm, Z.mod_add.
    + intros a Ha. apply Hfresh. unfold run_bytes, PAGE_SIZE in *. lia.
    + exists m', b', ls'. split_and!; try done. intros a. rewrite (Hadd a).
      unfold run_bytes, PAGE_SIZE.
      assert (in_block a (x + 4096 * pages) (4096 * (k - pages)) ↔
        in_block a x (4096 * k) ∧ ¬ in_block a x (4096 * pages)) by lia. tauto.
Qed.

(** The block that serves a request: the first one of the smallest order that is
    large enough and has blocks. *)
Definition best_fit (ls : nat → list Z) (pages x : Z) : Prop :=
  ∃ j, (j ≤ 10)%nat ∧ pages ≤ 2 ^ Z.of_nat j ∧ head (ls j) = Some x ∧
    ∀ i, (i < j)%nat → pages ≤ 2 ^ Z.of_nat i → ls i = [].

Lemma BuddyAllocator_get_at fuel m b ls pages :
  Buddy_rep m b ls → wf ls → 2 ^ 20 + 1 < Z.of_nat fuel → 0 ≤ pages ≤ 2 ^ 31 →
  ∃ p m' b' ls', BuddyAllocator_get fuel pages (m, b) = Done (p, (m', b')) ∧
    Buddy_rep m' b' ls' ∧ wf ls' ∧
    allocations b' = u32 (allocations b + 1) ∧ region_ b' = region_ b ∧
    ((p = mkPblk nullptr 0 ∧ ls' = ls ∧ unchanged (λ _, False) m m' ∧
      ∀ i, (i ≤ 10)%nat → pages ≤ 2 ^ Z.of_nat i → ls i = []) ∨
     (blk_size p = pages ∧ carved ls ls' p ∧ owned ls (blk_ptr p) ∧
      unchanged (owned ls) m m' ∧ best_fit ls pages (blk_ptr p))).
Proof.
  intros Hrep Hwf Hfuel Hp. unfold BuddyAllocator_get. rewrite modify_bind. cbn [fst snd].
  set (b0 := mkBuddy _ _ _ _).
  assert (Hrep0 : Buddy_rep m b0 ls) by (by destruct Hrep).
  destruct (order_for_pages_spec 33 pages 0) as (o & Eo & Ho & Hpo & Hmin); [lia..|by left|].
  unfold lift_outcome at 1. rewrite Eo, (bind_done _ _ _ o (m, b0)) by done. unfold MAX_ORDER.
  assert (Hsmall : ∀ i : nat, pages ≤ 2 ^ Z.of_nat i → o ≤ Z.of_nat i).
  { intros i Hi. destruct Hmin as [->|Hmin]; [lia|].
    assert (2 ^ (o - 1) < 2 ^ Z.of_nat i) as H%Z.pow_lt_mono_r_iff by lia; lia. }
  destruct (Z.ltb_spec 10 o) as [H10|H10].
  { exists (mkPblk nullptr 0), m, b0, ls. split_and!; try done. left. split_and!; try done.
    intros i Hi Hpi%Hsmall. lia. }
  destruct (search_loop_done fuel 12 (Z.to_nat o) m b0 ls) as
    [(j & x & l' & Hj & Hlow & Ej & m1 & b1 & W & Hrep1 & (Ha1 & _ & Hr1) & Hu1)|
     (Hnil & m1 & b1 & W & Hrep1 & (Ha1 & _ & Hr1) & Hu1)]; try done; try lia;
    rewrite Z2Nat.id in W by lia; rewrite (bind_done _ _ _ _ _ W).
  2:{ exists (mkPblk nullptr 0), m1, b1, ls. split_and!; try done. left. split_and!; try done.
      intros i Hi Hpi%Hsmall. apply Hnil. lia. }
  destruct (take_head m b ls j x l' Hrep Hwf ltac:(lia) Ej) as (Hwf1 & Hx & Hown & Hdis).
  destruct (Z.eqb_spec x nullptr) as [->|_]; [by destruct Hx|].
  assert (Hpj : pages ≤ 2 ^ Z.of_nat j).
  { etrans; [exact Hpo|]. apply Z.pow_le_mono_r; lia. }
  destruct (give_back_done fuel m1 b1 _ j x pages Hrep1 Hwf1 Hfuel ltac:(lia) Hx Hdis ltac:(lia))
    as (m2 & b2 & ls2 & W2 & Hrep2 & Hwf2 & Ha2 & Hr2 & Hadd2 & Hu2).
  rewrite (bind_done _ _ _ _ _ W2). exists (mkPblk x pages), m2, b2, ls2.
  pose proof (block_ok_page j x ltac:(lia) Hx) as Hal. destruct Hx as (Hx & _ & Hend).
  assert (Hin : ∀ a, run_bytes x pages a → in_block a x (bsize j)).
  { intros a. unfold run_bytes, bsize, block_size. unfold PAGE_SIZE. lia. }
  split_and!; [done..|by rewrite Ha2, Ha1|by rewrite Hr2, Hr1|]. right.
  split; [done|split; [|split; [apply Hown; right; apply in_block_self|split]]].
  3:{ exists j. split_and!; [lia|done|by rewrite Ej|]. intros i Hi Hpi%Hsmall. apply Hlow. lia. }
  2:{ eapply (unchanged_trans (owned ls) (owned ls2)); [done| |done|done].
      intros a Ha. apply Hown. apply Hadd2 in Ha. tauto. }
  unfold carved; cbn [blk_ptr blk_size]. split_and!; [done..| | |].
  - unfold block_size, PAGE_SIZE in *. lia.
  - intros a. rewrite (Hown a), (Hadd2 a). specialize (Hin a).
    destruct (decide (run_bytes x pages a)); tauto.
  - intros a Ha [H|[_ H]]%Hadd2; [|done]. by apply (Hdis a); auto.
Qed.

Lemma BuddyAllocator_get_done fuel m b ls pages :
  Buddy_rep m b ls → wf ls → 2 ^ 20 + 1 < Z.of_nat fuel → 0 ≤ pages ≤ 2 ^ 31 →
  ∃ p m' b' ls', BuddyAllocator_get fuel pages (m, b) = Done (p, (m', b')) ∧
    Buddy_rep m' b' ls' ∧ wf ls' ∧
    allocations b' = u32 (allocations b + 1) ∧ region_ b' = region_ b ∧
    ((p = mkPblk nullptr 0 ∧ ls' = ls ∧ unchanged (λ _, False) m m' ∧
      ∀ i, (i ≤ 10)%nat → pages ≤ 2 ^ Z.of_nat i → ls i = []) ∨
     (blk_size p = pages ∧ carved ls ls' p ∧ owned ls (blk_ptr p) ∧
      unchanged (owned ls) m m')).
Proof. intros H1 H2 H3 H4. destruct (BuddyAllocator_get_at fuel m b ls pages H1 H2 H3 H4) as (p & m' & b' & ls' & ?). exists p, m', b', ls'. tauto. Qed.

(** The representation reads nothing but the links in the free blocks. *)
Lemma Buddy_rep_same_owned m m' b ls : wf ls → (∀ a, owned ls a → load8 m' a = load8 m a) →
  Buddy_rep m b ls → Buddy_rep m' b ls.
Proof.
  intros Hwf Hm [Hlen Hls]. split; [done|]. intros i Hi.
  destruct (Hls i Hi) as (fl & Hlk & [Hc Hit Hs] & Ho & Hd). exists fl. split_and!; try done.
  split; [|done..]. apply (lseg_ext m m'); [|done]. intros x Hx. unfold load32.
  assert (Hin : ∀ k, 0 ≤ k < 4 → load8 m' (x + k) = load8 m (x + k)).
  { intros k Hk. apply Hm. exists i, x. pose proof (bsize_ge i). unfold PAGE_SIZE in *.
    split_and!; [done..|lia|lia]. }
  rewrite <- (Z.add_0_r x) at 1 5. rewrite !Hin by lia. by rewrite Z.add_0_r.
Qed.

(** ** [initialize] *)
Lemma wf_empty : wf (λ _, []).
Proof.
  split; [by constructor|..].
  - intros i j b c a _ _ Hb. by apply elem_of_nil in Hb.
  - intros i b _ Hb. by apply elem_of_nil in Hb.
Qed.

(** Eleven empty lists; only the last never merges. *)
Definition empty_lists : list FreeList :=
  map (λ i, mkFreeList 0 nullptr i (i =? MAX_ORDER)) [0; 1; 2; 3; 4; 5; 6; 7; 8; 9; 10].

Lemma BuddyAllocator_initialize_done fuel region m :
  BuddyAllocator_initialize (S fuel) region (m, BuddyAllocator_default)
    = Done (tt, (m, mkBuddy 0 0 empty_lists (Some region))).
Proof. vm_compute. reflexivity. Qed.

Lemma empty_lists_rep m al de r : Buddy_rep m (mkBuddy al de empty_lists r) (λ _, []).
Proof.
  split; [done|]. intros i Hi.
  do 11 (destruct i as [|i]; [eexists; split_and!; [done| |done..];
    split; [done|done|constructor]|]). lia.
Qed.

(** * Properties *)

(** C2: [put] releases exactly the run it is given.  On an allocator that
    represents a well-formed family of free blocks, for a page-aligned run of
    [size] pages that is disjoint from the free memory, it terminates, the free
    bytes become the old ones and the bytes of the run, the family is again
    aligned, disjoint and fully merged, and memory that is not free afterwards
    keeps its contents. *)
Theorem buddy_put_correct fuel m b ls ptr size
    (Hrep : Buddy_rep m b ls) (Hwf : wf ls) (Hfuel : 2 ^ 20 + 1 < Z.of_nat fuel)
    (Hrun : 0 < size ∧ 0 < ptr ∧ ptr mod PAGE_SIZE = 0 ∧ ptr + PAGE_SIZE * size ≤ 2 ^ 32)
    (Hfresh : ∀ a, run_bytes ptr size a → ¬ owned ls a) :
  ∃ m' b' ls', BuddyAllocator_put fuel (mkPblk ptr size) (m, b) = Done (tt, (m', b')) ∧
    Buddy_rep m' b' ls' ∧ wf ls' ∧ deallocations b' = u32 (deallocations b + 1) ∧
    (∀ a, owned ls' a ↔ owned ls a ∨ run_bytes ptr size a) ∧
    (∀ a, ¬ owned ls' a → load8 m' a = load8 m a).
Proof.
  destruct Hrun as (Hs & Hp & Hal & Hend).
  destruct (BuddyAllocator_put_done fuel m b ls ptr size) as
    (m' & b' & ls' & W & H1 & H2 & _ & H3 & _ & H4 & H5); try done.
  by exists m', b', ls'.
Qed.

(** C3: [get] carves the run it returns out of the free memory.  For a request
    of 1 to [2^31] pages it terminates.  When no free block has as many pages it
    returns null and the free family is as before; when some free block has, it
    returns a page-aligned run of exactly that many pages at the start of a free
    block of the smallest sufficient order, the free bytes split into that run
    and the new free bytes, and the two are disjoint.  Only free memory is
    written. *)
Theorem buddy_get_correct fuel m b ls pages
    (Hrep : Buddy_rep m b ls) (Hwf : wf ls) (Hfuel : 2 ^ 20 + 1 < Z.of_nat fuel)
    (Hpages : 1 ≤ pages ≤ 2 ^ 31) :
  ∃ p m' b' ls', BuddyAllocator_get fuel pages (m, b) = Done (p, (m', b')) ∧
    Buddy_rep m' b' ls' ∧ wf ls' ∧ allocations b' = u32 (allocations b + 1) ∧
    (((∀ i, (i ≤ 10)%nat → pages ≤ 2 ^ Z.of_nat i → ls i = []) →
      p = mkPblk nullptr 0 ∧ ls' = ls) ∧
     ((∃ i, (i ≤ 10)%nat ∧ pages ≤ 2 ^ Z.of_nat i ∧ ls i ≠ []) →
      blk_ptr p ≠ nullptr ∧ blk_size p = pages ∧ carved ls ls' p ∧
      best_fit ls pages (blk_ptr p))) ∧
    (∀ a, ¬ owned ls a → load8 m' a = load8 m a).
Proof.
  destruct (BuddyAllocator_get_at fuel m b ls pages) as
    (p & m' & b' & ls' & W & H1 & H2 & H3 & _ & H4); [done..|lia|].
  exists p, m', b', ls'. split_and!; try done.
  - intros Hnone. destruct H4 as [(? & ? & _)|(_ & _ & _ & _ & Hbf)]; [done|].
    destruct Hbf as (j & Hj & Hpj & Hin & _). by rewrite (Hnone j Hj Hpj) in Hin.
  - intros (i & Hi & Hpi & Hne). destruct H4 as [(_ & _ & _ & Hnil)|(Hsz & Hc & _ & _ & Hbf)].
    + by destruct Hne; apply Hnil.
    + pose proof Hc as (Hpos & _). split_and!; [unfold nullptr; lia|done..].
  - destruct H4 as [(_ & _ & Hu & _)|(_ & _ & _ & Hu & _)]; intros a Ha; apply Hu; tauto.
Qed.

(** C18: what [get] hands out can be given back: [put] of a run obtained by
    [get] succeeds and makes exactly the bytes free that were free before. *)
Theorem buddy_get_put fuel m b ls pages p m1 b1
    (Hrep : Buddy_rep m b ls) (Hwf : wf ls) (Hfuel : 2 ^ 20 + 1 < Z.of_nat fuel)
    (Hpages : 1 ≤ pages ≤ 2 ^ 31)
    (Hget : BuddyAllocator_get fuel pages (m, b) = Done (p, (m1, b1)))
    (Hp : blk_ptr p ≠ nullptr) :
  ∃ m2 b2 ls2, BuddyAllocator_put fuel p (m1, b1) = Done (tt, (m2, b2)) ∧
    Buddy_rep m2 b2 ls2 ∧ wf ls2 ∧ (∀ a, owned ls2 a ↔ owned ls a).
Proof.
  destruct (BuddyAllocator_get_done fuel m b ls pages) as
    (p' & m' & b' & ls' & W & H1 & H2 & _ & _ & H4); [done..|lia|].
  rewrite Hget in W. injection W as <- <- <-.
  destruct H4 as [(-> & _)|(Hsz & (Hpos & Hal & Hend & Hown & Hdis) & _)]; [done|].
  destruct p as [ptr size]; cbn [blk_ptr blk_size] in *. subst size.
  destruct (BuddyAllocator_put_done fuel m1 b1 ls' ptr pages) as
    (m2 & b2 & ls2 & W2 & Hrep2 & Hwf2 & _ & _ & _ & Hadd & _); try done; [lia|].
  exists m2, b2, ls2. split_and!; try done. intros a. by rewrite (Hadd a), (Hown a).
Qed.

(** [compute_order] picks the largest usable order: for a page-aligned run
    it terminates with an order in [0 .. MAX_ORDER] whose block fits into the run
    and is aligned at its address, and no larger order has both. *)
Theorem compute_order_maximal ptr size
    (Hptr : 0 ≤ ptr ∧ ptr mod PAGE_SIZE = 0) (Hsize : 1 ≤ size) :
  ∃ o, compute_order (mkPblk ptr size) = Done o ∧
    0 ≤ o ≤ MAX_ORDER ∧ ptr mod block_size o = 0 ∧ 2 ^ o ≤ size ∧
    (∀ o', o < o' ≤ MAX_ORDER → ptr mod block_size o' = 0 → size < 2 ^ o').
Proof. destruct Hptr. by apply compute_order_done. Qed.

(** [initialize] makes a default-constructed allocator an empty well-formed
    family over the given region, with squashing disabled at the top order only,
    and does not touch memory. *)
Theorem buddy_initialize_correct fuel region m :
  ∃ b', BuddyAllocator_initialize (S fuel) region (m, BuddyAllocator_default)
      = Done (tt, (m, b')) ∧
    Buddy_rep m b' (λ _, []) ∧ wf (λ _, []) ∧ (∀ a, ¬ owned (λ _, []) a) ∧
    result (BuddyAllocator_region (m, b')) = Some (Some region).
Proof.
  eexists. split; [apply BuddyAllocator_initialize_done|]. split_and!;
    [apply empty_lists_rep|apply wf_empty| |done].
  intros a (i & b & _ & Hb & _). by apply elem_of_nil in Hb.
Qed.

(** A request for no pages is not refused: while some block is free, [get(0)]
    returns the address of memory that is still free afterwards. *)
Theorem buddy_get_zero fuel m b ls i x
    (Hrep : Buddy_rep m b ls) (Hwf : wf ls) (Hfuel : 2 ^ 20 + 1 < Z.of_nat fuel)
    (Hi : (i ≤ 10)%nat) (Hx : x ∈ ls i) :
  ∃ p m' b' ls', BuddyAllocator_get fuel 0 (m, b) = Done (p, (m', b')) ∧
    Buddy_rep m' b' ls' ∧ blk_size p = 0 ∧ blk_ptr p ≠ nullptr ∧ owned ls' (blk_ptr p).
Proof.
  destruct (BuddyAllocator_get_done fuel m b ls 0) as
    (p & m' & b' & ls' & W & H1 & _ & _ & _ & H4); [done..|].
  exists p, m', b', ls'. destruct H4 as [(_ & _ & _ & Hnil)|(Hsz & (Hpos & _ & _ & Hown & _) & Hin & _)].
  - rewrite Hnil in Hx; [by apply elem_of_nil in Hx|done|]. apply Z.pow_nonneg. lia.
  - split_and!; try done; [unfold nullptr; lia|]. apply Hown in Hin as [|Hin]; [done|].
    unfold run_bytes in Hin. lia.
Qed.

(** [put] refuses an address that is not page-aligned. *)
Theorem buddy_put_unaligned fuel ptr size (s : mem * BuddyAllocator)
    (Hsize : size ≠ 0) (Hptr : ptr mod PAGE_SIZE ≠ 0) :
  BuddyAllocator_put fuel (mkPblk ptr size) s = Panic "put".
Proof.
  unfold BuddyAllocator_put; cbn [blk_size blk_ptr]. destruct (Z.eqb_spec size 0); [done|].
  unfold bad_page_address. change (Z.shiftl 1 12 - 1) with (Z.ones 12).
  rewrite Z.land_ones by lia. by destruct (Z.eqb_spec (ptr mod 2 ^ 12) 0).
Qed.

(** ** Witnesses *)
Definition example_fuel : nat := Z.to_nat (2 ^ 21).
Definition example_lists : nat → list Z := <[3%nat := [32768]]> (λ _, []).
Definition example_buddy : BuddyAllocator :=
  mkBuddy 0 0 (<[3%nat := mkFreeList 1 32768 3 false]> empty_lists) None.

Lemma example_fuel_enough : 2 ^ 20 + 1 < Z.of_nat example_fuel.
Proof. unfold example_fuel. rewrite Z2Nat.id; lia. Qed.

Lemma example_wf : wf example_lists.
Proof.
  apply (wf_insert (λ _, []) 3 32768); [apply wf_empty|lia|by split_and!| |].
  - intros a _ (i & b & _ & Hb & _). by apply elem_of_nil in Hb.
  - right. by intros H%elem_of_nil.
Qed.

Lemma example_rep : Buddy_rep ∅ example_buddy example_lists.
Proof.
  split; [done|]. intros i Hi.
  do 11 (destruct i as [|i]; [eexists; split_and!; [done| |done..]; split;
    [first [done|by split_and!]|done|repeat constructor]|]). lia.
Qed.

Lemma buddy_put_correct_witness :
  ∃ m' b' ls', BuddyAllocator_put example_fuel (mkPblk 65536 21) (∅, example_buddy)
      = Done (tt, (m', b')) ∧
    Buddy_rep m' b' ls' ∧ wf ls' ∧ deallocations b' = u32 (deallocations example_buddy + 1) ∧
    (∀ a, owned ls' a ↔ owned example_lists a ∨ run_bytes 65536 21 a) ∧
    (∀ a, ¬ owned ls' a → load8 m' a = load8 ∅ a).
Proof.
  apply buddy_put_correct;
    [apply example_rep|apply example_wf|apply example_fuel_enough|by split_and!|].
  intros a Ha (i & b & _ & Hb & Hin). unfold run_bytes in Ha. unfold example_lists in Hb.
  destruct (decide (i = 3%nat)) as [->|];
    rewrite ?fn_lookup_insert, ?fn_lookup_insert_ne in Hb by done.
  - apply list_elem_of_singleton in Hb as ->. change (bsize 3) with 32768 in Hin.
    unfold PAGE_SIZE in Ha. lia.
  - by apply elem_of_nil in Hb.
Defined.

Lemma buddy_get_correct_witness :
  ∃ p m' b' ls', BuddyAllocator_get example_fuel 3 (∅, example_buddy) = Done (p, (m', b')) ∧
    Buddy_rep m' b' ls' ∧ wf ls' ∧ allocations b' = u32 (allocations example_buddy + 1) ∧
    (((∀ i, (i ≤ 10)%nat → 3 ≤ 2 ^ Z.of_nat i → example_lists i = []) →
      p = mkPblk nullptr 0 ∧ ls' = example_lists) ∧
     ((∃ i, (i ≤ 10)%nat ∧ 3 ≤ 2 ^ Z.of_nat i ∧ example_lists i ≠ []) →
      blk_ptr p ≠ nullptr ∧ blk_size p = 3 ∧ carved example_lists ls' p ∧
      best_fit example_lists 3 (blk_ptr p))) ∧
    (∀ a, ¬ owned example_lists a → load8 m' a = load8 ∅ a).
Proof.
  apply buddy_get_correct;
    [apply example_rep|apply example_wf|apply example_fuel_enough|lia].
Defined.

Lemma buddy_get_put_witness :
  ∃ p m1 b1, BuddyAllocator_get example_fuel 3 (∅, example_buddy) = Done (p, (m1, b1)) ∧
  ∃ m2 b2 ls2, BuddyAllocator_put example_fuel p (m1, b1) = Done (tt, (m2, b2)) ∧
    Buddy_rep m2 b2 ls2 ∧ wf ls2 ∧ (∀ a, owned ls2 a ↔ owned example_lists a).
Proof.
  destruct (BuddyAllocator_get_done example_fuel ∅ example_buddy example_lists 3)
    as (p & m' & b' & ls' & W & _ & _ & _ & _ & H4);
    [apply example_rep|apply example_wf|apply example_fuel_enough|lia|].
  exists p, m', b'. split; [done|].
  apply (buddy_get_put example_fuel ∅ example_buddy example_lists 3 p m' b');
    [apply example_rep|apply example_wf|apply example_fuel_enough|lia|done|].
  destruct H4 as [(_ & _ & _ & Hnil)|(_ & (Hp & _) & _)]; [|unfold nullptr; lia].
  specialize (Hnil 3%nat ltac:(lia) ltac:(done)). done.
Defined.

Lemma compute_order_maximal_witness :
  ∃ o, compute_order (mkPblk 65536 21) = Done o ∧
    0 ≤ o ≤ MAX_ORDER ∧ 65536 mod block_size o = 0 ∧ 2 ^ o ≤ 21 ∧
    (∀ o', o < o' ≤ MAX_ORDER → 65536 mod block_size o' = 0 → 21 < 2 ^ o').
Proof. apply (compute_order_maximal 65536 21); [split; [lia|reflexivity]|lia]. Defined.

Lemma buddy_get_zero_witness :
  ∃ p m' b' ls', BuddyAllocator_get example_fuel 0 (∅, example_buddy) = Done (p, (m', b')) ∧
    Buddy_rep m' b' ls' ∧ blk_size p = 0 ∧ blk_ptr p ≠ nullptr ∧ owned ls' (blk_ptr p).
Proof.
  apply (buddy_get_zero example_fuel ∅ example_buddy example_lists 3 32768);
    [apply example_rep|apply example_wf|apply example_fuel_enough|lia|].
  apply list_elem_of_singleton. reflexivity.
Defined.

Lemma buddy_put_unaligned_witness :
  BuddyAllocator_put 5 (mkPblk 65537 21) (∅, example_buddy) = Panic "put".
Proof. apply buddy_put_unaligned; discriminate. Defined.
