(* ===== verification/BuddyCanon.v ===== *)
(** * The free memory determines the buddy system

    [memory/buddy_allocator.cpp] merges as soon as it can, so the blocks in its
    lists depend only on which bytes are free, not on the order in which runs were
    taken and released; and so do the answers of [get].  The self tests of the
    kernel ([SelfTest.v]) rely on it. *)
From stdpp Require Import base functions tactics numbers list gmap strings sorting.
From S2P Require Import Prelude MemUtils MemoryRegion FreeList Buddy.

(** ** Aligned blocks nest *)
Lemma bsize_S i : bsize (S i) = 2 * bsize i.
Proof. unfold bsize, block_size. rewrite Nat2Z.inj_succ, Z.pow_succ_r by lia. lia. Qed.

Lemma bsize_le i j : (i ≤ j)%nat → ∃ k, bsize j = k * bsize i ∧ 1 ≤ k.
Proof.
  intros Hij. induction Hij as [|j _ (k & E & Hk)]; [exists 1; lia|].
  exists (2 * k). rewrite bsize_S, E. lia.
Qed.

(** Two aligned blocks that share a byte: the larger contains the smaller. *)
Lemma blocks_nest i j x c a : (i ≤ j)%nat → x mod bsize i = 0 → c mod bsize j = 0 →
  in_block a x (bsize i) → in_block a c (bsize j) → c ≤ x ∧ x + bsize i ≤ c + bsize j.
Proof.
  intros Hij Hx Hc Ha Hb. destruct (bsize_le i j Hij) as (k & Ek & Hk). pose proof (bsize_pos i) as Hp.
  apply Z.mod_divide in Hx as [u ->]; [|lia]. apply Z.mod_divide in Hc as [v ->];
    [|pose proof (bsize_pos j); lia].
  rewrite Ek in *. set (s := bsize i) in *.
  assert (v * k ≤ u) by (assert (v * k < u + 1) by nia; lia).
  assert (u < (v + 1) * k) by nia. nia.
Qed.

Lemma wf_aligned ls i b : wf ls → (i ≤ 10)%nat → b ∈ ls i → block_ok (Z.of_nat i) b.
Proof. intros Hwf Hi Hb. pose proof (wf_blocks _ Hwf i Hi) as H. rewrite Forall_forall in H. auto. Qed.

(** An aligned block whose bytes are all free lies inside one free block. *)
Lemma free_block ls : wf ls → ∀ i x, (i ≤ 10)%nat → x mod bsize i = 0 →
  (∀ a, in_block a x (bsize i) → owned ls a) →
  ∃ j c, (i ≤ j ≤ 10)%nat ∧ c ∈ ls j ∧ c ≤ x ∧ x + bsize i ≤ c + bsize j.
Proof.
  intros Hwf i. induction i as [|i IH]; intros x Hi Hx Hown.
  { destruct (Hown x (in_block_self 0 x)) as (j & c & Hj & Hc & Ha). exists j, c.
    split; [lia|]. split; [done|]. destruct (wf_aligned ls j c Hwf Hj Hc) as (_ & Hal & _).
    apply (blocks_nest 0 j x c x); [lia|done|done|apply in_block_self|done]. }
  pose proof (bsize_pos i) as Hp. rewrite bsize_S in *.
  assert (Hx1 : x mod bsize i = 0).
  { apply Z.mod_divide in Hx as [u ->]; [|lia]. replace (u * (2 * bsize i)) with (2 * u * bsize i) by lia.
    apply Z.mod_mul. lia. }
  assert (Hx2 : (x + bsize i) mod bsize i = 0).
  { replace (x + bsize i) with (x + 1 * bsize i) by lia. by rewrite Z.mod_add by lia. }
  destruct (IH x ltac:(lia) Hx1) as (j & c & Hj & Hc & Hcx & Hcy); [intros a Ha; apply Hown; lia|].
  destruct (IH (x + bsize i) ltac:(lia) Hx2) as (k & d & Hk & Hd & Hdx & Hdy); [intros a Ha; apply Hown; lia|].
  assert (Hbig : ∀ j c a, (S i ≤ j ≤ 10)%nat → c ∈ ls j → in_block a x (2 * bsize i) → in_block a c (bsize j) →
    ∃ j c, (S i ≤ j ≤ 10)%nat ∧ c ∈ ls j ∧ c ≤ x ∧ x + 2 * bsize i ≤ c + bsize j).
  { intros j' c' a Hj' Hc' Ha Ha'. exists j', c'. split; [done|]. split; [done|].
    destruct (wf_aligned ls j' c' Hwf ltac:(lia) Hc') as (_ & Hal & _). rewrite <- bsize_S in *.
    by apply (blocks_nest (S i) j' x c' a); [lia|..]. }
  destruct (decide (S i ≤ j)%nat) as [|Hji]; [apply (Hbig j c x); [lia|done|lia..]|].
  destruct (decide (S i ≤ k)%nat) as [|Hki]; [apply (Hbig k d (x + bsize i)); [lia|done|lia..]|].
  assert (j = i) as -> by lia. assert (k = i) as -> by lia.
  assert (c = x) as -> by lia. assert (d = x + bsize i) as -> by lia.
  destruct (wf_merged ls Hwf i x ltac:(lia) Hc). unfold buddy_of.
  replace (Z.of_nat i + 1) with (Z.of_nat (S i)) by lia. change (block_size (Z.of_nat (S i))) with (bsize (S i)).
  rewrite bsize_S. by rewrite (proj2 (Z.eqb_eq _ _) Hx).
Qed.

(** ** Canonicity *)
Definition same_free (ls1 ls2 : nat → list Z) : Prop := ∀ a, owned ls1 a ↔ owned ls2 a.

#[export] Instance same_free_equiv : Equivalence same_free.
Proof.
  split; [by intros ls a|by intros l1 l2 H a; rewrite (H a)|intros l1 l2 l3 H1 H2 a; by rewrite (H1 a), (H2 a)].
Qed.

Lemma blocks_from ls1 ls2 i b : wf ls1 → wf ls2 → same_free ls1 ls2 → (i ≤ 10)%nat → b ∈ ls1 i → b ∈ ls2 i.
Proof.
  intros H1 H2 Hs Hi Hb. destruct (wf_aligned _ _ _ H1 Hi Hb) as (_ & Hal & _).
  destruct (free_block ls2 H2 i b Hi Hal) as (j & c & Hj & Hc & Hcb & Hce).
  { intros a Ha. apply Hs. by exists i, b. }
  destruct (wf_aligned ls2 j c H2 (proj2 Hj) Hc) as (_ & Halc & _).
  destruct (free_block ls1 H1 j c ltac:(lia) Halc) as (k & d & Hk & Hd & Hdc & Hde).
  { intros a Ha. apply Hs. exists j, c. split; [lia|done]. }
  pose proof (bsize_pos i). destruct (wf_disjoint _ H1 i k b d b) as [<- <-]; try done; try lia.
  assert (j = i) as -> by lia. by assert (c = b) as -> by lia.
Qed.

Lemma sorted_same (l1 l2 : list Z) : StronglySorted Z.lt l1 → StronglySorted Z.lt l2 →
  (∀ x, x ∈ l1 ↔ x ∈ l2) → l1 = l2.
Proof.
  intros H1 H2 Hx. assert (AntiSymm eq Z.lt) by (intros x y; lia).
  apply (StronglySorted_unique Z.lt); [done..|].
  apply NoDup_Permutation; [by apply StronglySorted_lt_NoDup..|done].
Qed.

Lemma same_lists m1 b1 ls1 m2 b2 ls2 : Buddy_rep m1 b1 ls1 → wf ls1 → Buddy_rep m2 b2 ls2 → wf ls2 →
  same_free ls1 ls2 → ∀ i, (i ≤ 10)%nat → ls1 i = ls2 i.
Proof.
  intros R1 H1 R2 H2 Hs i Hi.
  destruct (brep_lists _ _ _ R1 i Hi) as (f1 & _ & Hr1 & _). destruct (brep_lists _ _ _ R2 i Hi) as (f2 & _ & Hr2 & _).
  apply sorted_same; [apply Hr1|apply Hr2|]. intros x. split; [by apply blocks_from|].
  apply blocks_from; try done; by symmetry.
Qed.

(** A state represents one family only. *)
Lemma chain_unique m l1 : ∀ l2 p, chain m p l1 → chain m p l2 → l1 = l2.
Proof.
  induction l1 as [|x l1 IH]; intros [|y l2] p H1 H2; [done|..].
  - destruct H2 as (E & Hn & _). cbn in H1. unfold_blocks. lia.
  - destruct H1 as (E & Hn & _). cbn in H2. unfold_blocks. lia.
  - destruct H1 as (-> & _ & H1), H2 as (<- & _ & H2). f_equal. by eapply IH.
Qed.

Lemma same_free_rep m b ls1 ls2 : Buddy_rep m b ls1 → Buddy_rep m b ls2 → same_free ls1 ls2.
Proof.
  intros R1 R2. assert (E : ∀ i, (i ≤ 10)%nat → ls1 i = ls2 i).
  { intros i Hi. destruct (brep_lists _ _ _ R1 i Hi) as (f1 & L1 & Hr1 & _).
    destruct (brep_lists _ _ _ R2 i Hi) as (f2 & L2 & Hr2 & _). assert (f1 = f2) as <- by congruence.
    apply (chain_unique m _ _ (list_ f1)); [apply Hr1|apply Hr2]. }
  intros a. unfold owned. split; intros (i & c & Hi & Hc & Ha); exists i, c; [rewrite <- E|rewrite E]; done.
Qed.

(** ** Determinism *)
Lemma best_fit_unique ls1 ls2 pages x y : (∀ i, (i ≤ 10)%nat → ls1 i = ls2 i) →
  best_fit ls1 pages x → best_fit ls2 pages y → x = y.
Proof.
  intros E (j & Hj & Hpj & Hx & Hj') (k & Hk & Hpk & Hy & Hk').
  assert (¬ (j < k)%nat) by (intros H; rewrite (E j), (Hk' j) in Hx by done; done).
  assert (¬ (k < j)%nat) by (intros H'; rewrite <- (E k), (Hj' k) in Hy by done; done).
  assert (j = k) as -> by lia. rewrite (E k) in Hx by done. congruence.
Qed.

Lemma carved_same ls1 ls1' ls2 ls2' p : same_free ls1 ls2 → carved ls1 ls1' p → carved ls2 ls2' p →
  same_free ls1' ls2'.
Proof.
  intros Hs (_ & _ & _ & E1 & D1) (_ & _ & _ & E2 & D2) a.
  specialize (Hs a); specialize (E1 a); specialize (E2 a); specialize (D1 a); specialize (D2 a). tauto.
Qed.

(** [get] on two systems with the same free memory. *)
Lemma get_same fuel m1 b1 ls1 m2 b2 ls2 pages :
  Buddy_rep m1 b1 ls1 → wf ls1 → Buddy_rep m2 b2 ls2 → wf ls2 → same_free ls1 ls2 →
  2 ^ 20 + 1 < Z.of_nat fuel → 0 ≤ pages ≤ 2 ^ 31 →
  ∃ p m1' b1' ls1' m2' b2' ls2', BuddyAllocator_get fuel pages (m1, b1) = Done (p, (m1', b1')) ∧
    BuddyAllocator_get fuel pages (m2, b2) = Done (p, (m2', b2')) ∧
    Buddy_rep m1' b1' ls1' ∧ wf ls1' ∧ Buddy_rep m2' b2' ls2' ∧ wf ls2' ∧ same_free ls1' ls2'.
Proof.
  intros R1 H1 R2 H2 Hs Hf Hp. pose proof (same_lists _ _ _ _ _ _ R1 H1 R2 H2 Hs) as E.
  destruct (BuddyAllocator_get_at fuel m1 b1 ls1 pages R1 H1 Hf Hp)
    as (p & m1' & b1' & ls1' & W1 & R1' & H1' & _ & _ & C1).
  destruct (BuddyAllocator_get_at fuel m2 b2 ls2 pages R2 H2 Hf Hp)
    as (q & m2' & b2' & ls2' & W2 & R2' & H2' & _ & _ & C2).
  assert (Hpq : p = q ∧ same_free ls1' ls2').
  { destruct C1 as [(-> & -> & _ & N1)|(S1 & C1 & _ & _ & F1)], C2 as [(-> & -> & _ & N2)|(S2 & C2 & _ & _ & F2)].
    - done.
    - destruct F2 as (j & Hj & Hpj & Hx & _). by rewrite <- (E j), (N1 j) in Hx by done.
    - destruct F1 as (j & Hj & Hpj & Hx & _). by rewrite (E j), (N2 j) in Hx by done.
    - assert (p = q) as <-.
      { destruct p as [x n], q as [y k]; cbn [blk_ptr blk_size] in *. by rewrite (best_fit_unique _ _ _ _ _ E F1 F2), S1, S2. }
      split; [done|]. by eapply carved_same. }
  destruct Hpq as [<- Hs']. exists p, m1', b1', ls1', m2', b2', ls2'. done.
Qed.

(** * Properties *)

(** C4: the free memory determines the buddy system.  Two systems in which the same
    bytes are free, whatever requests and releases led there and in whatever order,
    have the same blocks in every list, and answer every request with the same run,
    leaving again the same bytes free. *)
Theorem buddy_canonical fuel m1 b1 ls1 m2 b2 ls2 pages
    (Hrep1 : Buddy_rep m1 b1 ls1) (Hwf1 : wf ls1) (Hrep2 : Buddy_rep m2 b2 ls2) (Hwf2 : wf ls2)
    (Hsame : ∀ a, owned ls1 a ↔ owned ls2 a) (Hfuel : 2 ^ 20 + 1 < Z.of_nat fuel) (Hpages : 0 ≤ pages ≤ 2 ^ 31) :
  (∀ i, (i ≤ 10)%nat → ls1 i = ls2 i) ∧
  ∃ p m1' b1' ls1' m2' b2' ls2', BuddyAllocator_get fuel pages (m1, b1) = Done (p, (m1', b1')) ∧
    BuddyAllocator_get fuel pages (m2, b2) = Done (p, (m2', b2')) ∧
    Buddy_rep m1' b1' ls1' ∧ wf ls1' ∧ Buddy_rep m2' b2' ls2' ∧ wf ls2' ∧
    (∀ a, owned ls1' a ↔ owned ls2' a).
Proof. split; [by eapply same_lists|by eapply get_same]. Qed.

(** ** Witness: 24 pages released in one run, and the last 16 of them first *)
Lemma released ptr size m b ls : Buddy_rep m b ls → wf ls →
  0 < size ∧ 0 < ptr ∧ ptr mod PAGE_SIZE = 0 ∧ ptr + PAGE_SIZE * size ≤ 2 ^ 32 →
  (∀ a, run_bytes ptr size a → ¬ owned ls a) →
  ∃ m' b' ls', BuddyAllocator_put example_fuel (mkPblk ptr size) (m, b) = Done (tt, (m', b')) ∧
    Buddy_rep m' b' ls' ∧ wf ls' ∧ ∀ a, owned ls' a ↔ owned ls a ∨ run_bytes ptr size a.
Proof.
  intros Hr Hw (H1 & H2 & H3 & H4) Hf.
  destruct (BuddyAllocator_put_done example_fuel m b ls ptr size Hr Hw example_fuel_enough H1 H2 H3 H4 Hf)
    as (m' & b' & ls' & W & R & H & _ & _ & _ & A & _).
  exists m', b', ls'. done.
Qed.

Lemma buddy_canonical_witness :
  ∃ m1 b1 (ls1 : nat → list Z) m b m2 b2 (ls2 : nat → list Z),
    BuddyAllocator_put example_fuel (mkPblk 65536 24) (∅, mkBuddy 0 0 empty_lists None) = Done (tt, (m1, b1)) ∧
    BuddyAllocator_put example_fuel (mkPblk 98304 16) (∅, mkBuddy 0 0 empty_lists None) = Done (tt, (m, b)) ∧
    BuddyAllocator_put example_fuel (mkPblk 65536 8) (m, b) = Done (tt, (m2, b2)) ∧
    (∀ i, (i ≤ 10)%nat → ls1 i = ls2 i) ∧
    ∃ p m1' b1' ls1' m2' b2' ls2', BuddyAllocator_get example_fuel 3 (m1, b1) = Done (p, (m1', b1')) ∧
      BuddyAllocator_get example_fuel 3 (m2, b2) = Done (p, (m2', b2')) ∧
      Buddy_rep m1' b1' ls1' ∧ wf ls1' ∧ Buddy_rep m2' b2' ls2' ∧ wf ls2' ∧
      (∀ a, owned ls1' a ↔ owned ls2' a).
Proof.
  assert (H0 : ∀ a, ¬ owned (λ _, []) a) by (intros a (? & ? & _ & []%elem_of_nil & _)).
  destruct (released 65536 24 ∅ (mkBuddy 0 0 empty_lists None) (λ _, [] : list Z)) as (m1 & b1 & ls1 & W1 & R1 & F1 & A1);
    [apply empty_lists_rep|apply wf_empty|by split_and!|intros a _; apply H0|].
  destruct (released 98304 16 ∅ (mkBuddy 0 0 empty_lists None) (λ _, [] : list Z)) as (m & b & ls & W & R & F & A);
    [apply empty_lists_rep|apply wf_empty|by split_and!|intros a _; apply H0|].
  destruct (released 65536 8 m b ls R F) as (m2 & b2 & ls2 & W2 & R2 & F2 & A2); [by split_and!| |].
  { intros a Ha [[]%H0|Ho]%A. unfold run_bytes, PAGE_SIZE in *. lia. }
  exists m1, b1, ls1, m, b, m2, b2, ls2. split; [exact W1|]. split; [exact W|]. split; [exact W2|].
  apply (buddy_canonical example_fuel m1 b1 ls1 m2 b2 ls2 3 R1 F1 R2 F2); [|apply example_fuel_enough|lia].
  intros a. specialize (A1 a); specialize (A a); specialize (A2 a); specialize (H0 a).
  unfold run_bytes, PAGE_SIZE in *. rewrite A1, A2, A.
  assert (in_block a 65536 (4096 * 24) ↔ in_block a 98304 (4096 * 16) ∨ in_block a 65536 (4096 * 8)) by lia.
  tauto.
Defined.
