(* ===== verification/BitArray.v ===== *)
(** * In-place arrays of bits

    [libkernelcxx/include/bitarray.hpp]: bits packed eight to a byte in memory
    the caller provides.  The object holds the size and the address; the bits
    are in the shared memory. *)
From stdpp Require Import base tactics numbers list gmap strings.
From S2P Require Import Prelude MemUtils.

Record BitArray : Type := mkBitArray { ba_size : Z; ba_data : Z }.

Definition BitArray_default : BitArray := mkBitArray 0 nullptr.

(** The clearing loop of [initialize], [n] bytes from index [idx]. *)
Fixpoint clear_bytes (n : nat) (data idx : Z) (m : mem) : mem :=
  match n with
  | O => m
  | S n => clear_bytes n data (idx + 1) (store8 m (u32 (data + idx)) 0)
  end.

Definition BitArray_initialize (on_address size : Z) (m : mem) : BitArray * mem :=
  let bytes := align_up 8 size / 8 in
  (mkBitArray size on_address, clear_bytes (Z.to_nat bytes) on_address 0 m).

Definition BitArray_get (ba : BitArray) (index : Z) (m : mem) : bool :=
  let byte := index / 8 in
  let bit := index mod 8 in
  let mask := u8 (Z.shiftl 1 bit) in
  negb (Z.land (load8 m (u32 (ba_data ba + byte))) mask =? 0).

Definition BitArray_set (ba : BitArray) (index : Z) (value : bool) (m : mem) : mem :=
  let byte := index / 8 in
  let bit := index mod 8 in
  let mask := u8 (Z.shiftl 1 bit) in
  let addr := u32 (ba_data ba + byte) in
  if value then store8 m addr (Z.lor (load8 m addr) mask)
  else store8 m addr (Z.land (load8 m addr) (Z.lnot mask)).

Definition BitArray_expected_size (elems : Z) : Z :=
  let bytes := elems / 8 in
  let bits := elems mod 8 in
  if negb (bits =? 0) then u32 (bytes + 1) else bytes.

(** * Verification *)

(** The bytes of an array of [n] bits lie inside the address space. *)
Definition bits_fit (ba : BitArray) (n : Z) : Prop :=
  0 ≤ ba_data ba ∧ 0 ≤ n < 2 ^ 31 ∧ ba_data ba + BitArray_expected_size n ≤ 2 ^ 32.

Lemma expected_size_ceil n : 0 ≤ n < 2 ^ 32 → BitArray_expected_size n = (n + 7) / 8.
Proof.
  intros Hn. unfold BitArray_expected_size.
  destruct (Z.eqb_spec (n mod 8) 0); cbn [negb]; zify_wraps.
Qed.

Lemma index_byte_range n i : 0 ≤ i < n → n < 2 ^ 32 → 0 ≤ i / 8 < BitArray_expected_size n.
Proof. intros. rewrite expected_size_ceil by lia. Z.div_mod_to_equations. lia. Qed.

(** Where the bits of an index live. *)
Lemma bit_addr ba n i : bits_fit ba n → 0 ≤ i < n →
  u32 (ba_data ba + i / 8) = ba_data ba + i / 8.
Proof.
  intros (H1 & H2 & H3) Hi. pose proof (index_byte_range n i Hi). rewrite u32_small; lia.
Qed.

Lemma bit_mask i : u8 (Z.shiftl 1 (i mod 8)) = 2 ^ (i mod 8).
Proof.
  pose proof (Z.mod_pos_bound i 8 eq_refl). rewrite shiftl_1 by lia. apply u8_small.
  split; [pose proof (pow2_pos (i mod 8)); lia|]. apply Z.pow_lt_mono_r; lia.
Qed.

Lemma BitArray_get_testbit ba n i m : bits_fit ba n → 0 ≤ i < n →
  BitArray_get ba i m = Z.testbit (load8 m (ba_data ba + i / 8)) (i mod 8).
Proof.
  intros Hf Hi. unfold BitArray_get. rewrite bit_mask, (bit_addr ba n) by done.
  rewrite land_pow2_eqb, negb_involutive; [done|]. by apply Z.mod_pos_bound.
Qed.

Lemma u8_testbit v k : 0 ≤ k < 8 → Z.testbit (u8 v) k = Z.testbit v k.
Proof. intros. unfold u8. by rewrite Z.mod_pow2_bits_low by lia. Qed.

Lemma BitArray_set_load ba n i v m : bits_fit ba n → 0 ≤ i < n →
  load8 (BitArray_set ba i v m) (ba_data ba + i / 8)
  = u8 (if v then Z.lor (load8 m (ba_data ba + i / 8)) (2 ^ (i mod 8))
        else Z.land (load8 m (ba_data ba + i / 8)) (Z.lnot (2 ^ (i mod 8)))).
Proof.
  intros Hf Hi. unfold BitArray_set. rewrite bit_mask, (bit_addr ba n) by done.
  destruct v; apply load8_store8_eq.
Qed.

(** [set] writes one byte. *)
Lemma BitArray_set_other ba n i v m a : bits_fit ba n → 0 ≤ i < n →
  a ≠ ba_data ba + i / 8 → load8 (BitArray_set ba i v m) a = load8 m a.
Proof.
  intros Hf Hi Ha. unfold BitArray_set. rewrite (bit_addr ba n) by done.
  destruct v; apply load8_store8_ne; done.
Qed.

Lemma BitArray_get_set ba n i j v m : bits_fit ba n → 0 ≤ i < n → 0 ≤ j < n →
  BitArray_get ba j (BitArray_set ba i v m) = if decide (j = i) then v else BitArray_get ba j m.
Proof.
  intros Hf Hi Hj. rewrite !(BitArray_get_testbit ba n) by done.
  pose proof (Z.mod_pos_bound i 8 eq_refl). pose proof (Z.mod_pos_bound j 8 eq_refl).
  destruct (decide (j / 8 = i / 8)) as [E|E].
  - rewrite E, (BitArray_set_load ba n), u8_testbit by done.
    destruct v; rewrite ?Z.lor_spec, ?Z.land_spec, ?Z.lnot_spec, Z.pow2_bits_eqb by lia;
      destruct (Z.eqb_spec (i mod 8) (j mod 8)) as [E2|E2], (decide (j = i)) as [->|Hne];
      rewrite ?orb_true_r, ?orb_false_r, ?andb_false_r, ?andb_true_r; try done;
      exfalso; Z.div_mod_to_equations; lia.
  - rewrite (BitArray_set_other ba n) by (done || lia). by destruct (decide (j = i)) as [->|].
Qed.

Lemma BitArray_get_ext ba n i m m' : bits_fit ba n → 0 ≤ i < n →
  load8 m' (ba_data ba + i / 8) = load8 m (ba_data ba + i / 8) →
  BitArray_get ba i m' = BitArray_get ba i m.
Proof. intros Hf Hi E. rewrite !(BitArray_get_testbit ba n) by done. by rewrite E. Qed.

Lemma clear_bytes_load n data idx m a : 0 ≤ data → 0 ≤ idx →
  data + idx + Z.of_nat n ≤ 2 ^ 32 →
  load8 (clear_bytes n data idx m) a
  = if decide (in_block a (data + idx) (Z.of_nat n)) then 0 else load8 m a.
Proof.
  revert idx m. induction n as [|n IH]; intros idx m Hd Hi Hb; cbn [clear_bytes].
  - destruct (decide _); [lia|done].
  - rewrite IH, u32_small by lia. destruct (decide (a = data + idx)) as [->|Hne].
    + rewrite load8_store8_eq. repeat destruct (decide _); (lia || done).
    + rewrite load8_store8_ne by lia. repeat destruct (decide _); (lia || done).
Qed.

Lemma init_bytes size : 0 ≤ size < 2 ^ 31 → align_up 8 size / 8 = BitArray_expected_size size.
Proof.
  intros Hs. rewrite expected_size_ceil by lia. change 8 with (2 ^ 3) at 1.
  rewrite align_up_spec by lia. change (2 ^ 3) with 8. rewrite u32_small by zify_wraps.
  zify_wraps.
Qed.

Lemma BitArray_initialize_load on_address size m a : bits_fit (mkBitArray size on_address) size →
  load8 (BitArray_initialize on_address size m).2 a
  = if decide (in_block a on_address (BitArray_expected_size size)) then 0 else load8 m a.
Proof.
  intros (Hd & Hs & Hb). cbn [ba_data] in *. unfold BitArray_initialize; cbn [snd].
  rewrite init_bytes by done. pose proof (expected_size_ceil size ltac:(lia)) as E.
  assert (0 ≤ BitArray_expected_size size) by (rewrite E; apply Z.div_pos; lia).
  rewrite clear_bytes_load, Z2Nat.id, Z.add_0_r by (rewrite ?Z2Nat.id; lia). done.
Qed.

Lemma BitArray_initialize_get on_address size m i :
  bits_fit (mkBitArray size on_address) size → 0 ≤ i < size →
  BitArray_get (mkBitArray size on_address) i (BitArray_initialize on_address size m).2 = false.
Proof.
  intros Hf Hi. rewrite (BitArray_get_testbit _ size) by done.
  rewrite BitArray_initialize_load by done. cbn [ba_data].
  pose proof (index_byte_range size i Hi). destruct Hf as (_ & ? & _).
  destruct (decide _); [apply Z.bits_0|lia].
Qed.

(** * Properties *)

(** Reading after writing: after [set(i, v)], [get(i)] is [v] and every
    other bit, and every byte outside the one of index [i], is as before. *)
Theorem bit_array_get_set ba n i j v m a
    (Hfit : bits_fit ba n) (Hi : 0 ≤ i < n) (Hj : 0 ≤ j < n) :
  BitArray_get ba j (BitArray_set ba i v m) = (if decide (j = i) then v else BitArray_get ba j m) ∧
  (a ≠ ba_data ba + i / 8 → load8 (BitArray_set ba i v m) a = load8 m a).
Proof. split; [by apply (BitArray_get_set ba n)|by apply (BitArray_set_other ba n)]. Qed.

(** [initialize] clears every bit, and writes exactly the
    [expected_size(size)] bytes that the array needs. *)
Theorem bit_array_initialize on_address size m
    (Hfit : bits_fit (mkBitArray size on_address) size) :
  let '(ba, m') := BitArray_initialize on_address size m in
  (∀ i, 0 ≤ i < size → BitArray_get ba i m' = false) ∧
  (∀ a, ¬ in_block a on_address (BitArray_expected_size size) → load8 m' a = load8 m a).
Proof.
  pose proof (BitArray_initialize_load on_address size m) as H1.
  pose proof (BitArray_initialize_get on_address size m) as H2.
  destruct (BitArray_initialize on_address size m) as [ba m'] eqn:E. cbn [snd] in *.
  injection E as <- _. split; [by auto|]. intros a Ha. rewrite H1 by done.
  by destruct (decide _).
Qed.

Lemma bit_array_get_set_witness :
  BitArray_get (mkBitArray 20 4096) 13 (BitArray_set (mkBitArray 20 4096) 13 true ∅)
    = (if decide (13 = 13) then true else BitArray_get (mkBitArray 20 4096) 13 ∅) ∧
  (4096 ≠ 4096 + 13 / 8 →
   load8 (BitArray_set (mkBitArray 20 4096) 13 true ∅) 4096 = load8 ∅ 4096).
Proof. apply (bit_array_get_set (mkBitArray 20 4096) 20 13 13 true ∅ 4096); [by split_and!|lia|lia]. Defined.

Lemma bit_array_initialize_witness :
  let '(ba, m') := BitArray_initialize 4096 20 (store8 ∅ 4097 255) in
  (∀ i, 0 ≤ i < 20 → BitArray_get ba i m' = false) ∧
  (∀ a, ¬ in_block a 4096 (BitArray_expected_size 20) →
     load8 m' a = load8 (store8 ∅ 4097 255) a).
Proof. apply bit_array_initialize. by split_and!. Defined.
