(* ===== verification/Ports.v ===== *)
(** * Processor primitives

    The wrappers of single instructions in [x86/include/bolgenos-ng/asm.hpp], the
    flags register of [x86/include/x86/eflags.hpp] and the atomic variables of
    [libkernelcxx/include/atomic.hpp].  A device is what it answers: port reads
    take their values from a stream, and every access is logged. *)
From stdpp Require Import base tactics numbers list gmap strings.
From S2P Require Import Prelude MemUtils.

(** ** Port input and output *)
Inductive io_event : Type := Out (port byte : Z) | In (port byte : Z).

Record io : Type := mkIo {
  io_log : list io_event;
  io_input : nat → Z;
  io_reads : nat
}.

Definition io_start (input : nat → Z) : io := mkIo [] input 0.

Abbreviation io_prog := (prog io).

Definition outb (port byte : Z) : io_prog unit :=
  modify (λ s, mkIo (io_log s ++ [Out (u16 port) (u8 byte)]) (io_input s) (io_reads s)).

Definition inb (port : Z) : io_prog Z := λ s,
  let v := u8 (io_input s (io_reads s)) in
  Done (v, mkIo (io_log s ++ [In (u16 port) v]) (io_input s) (S (io_reads s))).

Definition iowait : io_prog unit := outb 128 0.

(** ** [EFlags]: the bit fields of the 32-bit register *)
Record EFlags : Type := mkEFlags {
  carry : bool; parity : bool; auxiliary_carry : bool; zero : bool; sign : bool; trap : bool;
  interrupts : bool; direction : bool; overflow : bool; io_privilege_level : Z;
  nested_task : bool; resume : bool; virtual_8086 : bool; alignment_check : bool;
  virtual_interrupt : bool; virtual_interrupt_pending : bool; cpuid_available : bool
}.

Definition EFlags_of (v : Z) : EFlags :=
  mkEFlags (Z.testbit v 0) (Z.testbit v 2) (Z.testbit v 4) (Z.testbit v 6) (Z.testbit v 7)
    (Z.testbit v 8) (Z.testbit v 9) (Z.testbit v 10) (Z.testbit v 11)
    (Z.land (Z.shiftr v 12) 3) (Z.testbit v 14) (Z.testbit v 16) (Z.testbit v 17)
    (Z.testbit v 18) (Z.testbit v 19) (Z.testbit v 20) (Z.testbit v 21).

(** ** [atomic<T>] on 32-bit values *)
Definition atomic_load (v : Z) : Z := v.
Definition atomic_store (value : Z) (v : Z) : Z := u32 value.
(** The new content and the returned old one. *)
Definition atomic_exchange (value v : Z) : Z * Z := (u32 value, v).
Definition atomic_compare_exchange (expected desired v : Z) : Z * bool :=
  if v =? expected then (u32 desired, true) else (v, false).
Definition atomic_fetch_add (increment v : Z) : Z * Z := (u32 (v + increment), v).
Definition atomic_fetch_sub (decrement v : Z) : Z * Z := atomic_fetch_add (u32 (- decrement)) v.
Definition atomic_pre_incr (v : Z) : Z * Z :=
  let '(v', old) := atomic_fetch_add 1 v in (v', u32 (old + 1)).
Definition atomic_post_incr (v : Z) : Z * Z := atomic_fetch_add 1 v.
Definition atomic_pre_decr (v : Z) : Z * Z :=
  let '(v', old) := atomic_fetch_sub 1 v in (v', u32 (old - 1)).
Definition atomic_post_decr (v : Z) : Z * Z := atomic_fetch_sub 1 v.

(** * Verification *)

(** The operators return what they store, or what was there. *)
Lemma atomic_pre_incr_stores v : atomic_pre_incr v = (u32 (v + 1), u32 (v + 1)).
Proof. done. Qed.

Lemma atomic_pre_decr_stores v : 0 ≤ v < 2 ^ 32 → atomic_pre_decr v = (u32 (v - 1), u32 (v - 1)).
Proof.
  intros Hv. unfold atomic_pre_decr, atomic_fetch_sub, atomic_fetch_add. f_equal.
  unfold u32. rewrite Zplus_mod_idemp_r. done.
Qed.

Lemma atomic_incr_decr v : 0 ≤ v < 2 ^ 32 → (atomic_post_decr (atomic_post_incr v).1).1 = v.
Proof.
  intros Hv. unfold atomic_post_decr, atomic_post_incr, atomic_fetch_sub, atomic_fetch_add; cbn [fst].
  unfold u32. rewrite <- Zplus_mod, Z.mod_small; lia.
Qed.
