(* ===== verification/Irq.v ===== *)
(** * Interrupts

    [x86/irq]: the interrupt flag and its shadow variable, the handler lists and
    their dispatch; [threading]: the interrupt lock and its guards; the 8259
    controller of [devices/interrupt_controller]; the traps of [x86/src/traps.cpp]. *)
From stdpp Require Import base functions tactics numbers list gmap strings.
From S2P Require Import Prelude MemUtils Ports.

(** ** The flag and its shadow

    [if_flag] is the bit of the processor, [interrupts_enabled] the atomic of
    [irq.cpp].  An interrupt gate clears the former only. *)
Record irq_state : Type := mkIrq { if_flag : bool; interrupts_enabled : bool }.

Abbreviation irq_prog := (prog irq_state).

Definition is_enabled : irq_prog bool := λ s,
  if eqb (if_flag s) (interrupts_enabled s) then Done (interrupts_enabled s, s)
  else Panic "irq enabled state not synced".

Definition enable : irq_prog unit :=
  modify (λ s, mkIrq (if_flag s) true) ;; modify (λ s, mkIrq true (interrupts_enabled s)).

(** [disable] returns the previous value of the shadow. *)
Definition exchange_enabled (v : bool) : irq_prog bool :=
  old ← gets interrupts_enabled; modify (λ s, mkIrq (if_flag s) v) ;; mret old.

Definition disable : irq_prog bool :=
  modify (λ s, mkIrq false (interrupts_enabled s)) ;; exchange_enabled false.

(** ** [RecursiveIrqLocker]: [lock] returns [_enable_on_unlock] *)
Definition irq_lock : irq_prog bool := disable.
Definition irq_unlock (enable_on_unlock : bool) : irq_prog unit :=
  if enable_on_unlock then enable else mret tt.

(** [lib::lock_guard] and [thr::with_lock] over any mutex: a fresh mutex [M] is locked by the
    constructor of the guard and unlocked by its destructor. *)
Class Mutex (M St : Type) : Type := {
  mutex_default : M;
  mutex_lock : prog (M * St) unit;
  mutex_unlock : prog (M * St) unit
}.

Definition on_guarded {M St A} : prog St A → prog (M * St) A := zoom snd (λ s p, (p.1, s)).

Definition lock_guard {M St A} `{Mutex M St} (body : prog (M * St) A) : prog (M * St) A :=
  mutex_lock ;; a ← body; mutex_unlock ;; mret a.

Definition with_lock (M : Type) {St A} `{Mutex M St} (f : prog St A) : prog St A := λ s,
  match lock_guard (on_guarded f) (mutex_default, s) with
  | Done (a, (_, s)) => Done (a, s)
  | Panic msg => Panic msg | Fault msg => Fault msg | Fuel => Fuel
  end.

(** [RecursiveIrqLocker] with its field [_enable_on_unlock]. *)
Definition locker_lock : prog (bool * irq_state) unit :=
  e ← on_guarded irq_lock; modify (λ s, (e, s.2)).
Definition locker_unlock : prog (bool * irq_state) unit :=
  e ← gets fst; on_guarded (irq_unlock e).
#[export] Instance RecursiveIrqLocker : Mutex bool irq_state :=
  {| mutex_default := false; mutex_lock := locker_lock; mutex_unlock := locker_unlock |}.

(** [with_irq_lock] and [RecursiveIrqGuard]: lock, run, unlock. *)
Definition with_irq_lock {A} (body : irq_prog A) : irq_prog A :=
  e ← irq_lock; a ← body; irq_unlock e ;; mret a.

(** The lock of the interrupts is the guard over that locker. *)
Lemma with_irq_lock_guard {A} (body : irq_prog A) s : with_lock bool body s = with_irq_lock body s.
Proof.
  unfold with_lock, lock_guard, with_irq_lock, mutex_lock, mutex_unlock, mutex_default, RecursiveIrqLocker,
    locker_lock, locker_unlock, irq_lock, irq_unlock, on_guarded, zoom, mbind, prog_bind, gets, modify, mret, prog_ret. cbn [fst snd].
  destruct (disable s) as [[e s1]| | |]; [|done..]. cbn [fst snd].
  destruct (body s1) as [[a s2]| | |]; [|done..]. cbn [fst snd]. by destruct e.
Qed.

(** ** [RecursiveIrqGuard] over a state with more in it than the interrupts: the locker is
    locked by the constructor and unlocked by the destructor at the end of the scope. *)
Definition on_irq {W A} : irq_prog A → prog (irq_state * W) A := zoom fst (λ s p, (s, p.2)).
Definition on_world {W A} : prog W A → prog (irq_state * W) A := zoom snd (λ w p, (p.1, w)).

Definition RecursiveIrqGuard {W A} (scope : prog (irq_state * W) A) : prog (irq_state * W) A :=
  enable_on_unlock ← on_irq irq_lock;
  a ← scope;
  on_irq (irq_unlock enable_on_unlock) ;;
  mret a.

(** ** The handlers

    A handler is code outside the manager: [run_handler] and [run_exception]
    are what the virtual calls do to the world. *)
Inductive status_t : Type := NONE | HANDLED.

#[export] Instance status_t_eq_dec : EqDecision status_t.
Proof. solve_decision. Defined.

Definition exception_max : Z := 32.
Definition NUMBER_OF_LINES : Z := 256.

(** The objects in the two arrays of lists, identified by their addresses. *)
Record InterruptsManager : Type := mkManager {
  irq_handlers : Z → list Z;
  exceptions_handlers : Z → list Z
}.

Definition InterruptsManager_new : InterruptsManager := mkManager (λ _, []) (λ _, []).

(** [add_handler]; [push] is the outcome of [push_front], which fails when no
    node can be allocated. *)
Definition add_irq_handler (push : bool) (vector handler : Z) (m : InterruptsManager)
    : outcome InterruptsManager :=
  if push then
    Done (mkManager (<[vector := handler :: irq_handlers m vector]> (irq_handlers m))
            (exceptions_handlers m))
  else Panic "failed to register interrupt handler".

Definition add_exception_handler (push : bool) (exc handler : Z) (m : InterruptsManager)
    : outcome InterruptsManager :=
  if exception_max <=? exc then Fault "_exceptions_handlers index out of range"
  else if push then
    Done (mkManager (irq_handlers m)
            (<[exc := handler :: exceptions_handlers m exc]> (exceptions_handlers m)))
  else Panic "failed to register exception handler".

Definition is_exception (vector : Z) : bool := vector <? exception_max.

Section Dispatch.
Context {W : Type} (run_handler : Z → Z → prog W status_t) (run_exception : Z → Z → prog W unit).
Context (on_io : io_prog unit → prog W unit).

(** [for_each] over the exception handlers. *)
Fixpoint call_all (frame : Z) (handlers : list Z) : prog W unit :=
  match handlers with
  | [] => mret tt
  | h :: t => run_exception h frame ;; call_all frame t
  end.

Definition dispatch_exception (m : InterruptsManager) (exc frame : Z) : prog W status_t :=
  match exceptions_handlers m exc with
  | [] => mret NONE
  | handlers => call_all frame handlers ;; mret HANDLED
  end.

(** [find_if] stops at the first handler that reports [HANDLED]. *)
Fixpoint find_handler (vector : Z) (handlers : list Z) : prog W (option Z) :=
  match handlers with
  | [] => mret None
  | h :: t =>
      st ← run_handler h vector;
      if decide (st = HANDLED) then mret (Some h) else find_handler vector t
  end.

Definition dispatch_interrupt (m : InterruptsManager) (vector : Z) : prog W status_t :=
  used ← find_handler vector (irq_handlers m vector);
  match used with None => mret NONE | Some _ => mret HANDLED end.

(** ** The 8259 controller *)
Definition master_comm : Z := 32.
Definition master_data : Z := 33.
Definition slave_comm : Z := 160.
Definition slave_data : Z := 161.
Definition icw_1 : Z := 17.
Definition icw_3_master : Z := 4.
Definition icw_3_slave : Z := 2.
Definition icw_4_8086 : Z := 1.
Definition eoi_command : Z := 32.

Definition min_irq_vector : Z := 32.

Definition end_of_interrupt (vector : Z) : io_prog unit :=
  (if 8 + 32 <? vector then outb slave_comm eoi_command else mret tt) ;;
  outb master_comm eoi_command.

(** [initialize_controller]; the argument is [_controller_initialized]. *)
Definition initialize_controller (initialized : bool) : io_prog bool :=
  if initialized then panic "Attempt to initialize PIC8259 twice!"
  else
    outb master_comm icw_1 ;; outb slave_comm icw_1 ;;
    outb master_data 32 ;; outb slave_data 40 ;;
    outb master_data icw_3_master ;; outb slave_data icw_3_slave ;;
    outb master_data icw_4_8086 ;; outb slave_data icw_4_8086 ;;
    outb master_data 0 ;;
    mret true.

(** ** [InterruptsManager::handle_irq] *)
Definition handle_irq (m : InterruptsManager) (vector frame : Z) : prog W status_t :=
  status ← (if is_exception vector then dispatch_exception m vector frame
            else dispatch_interrupt m vector);
  on_io (end_of_interrupt vector) ;;
  mret status.
End Dispatch.

(** ** [install_traps]: the exceptions with a handler, and whether the processor
    pushes an error code for them *)
Definition installed_traps : list (Z * bool * string) :=
  [ (0, false, "Division by zero"); (1, false, "Debug exception"); (3, false, "Breakpoint");
    (4, false, "Overflow"); (5, false, "Bound range exceeded"); (6, false, "Invalid opcode");
    (7, false, "Device not available"); (10, true, "Invalid TSS");
    (11, true, "MemorySegmentDescriptor not present"); (12, true, "Stack segment fault");
    (13, true, "General protection fault"); (14, true, "Page fault");
    (16, false, "x87 FPU exception"); (17, true, "Alignment error");
    (18, false, "Machine check error"); (19, false, "SIMD exception");
    (20, false, "Virtualization error"); (30, true, "Security exception") ].

(** ** The frames

    [pushal] stores eight registers below what the processor pushed.  The packed
    structures give [cs] two bytes. *)
Record int_frame : Type := mkIntFrame {
  regs_edi : Z; regs_esi : Z; regs_ebp : Z; regs_esp : Z;
  regs_ebx : Z; regs_edx : Z; regs_ecx : Z; regs_eax : Z;
  frame_error : option Z; exe_eip : Z; exe_cs : Z; exe_eflags : Z
}.

Definition frame_at (m : mem) (with_error : bool) (p : Z) : int_frame :=
  let w i := load32 m (p + 4 * i) in
  let exe := p + 32 + (if with_error then 4 else 0) in
  mkIntFrame (w 0) (w 1) (w 2) (w 3) (w 4) (w 5) (w 6) (w 7)
    (if with_error then Some (w 8) else None)
    (load32 m exe) (load16 m (exe + 4)) (load32 m (exe + 6)).

(** * Verification *)
Definition synced (s : irq_state) : Prop := if_flag s = interrupts_enabled s.

(** The state a guard leaves: what the shadow said. *)
Definition unlocked (s : irq_state) : irq_state := mkIrq (interrupts_enabled s) (interrupts_enabled s).

Lemma unlocked_synced s : synced s → unlocked s = s.
Proof. destruct s as [f e]. unfold synced, unlocked; cbn. by intros ->. Qed.

(** A guarded scope that does not touch the interrupts is the scope, run with them off. *)
Lemma RecursiveIrqGuard_eq {W A} (p : prog W A) s w :
  RecursiveIrqGuard (on_world p) (s, w) =
    match p w with
    | Done (a, w') => Done (a, (unlocked s, w'))
    | Panic msg => Panic msg | Fault msg => Fault msg | Fuel => Fuel
    end.
Proof.
  unfold RecursiveIrqGuard, on_world, on_irq, zoom, irq_lock, irq_unlock, disable, exchange_enabled, mbind, prog_bind, modify, gets, mret, prog_ret.
  cbn [fst snd]. destruct (p w) as [[a w']| | |]; [|done..]. cbn [fst snd interrupts_enabled if_flag].
  by destruct s as [f []].
Qed.

Lemma RecursiveIrqGuard_done {W A} (p : prog W A) s w a w' : p w = Done (a, w') →
  RecursiveIrqGuard (on_world p) (s, w) = Done (a, (unlocked s, w')).
Proof. intros E. by rewrite RecursiveIrqGuard_eq, E. Qed.

(** What the processor pushes for an interrupt: [eip], [cs] in a full word, [eflags]. *)
Definition hardware_frame (m : mem) (exe eip cs eflags : Z) : Prop :=
  load32 m exe = eip ∧ load32 m (exe + 4) = cs ∧ load32 m (exe + 8) = eflags.

(** The packed structure reads [eflags] two bytes too early. *)
Lemma frame_misreads_eflags m e p eip cs eflags :
  let exe := p + 32 + (if e : bool then 4 else 0) in
  hardware_frame m exe eip cs eflags →
  exe_eip (frame_at m e p) = eip ∧ exe_cs (frame_at m e p) = cs mod 2 ^ 16 ∧
  exe_eflags (frame_at m e p) = cs / 2 ^ 16 + 2 ^ 16 * (eflags mod 2 ^ 16).
Proof.
  intros exe (H1 & H2 & H3). unfold frame_at. fold exe. cbn [exe_eip exe_cs exe_eflags].
  split; [done|]. subst cs eflags. unfold load32, load16.
  replace (exe + 4 + 1) with (exe + 5) by lia. replace (exe + 4 + 2) with (exe + 6) by lia.
  replace (exe + 4 + 3) with (exe + 7) by lia. replace (exe + 6 + 1) with (exe + 7) by lia.
  replace (exe + 6 + 2) with (exe + 8) by lia. replace (exe + 6 + 3) with (exe + 9) by lia.
  replace (exe + 8 + 1) with (exe + 9) by lia. replace (exe + 8 + 2) with (exe + 10) by lia.
  replace (exe + 8 + 3) with (exe + 11) by lia.
  pose proof (load8_range m (exe + 4)). pose proof (load8_range m (exe + 5)).
  pose proof (load8_range m (exe + 6)). pose proof (load8_range m (exe + 7)).
  pose proof (load8_range m (exe + 8)). pose proof (load8_range m (exe + 9)).
  pose proof (load8_range m (exe + 10)). pose proof (load8_range m (exe + 11)).
  split; Z.div_mod_to_equations; lia.
Qed.

Section DispatchSpec.
Context {W : Type} (run_handler : Z → Z → prog W status_t).

(** Handlers that return, by their effect. *)
Context (effect : Z → Z → W → status_t * W).
Hypothesis run_effect : ∀ h v w, run_handler h v w = Done (effect h v w).

(** Handlers that pass the interrupt on, run in order. *)
Inductive passes (vector : Z) : list Z → W → W → Prop :=
  | passes_nil w : passes vector [] w w
  | passes_cons h hs w w' w'' : effect h vector w = (NONE, w') → passes vector hs w' w'' →
      passes vector (h :: hs) w w''.

(** The search runs the handlers from the front and stops behind the first that
    takes the interrupt. *)
Lemma find_handler_spec vector : ∀ hs w,
  (∃ w', passes vector hs w w' ∧ find_handler run_handler vector hs w = Done (None, w')) ∨
  (∃ l1 h l2 w1 w2, hs = l1 ++ h :: l2 ∧ passes vector l1 w w1 ∧
     effect h vector w1 = (HANDLED, w2) ∧
     find_handler run_handler vector hs w = Done (Some h, w2)).
Proof.
  induction hs as [|h hs IH]; intros w; cbn [find_handler].
  { left. exists w. by split; [constructor|]. }
  destruct (effect h vector w) as [st w1] eqn:E.
  rewrite (bind_done _ _ w st w1) by (by rewrite run_effect, E).
  destruct (decide (st = HANDLED)) as [->|Hne].
  - right. exists [], h, hs, w, w1. split_and!; try done. constructor.
  - destruct st; [|done]. destruct (IH w1) as [(w' & Hp & Ef)|(l1 & h' & l2 & w2 & w3 & -> & Hp & Eh & Ef)].
    + left. exists w'. split; [|done]. by econstructor.
    + right. exists (h :: l1), h', l2, w2, w3. split_and!; try done. by econstructor.
Qed.
End DispatchSpec.

(** * Properties *)

(** C37: the interrupt lock is recursive: around any body that leaves the flag
    and its shadow as it found them, [with_irq_lock] runs the body with
    interrupts off and restores a synchronised state, so locks nest; but taken
    inside an interrupt handler, where the gate has cleared the flag only, its
    release turns interrupts on in the handler. *)
Theorem irq_lock_restores {A} (body : irq_prog A) (a : A) (s : irq_state)
    (Hbody : body (mkIrq false false) = Done (a, mkIrq false false)) :
  (synced s → with_irq_lock body s = Done (a, s)) ∧
  with_irq_lock (with_irq_lock body) (mkIrq false false) = Done (a, mkIrq false false) ∧
  with_irq_lock body (mkIrq false true) = Done (a, mkIrq true true).
Proof.
  assert (H : ∀ f e, with_irq_lock body (mkIrq f e) = Done (a, mkIrq e e)).
  { intros f e. unfold with_irq_lock, irq_lock, disable, exchange_enabled, mbind, prog_bind, modify, gets, mret, prog_ret.
    cbn [if_flag interrupts_enabled]. rewrite Hbody. by destruct e. }
  split_and!.
  - intros Hs. destruct s as [f e]. rewrite H. unfold synced in Hs. cbn in Hs. by subst.
  - unfold with_irq_lock at 1. unfold irq_lock, disable, exchange_enabled, mbind, prog_bind, modify, gets, mret, prog_ret.
    cbn [if_flag interrupts_enabled]. by rewrite H.
  - by rewrite H.
Qed.

(** The end of every interrupt is acknowledged at the master and, when it
    came from the slave, at the slave first - except for the slave's own first
    line: for vector 0x28 the slave is left waiting. *)
Theorem pic_end_of_interrupt vector s (Hvector : 32 ≤ vector < 48) :
  ∃ s', end_of_interrupt vector s = Done (tt, s') ∧
    io_log s' = io_log s ++
      (if decide (40 ≤ vector ∧ vector ≠ 40) then [Out slave_comm 32] else []) ++
      [Out master_comm 32] ∧
    (vector = 40 → Out slave_comm 32 ∉ drop (length (io_log s)) (io_log s')).
Proof.
  unfold end_of_interrupt. destruct (Z.ltb_spec (8 + 32) vector) as [Hlt|Hge].
  - eexists. split; [reflexivity|]. cbn [io_log]. rewrite <- app_assoc.
    destruct (decide _); [|lia]. split; [done|lia].
  - eexists. split; [reflexivity|]. cbn [io_log]. destruct (decide _); [lia|]. split; [done|].
    intros ->. rewrite drop_app_length. by intros H%list_elem_of_singleton.
Qed.

(** ** Witnesses *)
Lemma irq_lock_restores_witness :
  (synced (mkIrq true true) → with_irq_lock (mret 7) (mkIrq true true) = Done (7, mkIrq true true)) ∧
  with_irq_lock (with_irq_lock (mret 7)) (mkIrq false false) = Done (7, mkIrq false false) ∧
  with_irq_lock (mret 7) (mkIrq false true) = Done (7, mkIrq true true).
Proof. apply irq_lock_restores. reflexivity. Defined.

Lemma pic_end_of_interrupt_witness :
  ∃ s', end_of_interrupt 40 (io_start (λ _, 0)) = Done (tt, s') ∧
    io_log s' = [] ++ [] ++ [Out master_comm 32] ∧
    (40 = 40 → Out slave_comm 32 ∉ drop 0 (io_log s')).
Proof. exact (pic_end_of_interrupt 40 (io_start (λ _, 0)) ltac:(lia)). Defined.
