(* ===== verification/PageProvider.v ===== *)
(** * The interface between the page allocator and its clients

    [memory.hpp] offers [alloc_pages] and [free_pages] to the rest of the kernel.
    The class states what a client may rely on: which blocks are allocated, that
    they are disjoint and inside the address space, that the contents of an
    allocated block belong to the client, what the two calls do, and what
    [page_scarce] must hold for [alloc_pages] to return null.  The page
    allocator is an instance ([PageAllocator.v]); the slabs ([Slab.v]) are
    verified against the class alone. *)
From stdpp Require Import base tactics numbers list gmap strings.
From S2P Require Import Prelude MemUtils Buddy.

(** The bytes of the allocated blocks; [al] maps the address of a block to its
    length in pages. *)
Definition in_blocks (al : gmap Z Z) (a : Z) : Prop := ∃ p n, al !! p = Some n ∧ run_bytes p n a.

Class PageProvider (W : Type) : Type := {
  alloc_pages : Z → prog W Z;
  free_pages : Z → prog W unit;
  page_mem : W → mem;
  set_page_mem : mem → W → W;
  page_rep : W → gmap Z Z → Prop;
  page_scarce : W → gmap Z Z → Z → Prop;

  page_mem_set m w : page_mem (set_page_mem m w) = m;
  page_rep_block w al p n : page_rep w al → al !! p = Some n →
    1 ≤ n ∧ 0 < p ∧ p mod PAGE_SIZE = 0 ∧ p + PAGE_SIZE * n < 2 ^ 32;
  page_rep_disjoint w al p n q k a : page_rep w al → al !! p = Some n → al !! q = Some k →
    run_bytes p n a → run_bytes q k a → p = q;
  page_rep_write w al m : page_rep w al →
    (∀ a, ¬ in_blocks al a → load8 m a = load8 (page_mem w) a) →
    page_rep (set_page_mem m w) al;

  alloc_pages_done w al n : page_rep w al → 1 ≤ n ≤ 2 ^ 31 →
    ∃ p w' al', alloc_pages n w = Done (p, w') ∧ page_rep w' al' ∧
      ((p = nullptr ∧ al' = al ∧ page_scarce w al n) ∨
       (p ≠ nullptr ∧ al !! p = None ∧ al' = <[p := n]> al)) ∧
      (∀ a, in_blocks al a → load8 (page_mem w') a = load8 (page_mem w) a);
  free_pages_done w al p n : page_rep w al → al !! p = Some n →
    ∃ w', free_pages p w = Done (tt, w') ∧ page_rep w' (delete p al) ∧
      (∀ a, in_blocks (delete p al) a → load8 (page_mem w') a = load8 (page_mem w) a);
  free_pages_null w al : page_rep w al → free_pages nullptr w = Done (tt, w)
}.

(** Blocks come and go. *)
Lemma in_blocks_insert al p n a : al !! p = None →
  in_blocks (<[p := n]> al) a ↔ run_bytes p n a ∨ in_blocks al a.
Proof.
  intros Hnone. split.
  - intros (q & k & [[<- <-]|[_ Hq]]%lookup_insert_Some & Ha); [by left|]. right. by exists q, k.
  - intros [Ha|(q & k & Hq & Ha)]; [exists p, n|exists q, k]; (split; [|done]).
    + by rewrite lookup_insert_eq.
    + rewrite lookup_insert_ne by congruence. done.
Qed.

Lemma in_blocks_delete al p n a : al !! p = Some n →
  in_blocks al a ↔ run_bytes p n a ∨ in_blocks (delete p al) a.
Proof.
  intros Hp. rewrite <- (in_blocks_insert (delete p al) p n) by apply lookup_delete_eq.
  by rewrite insert_delete_id.
Qed.
