(* ===== verification/KernelHeap.v ===== *)
(** * The interface between the memory subsystem and the rest of the kernel

    What [memory.hpp] and the operators [new] and [delete] of
    [libkernelcxx/src/cxxabi.cpp] promise together: blocks of pages and objects
    live side by side, apart from each other, and their contents belong to whoever
    asked for them.  The memory of the kernel is an instance ([KernelMemory.v]);
    the scheduler is verified against the class alone. *)
From stdpp Require Import base tactics numbers list gmap strings.
From S2P Require Import Prelude MemUtils Buddy PageProvider.

(** The bytes of the live objects; [os] maps the address of an object to its size. *)
Definition in_objects (os : gmap Z Z) (a : Z) : Prop := ∃ p n, os !! p = Some n ∧ in_block a p n.

(** The bytes in use: [bl] maps the blocks of [alloc_pages] to their pages. *)
Definition held (bl os : gmap Z Z) (a : Z) : Prop := in_blocks bl a ∨ in_objects os a.

Class KernelHeap (W : Type) : Type := {
  heap_alloc_pages : Z → prog W Z;
  heap_free_pages : Z → prog W unit;
  operator_new : Z → prog W Z;
  operator_delete : Z → prog W unit;
  heap_mem : W → mem;
  set_heap_mem : mem → W → W;
  heap_rep : W → gmap Z Z → gmap Z Z → Prop;

  heap_mem_set m w : heap_mem (set_heap_mem m w) = m;
  heap_rep_block w bl os p n : heap_rep w bl os → bl !! p = Some n →
    1 ≤ n ∧ 0 < p ∧ p mod PAGE_SIZE = 0 ∧ p + PAGE_SIZE * n < 2 ^ 32;
  heap_rep_disjoint w bl os p n q k a : heap_rep w bl os → bl !! p = Some n → bl !! q = Some k →
    run_bytes p n a → run_bytes q k a → p = q;
  heap_rep_object w bl os p n : heap_rep w bl os → os !! p = Some n → 1 ≤ n ∧ 0 < p ∧ p + n < 2 ^ 32;
  heap_rep_objects w bl os p n q k a : heap_rep w bl os → os !! p = Some n → os !! q = Some k →
    in_block a p n → in_block a q k → p = q;
  heap_rep_apart w bl os p n q k a : heap_rep w bl os → os !! p = Some n → bl !! q = Some k →
    in_block a p n → ¬ run_bytes q k a;
  heap_rep_write w bl os m : heap_rep w bl os →
    (∀ a, ¬ held bl os a → load8 m a = load8 (heap_mem w) a) → heap_rep (set_heap_mem m w) bl os;

  heap_alloc_pages_done w bl os n : heap_rep w bl os → 1 ≤ n ≤ 2 ^ 31 →
    ∃ p w' bl', heap_alloc_pages n w = Done (p, w') ∧ heap_rep w' bl' os ∧
      ((p = nullptr ∧ bl' = bl) ∨ (p ≠ nullptr ∧ bl !! p = None ∧ bl' = <[p := n]> bl)) ∧
      (∀ a, held bl os a → load8 (heap_mem w') a = load8 (heap_mem w) a);
  heap_free_pages_done w bl os p n : heap_rep w bl os → bl !! p = Some n →
    ∃ w', heap_free_pages p w = Done (tt, w') ∧ heap_rep w' (delete p bl) os ∧
      (∀ a, held (delete p bl) os a → load8 (heap_mem w') a = load8 (heap_mem w) a);
  operator_new_done w bl os n : heap_rep w bl os → 1 ≤ n ≤ 2 ^ 31 →
    ∃ p w' os', operator_new n w = Done (p, w') ∧ heap_rep w' bl os' ∧
      ((p = nullptr ∧ os' = os) ∨ (p ≠ nullptr ∧ os !! p = None ∧ os' = <[p := n]> os)) ∧
      (∀ a, held bl os a → load8 (heap_mem w') a = load8 (heap_mem w) a);
  operator_delete_done w bl os p n : heap_rep w bl os → os !! p = Some n →
    ∃ w', operator_delete p w = Done (tt, w') ∧ heap_rep w' bl (delete p os) ∧
      (∀ a, held bl (delete p os) a → load8 (heap_mem w') a = load8 (heap_mem w) a)
}.

(** ** The [new] expressions

    The compiler does not test what [operator new] returns.  With a null pointer the
    program has no defined behaviour: the object is constructed at address zero, an
    array of class type behind its cookie at address four. *)
Definition null_object : string := "object constructed at a null pointer".
Definition null_stack : string := "arithmetic on the null pointer of a stack".

(** The ways to run out of memory without a test. *)
Definition out_of_memory (msg : string) : Prop := msg = null_object ∨ msg = null_stack.

(** The number of elements in front of an array whose elements have destructors. *)
Definition array_cookie : Z := 4.

Section Expressions.
Context {W : Type} `{KH : KernelHeap W}.

Definition new_object (size : Z) : prog W Z :=
  p ← operator_new size; if p =? nullptr then fault null_object else mret p.

(** [new T[1]] and [delete[] p] of a class with a destructor, as in [default_allocator]. *)
Definition new_array (size : Z) : prog W Z :=
  p ← operator_new (size + array_cookie);
  if p =? nullptr then fault null_object else mret (u32 (p + array_cookie)).
Definition delete_array (p : Z) : prog W unit := operator_delete (u32 (p - array_cookie)).

(** ** What holds of them *)
Lemma new_object_done w bl os n : heap_rep w bl os → 1 ≤ n ≤ 2 ^ 31 →
  new_object n w = Fault null_object ∨
  ∃ p w', new_object n w = Done (p, w') ∧ os !! p = None ∧ heap_rep w' bl (<[p := n]> os) ∧
    ∀ a, held bl os a → load8 (heap_mem w') a = load8 (heap_mem w) a.
Proof.
  intros H Hn. destruct (operator_new_done w bl os n H Hn) as (p & w' & os' & E & H' & Hc & Hm).
  unfold new_object. rewrite (bind_done _ _ _ _ _ E).
  destruct Hc as [[-> _]|(Hp & Hnone & ->)]; [by left|right]. exists p, w'.
  by destruct (Z.eqb_spec p nullptr).
Qed.

Lemma new_array_done w bl os n : heap_rep w bl os → 1 ≤ n ≤ 2 ^ 30 →
  new_array n w = Fault null_object ∨
  ∃ p w', new_array n w = Done (p + array_cookie, w') ∧ os !! p = None ∧ 0 < p ∧
    p + array_cookie < 2 ^ 32 ∧ heap_rep w' bl (<[p := n + array_cookie]> os) ∧
    ∀ a, held bl os a → load8 (heap_mem w') a = load8 (heap_mem w) a.
Proof.
  intros H Hn. unfold array_cookie in *.
  destruct (operator_new_done w bl os (n + 4) H ltac:(lia)) as (p & w' & os' & E & H' & Hc & Hm).
  unfold new_array, array_cookie. rewrite (bind_done _ _ _ _ _ E).
  destruct Hc as [[-> _]|(Hp & Hnone & ->)]; [by left|right]. exists p, w'.
  destruct (heap_rep_object w' bl _ p (n + 4) H') as (_ & H0 & H1); [by rewrite lookup_insert_eq|].
  destruct (Z.eqb_spec p nullptr); [done|]. rewrite u32_small by lia. split_and!; (done || lia).
Qed.

Lemma delete_array_done w bl os p n : heap_rep w bl os → os !! p = Some n →
  ∃ w', delete_array (p + array_cookie) w = Done (tt, w') ∧ heap_rep w' bl (delete p os) ∧
    ∀ a, held bl (delete p os) a → load8 (heap_mem w') a = load8 (heap_mem w) a.
Proof.
  intros H Hp. destruct (heap_rep_object _ _ _ _ _ H Hp) as (? & H0 & H1). unfold delete_array, array_cookie in *.
  replace (p + 4 - 4) with p by lia. rewrite u32_small by lia. by apply (operator_delete_done w bl os p n).
Qed.

Lemma held_insert_object bl os p n a : held bl os a → os !! p = None → held bl (<[p := n]> os) a.
Proof.
  intros [Hb|(q & k & Hq & Ha)] Hp; [by left|right]. exists q, k.
  rewrite lookup_insert_ne; [done|congruence].
Qed.

(** What is new is apart from all that was held. *)
Lemma new_object_apart w w' bl os p n a : heap_rep w bl os → heap_rep w' bl (<[p := n]> os) → os !! p = None →
  in_block a p n → ¬ held bl os a.
Proof.
  intros H H' Hp Ha [(q & k & Hq & Hb)|(q & k & Hq & Hb)].
  - apply (heap_rep_apart w' bl (<[p := n]> os) p n q k a); [done|by rewrite lookup_insert_eq|done..].
  - assert (p = q) as ->; [|congruence].
    apply (heap_rep_objects w' bl (<[p := n]> os) p n q k a); [done|by rewrite lookup_insert_eq| |done..].
    rewrite lookup_insert_ne by congruence. done.
Qed.

Lemma new_block_apart w w' bl os p n a : heap_rep w bl os → heap_rep w' (<[p := n]> bl) os → bl !! p = None →
  run_bytes p n a → ¬ held bl os a.
Proof.
  intros H H' Hp Ha [(q & k & Hq & Hb)|(q & k & Hq & Hb)].
  - assert (p = q) as ->; [|congruence].
    apply (heap_rep_disjoint w' (<[p := n]> bl) os p n q k a); [done|by rewrite lookup_insert_eq| |done..].
    rewrite lookup_insert_ne by congruence. done.
  - apply (heap_rep_apart w' (<[p := n]> bl) os q k p n a); [done..|by rewrite lookup_insert_eq|done|done].
Qed.

(** A block and an object are never at the same place. *)
Lemma held_block bl os p n a : bl !! p = Some n → run_bytes p n a → held bl os a.
Proof. intros Hp Ha. left. by exists p, n. Qed.
Lemma held_object bl os p n a : os !! p = Some n → in_block a p n → held bl os a.
Proof. intros Hp Ha. right. by exists p, n. Qed.
End Expressions.
