(* ===== verification/PageAllocator.v ===== *)
(** * The page allocator

    [memory/page_allocator.hpp] and [memory/page_allocator.cpp]: page-granular
    [allocate]/[deallocate] on top of the buddy system.  A bit array over the
    pages of the region, kept in the region itself, marks the last page of every
    allocated block, so that [deallocate] can recover its length. *)
From stdpp Require Import base functions tactics numbers list gmap strings.
From S2P Require Import Prelude MemUtils MemoryRegion FreeList Buddy BitArray Ports Irq PageProvider.

(** ** State

    [primary_] points to the one buddy system of the state, or is null. *)
Record PageAllocator : Type := mkPageAllocator { primary_ : bool; map_ : BitArray }.

Definition PageAllocator_default : PageAllocator := mkPageAllocator false BitArray_default.

Record pages : Type := mkPages {
  pg_mem : mem;
  pg_buddy : BuddyAllocator;
  pg_pa : PageAllocator
}.

Abbreviation page_prog := (prog pages).

Definition set_pg_mem (m : mem) (w : pages) : pages := mkPages m (pg_buddy w) (pg_pa w).

(** [primary_->method()] *)
Definition primary {A} (p : prog (mem * BuddyAllocator) A) : page_prog A := λ w,
  if primary_ (pg_pa w) then
    zoom (λ w, (pg_mem w, pg_buddy w)) (λ s w, mkPages s.1 s.2 (pg_pa w)) p w
  else Fault "null dereference".

(** [primary_->region()->...] *)
Definition primary_region : page_prog MemoryRegion :=
  r ← primary BuddyAllocator_region;
  match r with Some r => mret r | None => fault "null dereference" end.

Definition map_get (index : Z) : page_prog bool :=
  gets (λ w, BitArray_get (map_ (pg_pa w)) index (pg_mem w)).
Definition map_set (index : Z) (value : bool) : page_prog unit :=
  modify (λ w, set_pg_mem (BitArray_set (map_ (pg_pa w)) index value (pg_mem w)) w).

Definition zero_size_page : Z := 16.

(** ** Methods *)
Definition PageAllocator_initialize (fuel : nat) (first_free : Z) : page_prog unit :=
  modify (λ w, mkPages (pg_mem w) (pg_buddy w) (mkPageAllocator true (map_ (pg_pa w)))) ;;
  region ← primary_region;
  let map_size := align_up PAGE_SIZE (BitArray_expected_size (region_size region)) / PAGE_SIZE in
  let ptr := frame_add first_free map_size in
  let blk := mkPblk ptr (u32 (frame_diff (end_ region) ptr)) in
  primary (BuddyAllocator_put fuel blk) ;;
  modify (λ w,
    let '(ba, m) := BitArray_initialize first_free (region_size region) (pg_mem w) in
    mkPages m (pg_buddy w) (mkPageAllocator (primary_ (pg_pa w)) ba)).

(** The body of [allocate], behind its guard. *)
Definition allocate_body (fuel : nat) (pages : Z) : page_prog Z :=
  if pages =? 0 then mret zero_size_page
  else
    free_memory ← primary (BuddyAllocator_get fuel pages);
    if blk_ptr free_memory =? nullptr then mret nullptr
    else
      region ← primary_region;
      let page_index := u32 (region_index_of region (blk_ptr free_memory)) in
      let last_page_in_block := u32 (page_index + blk_size free_memory - 1) in
      map_set last_page_in_block true ;;
      mret (blk_ptr free_memory).

(** The scan for the last page of the block: the size found. *)
Fixpoint deallocate_scan (n : nat) (index size : Z) : page_prog Z :=
  match n with
  | O => no_fuel
  | S n =>
      region ← primary_region;
      if index =? region_size region then mret size
      else
        let size := u32 (size + 1) in
        last ← map_get index;
        if (last : bool) then map_set index false ;; mret size
        else deallocate_scan n (u32 (index + 1)) size
  end.

(** The body of [deallocate], behind its guard. *)
Definition deallocate_body (fuel : nat) (memory : Z) : page_prog unit :=
  if (memory =? nullptr) || (memory =? zero_size_page) then mret tt
  else
    region ← primary_region;
    let page_index := region_index_of region memory in
    size ← deallocate_scan fuel (u32 page_index) 0;
    primary (BuddyAllocator_put fuel (mkPblk memory size)).

(** The two methods, as they are called: a [RecursiveIrqGuard] around the body. *)
Definition PageAllocator_allocate (fuel : nat) (pages : Z) : prog (irq_state * PageAllocator.pages) Z :=
  RecursiveIrqGuard (on_world (allocate_body fuel pages)).
Definition PageAllocator_deallocate (fuel : nat) (memory : Z) : prog (irq_state * pages) unit :=
  RecursiveIrqGuard (on_world (deallocate_body fuel memory)).

(** * Verification *)

(** ** The invariant

    [al] maps the first page of every allocated block to its length in pages. *)
Definition map_bytes (ba : BitArray) (a : Z) : Prop :=
  in_block a (ba_data ba) (BitArray_expected_size (ba_size ba)).

Definition page_of (r : MemoryRegion) (p : Z) : Z := (p - begin_ r) / PAGE_SIZE.

Definition run_in (r : MemoryRegion) (p n : Z) : Prop :=
  1 ≤ n ∧ p mod PAGE_SIZE = 0 ∧ begin_ r ≤ p ∧ p + PAGE_SIZE * n ≤ end_ r.

Record PA_inv (w : pages) (al : gmap Z Z) (ls : nat → list Z) (r : MemoryRegion) : Prop := {
  pa_primary : primary_ (pg_pa w) = true;
  pa_region : region_ (pg_buddy w) = Some r;
  pa_region_ok : region_ok r ∧ zero_size_page < begin_ r;
  pa_buddy : Buddy_rep (pg_mem w) (pg_buddy w) ls;
  pa_wf : wf ls;
  pa_fit : bits_fit (map_ (pg_pa w)) (region_size r);
  pa_size : ba_size (map_ (pg_pa w)) = region_size r;
  pa_map : begin_ r ≤ ba_data (map_ (pg_pa w));
  pa_owned : ∀ a, owned ls a → begin_ r ≤ a < end_ r ∧ ¬ map_bytes (map_ (pg_pa w)) a;
  pa_runs : ∀ p n, al !! p = Some n → run_in r p n;
  pa_taken : ∀ p n a, al !! p = Some n → run_bytes p n a →
    ¬ owned ls a ∧ ¬ map_bytes (map_ (pg_pa w)) a;
  pa_disjoint : ∀ p n q k a, al !! p = Some n → al !! q = Some k →
    run_bytes p n a → run_bytes q k a → p = q;
  pa_bits : ∀ i, 0 ≤ i < region_size r →
    BitArray_get (map_ (pg_pa w)) i (pg_mem w) = true ↔
    ∃ p n, al !! p = Some n ∧ i = page_of r p + n - 1
}.

Lemma pages_eta w : mkPages (pg_mem w) (pg_buddy w) (pg_pa w) = w.
Proof. by destruct w. Qed.

Lemma primary_done {A} (p : prog (mem * BuddyAllocator) A) w a m b :
  primary_ (pg_pa w) = true → p (pg_mem w, pg_buddy w) = Done (a, (m, b)) →
  primary p w = Done (a, mkPages m b (pg_pa w)).
Proof. intros Hp H. unfold primary, zoom. by rewrite Hp, H. Qed.

Lemma primary_region_done w r : primary_ (pg_pa w) = true → region_ (pg_buddy w) = Some r →
  primary_region w = Done (r, w).
Proof.
  intros Hp Hr. unfold primary_region.
  rewrite (bind_done _ _ w (Some r) w); [done|].
  rewrite (primary_done _ w (Some r) (pg_mem w) (pg_buddy w)); [by rewrite pages_eta|done|].
  unfold BuddyAllocator_region, gets. simpl. by rewrite Hr.
Qed.

Lemma map_byte ba n i : bits_fit ba n → ba_size ba = n → 0 ≤ i < n →
  map_bytes ba (ba_data ba + i / 8).
Proof.
  intros Hf Hs Hi. unfold map_bytes. rewrite Hs. pose proof (index_byte_range n i Hi) as H.
  destruct Hf as (_ & ? & _). lia.
Qed.

(** The bits survive any change outside the map. *)
Lemma bits_unchanged w r m' i : bits_fit (map_ (pg_pa w)) (region_size r) →
  ba_size (map_ (pg_pa w)) = region_size r → 0 ≤ i < region_size r →
  (∀ a, map_bytes (map_ (pg_pa w)) a → load8 m' a = load8 (pg_mem w) a) →
  BitArray_get (map_ (pg_pa w)) i m' = BitArray_get (map_ (pg_pa w)) i (pg_mem w).
Proof.
  intros Hf Hs Hi Hm. apply (BitArray_get_ext _ (region_size r)); [done..|].
  apply Hm. by apply (map_byte _ (region_size r)).
Qed.

(** What a block knows about its pages. *)
Lemma run_pages r p n : region_ok r → run_in r p n →
  0 ≤ page_of r p ∧ page_of r p + n ≤ region_size r ∧ region_size r < 2 ^ 19 + 1 ∧
  p = begin_ r + PAGE_SIZE * page_of r p ∧ region_index_of r p = page_of r p ∧ p < 2 ^ 32.
Proof.
  intros Hr (Hn & Hp & Hb & He). pose proof Hr as (H1 & H2 & H3 & H4 & H5).
  rewrite region_size_ok by done. rewrite region_index_ok.
  - unfold page_of, PAGE_SIZE in *. Z.div_mod_to_equations. lia.
  - done.
  - unfold region_owns, PAGE_SIZE in *. rewrite andb_true_iff, Z.leb_le, Z.ltb_lt. lia.
Qed.

(** A page of a run, as bytes. *)
Lemma run_page r p n i : 1 ≤ n → page_of r p ≤ i < page_of r p + n →
  p = begin_ r + PAGE_SIZE * page_of r p → run_bytes p n (begin_ r + PAGE_SIZE * i).
Proof. intros. unfold run_bytes, PAGE_SIZE in *. lia. Qed.

(** ** Clients may write into their blocks *)
Lemma PA_inv_ext w al ls r m' : PA_inv w al ls r →
  (∀ a, owned ls a ∨ map_bytes (map_ (pg_pa w)) a → load8 m' a = load8 (pg_mem w) a) →
  PA_inv (set_pg_mem m' w) al ls r.
Proof.
  intros [] Hm. split; try done; cbn [pg_mem pg_buddy pg_pa set_pg_mem].
  - apply (Buddy_rep_same_owned (pg_mem w)); [done| |done]. intros a Ha. apply Hm. by left.
  - intros i Hi. rewrite (bits_unchanged w r); [by apply pa_bits0|done..|].
    intros a Ha. apply Hm. by right.
Qed.

Lemma PA_inv_write w al ls r m' : PA_inv w al ls r →
  (∀ a, ¬ in_blocks al a → load8 m' a = load8 (pg_mem w) a) →
  PA_inv (set_pg_mem m' w) al ls r.
Proof.
  intros H Hm. apply PA_inv_ext; [done|]. intros a Ha. apply Hm. intros (p & n & Hp & Hrun).
  destruct (pa_taken _ _ _ _ H p n a Hp Hrun). tauto.
Qed.

(** ** [allocate] *)

(** Two blocks with the same last page are one block. *)
Lemma last_page_unique w al ls r p n q k : PA_inv w al ls r →
  al !! p = Some n → al !! q = Some k → page_of r p ≤ page_of r q + k - 1 < page_of r p + n →
  p = q.
Proof.
  intros H Hp Hq Hi. destruct (run_pages r p n) as (_ & _ & _ & Ep & _);
    [apply H|by apply (pa_runs _ _ _ _ H)|].
  pose proof (pa_runs _ _ _ _ H q k Hq) as Hk. destruct (run_pages r q k) as (_ & _ & _ & Eq & _);
    [apply H|done|]. destruct Hk as (Hk & _).
  pose proof (pa_runs _ _ _ _ H p n Hp) as (Hn & _).
  apply (pa_disjoint _ _ _ _ H p n q k (begin_ r + PAGE_SIZE * (page_of r q + k - 1)));
    [done|done|apply run_page; lia..].
Qed.

(** Memory after a step of the allocator: only free memory and the map change. *)
Definition pa_unchanged (w w' : pages) (ls : nat → list Z) : Prop :=
  ∀ a, ¬ owned ls a → ¬ map_bytes (map_ (pg_pa w)) a →
    load8 (pg_mem w') a = load8 (pg_mem w) a.

(** The block goes in. *)
Lemma PA_inv_add w al ls r ls' b' m' p n : PA_inv w al ls r →
  Buddy_rep m' b' ls' → wf ls' → region_ b' = Some r → run_in r p n →
  (∀ a, owned ls a ↔ owned ls' a ∨ run_bytes p n a) →
  (∀ a, run_bytes p n a → ¬ owned ls' a) → unchanged (owned ls) (pg_mem w) m' →
  let i := page_of r p + n - 1 in
  al !! p = None ∧
  PA_inv (mkPages (BitArray_set (map_ (pg_pa w)) i true m') b' (pg_pa w)) (<[p := n]> al) ls' r.
Proof.
  intros H Hrep Hwf Hreg Hrun Hown Hdis Hun i.
  pose proof (run_pages r p n ltac:(apply H) Hrun) as (Hp0 & Hp1 & Hp2 & Hp3 & _).
  pose proof Hrun as (Hn & _). pose proof (pa_fit _ _ _ _ H) as Hfit.
  assert (Hi : 0 ≤ i < region_size r) by lia.
  assert (Hself : run_bytes p n p) by (unfold run_bytes, PAGE_SIZE; lia).
  assert (Hnone : al !! p = None).
  { destruct (al !! p) as [k|] eqn:E; [|done]. exfalso.
    pose proof (pa_runs _ _ _ _ H p k E) as (Hk & _).
    destruct (pa_taken _ _ _ _ H p k p E) as [Hno _]; [unfold run_bytes, PAGE_SIZE; lia|].
    apply Hno, Hown. by right. }
  assert (Hfresh : ∀ q k a, al !! q = Some k → run_bytes q k a → ¬ run_bytes p n a).
  { intros q k a Hq Ha Ha'. destruct (pa_taken _ _ _ _ H q k a Hq Ha) as [Hno _].
    apply Hno, Hown. by right. }
  split; [done|]. split; try apply H; cbn [pg_mem pg_buddy pg_pa]; try done.
  - apply (Buddy_rep_same_owned m'); [done| |done]. intros a Ha.
    apply (BitArray_set_other _ (region_size r)); [done..|]. intros ->.
    apply (pa_owned _ _ _ _ H _ (proj2 (Hown _) (or_introl Ha))).
    apply (map_byte _ (region_size r)); [done|apply H|done].
  - intros a Ha. apply (pa_owned _ _ _ _ H), Hown. by left.
  - intros q k. rewrite lookup_insert_Some. intros [[<- <-]|[_ Hq]]; [done|by apply H].
  - intros q k a. rewrite lookup_insert_Some. intros [[<- <-]|[_ Hq]] Ha.
    + split; [by apply Hdis|]. apply (pa_owned _ _ _ _ H), Hown. by right.
    + destruct (pa_taken _ _ _ _ H q k a Hq Ha) as [Hno ?]. split; [|done].
      intros Ho. apply Hno, Hown. by left.
  - intros q k q' k' a. rewrite !lookup_insert_Some.
    intros [[<- <-]|[_ Hq]] [[<- <-]|[_ Hq']] Ha Ha'; [done|..].
    + by destruct (Hfresh q' k' a).
    + by destruct (Hfresh q k a).
    + by apply (pa_disjoint _ _ _ _ H q k q' k' a).
  - intros j Hj. rewrite (BitArray_get_set _ (region_size r)) by done.
    destruct (decide (j = i)) as [->|Hne].
    + split; [|done]. intros _. exists p, n. by rewrite lookup_insert_eq.
    + rewrite (bits_unchanged w r); [|done|apply H|done|].
      2:{ intros a Ha. apply Hun. intros Ho. by apply (pa_owned _ _ _ _ H a Ho). }
      rewrite (pa_bits _ _ _ _ H j Hj). split; intros (q & k & Hq & ->); exists q, k.
      * rewrite lookup_insert_ne by congruence. done.
      * rewrite lookup_insert_Some in Hq. destruct Hq as [[<- <-]|[_ Hq]]; [done|done].
Qed.

Lemma PageAllocator_allocate_at fuel w al ls r n :
  PA_inv w al ls r → 2 ^ 20 + 1 < Z.of_nat fuel → 1 ≤ n ≤ 2 ^ 31 →
  ∃ p w' al' ls', allocate_body fuel n w = Done (p, w') ∧ PA_inv w' al' ls' r ∧
    ((p = nullptr ∧ al' = al ∧ ls' = ls ∧ unchanged (λ _, False) (pg_mem w) (pg_mem w') ∧
      ∀ i, (i ≤ 10)%nat → n ≤ 2 ^ Z.of_nat i → ls i = []) ∨
     (zero_size_page < p ∧ al !! p = None ∧ al' = <[p := n]> al ∧
      pa_unchanged w w' ls ∧ (∀ a, owned ls a ↔ owned ls' a ∨ run_bytes p n a) ∧ best_fit ls n p)).
Proof.
  intros H Hfuel Hn. unfold allocate_body. destruct (Z.eqb_spec n 0); [lia|].
  destruct (BuddyAllocator_get_at fuel (pg_mem w) (pg_buddy w) ls n) as
    (blk & m' & b' & ls' & W & Hrep & Hwf & _ & Hreg & Hcase); [apply H|apply H|done|lia|].
  rewrite (bind_done _ _ _ _ _ (primary_done _ _ _ _ _ (pa_primary _ _ _ _ H) W)).
  rewrite (pa_region _ _ _ _ H) in Hreg.
  destruct Hcase as [(-> & -> & Hun & Hnil)|(Hsz & (Hpos & Hal & Hend & Hown & Hdis) & Hin & Hun & Hbest)].
  { exists nullptr, (mkPages m' b' (pg_pa w)), al, ls. split_and!; [done| |by left].
    split; try apply H; cbn [pg_mem pg_buddy pg_pa]; try done. intros i Hi.
    rewrite (bits_unchanged w r); [by apply H|apply H|apply H|done|]. intros a _. apply Hun; tauto. }
  destruct blk as [p size]; cbn [blk_ptr blk_size] in *. subst size.
  assert (Hrun : run_in r p n).
  { assert (Ho : ∀ a, run_bytes p n a → begin_ r ≤ a < end_ r).
    { intros a Ha. apply (pa_owned _ _ _ _ H), Hown. by right. }
    unfold run_bytes, run_in, PAGE_SIZE in *.
    pose proof (Ho p ltac:(lia)). pose proof (Ho (p + 4096 * n - 1) ltac:(lia)).
    split_and!; lia. }
  destruct (Z.eqb_spec p nullptr) as [->|_]; [done|].
  pose proof (run_pages r p n ltac:(apply H) Hrun) as (Hp0 & Hp1 & Hp2 & Hp3 & Hp4 & Hp5).
  destruct (PA_inv_add w al ls r ls' b' m' p n) as [Hnone Hinv]; try done.
  rewrite (bind_done _ _ _ _ _
    (primary_region_done (mkPages m' b' (pg_pa w)) r (pa_primary _ _ _ _ H) Hreg)).
  rewrite Hp4, (u32_small (page_of r p)), u32_small by lia.
  eexists p, _, _, ls'. split; [reflexivity|]. split; [exact Hinv|]. right.
  assert (Hz := proj2 (pa_region_ok _ _ _ _ H)). destruct Hrun as (? & ? & ? & ?).
  split_and!; [lia|done|done| |done|done]. intros a Ha Hma. cbn [pg_mem set_pg_mem pg_pa].
  rewrite (BitArray_set_other _ (region_size r)); [by apply Hun|apply H|lia|].
  intros ->. apply Hma, (map_byte _ (region_size r)); [apply H|apply H|lia].
Qed.

Lemma PageAllocator_allocate_done fuel w al ls r n :
  PA_inv w al ls r → 2 ^ 20 + 1 < Z.of_nat fuel → 1 ≤ n ≤ 2 ^ 31 →
  ∃ p w' al' ls', allocate_body fuel n w = Done (p, w') ∧ PA_inv w' al' ls' r ∧
    ((p = nullptr ∧ al' = al ∧ ls' = ls ∧ unchanged (λ _, False) (pg_mem w) (pg_mem w') ∧
      ∀ i, (i ≤ 10)%nat → n ≤ 2 ^ Z.of_nat i → ls i = []) ∨
     (zero_size_page < p ∧ al !! p = None ∧ al' = <[p := n]> al ∧
      pa_unchanged w w' ls)).
Proof.
  intros H Hf Hn. destruct (PageAllocator_allocate_at fuel w al ls r n H Hf Hn) as (p & w' & al' & ls' & W & Hi & C).
  exists p, w', al', ls'. split; [done|]. split; [done|]. destruct C as [C|(? & ? & ? & ? & _)]; [by left|by right].
Qed.

(** ** [deallocate] *)
Lemma deallocate_scan_done r n w idx size j :
  primary_ (pg_pa w) = true → region_ (pg_buddy w) = Some r →
  0 ≤ idx → idx + Z.of_nat j < region_size r → region_size r < 2 ^ 19 + 1 →
  0 ≤ size ≤ idx → (j < n)%nat →
  (∀ i, idx ≤ i < idx + Z.of_nat j → BitArray_get (map_ (pg_pa w)) i (pg_mem w) = false) →
  BitArray_get (map_ (pg_pa w)) (idx + Z.of_nat j) (pg_mem w) = true →
  deallocate_scan n idx size w = Done (size + Z.of_nat j + 1,
    set_pg_mem (BitArray_set (map_ (pg_pa w)) (idx + Z.of_nat j) false (pg_mem w)) w).
Proof.
  intros Hp Hr. revert n idx size. induction j as [|j IH]; intros n idx size H0 H1 H2 H3 H4 Hf Ht;
    (destruct n as [|n]; [lia|]); cbn [deallocate_scan];
    rewrite (bind_done _ _ _ _ _ (primary_region_done _ _ Hp Hr));
    (destruct (Z.eqb_spec idx (region_size r)); [lia|]);
    unfold map_get, map_set; rewrite gets_bind, u32_small by lia.
  - change (Z.of_nat 0) with 0 in *. rewrite !Z.add_0_r in *. by rewrite Ht, modify_bind.
  - rewrite Hf by lia. rewrite u32_small by lia.
    replace (idx + Z.of_nat (S j)) with (idx + 1 + Z.of_nat j) in * by lia.
    rewrite IH; [|lia..| |done].
    + do 2 f_equal. lia.
    + intros i Hi. apply Hf. lia.
Qed.

(** The block goes out; its pages are in no list yet. *)
Lemma PA_inv_remove w al ls r ls' b' m' p n : PA_inv w al ls r → al !! p = Some n →
  let i := page_of r p + n - 1 in
  let m := BitArray_set (map_ (pg_pa w)) i false (pg_mem w) in
  Buddy_rep m' b' ls' → wf ls' → region_ b' = Some r →
  (∀ a, owned ls' a ↔ owned ls a ∨ run_bytes p n a) → unchanged (owned ls') m m' →
  PA_inv (mkPages m' b' (pg_pa w)) (delete p al) ls' r.
Proof.
  intros H Hp i m Hrep Hwf Hreg Hown Hun.
  pose proof (pa_runs _ _ _ _ H p n Hp) as Hrun. pose proof (pa_fit _ _ _ _ H) as Hfit.
  pose proof (run_pages r p n ltac:(apply H) Hrun) as (Hp0 & Hp1 & Hp2 & Hp3 & _).
  pose proof Hrun as (Hn & _).
  assert (Hi : 0 ≤ i < region_size r) by lia.
  split; try apply H; cbn [pg_mem pg_buddy pg_pa]; try done.
  - intros a [Ha|Ha]%Hown; [by apply (pa_owned _ _ _ _ H)|].
    split; [|by apply (pa_taken _ _ _ _ H p n a Hp Ha)].
    destruct Hrun as (_ & _ & ? & ?). unfold run_bytes in Ha. lia.
  - intros q k [_ Hq]%lookup_delete_Some. by apply H.
  - intros q k a [Hne Hq]%lookup_delete_Some Ha. destruct (pa_taken _ _ _ _ H q k a Hq Ha).
    split; [|done]. intros [Ho|Ho]%Hown; [done|]. apply Hne.
    by apply (pa_disjoint _ _ _ _ H p n q k a).
  - intros q k q' k' a [_ Hq]%lookup_delete_Some [_ Hq']%lookup_delete_Some.
    by apply (pa_disjoint _ _ _ _ H).
  - intros j Hj. rewrite (BitArray_get_ext _ (region_size r) j m); [|done..|].
    2:{ apply Hun. intros Ho.
        assert (Hm := map_byte _ (region_size r) j Hfit (pa_size _ _ _ _ H) Hj).
        apply Hown in Ho as [Ho|Ho]; [by apply (pa_owned _ _ _ _ H) in Ho as [_ Ho]|].
        by apply (pa_taken _ _ _ _ H p n _ Hp Ho). }
    unfold m. rewrite (BitArray_get_set _ (region_size r)) by done.
    destruct (decide (j = i)) as [->|Hne].
    + split; [done|]. intros (q & k & [Hne Hq]%lookup_delete_Some & Hi').
      destruct Hne. apply (last_page_unique w al ls r p n q k); [done..|lia].
    + rewrite (pa_bits _ _ _ _ H j Hj). split; intros (q & k & Hq & Ej); exists q, k;
        (split; [|done]); [apply lookup_delete_Some|by apply lookup_delete_Some in Hq as [_ Hq]].
      split; [|done]. intros <-. rewrite Hp in Hq. by injection Hq as <-.
Qed.

Lemma PageAllocator_deallocate_done fuel w al ls r p n :
  PA_inv w al ls r → 2 ^ 20 + 1 < Z.of_nat fuel → al !! p = Some n →
  ∃ w' ls', deallocate_body fuel p w = Done (tt, w') ∧
    PA_inv w' (delete p al) ls' r ∧
    (∀ a, owned ls' a ↔ owned ls a ∨ run_bytes p n a) ∧
    pa_unchanged w w' ls'.
Proof.
  intros H Hfuel Hp. pose proof (pa_runs _ _ _ _ H p n Hp) as Hrun.
  pose proof (run_pages r p n ltac:(apply H) Hrun) as (Hp0 & Hp1 & Hp2 & Hp3 & Hp4 & Hp5).
  pose proof (pa_fit _ _ _ _ H) as Hfit. pose proof Hrun as (Hn & Hal & Hb & He).
  destruct (pa_region_ok _ _ _ _ H) as [(_ & _ & _ & Hr4 & _) Hz].
  unfold deallocate_body, zero_size_page in *.
  destruct (Z.eqb_spec p nullptr); [unfold nullptr in *; lia|].
  destruct (Z.eqb_spec p 16); [lia|]. cbn [orb].
  rewrite (bind_done _ _ _ _ _ (primary_region_done w r (pa_primary _ _ _ _ H) (pa_region _ _ _ _ H))).
  rewrite Hp4, u32_small by lia. set (i := page_of r p + n - 1).
  assert (Ei : i = page_of r p + Z.of_nat (Z.to_nat (n - 1))) by (unfold i; lia).
  rewrite (bind_done _ _ w (0 + Z.of_nat (Z.to_nat (n - 1)) + 1)
    (set_pg_mem (BitArray_set (map_ (pg_pa w)) i false (pg_mem w)) w)).
  2:{ rewrite Ei. apply (deallocate_scan_done r); rewrite <- ?Ei; try apply H; unfold i; try lia.
      - intros j Hj. apply not_true_iff_false. rewrite (pa_bits _ _ _ _ H) by lia.
        intros (q & k & Hq & ->).
        assert (p = q) as <- by (apply (last_page_unique w al ls r p n q k); [done..|lia]).
        rewrite Hp in Hq. injection Hq as <-. lia.
      - by exists p, n. }
  replace (0 + Z.of_nat (Z.to_nat (n - 1)) + 1) with n by lia.
  set (m := BitArray_set _ _ _ _).
  assert (Hmap : ∀ a, ¬ map_bytes (map_ (pg_pa w)) a → load8 m a = load8 (pg_mem w) a).
  { intros a Ha. apply (BitArray_set_other _ (region_size r)); [done|unfold i; lia|].
    intros ->. apply Ha, (map_byte _ (region_size r)); [done|apply H|unfold i; lia]. }
  assert (Hrep : Buddy_rep m (pg_buddy w) ls).
  { apply (Buddy_rep_same_owned (pg_mem w)); [apply H| |apply H]. intros a Ha. apply Hmap.
    by apply (pa_owned _ _ _ _ H). }
  destruct (BuddyAllocator_put_done fuel m (pg_buddy w) ls p n) as
    (m' & b' & ls' & W & Hrep' & Hwf' & _ & _ & Hreg & Hadd & Hun); try done;
    [apply H|lia|lia|lia| |].
  { intros a Ha. by apply (pa_taken _ _ _ _ H p n a). }
  rewrite (pa_region _ _ _ _ H) in Hreg.
  exists (mkPages m' b' (pg_pa w)), ls'. split_and!.
  - rewrite (primary_done _ _ tt m' b'); [done|apply H|exact W].
  - by apply (PA_inv_remove w al ls r ls' b' m' p n).
  - done.
  - intros a Ha Hma. cbn [pg_mem]. rewrite (Hun a Ha). by apply Hmap.
Qed.

(** ** [initialize] *)
Definition map_pages (r : MemoryRegion) : Z :=
  align_up PAGE_SIZE (BitArray_expected_size (region_size r)) / PAGE_SIZE.

Lemma map_pages_spec r : region_ok r →
  0 ≤ BitArray_expected_size (region_size r) ≤ PAGE_SIZE * map_pages r ∧ 0 ≤ map_pages r ≤ 16 ∧
  region_size r < 2 ^ 19 + 1.
Proof.
  intros Hr. pose proof Hr as (H1 & H2 & H3 & H4 & H5). unfold map_pages.
  assert (Hs : 0 ≤ region_size r ≤ 2 ^ 19).
  { rewrite region_size_ok by done. unfold PAGE_SIZE in *. Z.div_mod_to_equations. lia. }
  rewrite expected_size_ceil by lia. change PAGE_SIZE with (2 ^ 12).
  rewrite align_up_spec by zify_wraps. rewrite u32_small by zify_wraps. zify_wraps.
Qed.

Lemma PageAllocator_initialize_done fuel w r first_free :
  2 ^ 20 + 1 < Z.of_nat fuel → Buddy_rep (pg_mem w) (pg_buddy w) (λ _, []) →
  region_ (pg_buddy w) = Some r → region_ok r → zero_size_page < begin_ r →
  begin_ r ≤ first_free → first_free mod PAGE_SIZE = 0 →
  first_free + PAGE_SIZE * map_pages r ≤ end_ r →
  ∃ w' ls, PageAllocator_initialize fuel first_free w = Done (tt, w') ∧ PA_inv w' ∅ ls r ∧
    (∀ a, owned ls a ↔ first_free + PAGE_SIZE * map_pages r ≤ a < end_ r) ∧
    (∀ a, ¬ first_free ≤ a < end_ r → load8 (pg_mem w') a = load8 (pg_mem w) a).
Proof.
  intros Hfuel Hrep Hreg Hr Hz Hb Hal He. pose proof (map_pages_spec r Hr) as (Hm1 & Hm2 & Hm3).
  pose proof Hr as (H1 & H2 & H3 & H4 & H5). unfold zero_size_page in Hz.
  unfold PageAllocator_initialize. rewrite modify_bind. set (w0 := mkPages _ _ _).
  rewrite (bind_done _ _ _ _ _ (primary_region_done w0 r eq_refl Hreg)).
  fold (map_pages r). set (mp := map_pages r) in *.
  rewrite frame_add_small by (unfold PAGE_SIZE in *; lia).
  set (ptr := first_free + PAGE_SIZE * mp) in *.
  set (size := (end_ r - ptr) / PAGE_SIZE).
  assert (Hsize : u32 (frame_diff (end_ r) ptr) = size ∧ ptr + PAGE_SIZE * size = end_ r ∧ 0 ≤ size
    ∧ ptr mod PAGE_SIZE = 0).
  { unfold frame_diff, size, ptr, PAGE_SIZE in *. zify_wraps. }
  destruct Hsize as (-> & Hend & Hs0 & Halp).
  assert (Hempty : ∀ a, ¬ owned (λ _, []) a) by (intros a (? & ? & _ & []%elem_of_nil & _)).
  assert (Hput : ∃ m' b' ls', BuddyAllocator_put fuel (mkPblk ptr size) (pg_mem w, pg_buddy w)
      = Done (tt, (m', b')) ∧ Buddy_rep m' b' ls' ∧ wf ls' ∧ region_ b' = Some r ∧
      (∀ a, owned ls' a ↔ ptr ≤ a < end_ r) ∧ unchanged (owned ls') (pg_mem w) m').
  { destruct (decide (size = 0)) as [Es|Es].
    - exists (pg_mem w), (pg_buddy w), (λ _, []). unfold BuddyAllocator_put; cbn [blk_size].
      rewrite Es. split_and!; [done|done|apply wf_empty|done| |done].
      intros a. specialize (Hempty a). rewrite Es in Hend. split; [done|lia].
    - destruct (BuddyAllocator_put_done fuel (pg_mem w) (pg_buddy w) (λ _, []) ptr size) as
        (m' & b' & ls' & W & Hrep' & Hwf' & _ & _ & Hreg' & Hadd & Hun);
        try done; try apply wf_empty; try (unfold PAGE_SIZE in *; lia).
      exists m', b', ls'. rewrite Hreg in Hreg'. split_and!; try done.
      intros a. rewrite (Hadd a). specialize (Hempty a). unfold run_bytes. rewrite Hend. tauto. }
  destruct Hput as (m' & b' & ls' & W & Hrep' & Hwf' & Hreg' & Hown & Hun).
  rewrite (bind_done _ _ _ _ _ (primary_done _ w0 tt m' b' eq_refl W)).
  assert (Hfit : bits_fit (mkBitArray (region_size r) first_free) (region_size r)).
  { split_and!; cbn [ba_data]; [unfold PAGE_SIZE in *; lia| |lia|lia].
    rewrite region_size_ok by done. unfold PAGE_SIZE. Z.div_mod_to_equations. lia. }
  pose proof (λ a, BitArray_initialize_load first_free (region_size r) m' a Hfit) as Hl.
  pose proof (λ i, BitArray_initialize_get first_free (region_size r) m' i Hfit) as Hg.
  unfold modify. cbn [pg_mem pg_buddy pg_pa primary_].
  set (ini := BitArray_initialize _ _ _) in *.
  assert (Ei : ini = (mkBitArray (region_size r) first_free, ini.2)) by done.
  rewrite Ei. eexists _, ls'. split; [reflexivity|]. cbn [pg_mem].
  assert (Hout : ∀ a, ¬ first_free ≤ a < ptr → load8 ini.2 a = load8 m' a).
  { intros a Ha. rewrite Hl. destruct (decide _); [unfold ptr in *; lia|done]. }
  split_and!; [|done|].
  2:{ intros a Ha. rewrite Hout by lia. apply Hun. rewrite Hown. unfold ptr in *. lia. }
  split; cbn [pg_mem pg_buddy pg_pa primary_ map_ ba_size]; try done.
  - apply (Buddy_rep_same_owned m'); [done| |done]. intros a Ha%Hown. apply Hout. lia.
  - intros a Ha%Hown. unfold map_bytes; cbn [ba_data ba_size]. unfold ptr in *. lia.
  - intros i Hi. rewrite Hg by done. split; [done|]. by intros (p & n & Hp & _).
Qed.

(** ** The page allocator provides pages *)
Lemma in_blocks_free w al ls r a : PA_inv w al ls r → in_blocks al a →
  ¬ owned ls a ∧ ¬ map_bytes (map_ (pg_pa w)) a.
Proof. intros H (p & n & Hp & Ha). by apply (pa_taken _ _ _ _ H p n a). Qed.

#[export, program] Instance pages_provider (fuel : nat) (Hfuel : 2 ^ 20 + 1 < Z.of_nat fuel) :
  PageProvider pages := {|
    alloc_pages := allocate_body fuel;
    free_pages := deallocate_body fuel;
    page_mem := pg_mem;
    set_page_mem := set_pg_mem;
    page_rep w al := ∃ ls r, PA_inv w al ls r;
    page_scarce w al n := ∃ ls r, PA_inv w al ls r ∧ ∀ i, (i ≤ 10)%nat → n ≤ 2 ^ Z.of_nat i → ls i = []
  |}.
Next Obligation. done. Qed.
Next Obligation.
  intros fuel Hfuel w al p n (ls & r & H) Hp. pose proof (pa_runs _ _ _ _ H p n Hp) as (? & ? & ? & ?).
  destruct (pa_region_ok _ _ _ _ H) as [(? & ? & ? & ? & ?) Hz]. unfold zero_size_page in Hz.
  split_and!; [done|lia|done|lia].
Qed.
Next Obligation.
  intros fuel Hfuel w al p n q k a (ls & r & H). by apply (pa_disjoint _ _ _ _ H).
Qed.
Next Obligation.
  intros fuel Hfuel w al m (ls & r & H) Hm. exists ls, r. by apply PA_inv_write.
Qed.
Next Obligation.
  intros fuel Hfuel w al n (ls & r & H) Hn.
  destruct (PageAllocator_allocate_done fuel w al ls r n H Hfuel Hn) as
    (p & w' & al' & ls' & W & Hinv & Hcase).
  exists p, w', al'. split; [done|]. split; [by exists ls', r|].
  destruct Hcase as [(-> & -> & _ & Hun & Hscarce)|(Hp & Hnone & -> & Hun)].
  - split; [left; split_and!; [done|done|by exists ls, r]|]. intros a _. apply Hun. tauto.
  - split.
    + right. split_and!; try done. unfold zero_size_page, nullptr in *. lia.
    + intros a Ha. by apply Hun; eapply in_blocks_free.
Qed.
Next Obligation.
  intros fuel Hfuel w al p n (ls & r & H) Hp.
  destruct (PageAllocator_deallocate_done fuel w al ls r p n H Hfuel Hp) as
    (w' & ls' & W & Hinv & Hadd & Hun).
  exists w'. split; [done|]. split; [by exists ls', r|].
  intros a (q & k & [Hne Hq]%lookup_delete_Some & Ha).
  destruct (pa_taken _ _ _ _ H q k a Hq Ha) as [Hno Hma]. apply Hun; [|done].
  intros [Ho|Ho]%Hadd; [done|]. apply Hne. by apply (pa_disjoint _ _ _ _ H p n q k a).
Qed.
Next Obligation. done. Qed.

(** * Properties *)


(** C6: [deallocate] of an allocated block terminates and returns exactly the
    pages [allocate] took: it finds the length in the map, clears the mark, makes
    the bytes of the block free and keeps the invariant without the block, and its
    interrupt guard leaves the flag as the shadow has it. *)
Theorem page_deallocate_correct fuel s w al ls r p n
    (Hinv : PA_inv w al ls r) (Hfuel : 2 ^ 20 + 1 < Z.of_nat fuel) (Hp : al !! p = Some n) :
  ∃ w' ls', PageAllocator_deallocate fuel p (s, w) = Done (tt, (unlocked s, w')) ∧
    PA_inv w' (delete p al) ls' r ∧
    (∀ a, owned ls' a ↔ owned ls a ∨ run_bytes p n a) ∧
    pa_unchanged w w' ls'.
Proof.
  destruct (PageAllocator_deallocate_done fuel w al ls r p n Hinv Hfuel Hp) as (w' & ls' & W & H).
  exists w', ls'. split; [by apply RecursiveIrqGuard_done|done].
Qed.

(** C25: [initialize] on an empty buddy system establishes the invariant with no
    block allocated: the free memory is everything in the region from the page
    after the map to the end, and nothing outside is written. *)
Theorem page_initialize_correct fuel w r first_free
    (Hfuel : 2 ^ 20 + 1 < Z.of_nat fuel)
    (Hbuddy : Buddy_rep (pg_mem w) (pg_buddy w) (λ _, []) ∧ region_ (pg_buddy w) = Some r)
    (Hregion : region_ok r ∧ zero_size_page < begin_ r)
    (Hfirst : begin_ r ≤ first_free ∧ first_free mod PAGE_SIZE = 0 ∧
              first_free + PAGE_SIZE * map_pages r ≤ end_ r) :
  ∃ w' ls, PageAllocator_initialize fuel first_free w = Done (tt, w') ∧ PA_inv w' ∅ ls r ∧
    (∀ a, owned ls a ↔ first_free + PAGE_SIZE * map_pages r ≤ a < end_ r) ∧
    (∀ a, ¬ first_free ≤ a < end_ r → load8 (pg_mem w') a = load8 (pg_mem w) a).
Proof.
  destruct Hbuddy, Hregion, Hfirst as (? & ? & ?). by apply PageAllocator_initialize_done.
Qed.

(** ** Witnesses: one megabyte and a half of memory from 1 MiB *)
Definition example_region : MemoryRegion := mkMemoryRegion 1048576 2621440.
Definition example_pages : pages :=
  mkPages ∅ (mkBuddy 0 0 empty_lists (Some example_region)) PageAllocator_default.

Lemma example_region_ok : region_ok example_region ∧ zero_size_page < begin_ example_region.
Proof. by split_and!. Qed.

Lemma example_first_free : begin_ example_region ≤ 1056768 ∧ 1056768 mod PAGE_SIZE = 0 ∧
  1056768 + PAGE_SIZE * map_pages example_region ≤ end_ example_region.
Proof. by split_and!. Qed.

Lemma page_initialize_correct_witness :
  ∃ w' ls, PageAllocator_initialize example_fuel 1056768 example_pages = Done (tt, w') ∧
    PA_inv w' ∅ ls example_region ∧
    (∀ a, owned ls a ↔ 1056768 + PAGE_SIZE * map_pages example_region ≤ a < end_ example_region) ∧
    (∀ a, ¬ 1056768 ≤ a < end_ example_region →
       load8 (pg_mem w') a = load8 (pg_mem example_pages) a).
Proof.
  apply page_initialize_correct; [apply example_fuel_enough| |apply example_region_ok|
    apply example_first_free]. split; [apply empty_lists_rep|reflexivity].
Defined.

(** A machine after [initialize]. *)
Lemma example_started : ∃ w ls, PA_inv w ∅ ls example_region ∧
  (∀ a, owned ls a ↔ 1056768 + PAGE_SIZE * map_pages example_region ≤ a < end_ example_region).
Proof.
  destruct (PageAllocator_initialize_done example_fuel example_pages example_region 1056768)
    as (w & ls & _ & H1 & H2 & _); try done; try apply example_fuel_enough; try apply empty_lists_rep.
  by exists w, ls.
Qed.


(** A machine on which three pages are allocated and nothing is free. *)
Definition example_map : BitArray := mkBitArray 384 1056768.
Definition example_one_block : pages :=
  mkPages (BitArray_set example_map 12 true ∅) (mkBuddy 0 0 empty_lists (Some example_region))
    (mkPageAllocator true example_map).

Lemma example_one_block_inv :
  PA_inv example_one_block {[ 1089536 := 3 ]} (λ _, []) example_region.
Proof.
  assert (Hno : ∀ a, ¬ owned (λ _, []) a) by (intros a (? & ? & _ & []%elem_of_nil & _)).
  assert (Hfit : bits_fit example_map (region_size example_region)) by by split_and!.
  split; try done; cbn [pg_mem pg_buddy pg_pa example_one_block].
  - apply empty_lists_rep.
  - apply wf_empty.
  - intros a Ha. by destruct (Hno a).
  - intros p n [<- <-]%lookup_singleton_Some. by split_and!.
  - intros p n a [<- <-]%lookup_singleton_Some Ha. split; [apply Hno|].
    unfold map_bytes, run_bytes in *. change (BitArray_expected_size _) with 48.
    change (ba_data _) with 1056768. unfold PAGE_SIZE in *. lia.
  - intros p n q k a [<- _]%lookup_singleton_Some [<- _]%lookup_singleton_Some. done.
  - intros i Hi. rewrite (BitArray_get_set _ (region_size example_region)) by done.
    destruct (decide (i = 12)) as [->|Hne].
    + split; [|done]. intros _. exists 1089536, 3. by rewrite lookup_singleton_eq.
    + rewrite (BitArray_get_testbit _ (region_size example_region)) by done.
      change (load8 ∅ _) with 0. rewrite Z.bits_0. split; [done|].
      by intros (p & n & [<- <-]%lookup_singleton_Some & ->).
Qed.

Lemma page_deallocate_correct_witness :
  ∃ w' ls', PageAllocator_deallocate example_fuel 1089536 (mkIrq true true, example_one_block)
      = Done (tt, (mkIrq true true, w')) ∧
    PA_inv w' (delete 1089536 {[ 1089536 := 3 ]}) ls' example_region ∧
    (∀ a, owned ls' a ↔ owned (λ _, []) a ∨ run_bytes 1089536 3 a) ∧
    pa_unchanged example_one_block w' ls'.
Proof.
  apply (page_deallocate_correct example_fuel (mkIrq true true) example_one_block {[ 1089536 := 3 ]}
    (λ _, []) example_region 1089536 3);
    [apply example_one_block_inv|apply example_fuel_enough|apply lookup_singleton_eq].
Defined.
