(* ===== verification/PageReserve.v ===== *)
(** * The memory a page allocator manages

    More about [memory/page_allocator.cpp] for the clients that are verified against
    [PageProvider]: what their calls do to the memory as a whole ([managed_provider]), how much
    memory is enough for them ([chunks_scarce]), and that the interrupt guard of the two methods
    makes no difference to them ([guarded_provider]). *)
From stdpp Require Import base functions tactics numbers list gmap strings.
From S2P Require Import Prelude MemUtils MemoryRegion FreeList Buddy BuddyCanon BitArray Ports Irq PageProvider PageAllocator.

(** ** The memory it manages

    The free bytes and the bytes of the blocks together are a constant of the page allocator:
    what [initialize] was given.
    Blocks of at most [chunk_pages] pages lie in one aligned chunk of that many pages each. *)
Definition chunk_pages : Z := 512.
Definition chunk_bytes : Z := PAGE_SIZE * chunk_pages.

Definition in_chunks (al : gmap Z Z) : Prop :=
  ∀ p k, al !! p = Some k → k ≤ chunk_pages → p mod chunk_bytes + PAGE_SIZE * k ≤ chunk_bytes.

Definition managed (r : MemoryRegion) (area : Z → Prop) (w : pages) (al : gmap Z Z) : Prop :=
  ∃ ls, PA_inv w al ls r ∧ (∀ a, owned ls a ∨ in_blocks al a ↔ area a) ∧ in_chunks al.

(** A request that can fail: it is larger than a chunk, or a block that is, or every chunk of the
    area has a block in it. *)
Definition chunks_scarce (area : Z → Prop) (al : gmap Z Z) (n : Z) : Prop :=
  chunk_pages < n ∨ (∃ p k, al !! p = Some k ∧ chunk_pages < k) ∨
  ∀ cs : list Z, NoDup cs → (∀ c a, c ∈ cs → in_block a (chunk_bytes * c) chunk_bytes → area a) →
    (length cs ≤ size al)%nat.

(** With chunks that no block lies in, there is a large free block. *)
Lemma chunk_empty area al ls c : wf ls → in_chunks al → (∀ p k, al !! p = Some k → k ≤ chunk_pages) →
  (∀ a, owned ls a ∨ in_blocks al a ↔ area a) →
  (∀ a, in_block a (chunk_bytes * c) chunk_bytes → area a) →
  (∀ i, (i ≤ 10)%nat → chunk_pages ≤ 2 ^ Z.of_nat i → ls i = []) →
  ∃ p k, al !! p = Some k ∧ p / chunk_bytes = c.
Proof.
  intros Hwf Hch Hsmall Harea Hc Hnone.
  destruct (decide (Exists (λ q, q.1 / chunk_bytes = c) (map_to_list al))) as [H|H].
  { apply Exists_exists in H as ([p k] & Hp%elem_of_map_to_list & E). by exists p, k. }
  exfalso. destruct (free_block ls Hwf 9 (chunk_bytes * c)) as (j & x & Hj & Hx & _); [lia|..].
  - rewrite Z.mul_comm. by apply Z.mod_mul.
  - intros a Ha. change (bsize 9) with chunk_bytes in Ha.
    destruct (proj2 (Harea a) (Hc a Ha)) as [Ho|(p & k & Hp & Hr)]; [done|]. destruct H.
    apply Exists_exists. exists (p, k). split; [by apply elem_of_map_to_list|]. cbn [fst].
    specialize (Hch p k Hp (Hsmall p k Hp)). unfold run_bytes, chunk_bytes, chunk_pages, PAGE_SIZE in *.
    Z.div_mod_to_equations. lia.
  - rewrite Hnone in Hx; [by apply elem_of_nil in Hx|lia|].
    change chunk_pages with (2 ^ 9). apply Z.pow_le_mono_r; lia.
Qed.

Lemma no_block_scarce area al ls n : wf ls → in_chunks al →
  (∀ a, owned ls a ∨ in_blocks al a ↔ area a) →
  (∀ i, (i ≤ 10)%nat → n ≤ 2 ^ Z.of_nat i → ls i = []) → chunks_scarce area al n.
Proof.
  intros Hwf Hch Harea Hnone. destruct (decide (chunk_pages < n)) as [|Hn]; [by left|right].
  destruct (decide (Exists (λ q, chunk_pages < q.2) (map_to_list al))) as [H|H].
  { left. apply Exists_exists in H as ([p k] & Hp%elem_of_map_to_list & E). by exists p, k. }
  assert (Hsmall : ∀ p k, al !! p = Some k → k ≤ chunk_pages).
  { intros p k Hp. destruct (decide (chunk_pages < k)); [|lia]. destruct H. apply Exists_exists.
    exists (p, k). by split; [apply elem_of_map_to_list|]. }
  right. intros cs Hnd Hcs.
  assert (Hsub : cs ⊆ ((λ q, q.1 / chunk_bytes) <$> map_to_list al)).
  { intros c Hc. destruct (chunk_empty area al ls c) as (p & k & Hp & E); try done.
    - intros a. by apply Hcs.
    - intros i Hi Hp. apply Hnone; [done|lia].
    - apply list_elem_of_fmap. exists (p, k). split; [done|by apply elem_of_map_to_list]. }
  apply NoDup_submseteq in Hsub; [|done]. apply submseteq_length in Hsub. by rewrite length_fmap, length_map_to_list in Hsub.
Qed.

Lemma best_fit_chunk ls n p : wf ls → best_fit ls n p → 1 ≤ n ≤ chunk_pages →
  p mod chunk_bytes + PAGE_SIZE * n ≤ chunk_bytes.
Proof.
  intros Hwf (j & Hj & Hn & Hp & _) Hn9.
  assert (Hin : p ∈ ls j) by (destruct (ls j); [done|injection Hp as ->; by left]).
  destruct (wf_aligned ls j p Hwf Hj Hin) as (_ & Hal & _). change (block_size (Z.of_nat j)) with (bsize j) in Hal.
  destruct (decide (9 ≤ j)%nat) as [H9|H9].
  - destruct (bsize_le 9 j H9) as (k & E & Hk). change (bsize 9) with chunk_bytes in E.
    rewrite E in Hal. apply Z.mod_divide in Hal as [u ->]; [|unfold chunk_bytes, chunk_pages, PAGE_SIZE in *; lia].
    rewrite (Z.mul_assoc u k), Z.mod_mul by done. unfold chunk_bytes. unfold PAGE_SIZE. lia.
  - destruct (bsize_le j 9 ltac:(lia)) as (k & E & Hk). change (bsize 9) with chunk_bytes in E.
    pose proof (bsize_pos j) as Hpos. apply Z.mod_divide in Hal as [u ->]; [|lia].
    assert (Hb : PAGE_SIZE * n ≤ bsize j) by (unfold bsize, block_size, PAGE_SIZE in *; nia).
    rewrite E, Z.mul_mod_distr_r by lia. pose proof (Z.mod_pos_bound u k ltac:(lia)). nia.
Qed.

Lemma in_chunks_insert al p n : in_chunks al →
  (n ≤ chunk_pages → p mod chunk_bytes + PAGE_SIZE * n ≤ chunk_bytes) → in_chunks (<[p := n]> al).
Proof. intros H Hn q k [[<- <-]|[_ Hq]]%lookup_insert_Some; [done|by apply H]. Qed.

Lemma in_chunks_delete al p : in_chunks al → in_chunks (delete p al).
Proof. intros H q k [_ Hq]%lookup_delete_Some. by apply H. Qed.

Lemma allocate_managed fuel r area w al n : managed r area w al → 2 ^ 20 + 1 < Z.of_nat fuel →
  1 ≤ n ≤ 2 ^ 31 →
  ∃ p w' al', allocate_body fuel n w = Done (p, w') ∧ managed r area w' al' ∧
    ((p = nullptr ∧ al' = al ∧ chunks_scarce area al n) ∨
     (p ≠ nullptr ∧ al !! p = None ∧ al' = <[p := n]> al)) ∧
    (∀ a, in_blocks al a → load8 (pg_mem w') a = load8 (pg_mem w) a).
Proof.
  intros (ls & H & Harea & Hch) Hfuel Hn. pose proof (pa_wf _ _ _ _ H) as Hwf.
  destruct (PageAllocator_allocate_at fuel w al ls r n H Hfuel Hn) as (p & w' & al' & ls' & W & Hinv & Hcase).
  exists p, w', al'. split; [done|].
  destruct Hcase as [(-> & -> & -> & Hun & Hnone)|(Hp & Hnone & -> & Hun & Hown & Hbf)].
  - split_and!; [by exists ls|left|].
    + split_and!; [done|done|]. by apply (no_block_scarce area al ls).
    + intros a _. apply Hun. tauto.
  - split_and!.
    + exists ls'. split_and!; [done| |].
      * intros a. rewrite in_blocks_insert, <- (Harea a), (Hown a) by done. tauto.
      * apply in_chunks_insert; [done|]. intros Hc. apply (best_fit_chunk ls); [done|done|lia].
    + right. split_and!; try done. unfold zero_size_page, nullptr in *. lia.
    + intros a Ha. by apply Hun; eapply in_blocks_free.
Qed.

Lemma deallocate_managed fuel r area w al p n : managed r area w al → 2 ^ 20 + 1 < Z.of_nat fuel →
  al !! p = Some n →
  ∃ w', deallocate_body fuel p w = Done (tt, w') ∧ managed r area w' (delete p al) ∧
    (∀ a, in_blocks (delete p al) a → load8 (pg_mem w') a = load8 (pg_mem w) a).
Proof.
  intros (ls & H & Harea & Hch) Hfuel Hp.
  destruct (PageAllocator_deallocate_done fuel w al ls r p n H Hfuel Hp) as (w' & ls' & W & Hinv & Hadd & Hun).
  exists w'. split_and!; [done| |].
  - exists ls'. split_and!; [done| |by apply in_chunks_delete]. intros a.
    rewrite <- (Harea a), (Hadd a), (in_blocks_delete al p n) by done. tauto.
  - intros a Ha. destruct (in_blocks_free w' _ ls' r a Hinv Ha) as [Hno _]. apply Hun; [done|].
    apply (in_blocks_free w al ls r a H). rewrite (in_blocks_delete al p n) by done. by right.
Qed.

(** The same operations with the managed memory in the representation: what a client verified
    against the interface does leaves it as it is. *)
Program Definition managed_provider (fuel : nat) (Hfuel : 2 ^ 20 + 1 < Z.of_nat fuel)
    (r : MemoryRegion) (area : Z → Prop) : PageProvider pages := {|
    alloc_pages := allocate_body fuel;
    free_pages := deallocate_body fuel;
    page_mem := pg_mem;
    set_page_mem := set_pg_mem;
    page_rep := managed r area;
    page_scarce _ := chunks_scarce area
  |}.
Next Obligation. done. Qed.
Next Obligation.
  intros fuel Hfuel r area w al p n (ls & H & _). apply (page_rep_block (PageProvider := pages_provider fuel Hfuel) w).
  by exists ls, r.
Qed.
Next Obligation. intros fuel Hfuel r area w al p n q k a (ls & H & _). by apply (pa_disjoint _ _ _ _ H). Qed.
Next Obligation.
  intros fuel Hfuel r area w al m (ls & H & Ha) Hm. exists ls. by split; [apply PA_inv_write|].
Qed.
Next Obligation. intros fuel Hfuel r area w al n H Hn. by apply allocate_managed. Qed.
Next Obligation. intros fuel Hfuel r area w al p n H Hp. by apply (deallocate_managed fuel r area w al p n). Qed.
Next Obligation. done. Qed.

(** The guarded methods provide pages as well, so the clients verified against the interface run
    on them too; between the calls the flag and its shadow agree. *)
Program Definition guarded_provider (fuel : nat) (Hfuel : 2 ^ 20 + 1 < Z.of_nat fuel) :
    PageProvider (irq_state * pages) := {|
    alloc_pages := PageAllocator_allocate fuel;
    free_pages := PageAllocator_deallocate fuel;
    page_mem s := pg_mem s.2;
    set_page_mem m s := (s.1, set_pg_mem m s.2);
    page_rep s al := synced s.1 ∧ ∃ ls r, PA_inv s.2 al ls r;
    page_scarce s := page_scarce (PageProvider := pages_provider fuel Hfuel) s.2
  |}.
Next Obligation. done. Qed.
Next Obligation.
  intros fuel Hfuel s al p n [_ H]. exact (page_rep_block (PageProvider := pages_provider fuel Hfuel) s.2 al p n H).
Qed.
Next Obligation.
  intros fuel Hfuel s al p n q k a [_ H].
  exact (page_rep_disjoint (PageProvider := pages_provider fuel Hfuel) s.2 al p n q k a H).
Qed.
Next Obligation.
  intros fuel Hfuel s al m [Hs H] Hm. split; [done|].
  exact (page_rep_write (PageProvider := pages_provider fuel Hfuel) s.2 al m H Hm).
Qed.
Next Obligation.
  intros fuel Hfuel [s w] al n [Hs H] Hn. cbn [fst snd] in *.
  destruct (alloc_pages_done (PageProvider := pages_provider fuel Hfuel) w al n H Hn)
    as (p & w' & al' & W & Hrep & ?).
  exists p, (s, w'), al'. split; [|done]. rewrite <- (unlocked_synced s) at 2 by done.
  by apply RecursiveIrqGuard_done.
Qed.
Next Obligation.
  intros fuel Hfuel [s w] al p n [Hs H] Hp. cbn [fst snd] in *.
  destruct (free_pages_done (PageProvider := pages_provider fuel Hfuel) w al p n H Hp) as (w' & W & Hrep & ?).
  exists (s, w'). split; [|done]. rewrite <- (unlocked_synced s) at 2 by done.
  by apply RecursiveIrqGuard_done.
Qed.
Next Obligation.
  intros fuel Hfuel [s w] al [Hs _]. cbn [fst] in Hs. rewrite <- (unlocked_synced s) at 2 by done.
  by apply RecursiveIrqGuard_done.
Qed.
