(* ===== verification/Slab.v ===== *)
(** * Slab allocators

    [memory/include/bolgenos-ng/slab.hpp] and [memory/slab.cpp]: a fixed number
    of equal elements in one block of pages, with a bit array of the free ones in
    front.  The slab is a client of [PageProvider]; only the witnesses mention the
    page allocator behind it. *)
From stdpp Require Import base tactics numbers list gmap strings.
From S2P Require Import Prelude MemUtils MemoryRegion FreeList Buddy BitArray PageProvider PageAllocator.

Record SlabAllocator : Type := mkSlab {
  elem_size_ : Z;
  nelems_ : Z;
  memory_ : Z;
  area_ : Z;
  allocation_map_ : BitArray;
  initialized_ : bool
}.

Definition SlabAllocator_default : SlabAllocator := mkSlab 0 0 nullptr nullptr BitArray_default false.

(** ** The part that works on the memory only *)
Abbreviation slab_prog := (prog (mem * SlabAllocator)).

Definition is_free (index : Z) : slab_prog bool :=
  gets (λ s, BitArray_get (allocation_map_ s.2) index s.1).
Definition set_free (index : Z) (status : bool) : slab_prog unit :=
  modify (λ s, (BitArray_set (allocation_map_ s.2) index status s.1, s.2)).

(** The initial marking of every element as free. *)
Fixpoint set_all_free (fuel : nat) (elem : Z) : slab_prog unit :=
  match fuel with
  | O => no_fuel
  | S n =>
      nelems ← gets (λ s, nelems_ s.2);
      if elem =? nelems then mret tt
      else set_free elem true ;; set_all_free n (u32 (elem + 1))
  end.

Fixpoint allocate_loop (fuel : nat) (chunk : Z) : slab_prog Z :=
  match fuel with
  | O => no_fuel
  | S n =>
      nelems ← gets (λ s, nelems_ s.2);
      if chunk =? nelems then mret nullptr
      else
        free ← is_free chunk;
        if (free : bool) then
          elem_size ← gets (λ s, elem_size_ s.2);
          memory ← gets (λ s, memory_ s.2);
          let offset := u32 (chunk * elem_size) in
          set_free chunk false ;;
          mret (u32 (memory + offset))
        else allocate_loop n (u32 (chunk + 1))
  end.

Definition SlabAllocator_allocate (fuel : nat) : slab_prog Z := allocate_loop fuel 0.

Definition SlabAllocator_owns (memory : Z) : slab_prog bool :=
  s ← gets snd;
  if memory_ s =? nullptr then panic "assertion failed"
  else
    let high_limit := u32 (memory_ s + u32 (nelems_ s * elem_size_ s)) in
    mret ((memory_ s <=? memory) && (memory <? high_limit)).

Definition SlabAllocator_is_initialized : slab_prog bool := gets (λ s, initialized_ s.2).

Definition SlabAllocator_deallocate (addr : Z) : slab_prog unit :=
  if addr =? nullptr then mret tt
  else
    owned ← SlabAllocator_owns addr;
    if negb owned then panic "Critical error"
    else
      s ← gets snd;
      if elem_size_ s =? 0 then fault "division by zero"
      else
        let chunk := u32 (addr - memory_ s) / elem_size_ s in
        set_free chunk true.

(** ** The part that calls for pages *)
Section Pages.
Context {W : Type} `{PP : PageProvider W}.

Abbreviation slab_page_prog := (prog (W * SlabAllocator)).

(** Run a memory program of the slab on the memory of the page provider. *)
Definition on_mem {A} (p : slab_prog A) : slab_page_prog A :=
  zoom (λ s, (page_mem s.1, s.2)) (λ t s, (set_page_mem t.1 s.1, t.2)) p.

(** A call that does not touch the slab object. *)
Definition on_pages {A} (p : prog W A) : slab_page_prog A :=
  zoom fst (λ w s, (w, s.2)) p.

Definition required_pages (elem_size nelems : Z) : Z :=
  align_up PAGE_SIZE (u32 (u32 (elem_size * nelems) + BitArray_expected_size nelems)) / PAGE_SIZE.

Definition SlabAllocator_initialize (fuel : nat) (elem_size nelems : Z) : slab_page_prog bool :=
  modify (λ s, (s.1, mkSlab elem_size nelems (memory_ s.2) (area_ s.2)
                       (allocation_map_ s.2) (initialized_ s.2))) ;;
  area ← on_pages (alloc_pages (required_pages elem_size nelems));
  modify (λ s, (s.1, mkSlab (elem_size_ s.2) (nelems_ s.2) (memory_ s.2) area
                       (allocation_map_ s.2) (initialized_ s.2))) ;;
  if area =? nullptr then
    modify (λ s, (s.1, mkSlab (elem_size_ s.2) (nelems_ s.2) (memory_ s.2) (area_ s.2)
                         (allocation_map_ s.2) false)) ;;
    mret false
  else
    modify (λ s,
      let '(ba, m) := BitArray_initialize area (nelems_ s.2) (page_mem s.1) in
      (set_page_mem m s.1,
       mkSlab (elem_size_ s.2) (nelems_ s.2)
         (u32 (area + BitArray_expected_size (nelems_ s.2))) (area_ s.2) ba
         (initialized_ s.2))) ;;
    on_mem (set_all_free fuel 0) ;;
    modify (λ s, (s.1, mkSlab (elem_size_ s.2) (nelems_ s.2) (memory_ s.2) (area_ s.2)
                         (allocation_map_ s.2) true)) ;;
    mret true.

(** The destructor. *)
Definition SlabAllocator_destroy : slab_page_prog unit :=
  area ← gets (λ s, area_ s.2);
  on_pages (free_pages area) ;;
  modify (λ s, (s.1, mkSlab (elem_size_ s.2) (nelems_ s.2) nullptr (area_ s.2)
                       (allocation_map_ s.2) (initialized_ s.2))).
End Pages.

(** * Verification *)

(** ** The invariant: [used] are the indices of the allocated elements *)
Record Slab_inv (m : mem) (s : SlabAllocator) (used : gset Z) : Prop := {
  slab_elem : 0 < elem_size_ s;
  slab_nelems : 0 ≤ nelems_ s;
  slab_area : 0 < area_ s ∧ ba_data (allocation_map_ s) = area_ s;
  slab_memory : memory_ s = area_ s + BitArray_expected_size (nelems_ s);
  slab_end : memory_ s + nelems_ s * elem_size_ s < 2 ^ 32;
  slab_fit : bits_fit (allocation_map_ s) (nelems_ s);
  slab_used : ∀ i, i ∈ used → 0 ≤ i < nelems_ s;
  slab_bits : ∀ i, 0 ≤ i < nelems_ s →
    BitArray_get (allocation_map_ s) i m = true ↔ i ∉ used
}.

(** The address of an element. *)
Definition chunk_addr (s : SlabAllocator) (i : Z) : Z := memory_ s + i * elem_size_ s.

(** The bytes of the map, the only ones the slab itself writes. *)
Definition slab_map_bytes (s : SlabAllocator) (a : Z) : Prop :=
  in_block a (area_ s) (BitArray_expected_size (nelems_ s)).

Lemma chunk_inside m s used i : Slab_inv m s used → 0 ≤ i < nelems_ s →
  memory_ s ≤ chunk_addr s i ∧ chunk_addr s i + elem_size_ s ≤ memory_ s + nelems_ s * elem_size_ s ∧
  0 < memory_ s.
Proof.
  intros H Hi. pose proof (slab_elem _ _ _ H). pose proof (slab_memory _ _ _ H) as Em.
  pose proof (slab_area _ _ _ H) as [Ha _]. destruct (slab_fit _ _ _ H) as (_ & Hn & _).
  rewrite expected_size_ceil in Em by lia. unfold chunk_addr.
  split_and!; [nia|nia|]. Z.div_mod_to_equations; lia.
Qed.

Lemma slab_set_other m s used i v a : Slab_inv m s used → 0 ≤ i < nelems_ s →
  ¬ slab_map_bytes s a → load8 (BitArray_set (allocation_map_ s) i v m) a = load8 m a.
Proof.
  intros H Hi Ha. apply (BitArray_set_other _ (nelems_ s)); [apply H|done|]. intros ->.
  apply Ha. unfold slab_map_bytes. rewrite (proj2 (slab_area _ _ _ H)).
  destruct (slab_fit _ _ _ H) as (_ & Hn & _). pose proof (index_byte_range _ i Hi ltac:(lia)). lia.
Qed.

Lemma Slab_inv_set m s used i (v : bool) : Slab_inv m s used → 0 ≤ i < nelems_ s →
  Slab_inv (BitArray_set (allocation_map_ s) i v m) s
    (if v then used ∖ {[ i ]} else used ∪ {[ i ]}).
Proof.
  intros H Hi. split; try apply H.
  - intros j Hj. destruct v; [apply (slab_used _ _ _ H); set_solver|].
    apply elem_of_union in Hj as [Hj|Hj%elem_of_singleton]; [by apply H|by subst].
  - intros j Hj. rewrite (BitArray_get_set _ (nelems_ s)) by (done || apply H).
    pose proof (slab_bits _ _ _ H j Hj) as Hb.
    destruct (decide (j = i)) as [->|Hne], v; rewrite ?Hb; set_solver.
Qed.

(** ** [allocate] *)
Lemma allocate_loop_S m s fuel c : allocate_loop (S fuel) c (m, s) =
  if c =? nelems_ s then Done (nullptr, (m, s))
  else if BitArray_get (allocation_map_ s) c m then
    Done (u32 (memory_ s + u32 (c * elem_size_ s)),
          (BitArray_set (allocation_map_ s) c false m, s))
  else allocate_loop fuel (u32 (c + 1)) (m, s).
Proof.
  cbn [allocate_loop]. rewrite gets_bind. cbn [snd]. destruct (c =? nelems_ s); [done|].
  unfold is_free at 1. rewrite gets_bind. cbn [fst snd].
  by destruct (BitArray_get (allocation_map_ s) c m).
Qed.

Lemma allocate_loop_done m s used : Slab_inv m s used → ∀ fuel c,
  0 ≤ c ≤ nelems_ s → nelems_ s - c < Z.of_nat fuel → (∀ j, 0 ≤ j < c → j ∈ used) →
  (∃ i, 0 ≤ i < nelems_ s ∧ i ∉ used ∧ (∀ j, 0 ≤ j < i → j ∈ used) ∧
     allocate_loop fuel c (m, s) =
       Done (chunk_addr s i, (BitArray_set (allocation_map_ s) i false m, s))) ∨
  ((∀ i, 0 ≤ i < nelems_ s → i ∈ used) ∧ allocate_loop fuel c (m, s) = Done (nullptr, (m, s))).
Proof.
  intros H fuel. pose proof (slab_fit _ _ _ H) as (_ & Hn & _).
  induction fuel as [|fuel IH]; intros c Hc Hf Hall; [lia|].
  setoid_rewrite allocate_loop_S.
  destruct (Z.eqb_spec c (nelems_ s)) as [->|Hne]; [right; by split|].
  destruct (BitArray_get (allocation_map_ s) c m) eqn:E.
  - left. apply (slab_bits _ _ _ H c ltac:(lia)) in E. exists c. split_and!; [lia|lia|done|done|].
    destruct (chunk_inside m s used c H ltac:(lia)) as (H1 & H2 & H3).
    pose proof (slab_end _ _ _ H). pose proof (slab_elem _ _ _ H). unfold chunk_addr in *.
    rewrite (u32_small (c * elem_size_ s)), u32_small by nia. done.
  - rewrite u32_small by lia. apply IH; [lia|lia|]. intros j Hj.
    destruct (decide (j = c)) as [->|]; [|apply Hall; lia].
    destruct (decide (c ∈ used)) as [|Hnu]; [done|].
    apply (slab_bits _ _ _ H c ltac:(lia)) in Hnu. congruence.
Qed.

(** ** [owns] and [deallocate] *)
Lemma SlabAllocator_owns_done m s used p : Slab_inv m s used →
  SlabAllocator_owns p (m, s) =
    Done (bool_decide (in_block p (memory_ s) (nelems_ s * elem_size_ s)), (m, s)).
Proof.
  intros H. unfold SlabAllocator_owns. rewrite gets_bind. cbn [snd].
  pose proof (slab_memory _ _ _ H) as Em. pose proof (slab_area _ _ _ H) as [Ha _].
  destruct (slab_fit _ _ _ H) as (_ & Hn & _). pose proof (slab_elem _ _ _ H).
  pose proof (slab_end _ _ _ H). rewrite expected_size_ceil in Em by lia.
  destruct (Z.eqb_spec (memory_ s) nullptr); [unfold nullptr in *; Z.div_mod_to_equations; lia|].
  assert (0 ≤ nelems_ s * elem_size_ s) by nia.
  assert (0 ≤ memory_ s) by (Z.div_mod_to_equations; lia).
  rewrite !u32_small by (rewrite ?u32_small; lia). unfold mret, prog_ret. do 2 f_equal.
  apply eq_true_iff_eq. rewrite andb_true_iff, Z.leb_le, Z.ltb_lt, bool_decide_eq_true. lia.
Qed.

(** The element an address falls in. *)
Definition chunk_of (s : SlabAllocator) (p : Z) : Z := (p - memory_ s) / elem_size_ s.

Lemma SlabAllocator_deallocate_done m s used p : Slab_inv m s used → p ≠ nullptr →
  SlabAllocator_deallocate p (m, s) =
    if bool_decide (in_block p (memory_ s) (nelems_ s * elem_size_ s)) then
      Done (tt, (BitArray_set (allocation_map_ s) (chunk_of s p) true m, s))
    else Panic "Critical error".
Proof.
  intros H Hp. unfold SlabAllocator_deallocate.
  destruct (Z.eqb_spec p nullptr); [done|].
  rewrite (bind_done _ _ _ _ _ (SlabAllocator_owns_done m s used p H)).
  destruct (bool_decide_reflect (in_block p (memory_ s) (nelems_ s * elem_size_ s))) as [Hin|];
    cbn [negb]; [|done].
  rewrite gets_bind. cbn [snd]. pose proof (slab_elem _ _ _ H).
  destruct (Z.eqb_spec (elem_size_ s) 0); [lia|].
  pose proof (slab_end _ _ _ H). pose proof (slab_memory _ _ _ H) as Em.
  pose proof (slab_area _ _ _ H) as [Ha _]. destruct (slab_fit _ _ _ H) as (_ & Hn & _).
  rewrite expected_size_ceil in Em by lia.
  rewrite u32_small by (Z.div_mod_to_equations; lia). done.
Qed.

Lemma chunk_of_range m s used p : Slab_inv m s used →
  in_block p (memory_ s) (nelems_ s * elem_size_ s) → 0 ≤ chunk_of s p < nelems_ s.
Proof.
  intros H Hp. pose proof (slab_elem _ _ _ H). unfold chunk_of.
  split; [apply Z.div_pos; lia|]. apply Z.div_lt_upper_bound; lia.
Qed.

Lemma chunk_of_addr s i : 0 < elem_size_ s → chunk_of s (chunk_addr s i) = i.
Proof.
  intros He. unfold chunk_of, chunk_addr. replace (_ - _) with (i * elem_size_ s) by lia.
  by apply Z.div_mul; lia.
Qed.

(** ** [initialize] *)
Lemma set_all_free_done s : bits_fit (allocation_map_ s) (nelems_ s) → ∀ fuel c m,
  0 ≤ c ≤ nelems_ s → nelems_ s - c < Z.of_nat fuel →
  (∀ j, 0 ≤ j < c → BitArray_get (allocation_map_ s) j m = true) →
  ∃ m', set_all_free fuel c (m, s) = Done (tt, (m', s)) ∧
    (∀ j, 0 ≤ j < nelems_ s → BitArray_get (allocation_map_ s) j m' = true) ∧
    (∀ a, ¬ in_block a (ba_data (allocation_map_ s)) (BitArray_expected_size (nelems_ s)) →
       load8 m' a = load8 m a).
Proof.
  intros Hfit fuel. pose proof Hfit as (Hd & Hn & _).
  induction fuel as [|fuel IH]; intros c m Hc Hf Hall; [lia|].
  cbn [set_all_free]. rewrite gets_bind. cbn [snd].
  destruct (Z.eqb_spec c (nelems_ s)) as [->|Hne]; [by exists m|].
  unfold set_free. rewrite modify_bind, u32_small by lia. cbn [fst snd].
  destruct (IH (c + 1) (BitArray_set (allocation_map_ s) c true m)) as (m' & W & H1 & H2); [lia..| |].
  { intros j Hj. rewrite (BitArray_get_set _ (nelems_ s)) by (done || lia).
    destruct (decide (j = c)); [done|]. apply Hall. lia. }
  exists m'. split_and!; [done..|]. intros a Ha. rewrite H2 by done.
  apply (BitArray_set_other _ (nelems_ s)); [done|lia|]. intros ->. apply Ha.
  pose proof (index_byte_range (nelems_ s) c ltac:(lia) ltac:(lia)). lia.
Qed.

(** The pages a slab needs, when the sizes do not wrap. *)
Definition slab_bytes (elem_size nelems : Z) : Z :=
  elem_size * nelems + BitArray_expected_size nelems.

Lemma required_pages_done elem_size nelems : 0 < elem_size → 0 ≤ nelems < 2 ^ 31 →
  0 < slab_bytes elem_size nelems < 2 ^ 31 →
  1 ≤ required_pages elem_size nelems ≤ 2 ^ 31 ∧
  slab_bytes elem_size nelems ≤ PAGE_SIZE * required_pages elem_size nelems.
Proof.
  unfold slab_bytes, required_pages. intros He Hn Hb.
  pose proof (expected_size_ceil nelems ltac:(lia)) as E. assert (0 ≤ elem_size * nelems) by nia.
  assert (0 ≤ BitArray_expected_size nelems) by (rewrite E; Z.div_mod_to_equations; lia).
  rewrite (u32_small (elem_size * nelems)), (u32_small (_ + _)) by lia.
  change PAGE_SIZE with (2 ^ 12). set (v := elem_size * nelems + _) in *.
  rewrite align_up_spec by lia. rewrite u32_small by zify_wraps. zify_wraps.
Qed.

Section PagesSpec.
Context {W : Type} `{PP : PageProvider W}.
Implicit Types (w : W) (s : SlabAllocator).

(** A slab whose elements lie in one allocated block. *)
Record Slab_rep (w : W) (al : gmap Z Z) (s : SlabAllocator) (used : gset Z) : Prop := {
  srep_pages : page_rep w al;
  srep_inv : Slab_inv (page_mem w) s used;
  srep_block : ∃ n, al !! area_ s = Some n ∧
    memory_ s + nelems_ s * elem_size_ s ≤ area_ s + PAGE_SIZE * n;
  srep_init : initialized_ s = true
}.

Lemma slab_map_in_block w al s used a : Slab_rep w al s used → slab_map_bytes s a →
  in_blocks al a.
Proof.
  intros [Hp Hi (n & Hn & He) _] Ha. exists (area_ s), n. split; [done|].
  unfold slab_map_bytes, run_bytes in *. pose proof (slab_memory _ _ _ Hi).
  pose proof (slab_elem _ _ _ Hi). pose proof (slab_nelems _ _ _ Hi). nia.
Qed.

Lemma Slab_rep_write w al s used m used' : Slab_rep w al s used →
  (∀ a, ¬ slab_map_bytes s a → load8 m a = load8 (page_mem w) a) →
  Slab_inv m s used' → Slab_rep (set_page_mem m w) al s used'.
Proof.
  intros H Hm Hinv. split; [|by rewrite page_mem_set|apply H|apply H].
  apply page_rep_write; [apply H|]. intros a Ha. apply Hm. intros Hs. apply Ha.
  by apply (slab_map_in_block w al s used).
Qed.

Lemma SlabAllocator_initialize_done fuel w al s elem_size nelems :
  page_rep w al → 0 < elem_size → 0 ≤ nelems < 2 ^ 31 →
  0 < slab_bytes elem_size nelems < 2 ^ 31 → nelems < Z.of_nat fuel →
  ∃ b w' s' al', SlabAllocator_initialize fuel elem_size nelems (w, s) = Done (b, (w', s')) ∧
    (∀ a, in_blocks al a → load8 (page_mem w') a = load8 (page_mem w) a) ∧
    elem_size_ s' = elem_size ∧ nelems_ s' = nelems ∧
    ((b = false ∧ al' = al ∧ page_rep w' al ∧ area_ s' = nullptr ∧ initialized_ s' = false ∧
      page_scarce w al (required_pages elem_size nelems)) ∨
     (b = true ∧ al !! area_ s' = None ∧
      al' = <[area_ s' := required_pages elem_size nelems]> al ∧ Slab_rep w' al' s' ∅)).
Proof.
  intros Hrep He Hn Hb Hf.
  destruct (required_pages_done elem_size nelems He Hn Hb) as [Hreq Hreq2].
  destruct (alloc_pages_done w al _ Hrep Hreq) as (p & w1 & al1 & Wa & Hrep1 & Hcase & Hkeep).
  unfold SlabAllocator_initialize. rewrite modify_bind. cbn [fst snd].
  rewrite (bind_done _ _ _ p (w1, mkSlab elem_size nelems (memory_ s) (area_ s)
    (allocation_map_ s) (initialized_ s))) by (unfold on_pages, zoom; simpl; by rewrite Wa).
  rewrite modify_bind. cbn [fst snd elem_size_ nelems_ memory_ area_ allocation_map_ initialized_].
  destruct Hcase as [(-> & -> & Hscarce)|(Hp & Hnone & ->)].
  { rewrite Z.eqb_refl, modify_bind. cbn [fst snd].
    eexists false, w1, _, al. split; [reflexivity|]. split_and!; [done..|]. by left. }
  destruct (Z.eqb_spec p nullptr) as [|_]; [done|]. rewrite modify_bind.
  cbn [fst snd elem_size_ nelems_ memory_ area_ allocation_map_ initialized_].
  pose proof (page_rep_block w1 _ p _ Hrep1 (lookup_insert_eq _ _ _)) as (_ & Hpos & _ & Hend).
  set (pages := required_pages elem_size nelems) in *.
  pose proof (expected_size_ceil nelems ltac:(lia)) as Eexp.
  assert (Hexp : 0 ≤ BitArray_expected_size nelems) by (rewrite Eexp; Z.div_mod_to_equations; lia).
  unfold slab_bytes in *. assert (0 ≤ elem_size * nelems) by nia.
  assert (Hfit : bits_fit (mkBitArray nelems p) nelems) by (split_and!; simpl; lia).
  pose proof (λ a, BitArray_initialize_load p nelems (page_mem w1) a Hfit) as Hload.
  set (ini := BitArray_initialize p nelems (page_mem w1)) in *.
  assert (Ei : ini = (mkBitArray nelems p, ini.2)) by done. rewrite Ei.
  assert (Hlt : p + BitArray_expected_size nelems < 2 ^ 32) by nia.
  rewrite u32_small by lia. set (s1 := mkSlab _ _ _ _ _ _).
  destruct (set_all_free_done s1 Hfit fuel 0 ini.2) as (m' & Wf & Hbits & Hout);
    [simpl; lia|simpl; lia|lia|].
  rewrite (bind_done _ _ _ tt (set_page_mem m' (set_page_mem ini.2 w1), s1))
    by (unfold on_mem, zoom; cbn [fst snd]; by rewrite page_mem_set, Wf).
  rewrite modify_bind. cbn [fst snd].
  cbn [elem_size_ nelems_ memory_ area_ allocation_map_ initialized_ s1].
  eexists true, _, _, _. split; [reflexivity|].
  cbn [elem_size_ nelems_ memory_ area_ allocation_map_ initialized_].
  assert (Hm' : ∀ a, ¬ run_bytes p pages a → load8 m' a = load8 (page_mem w1) a).
  { intros a Ha. unfold run_bytes in Ha. cbn [s1 allocation_map_ ba_data nelems_] in Hout.
    rewrite Hout by lia. rewrite Hload. destruct (decide _); [lia|done]. }
  assert (Hself : ∀ a, run_bytes p pages a → in_blocks (<[p := pages]> al) a).
  { intros a Ha. exists p, pages. by rewrite lookup_insert_eq. }
  split_and!; [|done|done|].
  - intros a Ha. rewrite page_mem_set, Hm'; [by apply Hkeep|]. intros Hin.
    destruct Ha as (q & k & Hq & Hqa).
    assert (p = q) as <-; [|congruence].
    apply (page_rep_disjoint w1 (<[p := pages]> al) p pages q k a); try done.
    + apply lookup_insert_eq.
    + rewrite lookup_insert_ne by congruence. done.
  - right. split_and!; [done|done|done|]. split.
    + apply page_rep_write.
      * apply page_rep_write; [done|]. intros a Ha. rewrite Hload.
        destruct (decide _); [|done]. destruct Ha. apply Hself. unfold run_bytes. lia.
      * intros a Ha. rewrite page_mem_set. apply Hout. cbn [s1 allocation_map_ ba_data nelems_].
        intros Hin. apply Ha, Hself. unfold run_bytes. lia.
    + rewrite page_mem_set. split; cbn [elem_size_ nelems_ memory_ area_ allocation_map_];
        try done; try lia.
      * intros i Hi. rewrite Hbits by done. set_solver.
    + exists pages. cbn [elem_size_ nelems_ memory_ area_]. rewrite lookup_insert_eq. split; [done|lia].
    + done.
Qed.
End PagesSpec.

Section SlabCalls.
Context {W : Type} `{PP : PageProvider W}.

Lemma on_mem_done {A} (p : slab_prog A) (w : W) s a m s' :
  p (page_mem w, s) = Done (a, (m, s')) → on_mem p (w, s) = Done (a, (set_page_mem m w, s')).
Proof. intros H. unfold on_mem, zoom. cbn [fst snd]. by rewrite H. Qed.

Lemma Slab_set_rep (w : W) al s used i (v : bool) : Slab_rep w al s used → 0 ≤ i < nelems_ s →
  Slab_rep (set_page_mem (BitArray_set (allocation_map_ s) i v (page_mem w)) w) al s
    (if v then used ∖ {[ i ]} else used ∪ {[ i ]}).
Proof.
  intros H Hi. eapply Slab_rep_write; [done| |by apply Slab_inv_set; [apply H|]].
  intros a Ha. eapply slab_set_other; [apply H|done|done].
Qed.

Lemma SlabAllocator_allocate_done fuel (w : W) al s used :
  Slab_rep w al s used → nelems_ s < Z.of_nat fuel →
  (∃ i, 0 ≤ i < nelems_ s ∧ i ∉ used ∧ (∀ j, 0 ≤ j < i → j ∈ used) ∧
     ∃ w', on_mem (SlabAllocator_allocate fuel) (w, s) = Done (chunk_addr s i, (w', s)) ∧
       Slab_rep w' al s (used ∪ {[ i ]}) ∧
       ∀ a, ¬ slab_map_bytes s a → load8 (page_mem w') a = load8 (page_mem w) a) ∨
  ((∀ i, 0 ≤ i < nelems_ s → i ∈ used) ∧
     ∃ w', on_mem (SlabAllocator_allocate fuel) (w, s) = Done (nullptr, (w', s)) ∧
       Slab_rep w' al s used ∧ page_mem w' = page_mem w).
Proof.
  intros H Hf. pose proof (slab_nelems _ _ _ (srep_inv _ _ _ _ H)) as Hn.
  destruct (allocate_loop_done (page_mem w) s used (srep_inv _ _ _ _ H) fuel 0)
    as [(i & Hi & Hu & Hmin & E)|(Hall & E)]; [lia..| |].
  - left. exists i. split_and!; [lia|lia|done|done|]. eexists.
    split; [by apply on_mem_done|]. split; [by apply (Slab_set_rep w al s used i false)|].
    intros a Ha. rewrite page_mem_set. eapply slab_set_other; [apply H|done|done].
  - right. split; [done|]. eexists. split; [by apply on_mem_done|]. split; [|by rewrite page_mem_set].
    eapply Slab_rep_write; [done|done|apply H].
Qed.

Lemma SlabAllocator_deallocate_rep (w : W) al s used p :
  Slab_rep w al s used → in_block p (memory_ s) (nelems_ s * elem_size_ s) →
  ∃ w', on_mem (SlabAllocator_deallocate p) (w, s) = Done (tt, (w', s)) ∧
    Slab_rep w' al s (used ∖ {[ chunk_of s p ]}) ∧
    ∀ a, ¬ slab_map_bytes s a → load8 (page_mem w') a = load8 (page_mem w) a.
Proof.
  intros H Hp. pose proof (chunk_of_range _ _ _ _ (srep_inv _ _ _ _ H) Hp) as Hi.
  pose proof (slab_memory _ _ _ (srep_inv _ _ _ _ H)) as Em.
  pose proof (slab_area _ _ _ (srep_inv _ _ _ _ H)) as [Ha _].
  destruct (slab_fit _ _ _ (srep_inv _ _ _ _ H)) as (_ & Hn & _).
  rewrite expected_size_ceil in Em by lia.
  assert (Hne : p ≠ nullptr) by (unfold nullptr; Z.div_mod_to_equations; lia).
  eexists. split.
  { apply on_mem_done. rewrite (SlabAllocator_deallocate_done _ _ _ _ (srep_inv _ _ _ _ H) Hne).
    rewrite bool_decide_eq_true_2 by done. done. }
  split; [by apply (Slab_set_rep w al s used _ true)|]. intros a Hma. rewrite page_mem_set.
  eapply slab_set_other; [apply H|done|done].
Qed.
End SlabCalls.

(** * Properties *)

(** C22: for any page provider, [initialize] of a slab whose sizes do not wrap
    terminates: it fails, with nothing allocated, only when the provider may have
    no run of [required_pages] pages, and otherwise owns one new block of [required_pages] pages in which the
    map and all elements fit, with every element free.  The contents of all
    blocks allocated before are kept. *)
Theorem slab_initialize_correct {W} `{PP : PageProvider W} fuel (w : W) al s elem_size nelems
    (Hrep : page_rep w al) (Hsize : 0 < elem_size ∧ 0 ≤ nelems < 2 ^ 31)
    (Hbytes : 0 < slab_bytes elem_size nelems < 2 ^ 31) (Hfuel : nelems < Z.of_nat fuel) :
  ∃ b w' s' al', SlabAllocator_initialize fuel elem_size nelems (w, s) = Done (b, (w', s')) ∧
    (∀ a, in_blocks al a → load8 (page_mem w') a = load8 (page_mem w) a) ∧
    elem_size_ s' = elem_size ∧ nelems_ s' = nelems ∧
    ((b = false ∧ al' = al ∧ page_rep w' al ∧ area_ s' = nullptr ∧ initialized_ s' = false ∧
      page_scarce w al (required_pages elem_size nelems)) ∨
     (b = true ∧ al !! area_ s' = None ∧
      al' = <[area_ s' := required_pages elem_size nelems]> al ∧ Slab_rep w' al' s' ∅)).
Proof. destruct Hsize. by apply SlabAllocator_initialize_done. Qed.

(** C23: [allocate] returns the first free element and marks it, or null when
    every element is taken.  The element lies inside the block of the slab,
    behind the map, and shares no byte with any other element; only the map is
    written. *)
Theorem slab_allocate_correct {W} `{PP : PageProvider W} fuel (w : W) al s used
    (Hrep : Slab_rep w al s used) (Hfuel : nelems_ s < Z.of_nat fuel) :
  (∃ i, 0 ≤ i < nelems_ s ∧ i ∉ used ∧ (∀ j, 0 ≤ j < i → j ∈ used) ∧
     (∀ j a, 0 ≤ j < nelems_ s → j ≠ i → in_block a (chunk_addr s i) (elem_size_ s) →
        ¬ in_block a (chunk_addr s j) (elem_size_ s) ∧ ¬ slab_map_bytes s a) ∧
     ∃ w', on_mem (SlabAllocator_allocate fuel) (w, s) = Done (chunk_addr s i, (w', s)) ∧
       Slab_rep w' al s (used ∪ {[ i ]}) ∧
       ∀ a, ¬ slab_map_bytes s a → load8 (page_mem w') a = load8 (page_mem w) a) ∨
  ((∀ i, 0 ≤ i < nelems_ s → i ∈ used) ∧
     ∃ w', on_mem (SlabAllocator_allocate fuel) (w, s) = Done (nullptr, (w', s)) ∧
       Slab_rep w' al s used ∧ page_mem w' = page_mem w).
Proof.
  destruct (SlabAllocator_allocate_done fuel w al s used Hrep Hfuel)
    as [(i & Hi & Hu & Hmin & H)|H]; [left|by right].
  exists i. split_and!; try lia; try done. intros j a Hj Hne Ha.
  destruct (chunk_inside _ _ _ i (srep_inv _ _ _ _ Hrep) ltac:(lia)) as (H1 & _ & _).
  pose proof (slab_memory _ _ _ (srep_inv _ _ _ _ Hrep)) as Em.
  split; [|unfold slab_map_bytes; lia]. unfold chunk_addr in *. nia.
Qed.

(** C24: [deallocate] of any address inside the elements frees the element it
    falls in; any other non-null address stops the kernel, and null is ignored. *)
Theorem slab_deallocate_correct {W} `{PP : PageProvider W} (w : W) al s used p
    (Hrep : Slab_rep w al s used) :
  (in_block p (memory_ s) (nelems_ s * elem_size_ s) →
   ∃ w', on_mem (SlabAllocator_deallocate p) (w, s) = Done (tt, (w', s)) ∧
     Slab_rep w' al s (used ∖ {[ chunk_of s p ]})) ∧
  (¬ in_block p (memory_ s) (nelems_ s * elem_size_ s) → p ≠ nullptr →
   on_mem (SlabAllocator_deallocate p) (w, s) = Panic "Critical error") ∧
  (∀ i, 0 ≤ i < nelems_ s → chunk_of s (chunk_addr s i) = i).
Proof.
  split_and!.
  - intros Hp. destruct (SlabAllocator_deallocate_rep w al s used p Hrep Hp) as (w' & ? & ? & _).
    by exists w'.
  - intros Hp Hne. unfold on_mem, zoom. cbn [fst snd].
    rewrite (SlabAllocator_deallocate_done _ _ _ _ (srep_inv _ _ _ _ Hrep) Hne).
    by rewrite bool_decide_eq_false_2.
  - intros i Hi. apply chunk_of_addr, (slab_elem _ _ _ (srep_inv _ _ _ _ Hrep)).
Qed.

(** ** Witnesses, on the page allocator of the kernel *)
Section Examples.
Definition example_provider : PageProvider pages := pages_provider example_fuel example_fuel_enough.

(** Ten elements of [e] bytes in the three pages, with the fourth one free. *)
Definition example_slab_of (e : Z) : SlabAllocator :=
  mkSlab e 10 1089538 1089536 (mkBitArray 10 1089536) true.
Definition example_slab : SlabAllocator := example_slab_of 64.
Definition example_used : gset Z := list_to_set [0; 1; 2; 4; 5; 6; 7; 8; 9].
Definition example_slab_world : pages :=
  set_pg_mem (BitArray_set (mkBitArray 10 1089536) 3 true (pg_mem example_one_block))
    example_one_block.

Lemma example_slab_of_rep e : 0 < e ≤ 64 →
  Slab_rep (PP := example_provider) example_slab_world {[ 1089536 := 3 ]} (example_slab_of e)
    example_used.
Proof.
  intros He.
  assert (Hfit : bits_fit (mkBitArray 10 1089536) 10) by by split_and!.
  split; [| | |done].
  3:{ exists 3. split; [done|]. cbn. unfold PAGE_SIZE. lia. }
  - exists (λ _, []), example_region. apply PA_inv_write; [apply example_one_block_inv|].
    intros a Ha. apply (BitArray_set_other _ 10); [done|lia|]. intros ->. apply Ha.
    exists 1089536, 3. by split_and!.
  - split; try done; cbn [allocation_map_ nelems_ elem_size_ memory_ example_slab_of]; try lia.
    + intros i Hi. unfold example_used in Hi. rewrite elem_of_list_to_set in Hi.
      repeat (apply elem_of_cons in Hi as [->|Hi]; [lia|]). by apply elem_of_nil in Hi.
    + intros i Hi. change (page_mem example_slab_world) with
        (BitArray_set (mkBitArray 10 1089536) 3 true (pg_mem example_one_block)).
      rewrite (BitArray_get_set _ 10) by (done || lia).
      assert (Hc : i = 0 ∨ i = 1 ∨ i = 2 ∨ i = 3 ∨ i = 4 ∨ i = 5 ∨ i = 6 ∨ i = 7 ∨ i = 8 ∨ i = 9)
        by lia.
      by repeat (destruct Hc as [->|Hc]); [..|subst i].
Qed.

Lemma example_slab_rep :
  Slab_rep (PP := example_provider) example_slab_world {[ 1089536 := 3 ]} example_slab example_used.
Proof. apply example_slab_of_rep. lia. Qed.

Lemma slab_allocate_correct_witness :
  (∃ i, 0 ≤ i < 10 ∧ i ∉ example_used ∧ (∀ j, 0 ≤ j < i → j ∈ example_used) ∧
     (∀ j a, 0 ≤ j < 10 → j ≠ i → in_block a (chunk_addr example_slab i) 64 →
        ¬ in_block a (chunk_addr example_slab j) 64 ∧ ¬ slab_map_bytes example_slab a) ∧
     ∃ w', on_mem (PP := example_provider) (SlabAllocator_allocate 11)
             (example_slab_world, example_slab)
           = Done (chunk_addr example_slab i, (w', example_slab)) ∧
       Slab_rep (PP := example_provider) w' {[ 1089536 := 3 ]} example_slab
         (example_used ∪ {[ i ]}) ∧
       ∀ a, ¬ slab_map_bytes example_slab a →
         load8 (pg_mem w') a = load8 (pg_mem example_slab_world) a) ∨
  ((∀ i, 0 ≤ i < 10 → i ∈ example_used) ∧
     ∃ w', on_mem (PP := example_provider) (SlabAllocator_allocate 11)
             (example_slab_world, example_slab) = Done (nullptr, (w', example_slab)) ∧
       Slab_rep (PP := example_provider) w' {[ 1089536 := 3 ]} example_slab example_used ∧
       pg_mem w' = pg_mem example_slab_world).
Proof.
  apply (slab_allocate_correct (PP := example_provider) 11 example_slab_world
    {[ 1089536 := 3 ]} example_slab example_used); [apply example_slab_rep|simpl; lia].
Defined.

Lemma slab_deallocate_correct_witness :
  ∃ w', on_mem (PP := example_provider) (SlabAllocator_deallocate 1089602)
          (example_slab_world, example_slab) = Done (tt, (w', example_slab)) ∧
    Slab_rep (PP := example_provider) w' {[ 1089536 := 3 ]} example_slab (example_used ∖ {[ 1 ]}).
Proof.
  apply (slab_deallocate_correct (PP := example_provider) example_slab_world
    {[ 1089536 := 3 ]} example_slab example_used 1089602); [apply example_slab_rep|].
  split; vm_compute; congruence.
Defined.

Lemma slab_initialize_correct_witness :
  ∃ b w' s' al', SlabAllocator_initialize (PP := example_provider) 11 64 10
      (example_slab_world, SlabAllocator_default) = Done (b, (w', s')) ∧
    (∀ a, in_blocks {[ 1089536 := 3 ]} a →
       load8 (pg_mem w') a = load8 (pg_mem example_slab_world) a) ∧
    elem_size_ s' = 64 ∧ nelems_ s' = 10 ∧
    ((b = false ∧ al' = {[ 1089536 := 3 ]} ∧
      page_rep (PageProvider := example_provider) w' {[ 1089536 := 3 ]} ∧
      area_ s' = nullptr ∧ initialized_ s' = false ∧
      page_scarce (PageProvider := example_provider) example_slab_world {[ 1089536 := 3 ]}
        (required_pages 64 10)) ∨
     (b = true ∧ ({[ 1089536 := 3 ]} : gmap Z Z) !! area_ s' = None ∧
      al' = <[area_ s' := required_pages 64 10]> {[ 1089536 := 3 ]} ∧
      Slab_rep (PP := example_provider) w' al' s' ∅)).
Proof.
  apply (slab_initialize_correct (PP := example_provider) 11 example_slab_world
    {[ 1089536 := 3 ]} SlabAllocator_default 64 10);
    [apply example_slab_rep|lia|by split_and!|lia].
Defined.
End Examples.
