(* ===== verification/Mallocator.v ===== *)
(** * The kernel allocator

    [memory/mallocator.hpp] and [memory/mallocator.cpp]: [kmalloc]/[kfree] on a
    chain of slabs of growing element size, with whole pages as the fallback.
    Like the slabs it is verified against [PageProvider]. *)
From stdpp Require Import base functions tactics numbers list gmap strings.
From S2P Require Import Prelude MemUtils MemoryRegion FreeList Buddy BitArray PageProvider PageAllocator Slab.

(** [chain_] is an array of slab objects in memory of the internal slab.  The
    objects are reached only through their members, so the model keeps them in a
    list beside the address. *)
Record Mallocator : Type := mkMallocator {
  chain_length_ : Z;
  chain_ptr_ : Z;
  chain_ : list SlabAllocator;
  internal_allocator_ : SlabAllocator;
  is_initialized_ : bool
}.

Definition Mallocator_default : Mallocator := mkMallocator 0 nullptr [] SlabAllocator_default false.

(** Seven words on the target. *)
Definition sizeof_SlabAllocator : Z := 28.

Definition chain_unit_size (index : Z) : Z := if index =? 0 then 8 else u32 (index * 16).

(** The first slab to try for a request, possibly past the end. *)
Definition slab_index (chain_length bytes : Z) : Z :=
  if bytes <=? 8 then 0
  else
    let slab_idx := align_up 16 bytes / 16 in
    if chain_length <=? slab_idx then chain_length else slab_idx.

Section Mallocator.
Context {W : Type} `{PP : PageProvider W}.

Abbreviation malloc_prog := (prog (W * Mallocator)).

Definition set_internal (s : SlabAllocator) (a : Mallocator) : Mallocator :=
  mkMallocator (chain_length_ a) (chain_ptr_ a) (chain_ a) s (is_initialized_ a).
Definition set_chain (l : list SlabAllocator) (a : Mallocator) : Mallocator :=
  mkMallocator (chain_length_ a) (chain_ptr_ a) l (internal_allocator_ a) (is_initialized_ a).

Definition on_internal {A} (p : prog (W * SlabAllocator) A) : malloc_prog A :=
  zoom (λ s, (s.1, internal_allocator_ s.2)) (λ t s, (t.1, set_internal t.2 s.2)) p.

(** [chain_[slab_idx].method()] *)
Definition on_slab {A} (slab_idx : Z) (p : prog (W * SlabAllocator) A) : malloc_prog A := λ s,
  match chain_ s.2 !! Z.to_nat slab_idx with
  | None => Fault "chain_ index out of range"
  | Some sl =>
      zoom (λ s, (s.1, sl))
        (λ t s, (t.1, set_chain (<[Z.to_nat slab_idx := t.2]> (chain_ s.2)) s.2)) p s
  end.

Definition on_fallback {A} (p : prog W A) : malloc_prog A := zoom fst (λ w s, (w, s.2)) p.

Definition assert_initialized : malloc_prog unit :=
  ok ← gets (λ s, is_initialized_ s.2);
  if (ok : bool) then mret tt else panic "mallocator is not initialized".

(** Construct and initialize the slabs from [slab_idx] on. *)
Fixpoint init_chain (fuel n : nat) (chain_memory slab_idx : Z) : malloc_prog unit :=
  match n with
  | O => no_fuel
  | S n =>
      len ← gets (λ s, chain_length_ s.2);
      if slab_idx =? len then mret tt
      else
        modify (λ s, (s.1, set_chain (chain_ s.2 ++ [SlabAllocator_default]) s.2)) ;;
        let elem_size := chain_unit_size slab_idx in
        if elem_size =? 0 then fault "division by zero"
        else
          ok ← on_slab slab_idx
                 (SlabAllocator_initialize fuel elem_size (chain_memory / elem_size));
          if negb ok then panic "Initializing of chain failed!"
          else init_chain fuel n chain_memory (u32 (slab_idx + 1))
  end.

Definition Mallocator_initialize (fuel : nat) (chain_memory chain_length : Z) : malloc_prog unit :=
  modify (λ s, (s.1, mkMallocator chain_length (chain_ptr_ s.2) (chain_ s.2)
                       (internal_allocator_ s.2) (is_initialized_ s.2))) ;;
  let chain_size := u32 (sizeof_SlabAllocator * chain_length) in
  ok ← on_internal (SlabAllocator_initialize fuel chain_size 1);
  if negb ok then panic "Initializing of internal allocator failed!"
  else
    ptr ← on_internal (on_mem (SlabAllocator_allocate fuel));
    modify (λ s, (s.1, mkMallocator (chain_length_ s.2) ptr [] (internal_allocator_ s.2)
                         (is_initialized_ s.2))) ;;
    init_chain fuel fuel chain_memory 0 ;;
    modify (λ s, (s.1, mkMallocator (chain_length_ s.2) (chain_ptr_ s.2) (chain_ s.2)
                         (internal_allocator_ s.2) true)).

Fixpoint allocate_chain (fuel n : nat) (slab_idx bytes : Z) : malloc_prog Z :=
  match n with
  | O => no_fuel
  | S n =>
      len ← gets (λ s, chain_length_ s.2);
      if slab_idx =? len then
        on_fallback (alloc_pages (align_up PAGE_SIZE bytes / PAGE_SIZE))
      else
        memory ← on_slab slab_idx (on_mem (SlabAllocator_allocate fuel));
        if negb (memory =? nullptr) then mret memory
        else allocate_chain fuel n (u32 (slab_idx + 1)) bytes
  end.

Definition Mallocator_allocate (fuel : nat) (bytes : Z) : malloc_prog Z :=
  assert_initialized ;;
  len ← gets (λ s, chain_length_ s.2);
  allocate_chain fuel fuel (slab_index len bytes) bytes.

Fixpoint deallocate_chain (n : nat) (chain_idx memory : Z) : malloc_prog unit :=
  match n with
  | O => no_fuel
  | S n =>
      len ← gets (λ s, chain_length_ s.2);
      if chain_idx =? len then on_fallback (free_pages memory)
      else
        owns ← on_slab chain_idx (on_mem (SlabAllocator_owns memory));
        if (owns : bool) then on_slab chain_idx (on_mem (SlabAllocator_deallocate memory))
        else deallocate_chain n (u32 (chain_idx + 1)) memory
  end.

Definition Mallocator_deallocate (fuel : nat) (memory : Z) : malloc_prog unit :=
  assert_initialized ;;
  deallocate_chain fuel 0 memory.
End Mallocator.

(** * Verification *)

(** ** Size classes *)
Lemma slab_index_spec len bytes : 0 ≤ len < 2 ^ 28 → 0 ≤ bytes ≤ 2 ^ 32 - 16 →
  0 ≤ slab_index len bytes ≤ len ∧
  (∀ j, slab_index len bytes ≤ j < len → bytes ≤ chain_unit_size j) ∧
  (∀ j, 0 ≤ j < slab_index len bytes → chain_unit_size j < bytes).
Proof.
  intros Hl Hb. unfold slab_index, chain_unit_size.
  assert (Hal : align_up 16 bytes = (bytes + 15) / 16 * 16).
  { change 16 with (2 ^ 4) at 1. rewrite align_up_spec by lia. change (2 ^ 4) with 16.
    rewrite u32_small by (Z.div_mod_to_equations; lia). done. }
  rewrite Hal, Z.div_mul by lia. destruct (Z.leb_spec bytes 8) as [H8|H8].
  { split_and!; [lia|lia| |lia]. intros j Hj. destruct (Z.eqb_spec j 0); [lia|].
    rewrite u32_small by lia. lia. }
  destruct (Z.leb_spec len ((bytes + 15) / 16)) as [Hc|Hc].
  - split_and!; [lia|lia|lia|]. intros j Hj. destruct (Z.eqb_spec j 0); [lia|].
    rewrite u32_small by lia. Z.div_mod_to_equations. lia.
  - split_and!; [Z.div_mod_to_equations; lia|lia| |].
    + intros j Hj. destruct (Z.eqb_spec j 0); [Z.div_mod_to_equations; lia|].
      rewrite u32_small by (Z.div_mod_to_equations; lia). Z.div_mod_to_equations. lia.
    + intros j Hj. destruct (Z.eqb_spec j 0); [lia|].
      rewrite u32_small by (Z.div_mod_to_equations; lia). Z.div_mod_to_equations. lia.
Qed.

Lemma fallback_pages bytes : 1 ≤ bytes ≤ 2 ^ 32 - 4096 →
  let n := align_up PAGE_SIZE bytes / PAGE_SIZE in
  1 ≤ n ≤ 2 ^ 31 ∧ bytes ≤ PAGE_SIZE * n < bytes + PAGE_SIZE.
Proof.
  intros Hb. cbv zeta. change PAGE_SIZE with (2 ^ 12). rewrite align_up_spec by lia.
  change (2 ^ 12) with 4096. rewrite u32_small by (Z.div_mod_to_equations; lia).
  Z.div_mod_to_equations. lia.
Qed.

(** A slab depends on its map only. *)
Lemma Slab_inv_ext m m' s used : (∀ a, slab_map_bytes s a → load8 m' a = load8 m a) →
  Slab_inv m s used → Slab_inv m' s used.
Proof.
  intros Hm H. split; try apply H. intros i Hi.
  rewrite (BitArray_get_ext _ (nelems_ s) i m m'); [by apply H|apply H|done|].
  apply Hm. unfold slab_map_bytes. rewrite (proj2 (slab_area _ _ _ H)).
  destruct (slab_fit _ _ _ H) as (_ & Hn & _). pose proof (index_byte_range _ i Hi ltac:(lia)). lia.
Qed.

Section MallocatorSpec.
Context {W : Type} `{PP : PageProvider W}.
Implicit Types (w : W) (a : Mallocator) (used : nat → gset Z).

(** ** The invariant *)
Record Mallocator_rep w (al : gmap Z Z) a used : Prop := {
  mrep_pages : page_rep w al;
  mrep_init : is_initialized_ a = true;
  mrep_length : chain_length_ a = Z.of_nat (length (chain_ a)) ∧ chain_length_ a < 2 ^ 28;
  mrep_slabs : ∀ i s, chain_ a !! i = Some s →
    Slab_rep w al s (used i) ∧ elem_size_ s = chain_unit_size (Z.of_nat i);
  mrep_areas : ∀ i j s t, chain_ a !! i = Some s → chain_ a !! j = Some t →
    area_ s = area_ t → i = j
}.

(** Every slab lies in a block of its own. *)
Definition slab_bytes_at (s : SlabAllocator) (x : Z) : Prop :=
  area_ s ≤ x < memory_ s + nelems_ s * elem_size_ s.

Lemma slab_block w al s u x : Slab_rep w al s u → slab_bytes_at s x →
  ∃ n, al !! area_ s = Some n ∧ run_bytes (area_ s) n x.
Proof.
  intros [_ _ (n & Hn & He) _] Hx. exists n. unfold slab_bytes_at, run_bytes in *. split; [done|lia].
Qed.

Lemma slab_map_at w al s u x : Slab_rep w al s u → slab_map_bytes s x → slab_bytes_at s x.
Proof.
  intros H Hx. pose proof (srep_inv _ _ _ _ H) as Hi. unfold slab_map_bytes, slab_bytes_at in *.
  pose proof (slab_memory _ _ _ Hi). pose proof (slab_elem _ _ _ Hi).
  pose proof (slab_nelems _ _ _ Hi). nia.
Qed.

Lemma slabs_apart w al a used i j s t x : Mallocator_rep w al a used →
  chain_ a !! i = Some s → chain_ a !! j = Some t → slab_bytes_at s x → slab_bytes_at t x → i = j.
Proof.
  intros H Hs Ht Hx Hy. destruct (mrep_slabs _ _ _ _ H i s Hs) as [Hsr _].
  destruct (mrep_slabs _ _ _ _ H j t Ht) as [Htr _].
  destruct (slab_block _ _ _ _ _ Hsr Hx) as (n & Hn & Hnx).
  destruct (slab_block _ _ _ _ _ Htr Hy) as (k & Hk & Hkx).
  apply (mrep_areas _ _ _ _ H i j s t Hs Ht).
  by apply (page_rep_disjoint w al (area_ s) n (area_ t) k x (mrep_pages _ _ _ _ H)).
Qed.

(** One slab changes its map. *)
Lemma Mallocator_rep_slab w w' al a used i s u : Mallocator_rep w al a used →
  chain_ a !! i = Some s → Slab_rep w' al s u →
  (∀ x, ¬ slab_map_bytes s x → load8 (page_mem w') x = load8 (page_mem w) x) →
  Mallocator_rep w' al a (<[i := u]> used).
Proof.
  intros H Hs Hrep Hm. split; try apply H; [apply Hrep|]. intros j t Ht.
  destruct (mrep_slabs _ _ _ _ H j t Ht) as [Htr He].
  destruct (decide (j = i)) as [->|Hne];
    rewrite ?fn_lookup_insert, ?fn_lookup_insert_ne by done.
  - assert (t = s) as -> by congruence. done.
  - split; [|done]. split; [apply Hrep| |apply Htr|apply Htr].
    apply (Slab_inv_ext (page_mem w)); [|apply Htr]. intros x Hx. apply Hm. intros Hx'.
    apply Hne. apply (slabs_apart w al a used j i t s x H Ht Hs).
    + by apply (slab_map_at w al t (used j)).
    + apply (slab_map_at w al s (used i)); [by apply (mrep_slabs _ _ _ _ H)|done].
Qed.

(** The page provider changes the blocks around the slabs. *)
Lemma Mallocator_rep_pages w w' al al' a used : Mallocator_rep w al a used → page_rep w' al' →
  (∀ s, s ∈ chain_ a → al' !! area_ s = al !! area_ s) →
  (∀ s x, s ∈ chain_ a → slab_map_bytes s x → load8 (page_mem w') x = load8 (page_mem w) x) →
  Mallocator_rep w' al' a used.
Proof.
  intros H Hp Hal Hm. split; try apply H; [done|]. intros j t Ht.
  destruct (mrep_slabs _ _ _ _ H j t Ht) as [Htr He]. split; [|done].
  assert (Hin : t ∈ chain_ a) by (by eapply list_elem_of_lookup_2).
  split; [done| |rewrite Hal by done; apply Htr|apply Htr].
  apply (Slab_inv_ext (page_mem w)); [|apply Htr]. intros x Hx. by apply (Hm t).
Qed.

Lemma Mallocator_rep_used w al a used used' : (∀ i, used' i = used i) →
  Mallocator_rep w al a used → Mallocator_rep w al a used'.
Proof. intros E H. split; try apply H. intros i s Hs. rewrite E. by apply H. Qed.

Lemma on_slab_done {A} (p : prog (W * SlabAllocator) A) w a i s x w' :
  chain_ a !! i = Some s → p (w, s) = Done (x, (w', s)) →
  on_slab (Z.of_nat i) p (w, a) = Done (x, (w', a)).
Proof.
  intros Hs Hp. unfold on_slab, zoom. cbn [fst snd]. rewrite Nat2Z.id, Hs, Hp.
  cbn [fst snd]. rewrite list_insert_id by done. by destruct a.
Qed.

(** The bytes of the allocated blocks that are no map of a slab keep their contents. *)
Definition contents_kept w w' (al : gmap Z Z) a : Prop := ∀ x, in_blocks al x →
  (∀ s, s ∈ chain_ a → ¬ slab_map_bytes s x) → load8 (page_mem w') x = load8 (page_mem w) x.

Lemma contents_kept_trans w1 w2 w3 al a :
  contents_kept w1 w2 al a → contents_kept w2 w3 al a → contents_kept w1 w3 al a.
Proof. intros H1 H2 x Hx Hs. rewrite H2 by done. by apply H1. Qed.

Lemma contents_kept_slab w w' al a s : s ∈ chain_ a →
  (∀ x, ¬ slab_map_bytes s x → load8 (page_mem w') x = load8 (page_mem w) x) → contents_kept w w' al a.
Proof. intros Hs Hm x _ Hx. apply Hm. by apply Hx. Qed.

(** ** [allocate] *)

(** Enough fuel for every loop over elements and over slabs. *)
Definition malloc_fuel (fuel : nat) a : Prop :=
  chain_length_ a < Z.of_nat fuel ∧ ∀ s, s ∈ chain_ a → nelems_ s < Z.of_nat fuel.

Lemma allocate_fallback fuel n w al a used bytes : Mallocator_rep w al a used →
  1 ≤ bytes ≤ 2 ^ 32 - 4096 →
  ∃ p w' al', allocate_chain fuel (S n) (chain_length_ a) bytes (w, a) = Done (p, (w', a)) ∧
    Mallocator_rep w' al' a used ∧
    ((p = nullptr ∧ al' = al ∧ page_scarce w al (align_up PAGE_SIZE bytes / PAGE_SIZE)) ∨
     (p ≠ nullptr ∧ al !! p = None ∧ al' = <[p := align_up PAGE_SIZE bytes / PAGE_SIZE]> al)) ∧
    contents_kept w w' al a.
Proof.
  intros H Hb. cbn [allocate_chain]. rewrite gets_bind. cbn [snd]. rewrite Z.eqb_refl.
  destruct (fallback_pages bytes Hb) as [Hn _].
  destruct (alloc_pages_done w al _ (mrep_pages _ _ _ _ H) Hn) as (p & w' & al' & Wp & Hp & Hcase & Hk).
  exists p, w', al'. split_and!; [unfold on_fallback, zoom; simpl; by rewrite Wp| | |].
  - apply (Mallocator_rep_pages w w' al); [done|done| |].
    + intros s (i & Hs)%list_elem_of_lookup_1. destruct (mrep_slabs _ _ _ _ H i s Hs) as [Hr _].
      destruct Hcase as [(_ & -> & _)|(_ & Hnone & ->)]; [done|].
      rewrite lookup_insert_ne; [done|]. intros ->.
      destruct (srep_block _ _ _ _ Hr) as (k & Hk' & _). congruence.
    + intros s x (i & Hs)%list_elem_of_lookup_1 Hx. apply Hk.
      destruct (mrep_slabs _ _ _ _ H i s Hs) as [Hr _]. by apply (slab_map_in_block w al s (used i)).
  - destruct Hcase as [?|(? & ? & ?)]; [by left|by right].
  - intros x Hx _. by apply Hk.
Qed.

(** What a successful search in the chain returns. *)
Definition from_slab w al a used (lo : nat) (p : Z) w' : Prop :=
  ∃ i s c, (lo ≤ i)%nat ∧ chain_ a !! i = Some s ∧ 0 ≤ c < nelems_ s ∧ c ∉ used i ∧
    p = chunk_addr s c ∧ Mallocator_rep w' al a (<[i := used i ∪ {[ c ]}]> used) ∧
    (∀ d, 0 ≤ d < c → d ∈ used i) ∧
    (∀ j t d, (lo ≤ j < i)%nat → chain_ a !! j = Some t → 0 ≤ d < nelems_ t → d ∈ used j).

Definition from_pages w al a used bytes (p : Z) w' al' : Prop :=
  Mallocator_rep w' al' a used ∧
  ((p = nullptr ∧ al' = al ∧
    ∃ w1, page_rep w1 al ∧ page_scarce w1 al (align_up PAGE_SIZE bytes / PAGE_SIZE)) ∨
   (p ≠ nullptr ∧ al !! p = None ∧ al' = <[p := align_up PAGE_SIZE bytes / PAGE_SIZE]> al)).

Definition all_taken a used (lo : nat) : Prop :=
  ∀ i s c, (lo ≤ i)%nat → chain_ a !! i = Some s → 0 ≤ c < nelems_ s → c ∈ used i.

Lemma allocate_chain_done fuel bytes al a used : malloc_fuel fuel a → 1 ≤ bytes ≤ 2 ^ 32 - 4096 →
  ∀ n lo w, Mallocator_rep w al a used → (lo ≤ length (chain_ a))%nat →
  (length (chain_ a) - lo < n)%nat →
  ∃ p w' al', allocate_chain fuel n (Z.of_nat lo) bytes (w, a) = Done (p, (w', a)) ∧
    ((al' = al ∧ from_slab w al a used lo p w') ∨
     (all_taken a used lo ∧ from_pages w al a used bytes p w' al')) ∧ contents_kept w w' al a.
Proof.
  intros [Hf1 Hf2] Hb. induction n as [|n IH]; intros lo w H Hlo Hn; [lia|].
  destruct (mrep_length _ _ _ _ H) as [Hlen Hlt].
  destruct (decide (lo = length (chain_ a))) as [->|Hne].
  { rewrite <- Hlen. destruct (allocate_fallback fuel n w al a used bytes H Hb)
      as (p & w' & al' & Wp & Hrep & Hcase & Hk).
    exists p, w', al'. split; [done|]. split; [|done]. right. split.
    - intros i s c Hi Hs%lookup_lt_Some. lia.
    - split; [done|]. destruct Hcase as [(? & ? & ?)|?]; [left|by right]. split_and!; try done.
      exists w. by split; [apply H|]. }
  destruct (lookup_lt_is_Some_2 (chain_ a) lo ltac:(lia)) as [s Hs].
  assert (Hin : s ∈ chain_ a) by (by eapply list_elem_of_lookup_2).
  destruct (mrep_slabs _ _ _ _ H lo s Hs) as [Hr He].
  cbn [allocate_chain]. rewrite gets_bind. cbn [snd].
  destruct (Z.eqb_spec (Z.of_nat lo) (chain_length_ a)); [lia|].
  destruct (SlabAllocator_allocate_done fuel w al s (used lo) Hr (Hf2 s Hin))
    as [(c & Hc & Hu & Hfirst & w' & Ws & Hr' & Hm)|(Hall & w' & Ws & Hr' & Hm)];
    rewrite (bind_done _ _ _ _ _ (on_slab_done _ w a lo s _ w' Hs Ws)).
  - destruct (chunk_inside _ _ _ c (srep_inv _ _ _ _ Hr) Hc) as (? & _ & ?).
    destruct (Z.eqb_spec (chunk_addr s c) nullptr); [unfold nullptr in *; lia|].
    eexists _, w', al. split; [reflexivity|]. split; [|by eapply contents_kept_slab].
    left. split; [done|]. exists lo, s, c.
    split_and!; try done; try lia. by apply (Mallocator_rep_slab w w' al a used lo s).
  - rewrite Z.eqb_refl. cbn [negb]. rewrite u32_small by lia.
    replace (Z.of_nat lo + 1) with (Z.of_nat (S lo)) by lia.
    assert (H' : Mallocator_rep w' al a used).
    { apply (Mallocator_rep_pages w w' al); [done|apply Hr'|done|]. intros t x _ _. by rewrite Hm. }
    destruct (IH (S lo) w' H') as (p & w2 & al' & Wp & Hcase & Hk); [lia|lia|].
    exists p, w2, al'. split; [done|].
    split; [|eapply contents_kept_trans; [|exact Hk]; intros x _ _; by rewrite Hm].
    destruct Hcase as [(-> & i & t & c & Hi & Ht & Hc & Hu & Hp & Hrep & Hd & Hj)|(Ht & Hfp)].
    + left. split; [done|]. exists i, t, c.
      split; [lia|]. do 6 (split; [done|]). intros j t' d Hji Ht' Hd'.
      destruct (decide (j = lo)) as [->|]; [|apply (Hj j t'); [lia|done..]].
      assert (t' = s) as -> by congruence. by apply Hall.
    + right. split; [|done]. intros i t c Hi Ht' Hc.
      destruct (decide (i = lo)) as [->|]; [|apply (Ht i t c); [lia|done..]].
      assert (t = s) as -> by congruence. by apply Hall.
Qed.

Lemma Mallocator_allocate_done fuel w al a used bytes :
  Mallocator_rep w al a used → malloc_fuel fuel a → 1 ≤ bytes ≤ 2 ^ 32 - 4096 →
  ∃ p w' al', Mallocator_allocate fuel bytes (w, a) = Done (p, (w', a)) ∧
    let lo := Z.to_nat (slab_index (chain_length_ a) bytes) in
    ((al' = al ∧ from_slab w al a used lo p w') ∨
     (all_taken a used lo ∧ from_pages w al a used bytes p w' al')) ∧ contents_kept w w' al a.
Proof.
  intros H Hf Hb. destruct (mrep_length _ _ _ _ H) as [Hlen Hlt].
  destruct (slab_index_spec (chain_length_ a) bytes) as (Hi & _); [lia|lia|].
  unfold Mallocator_allocate, assert_initialized. rewrite bind_bind, gets_bind. cbn [snd].
  rewrite (mrep_init _ _ _ _ H), ret_bind, gets_bind. cbn [snd].
  remember (Z.to_nat (slab_index (chain_length_ a) bytes)) as lo eqn:El.
  replace (slab_index (chain_length_ a) bytes) with (Z.of_nat lo) by lia.
  apply allocate_chain_done; [done|done|done|lia|]. destruct Hf as [Hf _]. lia.
Qed.

(** The cases with the sizes in place of the indices. *)
Lemma mallocator_allocate_cases fuel w al a used bytes :
  Mallocator_rep w al a used → malloc_fuel fuel a → 1 ≤ bytes ≤ 2 ^ 32 - 4096 →
  ∃ p w' al', Mallocator_allocate fuel bytes (w, a) = Done (p, (w', a)) ∧ contents_kept w w' al a ∧
    ((al' = al ∧ ∃ i s c, chain_ a !! i = Some s ∧ 0 ≤ c < nelems_ s ∧ c ∉ used i ∧
        p = chunk_addr s c ∧ bytes ≤ elem_size_ s ∧
        Mallocator_rep w' al a (<[i := used i ∪ {[ c ]}]> used) ∧
        (∀ d, 0 ≤ d < c → d ∈ used i) ∧
        (∀ j t d, (j < i)%nat → chain_ a !! j = Some t → bytes ≤ elem_size_ t →
           0 ≤ d < nelems_ t → d ∈ used j)) ∨
     ((∀ i s c, chain_ a !! i = Some s → bytes ≤ elem_size_ s → 0 ≤ c < nelems_ s → c ∈ used i) ∧
      Mallocator_rep w' al' a used ∧
      ((p = nullptr ∧ al' = al ∧
        ∃ w1 n, page_rep w1 al ∧ page_scarce w1 al n ∧ bytes ≤ PAGE_SIZE * n < bytes + PAGE_SIZE) ∨
       ∃ n, p ≠ nullptr ∧ al !! p = None ∧ al' = <[p := n]> al ∧
         bytes ≤ PAGE_SIZE * n < bytes + PAGE_SIZE))).
Proof.
  intros Hrep Hfuel Hbytes.
  destruct (Mallocator_allocate_done fuel w al a used bytes Hrep Hfuel Hbytes)
    as (p & w' & al' & Wp & Hcase & Hk). exists p, w', al'. split; [done|]. split; [done|].
  destruct (mrep_length _ _ _ _ Hrep) as [Hlen Hlt].
  destruct (slab_index_spec (chain_length_ a) bytes) as (Hi & Hfit & Hsmall); [lia|lia|].
  assert (Hlarge : ∀ i s, chain_ a !! i = Some s → bytes ≤ elem_size_ s →
      (Z.to_nat (slab_index (chain_length_ a) bytes) ≤ i)%nat).
  { intros i s Hs Hb. destruct (decide (Z.of_nat i < slab_index (chain_length_ a) bytes)); [|lia].
    rewrite (proj2 (mrep_slabs _ _ _ _ Hrep i s Hs)) in Hb.
    pose proof (Hsmall (Z.of_nat i) ltac:(lia)). lia. }
  destruct Hcase as [(-> & i & s & c & Hlo & Hs & Hc & Hu & Hp & Hr & Hfirst & Hbefore)|(Htaken & Hr & Hcase)].
  - left. split; [done|]. exists i, s, c. split_and!; try done; try lia.
    + rewrite (proj2 (mrep_slabs _ _ _ _ Hrep i s Hs)). apply Hfit.
      apply lookup_lt_Some in Hs. lia.
    + intros j t d Hj Ht Hb Hd. apply (Hbefore j t d); [|done|done]. split; [by apply (Hlarge j t)|done].
  - right. split_and!; [|done|].
    + intros i s c Hs Hb Hc. apply (Htaken i s c); [by apply (Hlarge i s)|done|done].
    + destruct (fallback_pages bytes ltac:(lia)) as [_ Hpg].
      destruct Hcase as [(? & ? & w1 & ? & ?)|(? & ? & ?)]; [left|right].
      * split_and!; [done..|]. by exists w1, (align_up PAGE_SIZE bytes / PAGE_SIZE).
      * by exists (align_up PAGE_SIZE bytes / PAGE_SIZE).
Qed.

(** ** [deallocate] *)
Definition slab_elems (s : SlabAllocator) (p : Z) : Prop :=
  in_block p (memory_ s) (nelems_ s * elem_size_ s).

Lemma elems_at w al s u p : Slab_rep w al s u → slab_elems s p → slab_bytes_at s p.
Proof.
  intros Hr Hp. pose proof (srep_inv _ _ _ _ Hr) as Hi. pose proof (slab_memory _ _ _ Hi) as Em.
  destruct (slab_fit _ _ _ Hi) as (_ & Hn & _). rewrite expected_size_ceil in Em by lia.
  unfold slab_elems, slab_bytes_at in *. Z.div_mod_to_equations; lia.
Qed.

(** The search passes the slabs that do not own the address. *)
Lemma deallocate_chain_skip al a used p : ∀ n hi w, Mallocator_rep w al a used →
  (hi ≤ length (chain_ a))%nat →
  (∀ i s, (i < hi)%nat → chain_ a !! i = Some s → ¬ slab_elems s p) →
  ∃ w', Mallocator_rep w' al a used ∧ page_mem w' = page_mem w ∧
    deallocate_chain (hi + n) 0 p (w, a) = deallocate_chain n (Z.of_nat hi) p (w', a).
Proof.
  intros n hi. revert n. induction hi as [|hi IH]; intros n w H Hhi Hno; [by exists w|].
  destruct (IH (S n) w H ltac:(lia)) as (w1 & H1 & Hm1 & E); [intros i s Hi; apply Hno; lia|].
  destruct (lookup_lt_is_Some_2 (chain_ a) hi ltac:(lia)) as [s Hs].
  destruct (mrep_slabs _ _ _ _ H1 hi s Hs) as [Hr _]. destruct (mrep_length _ _ _ _ H1) as [Hl Hlt].
  exists (set_page_mem (page_mem w1) w1). split.
  { apply (Mallocator_rep_pages w1 _ al); [done| |done|].
    - apply page_rep_write; [apply H1|done].
    - intros t x _ _. by rewrite page_mem_set. }
  split; [by rewrite page_mem_set|].
  replace (S hi + n)%nat with (hi + S n)%nat by lia. rewrite E.
  cbn [deallocate_chain]. rewrite gets_bind. cbn [snd].
  destruct (Z.eqb_spec (Z.of_nat hi) (chain_length_ a)); [lia|].
  pose proof (SlabAllocator_owns_done (page_mem w1) s (used hi) p (srep_inv _ _ _ _ Hr)) as Wo.
  rewrite bool_decide_eq_false_2 in Wo by (apply (Hno hi s); [lia|done]).
  rewrite (bind_done _ _ _ _ _ (on_slab_done _ w1 a hi s _ _ Hs (on_mem_done _ _ _ _ _ _ Wo))).
  rewrite u32_small by lia. do 2 f_equal. lia.
Qed.

Lemma Mallocator_deallocate_slab fuel w al a used i s p :
  Mallocator_rep w al a used → malloc_fuel fuel a → chain_ a !! i = Some s → slab_elems s p →
  ∃ w', Mallocator_deallocate fuel p (w, a) = Done (tt, (w', a)) ∧
    Mallocator_rep w' al a (<[i := used i ∖ {[ chunk_of s p ]}]> used) ∧ contents_kept w w' al a.
Proof.
  intros H [Hf _] Hs Hp. pose proof (lookup_lt_Some _ _ _ Hs) as Hlt.
  destruct (mrep_length _ _ _ _ H) as [Hl Hl2].
  unfold Mallocator_deallocate, assert_initialized. rewrite bind_bind, gets_bind. cbn [snd].
  rewrite (mrep_init _ _ _ _ H), ret_bind.
  destruct (deallocate_chain_skip al a used p (fuel - i) i w H) as (w1 & H1 & Hm1 & E); [lia| |].
  { intros j t Hj Ht Hpt. assert (j = i); [|lia].
    apply (slabs_apart w al a used j i t s p H Ht Hs);
      (eapply elems_at; [by apply (mrep_slabs _ _ _ _ H)|done]). }
  replace (i + (fuel - i))%nat with fuel in E by lia. rewrite E.
  destruct (fuel - i)%nat as [|n] eqn:En; [lia|]. cbn [deallocate_chain].
  rewrite gets_bind. cbn [snd]. destruct (Z.eqb_spec (Z.of_nat i) (chain_length_ a)); [lia|].
  destruct (mrep_slabs _ _ _ _ H1 i s Hs) as [Hr _].
  pose proof (SlabAllocator_owns_done (page_mem w1) s (used i) p (srep_inv _ _ _ _ Hr)) as Wo.
  rewrite bool_decide_eq_true_2 in Wo by done.
  rewrite (bind_done _ _ _ _ _ (on_slab_done _ w1 a i s _ _ Hs (on_mem_done _ _ _ _ _ _ Wo))).
  assert (Hr2 : Slab_rep (set_page_mem (page_mem w1) w1) al s (used i))
    by (eapply Slab_rep_write; [done|done|apply Hr]).
  destruct (SlabAllocator_deallocate_rep _ al s (used i) p Hr2 Hp) as (w2 & W2 & Hr3 & Hm).
  exists w2. rewrite (on_slab_done _ _ a i s tt w2 Hs W2). split; [done|]. split.
  - apply (Mallocator_rep_slab w1 w2 al a used i s); [done|done|done|].
    intros x Hx. rewrite (Hm x Hx). by rewrite page_mem_set.
  - apply (contents_kept_slab w w2 al a s); [by eapply list_elem_of_lookup_2|].
    intros x Hx. by rewrite (Hm x Hx), page_mem_set, Hm1.
Qed.

Lemma Mallocator_deallocate_pages fuel w al a used p n :
  Mallocator_rep w al a used → malloc_fuel fuel a → al !! p = Some n →
  (∀ s, s ∈ chain_ a → area_ s ≠ p) →
  ∃ w', Mallocator_deallocate fuel p (w, a) = Done (tt, (w', a)) ∧
    Mallocator_rep w' (delete p al) a used ∧ contents_kept w w' (delete p al) a.
Proof.
  intros H [Hf _] Hp Harea. destruct (mrep_length _ _ _ _ H) as [Hl Hl2].
  unfold Mallocator_deallocate, assert_initialized. rewrite bind_bind, gets_bind. cbn [snd].
  rewrite (mrep_init _ _ _ _ H), ret_bind.
  destruct (page_rep_block w al p n (mrep_pages _ _ _ _ H) Hp) as (Hn & _).
  destruct (deallocate_chain_skip al a used p (fuel - length (chain_ a)) (length (chain_ a)) w H)
    as (w1 & H1 & Hm1 & E); [lia| |].
  { intros j t Hj Ht Hpt. destruct (mrep_slabs _ _ _ _ H j t Ht) as [Hr _].
    destruct (slab_block _ _ _ _ p Hr (elems_at _ _ _ _ _ Hr Hpt)) as (k & Hk & Hkx).
    apply (Harea t); [by eapply list_elem_of_lookup_2|].
    apply (page_rep_disjoint w al (area_ t) k p n p (mrep_pages _ _ _ _ H)); try done.
    unfold run_bytes, PAGE_SIZE. lia. }
  replace (length (chain_ a) + _)%nat with fuel in E by lia. rewrite E.
  destruct (fuel - length (chain_ a))%nat as [|k] eqn:En; [lia|]. cbn [deallocate_chain].
  rewrite gets_bind. cbn [snd]. destruct (Z.eqb_spec (Z.of_nat (length (chain_ a))) (chain_length_ a)); [|lia].
  destruct (free_pages_done w1 al p n (mrep_pages _ _ _ _ H1) Hp) as (w2 & W2 & Hrep2 & Hkeep).
  exists w2. split; [unfold on_fallback, zoom; simpl; by rewrite W2|].
  split; [|intros x Hx _; by rewrite Hkeep, Hm1].
  apply (Mallocator_rep_pages w1 w2 al); [done|done| |].
  - intros s Hs. by rewrite lookup_delete_ne by (intros E'; by apply (Harea s)).
  - intros s x Hs Hx. apply Hkeep. pose proof Hs as (i & Hi)%list_elem_of_lookup_1.
    destruct (mrep_slabs _ _ _ _ H1 i s Hi) as [Hr _].
    destruct (slab_block _ _ _ _ x Hr (slab_map_at _ _ _ _ _ Hr Hx)) as (m & Hm & Hmx).
    exists (area_ s), m. split; [|done]. rewrite lookup_delete_ne; [done|].
    intros E'. by apply (Harea s).
Qed.

(** ** [initialize] *)

(** The allocator with the chain built so far, seen as complete. *)
Definition built a : Mallocator :=
  mkMallocator (Z.of_nat (length (chain_ a))) (chain_ptr_ a) (chain_ a) (internal_allocator_ a) true.

(** What the sizes must satisfy for no product to wrap. *)
Definition chain_sizes_ok (fuel : nat) (chain_memory len : Z) : Prop :=
  0 ≤ len < 2 ^ 28 ∧ len < Z.of_nat fuel ∧
  ∀ i, 0 ≤ i < len → let e := chain_unit_size i in
    0 ≤ chain_memory / e < 2 ^ 31 ∧ chain_memory / e < Z.of_nat fuel ∧
    0 < slab_bytes e (chain_memory / e) < 2 ^ 31.

(** The pages of the slabs, the internal one included, are at most [bound] each. *)
Definition chain_pages_bound (chain_memory len bound : Z) : Prop :=
  required_pages (sizeof_SlabAllocator * len) 1 ≤ bound ∧
  ∀ i, 0 ≤ i < len → required_pages (chain_unit_size i) (chain_memory / chain_unit_size i) ≤ bound.

(** The blocks of [al], and at most [count] more of at most [bound] pages. *)
Definition grown_blocks (bound : Z) (count : nat) (al al1 : gmap Z Z) : Prop :=
  (size al1 ≤ size al + count)%nat ∧ ∀ p k, al1 !! p = Some k → al !! p = Some k ∨ k ≤ bound.

Lemma grown_blocks_insert bound c al al1 p k : grown_blocks bound c al al1 → k ≤ bound →
  grown_blocks bound (S c) al (<[p := k]> al1).
Proof.
  intros [Hs Hb] Hk. split.
  - rewrite map_size_insert. destruct (al1 !! p); cbn; lia.
  - intros q j [[<- <-]|[_ Hq]]%lookup_insert_Some; [by right|by apply Hb].
Qed.

Lemma grown_blocks_refl bound c al : grown_blocks bound c al al.
Proof. split; [lia|by left]. Qed.

(** What it takes for one of the slabs to find no pages. *)
Definition starved (bound : Z) (count : nat) (al : gmap Z Z) : Prop :=
  ∃ w1 al1 n, page_scarce w1 al1 n ∧ n ≤ bound ∧ grown_blocks bound count al al1.

Lemma grown_blocks_mono bound c d al al1 : (c ≤ d)%nat → grown_blocks bound c al al1 → grown_blocks bound d al al1.
Proof. intros Hcd [Hs Hb]. split; [lia|done]. Qed.

Lemma chain_unit_pos i : 0 ≤ i < 2 ^ 28 → 0 < chain_unit_size i.
Proof. intros Hi. unfold chain_unit_size. destruct (Z.eqb_spec i 0); [lia|]. rewrite u32_small; lia. Qed.

(** A new slab joins the chain. *)
Lemma Mallocator_rep_snoc w w' al al' a s used : Mallocator_rep w al (built a) used →
  Z.of_nat (length (chain_ a)) + 1 < 2 ^ 28 →
  Slab_rep w' al' s ∅ → elem_size_ s = chain_unit_size (Z.of_nat (length (chain_ a))) →
  al !! area_ s = None → (∀ x, x ≠ area_ s → al' !! x = al !! x) →
  (∀ x, in_blocks al x → load8 (page_mem w') x = load8 (page_mem w) x) →
  Mallocator_rep w' al' (built (set_chain (chain_ a ++ [s]) a)) (<[length (chain_ a) := ∅]> used).
Proof.
  intros H Hlt Hs He Hnone Hal Hk.
  assert (Hold : ∀ t u, Slab_rep w al t u → area_ t ≠ area_ s ∧ al' !! area_ t = al !! area_ t).
  { intros t u Ht. destruct (srep_block _ _ _ _ Ht) as (k & Hk' & _).
    assert (area_ t ≠ area_ s) by congruence. auto. }
  split; cbn [built set_chain chain_ chain_length_ is_initialized_]; try done.
  - apply Hs.
  - rewrite length_app. simpl. lia.
  - intros i t [Ht|(Hge & Ht)]%lookup_app_Some.
    + destruct (mrep_slabs _ _ _ _ H i t Ht) as [Hr Het]. pose proof (lookup_lt_Some _ _ _ Ht).
      destruct (Hold t _ Hr) as [_ Hat]. rewrite fn_lookup_insert_ne by lia. split; [|done].
      split; [apply Hs| |rewrite Hat; apply Hr|apply Hr].
      apply (Slab_inv_ext (page_mem w)); [|apply Hr]. intros x Hx. apply Hk.
      by apply (slab_map_in_block w al t (used i)).
    + apply list_lookup_singleton_Some in Ht as [Hi <-].
      replace i with (length (chain_ a)) by lia. by rewrite fn_lookup_insert.
  - intros i j t u [Ht|(Hi & Ht)]%lookup_app_Some [Hu|(Hj & Hu)]%lookup_app_Some Ea.
    + by apply (mrep_areas _ _ _ _ H i j t u).
    + apply list_lookup_singleton_Some in Hu as [_ <-].
      by destruct (Hold t _ (proj1 (mrep_slabs _ _ _ _ H i t Ht))).
    + apply list_lookup_singleton_Some in Ht as [_ <-].
      by destruct (Hold u _ (proj1 (mrep_slabs _ _ _ _ H j u Hu))).
    + apply list_lookup_singleton_Some in Ht as [? _].
      apply list_lookup_singleton_Some in Hu as [? _]. lia.
Qed.

Lemma init_chain_done fuel chain_memory len bound al0 : chain_sizes_ok fuel chain_memory len →
  chain_pages_bound chain_memory len bound →
  ∀ n w al a, grown_blocks bound (S (length (chain_ a))) al0 al → chain_length_ a = len → Mallocator_rep w al (built a) (λ _, ∅) →
  (length (chain_ a) ≤ Z.to_nat len)%nat → (Z.to_nat len - length (chain_ a) < n)%nat →
  (init_chain fuel n chain_memory (Z.of_nat (length (chain_ a))) (w, a)
     = Panic "Initializing of chain failed!" ∧ starved bound (Z.to_nat len) al0) ∨
  ∃ w' al' l, init_chain fuel n chain_memory (Z.of_nat (length (chain_ a))) (w, a)
    = Done (tt, (w', set_chain l a)) ∧ Z.of_nat (length l) = len ∧
    Mallocator_rep w' al' (built (set_chain l a)) (λ _, ∅) ∧
    (∀ p k, al !! p = Some k → al' !! p = Some k).
Proof.
  intros (Hlen & Hlf & Hsz) [_ Hbnd]. induction n as [|n IH]; intros w al a Hg Hcl H Hle Hn; [lia|].
  cbn [init_chain]. rewrite gets_bind. cbn [snd]. rewrite Hcl.
  destruct (Z.eqb_spec (Z.of_nat (length (chain_ a))) len) as [E|E].
  { right. exists w, al, (chain_ a). split_and!; try done. by destruct a. }
  set (i := length (chain_ a)) in *. destruct (Hsz (Z.of_nat i) ltac:(lia)) as (Hz1 & Hz2 & Hz3).
  pose proof (chain_unit_pos (Z.of_nat i) ltac:(lia)) as Hpos.
  rewrite modify_bind. cbn [fst snd].
  destruct (Z.eqb_spec (chain_unit_size (Z.of_nat i)) 0); [lia|].
  destruct (SlabAllocator_initialize_done fuel w al SlabAllocator_default
    (chain_unit_size (Z.of_nat i)) (chain_memory / chain_unit_size (Z.of_nat i)))
    as (b & w1 & s1 & al1 & Ws & Hk & He & _ & Hcase); try done; [apply H|].
  set (a1 := set_chain (chain_ a ++ [SlabAllocator_default]) a).
  assert (Hstep : on_slab (Z.of_nat i) (SlabAllocator_initialize fuel (chain_unit_size (Z.of_nat i))
      (chain_memory / chain_unit_size (Z.of_nat i))) (w, a1)
    = Done (b, (w1, set_chain (chain_ a ++ [s1]) a))).
  { unfold on_slab, zoom. cbn [fst snd a1 set_chain chain_]. rewrite Nat2Z.id.
    rewrite list_lookup_middle by done. rewrite Ws. cbn [fst snd].
    unfold i. rewrite insert_app_r_alt, Nat.sub_diag by lia. done. }
  rewrite (bind_done _ _ _ _ _ Hstep).
  pose proof (Hbnd (Z.of_nat i) ltac:(lia)) as Hbi.
  destruct Hcase as [(-> & _ & _ & _ & _ & Hsc)|(-> & Hnone & -> & Hr)].
  { left. split; [done|]. exists w, al, (required_pages (chain_unit_size (Z.of_nat i))
      (chain_memory / chain_unit_size (Z.of_nat i))). split_and!; [done|done|].
    eapply grown_blocks_mono; [|exact Hg]. lia. }
  cbn [negb]. rewrite u32_small by lia. set (a2 := set_chain (chain_ a ++ [s1]) a).
  assert (Hl2 : length (chain_ a2) = S i) by (cbn; rewrite length_app; simpl; lia).
  replace (Z.of_nat i + 1) with (Z.of_nat (length (chain_ a2))) by lia.
  destruct (IH w1 (<[area_ s1 := required_pages (chain_unit_size (Z.of_nat i))
    (chain_memory / chain_unit_size (Z.of_nat i))]> al) a2) as [?|(w' & al' & l & W' & Hl & H' & Hm)];
    [rewrite Hl2; by apply grown_blocks_insert|done| |lia|lia|by left|].
  { assert (Hs := Mallocator_rep_snoc w w1 al (<[area_ s1 := required_pages (chain_unit_size (Z.of_nat i))
      (chain_memory / chain_unit_size (Z.of_nat i))]> al) a s1 (λ _, ∅) H).
    eapply Mallocator_rep_used; [|apply Hs; try done; [lia|]].
    - intros j. unfold i. destruct (decide (j = length (chain_ a))) as [->|];
        rewrite ?fn_lookup_insert, ?fn_lookup_insert_ne by done; done.
    - intros x Hx. by rewrite lookup_insert_ne. }
  right. exists w', al', l. split_and!; try done. intros p k Hp. apply Hm.
  rewrite lookup_insert_ne; [done|congruence].
Qed.

Lemma Mallocator_initialize_done fuel w al a chain_memory len bound :
  page_rep w al → 1 ≤ len < 2 ^ 25 → chain_sizes_ok fuel chain_memory len → (2 < fuel)%nat →
  chain_pages_bound chain_memory len bound →
  ((Mallocator_initialize fuel chain_memory len (w, a)
      = Panic "Initializing of internal allocator failed!" ∨
    Mallocator_initialize fuel chain_memory len (w, a) = Panic "Initializing of chain failed!") ∧
   starved bound (Z.to_nat len) al) ∨
  ∃ w' al' a', Mallocator_initialize fuel chain_memory len (w, a) = Done (tt, (w', a')) ∧
    chain_length_ a' = len ∧ Mallocator_rep w' al' a' (λ _, ∅) ∧
    (∀ p n, al !! p = Some n → al' !! p = Some n).
Proof.
  intros Hp Hl Hsz Hf Hbnd. unfold Mallocator_initialize. rewrite modify_bind. cbn [fst snd].
  rewrite u32_small by (unfold sizeof_SlabAllocator; lia).
  set (a0 := mkMallocator _ _ _ _ _).
  destruct (SlabAllocator_initialize_done fuel w al (internal_allocator_ a)
    (sizeof_SlabAllocator * len) 1) as (b & w1 & s1 & al1 & Ws & _ & _ & Hn1 & Hcase);
    [done|unfold sizeof_SlabAllocator; lia|lia| |lia|].
  { unfold slab_bytes, sizeof_SlabAllocator. change (BitArray_expected_size 1) with 1. lia. }
  assert (Hint : on_internal (SlabAllocator_initialize fuel (sizeof_SlabAllocator * len) 1) (w, a0)
    = Done (b, (w1, set_internal s1 a0))).
  { unfold on_internal, zoom. cbn [fst snd a0 internal_allocator_]. by rewrite Ws. }
  rewrite (bind_done _ _ _ _ _ Hint).
  destruct Hcase as [(-> & _ & _ & _ & _ & Hsc)|(-> & Hnone & -> & Hr)].
  { left. split; [by left|]. exists w, al, (required_pages (sizeof_SlabAllocator * len) 1).
    split_and!; [done|apply Hbnd|apply grown_blocks_refl]. }
  cbn [negb]. set (al1 := <[area_ s1 := _]> al) in *.
  assert (Hall : ∃ ptr w2, on_internal (on_mem (SlabAllocator_allocate fuel)) (w1, set_internal s1 a0)
    = Done (ptr, (w2, set_internal s1 a0)) ∧ page_rep w2 al1).
  { destruct (SlabAllocator_allocate_done fuel w1 al1 s1 ∅ Hr)
      as [(i & _ & _ & _ & w2 & W2 & Hr2 & _)|(_ & w2 & W2 & Hr2 & _)]; [lia|..].
    - exists (chunk_addr s1 i), w2. split; [|apply Hr2]. unfold on_internal, zoom.
      cbn [fst snd set_internal internal_allocator_]. by rewrite W2.
    - exists nullptr, w2. split; [|apply Hr2]. unfold on_internal, zoom.
      cbn [fst snd set_internal internal_allocator_]. by rewrite W2. }
  destruct Hall as (ptr & w2 & W2 & Hp2). rewrite (bind_done _ _ _ _ _ W2), modify_bind.
  cbn [fst snd]. set (a1 := mkMallocator _ _ _ _ _).
  assert (H0 : Mallocator_rep w2 al1 (built a1) (λ _, ∅)) by (split; done).
  destruct (init_chain_done fuel chain_memory len bound al Hsz Hbnd fuel w2 al1 a1)
    as [[E Hst]|(w' & al' & l & W' & Hlen & H' & Hm)];
    [apply grown_blocks_insert; [apply grown_blocks_refl|apply Hbnd]|done|done|cbn; lia|destruct Hsz as (_ & ? & _); cbn; lia| |]; cbn [length chain_ a1] in *.
  - left. split; [right; by apply bind_panic|done].
  - right. change (Z.of_nat 0) with 0 in W'. rewrite (bind_done _ _ _ _ _ W').
    eexists w', al', _. split; [reflexivity|]. cbn [fst snd]. split_and!; [done| |].
    + match goal with |- Mallocator_rep _ _ ?b _ => replace b with (built (set_chain l a1)) end;
        [done|]. unfold built, set_chain. cbn. by rewrite Hlen.
    + intros p n Hpn. apply Hm. unfold al1. rewrite lookup_insert_ne; [done|congruence].
Qed.
End MallocatorSpec.

(** * Properties *)

(** C7: [kmalloc]: a request of 1 to [2^32 - 4096] bytes terminates.  It is
    served by the first slab, among those whose elements are large enough, that
    has a free element; when all of these are full, by a new run of pages that
    holds the bytes, or by null when there is none.  The invariant (every slab in
    a block of its own, its map saying which elements are taken) is kept, and so
    are the contents of all that is allocated. *)
Theorem mallocator_allocate_correct {W} `{PP : PageProvider W} fuel (w : W) al a used bytes
    (Hrep : Mallocator_rep w al a used) (Hfuel : malloc_fuel fuel a)
    (Hbytes : 1 ≤ bytes ≤ 2 ^ 32 - 4096) :
  ∃ p w' al', Mallocator_allocate fuel bytes (w, a) = Done (p, (w', a)) ∧
    contents_kept w w' al a ∧
    ((al' = al ∧ ∃ i s c, chain_ a !! i = Some s ∧ 0 ≤ c < nelems_ s ∧ c ∉ used i ∧
        p = chunk_addr s c ∧ bytes ≤ elem_size_ s ∧
        Mallocator_rep w' al a (<[i := used i ∪ {[ c ]}]> used) ∧
        (∀ d, 0 ≤ d < c → d ∈ used i) ∧
        (∀ j t d, (j < i)%nat → chain_ a !! j = Some t → bytes ≤ elem_size_ t →
           0 ≤ d < nelems_ t → d ∈ used j)) ∨
     ((∀ i s c, chain_ a !! i = Some s → bytes ≤ elem_size_ s → 0 ≤ c < nelems_ s → c ∈ used i) ∧
      Mallocator_rep w' al' a used ∧
      ((p = nullptr ∧ al' = al ∧
        ∃ w1 n, page_rep w1 al ∧ page_scarce w1 al n ∧ bytes ≤ PAGE_SIZE * n < bytes + PAGE_SIZE) ∨
       ∃ n, p ≠ nullptr ∧ al !! p = None ∧ al' = <[p := n]> al ∧
         bytes ≤ PAGE_SIZE * n < bytes + PAGE_SIZE))).
Proof.
  by apply mallocator_allocate_cases.
Qed.

(** C8: [kfree] undoes [kmalloc]: an address inside an element of a slab frees
    that element, whichever slab it is, and an address of a run of pages that no
    slab occupies returns the run; the contents of what stays allocated are kept. *)
Theorem mallocator_deallocate_correct {W} `{PP : PageProvider W} fuel (w : W) al a used p
    (Hrep : Mallocator_rep w al a used) (Hfuel : malloc_fuel fuel a) :
  (∀ i s, chain_ a !! i = Some s → slab_elems s p →
     ∃ w', Mallocator_deallocate fuel p (w, a) = Done (tt, (w', a)) ∧
       Mallocator_rep w' al a (<[i := used i ∖ {[ chunk_of s p ]}]> used) ∧ contents_kept w w' al a) ∧
  (∀ n, al !! p = Some n → (∀ s, s ∈ chain_ a → area_ s ≠ p) →
     ∃ w', Mallocator_deallocate fuel p (w, a) = Done (tt, (w', a)) ∧
       Mallocator_rep w' (delete p al) a used ∧ contents_kept w w' (delete p al) a).
Proof.
  split.
  - intros i s Hs Hp. by apply (Mallocator_deallocate_slab fuel w al a used i s p).
  - intros n Hp Harea. by apply (Mallocator_deallocate_pages fuel w al a used p n).
Qed.

(** A request of more than [2^32 - 16] bytes is rounded up to zero and
    served by the slab of 8-byte elements. *)
Theorem mallocator_huge_request len bytes (Hlen : 0 < len) (Hbytes : 2 ^ 32 - 16 < bytes < 2 ^ 32) :
  slab_index len bytes = 0 ∧ chain_unit_size 0 = 8.
Proof.
  split; [|done]. unfold slab_index. destruct (Z.leb_spec bytes 8); [done|].
  assert (align_up 16 bytes = 0) as ->.
  { change 16 with (2 ^ 4). rewrite align_up_spec by lia. change (2 ^ 4) with 16.
    assert ((bytes + (16 - 1)) / 16 = 268435456) as -> by (Z.div_mod_to_equations; lia). done. }
  change (0 / 16) with 0. by destruct (Z.leb_spec len 0); [lia|].
Qed.

(** [initialize] either stops the kernel, which takes a page provider that may have no
    pages for one of the slabs after at most as many blocks as there are slabs, or leaves a
    usable allocator: a chain of the requested length, one slab per size class,
    every slab in a block of its own with all its elements free.  No block that
    was allocated before is lost. *)
Theorem mallocator_initialize_correct {W} `{PP : PageProvider W} fuel (w : W) al a chain_memory len
    (Hpages : page_rep w al) (Hlen : 1 ≤ len < 2 ^ 25) (Hsizes : chain_sizes_ok fuel chain_memory len)
    (Hfuel : (2 < fuel)%nat) bound (Hbound : chain_pages_bound chain_memory len bound) :
  ((Mallocator_initialize fuel chain_memory len (w, a)
      = Panic "Initializing of internal allocator failed!" ∨
    Mallocator_initialize fuel chain_memory len (w, a) = Panic "Initializing of chain failed!") ∧
   starved bound (Z.to_nat len) al) ∨
  ∃ w' al' a', Mallocator_initialize fuel chain_memory len (w, a) = Done (tt, (w', a')) ∧
    chain_length_ a' = len ∧ Mallocator_rep w' al' a' (λ _, ∅) ∧
    (∀ p n, al !! p = Some n → al' !! p = Some n).
Proof. by apply Mallocator_initialize_done. Qed.

(** ** Witnesses *)
Lemma mallocator_initialize_correct_witness :
  let r := Mallocator_initialize (PP := example_provider) 200 1024 3
    (example_one_block, Mallocator_default) in
  ((r = Panic "Initializing of internal allocator failed!" ∨
    r = Panic "Initializing of chain failed!") ∧
   starved (PP := example_provider) 1 3 {[ 1089536 := 3 ]}) ∨
  ∃ w' al' a', r = Done (tt, (w', a')) ∧ chain_length_ a' = 3 ∧
    Mallocator_rep (PP := example_provider) w' al' a' (λ _, ∅) ∧
    (∀ p n, ({[ 1089536 := 3 ]} : gmap Z Z) !! p = Some n → al' !! p = Some n).
Proof.
  apply (mallocator_initialize_correct (PP := example_provider) 200 example_one_block
    {[ 1089536 := 3 ]} Mallocator_default 1024 3).
  - exists (λ _, []), example_region. apply example_one_block_inv.
  - lia.
  - split; [lia|split; [lia|]]. intros i Hi. assert (i = 0 ∨ i = 1 ∨ i = 2) as [->|[->| ->]] by lia;
      by split_and!.
  - lia.
  - split; [by vm_compute|]. intros i Hi. assert (i = 0 ∨ i = 1 ∨ i = 2) as [->|[->| ->]] by lia; by vm_compute.
Defined.

Definition example_malloc : Mallocator :=
  mkMallocator 1 4096 [example_slab_of 8] SlabAllocator_default true.

Lemma example_malloc_rep :
  Mallocator_rep (PP := example_provider) example_slab_world {[ 1089536 := 3 ]} example_malloc
    (λ _, example_used).
Proof.
  split; [|done|done| |].
  - apply (example_slab_of_rep 8). lia.
  - intros [|i] s; [|done]. intros [= <-]. split; [|done]. apply (example_slab_of_rep 8). lia.
  - intros [|i] [|j] s t; done.
Qed.

Lemma example_malloc_fuel : malloc_fuel 11 example_malloc.
Proof. split; [simpl; lia|]. intros s ->%list_elem_of_singleton. simpl. lia. Qed.

Lemma mallocator_allocate_correct_witness :
  ∃ p w' al', Mallocator_allocate (PP := example_provider) 11 5 (example_slab_world, example_malloc)
      = Done (p, (w', example_malloc)) ∧
    contents_kept (PP := example_provider) example_slab_world w' {[ 1089536 := 3 ]} example_malloc ∧
    ((al' = {[ 1089536 := 3 ]} ∧ ∃ i s c, chain_ example_malloc !! i = Some s ∧
        0 ≤ c < nelems_ s ∧ c ∉ example_used ∧ p = chunk_addr s c ∧ 5 ≤ elem_size_ s ∧
        Mallocator_rep (PP := example_provider) w' {[ 1089536 := 3 ]} example_malloc
          (<[i := example_used ∪ {[ c ]}]> (λ _, example_used)) ∧
        (∀ d, 0 ≤ d < c → d ∈ example_used) ∧
        (∀ j t d, (j < i)%nat → chain_ example_malloc !! j = Some t → 5 ≤ elem_size_ t →
           0 ≤ d < nelems_ t → d ∈ example_used)) ∨
     ((∀ i s c, chain_ example_malloc !! i = Some s → 5 ≤ elem_size_ s → 0 ≤ c < nelems_ s →
         c ∈ example_used) ∧
      Mallocator_rep (PP := example_provider) w' al' example_malloc (λ _, example_used) ∧
      ((p = nullptr ∧ al' = {[ 1089536 := 3 ]} ∧
        ∃ w1 n, page_rep (PageProvider := example_provider) w1 {[ 1089536 := 3 ]} ∧
          page_scarce (PageProvider := example_provider) w1 {[ 1089536 := 3 ]} n ∧
          5 ≤ PAGE_SIZE * n < 5 + PAGE_SIZE) ∨
       ∃ n, p ≠ nullptr ∧ ({[ 1089536 := 3 ]} : gmap Z Z) !! p = None ∧
         al' = <[p := n]> {[ 1089536 := 3 ]} ∧ 5 ≤ PAGE_SIZE * n < 5 + PAGE_SIZE))).
Proof.
  apply (mallocator_allocate_correct (PP := example_provider) 11 example_slab_world
    {[ 1089536 := 3 ]} example_malloc (λ _, example_used) 5);
    [apply example_malloc_rep|apply example_malloc_fuel|lia].
Defined.

Lemma mallocator_deallocate_correct_witness :
  ∃ w', Mallocator_deallocate (PP := example_provider) 11 1089547
          (example_slab_world, example_malloc) = Done (tt, (w', example_malloc)) ∧
    Mallocator_rep (PP := example_provider) w' {[ 1089536 := 3 ]} example_malloc
      (<[0%nat := example_used ∖ {[ 1 ]}]> (λ _, example_used)) ∧
    contents_kept (PP := example_provider) example_slab_world w' {[ 1089536 := 3 ]} example_malloc.
Proof.
  apply (proj1 (mallocator_deallocate_correct (PP := example_provider) 11 example_slab_world
    {[ 1089536 := 3 ]} example_malloc (λ _, example_used) 1089547
    example_malloc_rep example_malloc_fuel) 0%nat (example_slab_of 8)); [reflexivity|].
  split; vm_compute; congruence.
Defined.

Lemma mallocator_huge_request_witness :
  slab_index 33 4294967295 = 0 ∧ chain_unit_size 0 = 8.
Proof. apply mallocator_huge_request; lia. Defined.
