(* ===== verification/Multiboot.v ===== *)
(** * What the boot loader hands over

    [kobj/multiboot_info]: the information structure and its copy;
    [kobj/src/multiboot_header.cpp]: the header the loader looks for. *)
From stdpp Require Import base tactics numbers list gmap strings.
From S2P Require Import Prelude.

(** ** [boot_info_t]: 88 bytes, packed *)
Record boot_info_t : Type := mkBootInfo {
  flags_ : Z; mem_lower_ : Z; mem_upper_ : Z; boot_device : Z; cmdline_ : Z;
  mods_count : Z; mods_addr : Z; syms : list Z; mmap_length : Z; mmap_addr : Z;
  drives_length : Z; drives_addr : Z; config_table : Z; boot_loader_name : Z;
  apm_table : Z; vbe_control_info : Z; vbe_mode_info : Z; vbe_mode : Z;
  vbe_interface_seg : Z; vbe_interface_off : Z; vbe_interface_len : Z
}.

(** The structure at an address. *)
Definition boot_info_at (m : mem) (p : Z) : boot_info_t :=
  let w i := load32 m (p + 4 * i) in
  mkBootInfo (w 0) (w 1) (w 2) (w 3) (w 4) (w 5) (w 6)
    (map (λ i, load8 m (p + 28 + Z.of_nat i)) (seq 0 16))
    (w 11) (w 12) (w 13) (w 14) (w 15) (w 16) (w 17) (w 18) (w 19)
    (load16 m (p + 80)) (load16 m (p + 82)) (load16 m (p + 84)) (load16 m (p + 86)).

Definition mem_info : Z := Z.shiftl 1 0.

Definition is_meminfo_valid (b : boot_info_t) : bool := negb (Z.land (flags_ b) mem_info =? 0).
Definition low_memory (b : boot_info_t) : Z := mem_lower_ b.
Definition high_memory (b : boot_info_t) : Z := mem_upper_ b.

(** [multiboot::init]: copy the structure of the loader. *)
Definition multiboot_init (temp_boot_info : Z) (m : mem) : boot_info_t :=
  boot_info_at m temp_boot_info.

(** ** The header *)
Record multiboot_hdr : Type := mkMultibootHdr {
  hdr_magic : Z; hdr_flags : Z; hdr_checksum : Z; hdr_rest : list Z
}.

Definition mboot_magic : Z := 464367618. (* 0x1badb002 *)
Definition mbf_align : Z := Z.shiftl 1 0.
Definition mbf_meminfo : Z := Z.shiftl 1 1.
Definition mboot_checksum (flags : Z) : Z := u32 (- (mboot_magic + u32 flags)).

Definition multiboot_header : multiboot_hdr :=
  let flags := Z.lor mbf_align mbf_meminfo in
  mkMultibootHdr mboot_magic flags (mboot_checksum flags) (repeat 0 9).

(** The loader accepts a header whose first three words sum to zero. *)
Lemma mboot_checksum_ok flags :
  u32 (mboot_magic + u32 flags + mboot_checksum flags) = 0.
Proof. unfold mboot_checksum, mboot_magic. zify_wraps. Qed.

Lemma multiboot_header_accepted :
  u32 (hdr_magic multiboot_header + hdr_flags multiboot_header + hdr_checksum multiboot_header) = 0
  ∧ Z.testbit (hdr_flags multiboot_header) 1 = true.
Proof. split; reflexivity. Qed.

Lemma is_meminfo_valid_bit b : is_meminfo_valid b = Z.testbit (flags_ b) 0.
Proof.
  unfold is_meminfo_valid, mem_info. rewrite shiftl_1, land_pow2_eqb, negb_involutive by lia. done.
Qed.
