(* ===== verification/MemoryInit.v ===== *)
(** * Bringing the memory subsystem up

    [memory/memory.cpp]: the high memory region and the three allocators built on
    it, and the [alloc_pages], [free_pages], [kmalloc], [kfree] the rest of the
    kernel calls. *)
From stdpp Require Import base tactics numbers list gmap strings.
From S2P Require Import Prelude MemUtils MemoryRegion FreeList Buddy BitArray PageProvider PageAllocator PageReserve Slab Mallocator Multiboot.

(** ** State: the globals of the file *)
Record kernel_memory : Type := mkKernelMemory {
  boot_info : boot_info_t;
  highmem : MemoryRegion;
  highmem_pages : pages;
  highmem_mallocator : Mallocator
}.

Abbreviation km_prog := (prog kernel_memory).

Definition highmem_start : Z := 1048576.

Definition detect_memory_regions : km_prog unit :=
  info ← gets boot_info;
  if negb (is_meminfo_valid info) then panic "Bootloader didn't provide memory info!"
  else
    let highmem_bytes := u32 (high_memory info * 1024) in
    let r := region_set_end
      (frame_add highmem_start (align_down PAGE_SIZE highmem_bytes / PAGE_SIZE)) in
    modify (λ s, mkKernelMemory (boot_info s) (r (region_set_begin highmem_start (highmem s)))
                   (highmem_pages s) (highmem_mallocator s)).

Definition on_highmem_pages {A} (p : prog pages A) : km_prog A :=
  zoom highmem_pages
    (λ w s, mkKernelMemory (boot_info s) (highmem s) w (highmem_mallocator s)) p.

(** The buddy system keeps a pointer to [highmem], which never changes again. *)
Definition on_highmem_buddy {A} (p : prog (mem * BuddyAllocator) A) : km_prog A :=
  on_highmem_pages
    (zoom (λ w, (pg_mem w, pg_buddy w)) (λ s w, mkPages s.1 s.2 (pg_pa w)) p).

Definition on_highmem_mallocator {A} (p : prog (pages * Mallocator) A) : km_prog A :=
  zoom (λ s, (highmem_pages s, highmem_mallocator s))
    (λ t s, mkKernelMemory (boot_info s) (highmem s) t.1 t.2) p.

Definition chain_memory : Z := 1024 * 1024.
Definition chains : Z := 33.

Section Init.
Context (fuel : nat) (Hfuel : 2 ^ 20 + 1 < Z.of_nat fuel).
Let provider : PageProvider pages := pages_provider fuel Hfuel.

(** [kobj_end] is the linker's [__object_end]. *)
Definition initilize_highmem_allocators (kobj_end : Z) : km_prog unit :=
  let last_kernel_page := align_up PAGE_SIZE kobj_end in
  region ← gets highmem;
  on_highmem_buddy (BuddyAllocator_initialize fuel region) ;;
  on_highmem_pages (PageAllocator_initialize fuel last_kernel_page) ;;
  on_highmem_mallocator (Mallocator_initialize (PP := provider) fuel chain_memory chains).

Definition memory_init (kobj_end : Z) : km_prog unit :=
  detect_memory_regions ;; initilize_highmem_allocators kobj_end.

Definition memory_alloc_pages (n : Z) : km_prog Z := on_highmem_pages (allocate_body fuel n).
Definition memory_free_pages (address : Z) : km_prog unit :=
  on_highmem_pages (deallocate_body fuel address).
Definition kmalloc (bytes : Z) : km_prog Z :=
  on_highmem_mallocator (Mallocator_allocate (PP := provider) fuel bytes).
Definition kfree (memory : Z) : km_prog unit :=
  on_highmem_mallocator (Mallocator_deallocate (PP := provider) fuel memory).
End Init.

(** The state before [init]. *)
Definition kernel_memory_default (m : mem) (info : boot_info_t) : kernel_memory :=
  mkKernelMemory info MemoryRegion_default
    (mkPages m BuddyAllocator_default PageAllocator_default) Mallocator_default.

(** * Verification *)

(** The region for [kb] kilobytes of high memory. *)
Definition highmem_region (kb : Z) : MemoryRegion :=
  mkMemoryRegion highmem_start (highmem_start + kb / 4 * PAGE_SIZE).

Lemma detect_done m info : is_meminfo_valid info = true →
  0 ≤ high_memory info < 2 ^ 22 - 1024 →
  detect_memory_regions (kernel_memory_default m info) =
    Done (tt, mkKernelMemory info (highmem_region (high_memory info))
                (mkPages m BuddyAllocator_default PageAllocator_default) Mallocator_default).
Proof.
  intros Hv Hk. unfold detect_memory_regions. rewrite gets_bind. cbn [boot_info kernel_memory_default].
  rewrite Hv. cbn [negb]. unfold modify, highmem_region. do 3 f_equal. set (kb := high_memory info) in *.
  rewrite u32_small by lia.
  change PAGE_SIZE with (2 ^ 12) at 1. rewrite align_down_spec by lia. change (2 ^ 12) with 4096.
  unfold region_set_end, region_set_begin, highmem_start. cbn [begin_]. f_equal.
  unfold frame_add, PAGE_SIZE. rewrite u32_small; Z.div_mod_to_equations; lia.
Qed.

Lemma highmem_region_ok kb : 0 ≤ kb < 2 ^ 21 → region_ok (highmem_region kb) ∧
  zero_size_page < begin_ (highmem_region kb).
Proof.
  intros Hk. unfold region_ok, highmem_region, highmem_start, zero_size_page, PAGE_SIZE.
  cbn [begin_ end_]. Z.div_mod_to_equations. lia.
Qed.

Lemma chains_ok fuel : 2 ^ 20 + 1 < Z.of_nat fuel → chain_sizes_ok fuel chain_memory chains.
Proof.
  intros Hf. unfold chain_sizes_ok, chains, chain_memory. split_and!; [lia..|].
  intros i Hi. cbv zeta.
  assert (He : 8 ≤ chain_unit_size i).
  { unfold chain_unit_size. destruct (Z.eqb_spec i 0); [lia|]. rewrite u32_small; lia. }
  set (e := chain_unit_size i) in *. set (n := 1024 * 1024 / e).
  assert (Hn : 0 ≤ n ≤ 131072 ∧ 0 ≤ e * n ≤ 1048576).
  { assert (e * n ≤ 1048576) by (apply (Z.mul_div_le 1048576 e); lia).
    assert (0 ≤ n) by (apply Z.div_pos; lia). nia. }
  unfold slab_bytes. pose proof (expected_size_ceil n ltac:(lia)) as E.
  destruct (decide (n = 0)) as [Hz|Hz].
  - exfalso. unfold n, e, chain_unit_size in Hz. destruct (Z.eqb_spec i 0); [done|].
    rewrite u32_small in Hz by lia. Z.div_mod_to_equations. lia.
  - rewrite E. Z.div_mod_to_equations. nia.
Qed.

(** What holds once the allocators are up. *)
Definition memory_ready (fuel : nat) (Hfuel : 2 ^ 20 + 1 < Z.of_nat fuel) (s : kernel_memory) : Prop :=
  ∃ al, Mallocator_rep (PP := pages_provider fuel Hfuel) (highmem_pages s) al
    (highmem_mallocator s) (λ _, ∅).

(** ... and the memory that they distribute: the bytes [area], each either free in the buddy system
    or in a block that is allocated from it, the blocks being those that the slabs lie in. *)
Definition memory_covers (fuel : nat) (Hfuel : 2 ^ 20 + 1 < Z.of_nat fuel) (area : Z → Prop)
    (s : kernel_memory) : Prop :=
  ∃ al ls, PA_inv (highmem_pages s) al ls (highmem s) ∧
    (∀ a, owned ls a ∨ in_blocks al a ↔ area a) ∧
    Mallocator_rep (PP := pages_provider fuel Hfuel) (highmem_pages s) al
      (highmem_mallocator s) (λ _, ∅).

Lemma memory_covers_ready fuel Hfuel area s : memory_covers fuel Hfuel area s → memory_ready fuel Hfuel s.
Proof. intros (al & ls & _ & _ & H). by exists al. Qed.

(** The kernel allocator on the provider that keeps track of its memory is the kernel allocator. *)
Lemma Slab_rep_managed fuel Hfuel r area w al s u :
  Slab_rep (PP := managed_provider fuel Hfuel r area) w al s u →
  Slab_rep (PP := pages_provider fuel Hfuel) w al s u.
Proof. intros [(ls & H & _) ? ? ?]. split; try done. by exists ls, r. Qed.

Lemma Mallocator_rep_managed fuel Hfuel r area w al a used :
  Mallocator_rep (PP := managed_provider fuel Hfuel r area) w al a used →
  Mallocator_rep (PP := pages_provider fuel Hfuel) w al a used ∧ managed r area w al.
Proof.
  intros H. pose proof (mrep_pages _ _ _ _ H) as Hp. split; [|done]. destruct Hp as (ls & Hinv & _).
  split; try apply H; [by exists ls, r|]. intros i s Hs. destruct (mrep_slabs _ _ _ _ H i s Hs) as [Hr He].
  split; [by eapply Slab_rep_managed|done].
Qed.

(** The slabs and the internal one take at most one chunk of memory each. *)
Lemma chain_pages : chain_pages_bound chain_memory chains chunk_pages.
Proof.
  split; [by vm_compute|]. intros i Hi.
  assert (H : Forall (λ i, required_pages (chain_unit_size i) (chain_memory / chain_unit_size i) ≤ chunk_pages)
    (seqZ 0 33)) by (repeat constructor; by vm_compute).
  rewrite Forall_forall in H. apply H, elem_of_seqZ. unfold chains in Hi. lia.
Qed.

(** Memory that is enough for the 34 slabs, wherever it starts. *)
Definition enough_memory : Z := 35 * chunk_bytes.

Lemma starved_small fuel Hfuel r lo hi :
  starved (PP := managed_provider fuel Hfuel r (λ a, lo ≤ a < hi)) chunk_pages (Z.to_nat chains) ∅ →
  hi < lo + enough_memory.
Proof.
  intros (w1 & al & n & Hsc & Hn & Hs & Hk). apply Z.nle_gt. intros Hroom.
  assert (Hcase : chunks_scarce (λ a, lo ≤ a < hi) al n) by exact Hsc.
  destruct Hcase as [?|[(p & k & Hp & ?)|Hc]]; [lia| |].
  { destruct (Hk p k Hp) as [Hp'|?]; [by rewrite lookup_empty in Hp'|lia]. }
  specialize (Hc (seqZ (lo / chunk_bytes + 1) 34) (NoDup_seqZ _ _)).
  rewrite length_seqZ, map_size_empty in *. unfold chains in Hs.
  enough (34 ≤ size al)%nat by lia. apply Hc. intros c a Hin%elem_of_seqZ Ha.
  unfold enough_memory, chunk_bytes, chunk_pages, PAGE_SIZE in *. Z.div_mod_to_equations. lia.
Qed.

(** Bringing up the kernel allocator moves bytes between the free ones and the blocks only. *)
Lemma mallocator_covers fuel (Hfuel : 2 ^ 20 + 1 < Z.of_nat fuel) r lo hi w a :
  let area a := lo ≤ a < hi in managed r area w ∅ →
  let init := Mallocator_initialize (PP := pages_provider fuel Hfuel) fuel chain_memory chains (w, a) in
  ((init = Panic "Initializing of internal allocator failed!" ∨
    init = Panic "Initializing of chain failed!") ∧ hi < lo + enough_memory) ∨
  ∃ w' al a', init = Done (tt, (w', a')) ∧ chain_length_ a' = chains ∧
    Mallocator_rep (PP := pages_provider fuel Hfuel) w' al a' (λ _, ∅) ∧ managed r area w' al.
Proof.
  intros area H init.
  destruct (Mallocator_initialize_done (PP := managed_provider fuel Hfuel r area) fuel w ∅ a
    chain_memory chains chunk_pages) as [[Em Hst]|(w' & al & a' & Em & Hl & Hrep & _)];
    [done|unfold chains; lia|by apply chains_ok|lia|apply chain_pages|left|right].
  { split; [exact Em|]. by apply (starved_small fuel Hfuel r). }
  exists w', al, a'. split; [exact Em|]. split; [done|].
  by apply (Mallocator_rep_managed fuel Hfuel r area).
Qed.

Lemma allocators_done fuel (Hfuel : 2 ^ 20 + 1 < Z.of_nat fuel) m info kb kobj_end :
  0 ≤ kb < 2 ^ 21 → highmem_start ≤ kobj_end < 2 ^ 31 →
  align_up PAGE_SIZE kobj_end + PAGE_SIZE * map_pages (highmem_region kb) ≤ end_ (highmem_region kb) →
  ∃ w ls, let s0 := mkKernelMemory info (highmem_region kb)
                (mkPages m BuddyAllocator_default PageAllocator_default) Mallocator_default in
    PA_inv w ∅ ls (highmem_region kb) ∧
    (∀ a, owned ls a ↔ align_up PAGE_SIZE kobj_end + PAGE_SIZE * map_pages (highmem_region kb)
                        ≤ a < end_ (highmem_region kb)) ∧
    initilize_highmem_allocators fuel Hfuel kobj_end s0
    = on_highmem_mallocator (Mallocator_initialize (PP := pages_provider fuel Hfuel) fuel
        chain_memory chains) (mkKernelMemory info (highmem_region kb) w Mallocator_default).
Proof.
  intros Hk He Hend. destruct (highmem_region_ok kb Hk) as [Hr Hz].
  set (r := highmem_region kb) in *.
  assert (Hal : align_up PAGE_SIZE kobj_end = (kobj_end + 4095) / 4096 * 4096).
  { change PAGE_SIZE with (2 ^ 12). unfold highmem_start in He. rewrite align_up_spec by lia.
    change (2 ^ 12) with 4096. rewrite u32_small by (Z.div_mod_to_equations; lia). done. }
  assert (∃ f, fuel = S f) as [f Ef] by (destruct fuel; [lia|eauto]).
  destruct (PageAllocator_initialize_done fuel
    (mkPages m (mkBuddy 0 0 empty_lists (Some r)) PageAllocator_default) r
    (align_up PAGE_SIZE kobj_end)) as (w & ls & W & Hinv & Hown & _); try done.
  - apply empty_lists_rep.
  - rewrite Hal. unfold r, highmem_region, highmem_start in *. cbn [begin_].
    Z.div_mod_to_equations. lia.
  - rewrite Hal. by apply Z.mod_mul.
  - exists w, ls. cbv zeta. split_and!; [done|done|].
    unfold initilize_highmem_allocators. rewrite gets_bind. cbn [highmem].
    assert (Hb : on_highmem_buddy (BuddyAllocator_initialize fuel r) (mkKernelMemory info r
        (mkPages m BuddyAllocator_default PageAllocator_default) Mallocator_default)
      = Done (tt, mkKernelMemory info r
          (mkPages m (mkBuddy 0 0 empty_lists (Some r)) PageAllocator_default) Mallocator_default)).
    { unfold on_highmem_buddy, on_highmem_pages, zoom. cbn [highmem_pages pg_mem pg_buddy pg_pa].
      pose proof (BuddyAllocator_initialize_done f r m) as Wb. rewrite <- Ef in Wb. by rewrite Wb. }
    rewrite (bind_done _ _ _ _ _ Hb).
    rewrite (bind_done _ _ _ tt (mkKernelMemory info r w Mallocator_default)); [done|].
    unfold on_highmem_pages, zoom. cbn [highmem_pages]. by rewrite W.
Qed.

(** The bytes that the allocators are given: behind the image and the map of the pages. *)
Definition after_image (kobj_end : Z) (r : MemoryRegion) (a : Z) : Prop :=
  align_up PAGE_SIZE kobj_end + PAGE_SIZE * map_pages r ≤ a < end_ r.

Lemma memory_init_done fuel (Hfuel : 2 ^ 20 + 1 < Z.of_nat fuel) m info kobj_end
    (Hvalid : is_meminfo_valid info = true) (Hkb : 0 ≤ high_memory info < 2 ^ 21)
    (Hend : highmem_start ≤ kobj_end < 2 ^ 31)
    (Hroom : let r := highmem_region (high_memory info) in
       align_up PAGE_SIZE kobj_end + PAGE_SIZE * map_pages r ≤ end_ r) :
  let r := highmem_region (high_memory info) in
  let started := memory_init fuel Hfuel kobj_end (kernel_memory_default m info) in
  ((started = Panic "Initializing of internal allocator failed!" ∨
    started = Panic "Initializing of chain failed!") ∧
   end_ r < align_up PAGE_SIZE kobj_end + PAGE_SIZE * map_pages r + enough_memory) ∨
  ∃ s, started = Done (tt, s) ∧ highmem s = r ∧ chain_length_ (highmem_mallocator s) = chains ∧
    memory_covers fuel Hfuel (after_image kobj_end r) s.
Proof.
  cbv zeta in *. set (r := highmem_region (high_memory info)) in *.
  destruct (allocators_done fuel Hfuel m info (high_memory info) kobj_end)
    as (w & ls & Hinv & Hown & E); [done..|].
  unfold memory_init. rewrite (bind_done _ _ _ _ _ (detect_done m info Hvalid ltac:(lia))).
  fold r. fold r in E. rewrite E.
  destruct (mallocator_covers fuel Hfuel r (align_up PAGE_SIZE kobj_end + PAGE_SIZE * map_pages r) (end_ r) w
    Mallocator_default) as [[Em Hsmall]|(w' & al & a' & Em & Hl & Hrep & ls' & Hinv' & Hcov & _)].
  - exists ls. split_and!; [done| |by intros p k Hp]. intros a. rewrite (Hown a). split; [|by left].
    intros [?|(p & n & Hp & _)]; done.
  - left. split; [|done].
    destruct Em as [Em|Em]; [left|right]; unfold on_highmem_mallocator, zoom; cbn; by rewrite Em.
  - right. eexists. split; [unfold on_highmem_mallocator, zoom; cbn; by rewrite Em|].
    cbn. split_and!; [done|done|]. by exists al, ls'.
Qed.

(** ** Allocators in use *)
Section InUse.
Context (fuel : nat) (Hfuel : 2 ^ 20 + 1 < Z.of_nat fuel) (Hslab : 2 ^ 29 ≤ Z.of_nat fuel).
Let provider : PageProvider pages := pages_provider fuel Hfuel.

(** The allocators are up, with whatever is allocated. *)
Definition memory_up (m : kernel_memory) : Prop :=
  ∃ al used, Mallocator_rep (PP := provider) (highmem_pages m) al (highmem_mallocator m) used.

Lemma enough_fuel m al used :
  Mallocator_rep (PP := provider) (highmem_pages m) al (highmem_mallocator m) used →
  malloc_fuel fuel (highmem_mallocator m).
Proof.
  intros Hm. destruct (mrep_length _ _ _ _ Hm) as [Hlen Hlt]. split; [lia|].
  intros s (i & Hs)%list_elem_of_lookup_1. destruct (mrep_slabs _ _ _ _ Hm i s Hs) as [Hr He].
  pose proof (srep_inv _ _ _ _ Hr) as Hi. pose proof (slab_end _ _ _ Hi). pose proof (slab_nelems _ _ _ Hi).
  pose proof (slab_memory _ _ _ Hi) as Em. destruct (slab_area _ _ _ Hi) as [Ha _].
  destruct (slab_fit _ _ _ Hi) as (_ & Hn & _).
  pose proof (expected_size_ceil (nelems_ s) ltac:(lia)) as Ec.
  assert (Hi0 : 0 ≤ Z.of_nat i < 2 ^ 28) by (apply lookup_lt_Some in Hs; lia).
  assert (8 ≤ elem_size_ s).
  { rewrite He. unfold chain_unit_size. destruct (Z.eqb_spec (Z.of_nat i) 0); [lia|]. rewrite u32_small; lia. }
  assert (0 ≤ BitArray_expected_size (nelems_ s)) by (rewrite Ec; Z.div_mod_to_equations; lia).
  nia.
Qed.

Lemma kmalloc_up n m : memory_up m → 1 ≤ n ≤ 2 ^ 20 →
  ∃ p m', kmalloc fuel Hfuel n m = Done (p, m') ∧ memory_up m' ∧ highmem m' = highmem m.
Proof.
  intros (al & used & Hm) Hn.
  destruct (Mallocator_allocate_done (PP := provider) fuel (highmem_pages m) al (highmem_mallocator m) used n
    Hm (enough_fuel m al used Hm) ltac:(lia)) as (p & w' & al' & E & Hcase & _).
  eexists p, _. split; [unfold kmalloc, on_highmem_mallocator, zoom; cbv zeta; unfold provider in E; by rewrite E|]. cbn [fst snd highmem].
  split; [|done]. destruct Hcase as [(-> & i & s & c & _ & _ & _ & _ & _ & Hr & _)|(_ & Hr & _)]; by do 2 eexists.
Qed.

(** [kfree] of what [kmalloc] returned. *)
Lemma kmalloc_kfree n m : memory_up m → 1 ≤ n ≤ 2 ^ 20 →
  ∃ p m', kmalloc fuel Hfuel n m = Done (p, m') ∧ highmem m' = highmem m ∧
    (p ≠ nullptr → ∃ m'', kfree fuel Hfuel p m' = Done (tt, m'') ∧ memory_up m'' ∧ highmem m'' = highmem m).
Proof.
  intros (al & used & Hm) Hn. pose proof (enough_fuel m al used Hm) as Hf.
  destruct (Mallocator_allocate_done (PP := provider) fuel (highmem_pages m) al (highmem_mallocator m) used n
    Hm Hf ltac:(lia)) as (p & w' & al' & E & Hcase & _).
  eexists p, _. split; [unfold kmalloc, on_highmem_mallocator, zoom; cbv zeta; unfold provider in E; by rewrite E|].
  split; [done|]. intros Hp. cbn [fst snd highmem]. unfold kfree, on_highmem_mallocator, zoom; cbn [highmem_pages highmem_mallocator].
  destruct Hcase as [(-> & i & s & c & _ & Hs & Hc & _ & -> & Hr & _)|(_ & Hr & [(-> & _)|(_ & Hnone & ->)])]; [| done |].
  - destruct (mrep_slabs _ _ _ _ Hr i s Hs) as [Hsr _].
    destruct (chunk_inside _ _ _ c (srep_inv _ _ _ _ Hsr) Hc) as (H1 & H2 & _).
    pose proof (slab_elem _ _ _ (srep_inv _ _ _ _ Hsr)).
    destruct (Mallocator_deallocate_slab (PP := provider) fuel w' al (highmem_mallocator m) _ i s (chunk_addr s c) Hr Hf Hs)
      as (w2 & E2 & Hr2 & _); [unfold slab_elems; lia|].
    unfold provider in E2. rewrite E2. eexists. split; [done|]. split; [by do 2 eexists|done].
  - destruct (Mallocator_deallocate_pages (PP := provider) fuel w' _ (highmem_mallocator m) used p _ Hr Hf
      (lookup_insert_eq _ _ _)) as (w2 & E2 & Hr2 & _).
    { intros s (i & Hs)%list_elem_of_lookup_1 <-. destruct (mrep_slabs _ _ _ _ Hm i s Hs) as [Hsr _].
      destruct (srep_block _ _ _ _ Hsr) as (k & Hk & _). congruence. }
    unfold provider in E2. rewrite E2. eexists. split; [done|]. split; [by do 2 eexists|done].
Qed.
End InUse.

(** * Properties *)

(** C14: [memory::init], from a machine whose loader reported less than 2 GiB
    of high memory and whose image ends inside it, terminates.  It stops in one
    of the two panics of the kernel allocator, which it does only when there are
    less than 70 MiB behind the image and the map of the pages.  Otherwise, in the state it leaves, the region is the high memory, the kernel
    allocator has its 33 slabs, all free, on top of a page allocator whose
    invariant holds with the blocks the slabs lie in, and the free bytes of the
    buddy system and the bytes of those blocks together are exactly those from
    the end of the image and the map of the pages to the end of the region. *)
Theorem memory_init_correct fuel (Hfuel : 2 ^ 20 + 1 < Z.of_nat fuel) m info kobj_end
    (Hvalid : is_meminfo_valid info = true) (Hkb : 0 ≤ high_memory info < 2 ^ 21)
    (Hend : highmem_start ≤ kobj_end < 2 ^ 31)
    (Hroom : let r := highmem_region (high_memory info) in
       align_up PAGE_SIZE kobj_end + PAGE_SIZE * map_pages r ≤ end_ r) :
  let r := highmem_region (high_memory info) in
  let started := memory_init fuel Hfuel kobj_end (kernel_memory_default m info) in
  ((started = Panic "Initializing of internal allocator failed!" ∨
    started = Panic "Initializing of chain failed!") ∧
   end_ r < align_up PAGE_SIZE kobj_end + PAGE_SIZE * map_pages r + 35 * 2 ^ 21) ∨
  ∃ s, started = Done (tt, s) ∧ highmem s = r ∧ chain_length_ (highmem_mallocator s) = chains ∧
    ∃ al ls, PA_inv (highmem_pages s) al ls r ∧
      (∀ a, owned ls a ∨ in_blocks al a ↔
         align_up PAGE_SIZE kobj_end + PAGE_SIZE * map_pages r ≤ a < end_ r) ∧
      Mallocator_rep (PP := pages_provider fuel Hfuel) (highmem_pages s) al
        (highmem_mallocator s) (λ _, ∅).
Proof.
  destruct (memory_init_done fuel Hfuel m info kobj_end Hvalid Hkb Hend Hroom)
    as [E|(s & E & Hr & Hl & Hc)]; [by left|].
  right. exists s. destruct Hc as (al & ls & Hinv & Hcov & Hrep).
  split; [done|]. split; [done|]. split; [done|]. exists al, ls. rewrite <- Hr in *. by split_and!.
Qed.

(** The size of high memory is computed in 32 bits: a machine with 4 GiB
    of it gets an empty region, and from 2 GiB on the page count of the region is
    not the number of its pages. *)
Theorem high_memory_overflow m info
    (Hvalid : is_meminfo_valid info = true) :
  (high_memory info = 2 ^ 22 → ∃ s, detect_memory_regions (kernel_memory_default m info)
     = Done (tt, s) ∧ highmem s = mkMemoryRegion highmem_start highmem_start) ∧
  (high_memory info = 2 ^ 21 → ∃ s, detect_memory_regions (kernel_memory_default m info)
     = Done (tt, s) ∧ (end_ (highmem s) - begin_ (highmem s)) / PAGE_SIZE = 2 ^ 19 ∧
     region_size (highmem s) = 2 ^ 32 - 2 ^ 19).
Proof.
  split; intros Hk; unfold detect_memory_regions; rewrite gets_bind;
    cbn [boot_info kernel_memory_default]; rewrite Hvalid; cbn [negb];
    (eexists; split; [reflexivity|]); cbn [highmem]; rewrite Hk; [done|split; reflexivity].
Qed.

(** Fuel that is enough for every loop of the kernel. *)
Definition boot_fuel : nat := Z.to_nat (2 ^ 30).

Lemma boot_fuel_enough : 2 ^ 20 + 1 < Z.of_nat boot_fuel.
Proof. unfold boot_fuel. rewrite Z2Nat.id; lia. Qed.

Lemma boot_fuel_slabs : 2 ^ 29 ≤ Z.of_nat boot_fuel.
Proof. unfold boot_fuel. rewrite Z2Nat.id; lia. Qed.

(** ** Witnesses *)
Definition example_info : boot_info_t :=
  mkBootInfo 1 640 131072 0 0 0 0 [] 0 0 0 0 0 0 0 0 0 0 0 0 0.

Lemma memory_init_correct_witness :
  let r := highmem_region 131072 in
  let started := memory_init example_fuel example_fuel_enough 1253377 (kernel_memory_default ∅ example_info) in
  ((started = Panic "Initializing of internal allocator failed!" ∨
    started = Panic "Initializing of chain failed!") ∧
   end_ r < align_up PAGE_SIZE 1253377 + PAGE_SIZE * map_pages r + 35 * 2 ^ 21) ∨
  ∃ s, started = Done (tt, s) ∧ highmem s = r ∧ chain_length_ (highmem_mallocator s) = chains ∧
    ∃ al ls, PA_inv (highmem_pages s) al ls r ∧
      (∀ a, owned ls a ∨ in_blocks al a ↔
         align_up PAGE_SIZE 1253377 + PAGE_SIZE * map_pages r ≤ a < end_ r) ∧
      Mallocator_rep (PP := pages_provider example_fuel example_fuel_enough) (highmem_pages s) al
        (highmem_mallocator s) (λ _, ∅).
Proof.
  apply (memory_init_correct example_fuel example_fuel_enough ∅ example_info 1253377);
    [reflexivity|by split|by split|by vm_compute].
Defined.

Lemma high_memory_overflow_witness :
  ∃ s, detect_memory_regions (kernel_memory_default ∅
      (mkBootInfo 1 640 (2 ^ 22) 0 0 0 0 [] 0 0 0 0 0 0 0 0 0 0 0 0 0)) = Done (tt, s) ∧
    highmem s = mkMemoryRegion highmem_start highmem_start.
Proof.
  apply (high_memory_overflow ∅
    (mkBootInfo 1 640 (2 ^ 22) 0 0 0 0 [] 0 0 0 0 0 0 0 0 0 0 0 0 0)); reflexivity.
Defined.
