(* ===== verification/KernelMemory.v ===== *)
(** * The memory of the kernel as a heap

    [kmalloc], [kfree], [alloc_pages] and [free_pages] of [memory/memory.cpp], with
    the operators of [libkernelcxx/src/cxxabi.cpp], implement [KernelHeap]: an object
    is an element of a slab or a run of pages that no slab and no client of
    [alloc_pages] owns. *)
From stdpp Require Import base functions tactics numbers list gmap strings.
From S2P Require Import Prelude MemUtils MemoryRegion FreeList Buddy BitArray PageProvider KernelHeap.
From S2P Require Import PageAllocator Slab Mallocator Multiboot MemoryInit.

Section KernelMemory.
Context (fuel : nat) (Hfuel : 2 ^ 20 + 1 < Z.of_nat fuel) (Hslab : 2 ^ 29 ≤ Z.of_nat fuel).
Let provider : PageProvider pages := pages_provider fuel Hfuel.
#[local] Existing Instance provider.

(** ** Where the objects are *)
Definition in_slab (a : Mallocator) (used : nat → gset Z) (p n : Z) : Prop :=
  ∃ i s c, chain_ a !! i = Some s ∧ 0 ≤ c < nelems_ s ∧ c ∈ used i ∧ p = chunk_addr s c ∧ n ≤ elem_size_ s.

Definition in_pages (al bl : gmap Z Z) (a : Mallocator) (p n : Z) : Prop :=
  ∃ k, al !! p = Some k ∧ bl !! p = None ∧ (∀ s, s ∈ chain_ a → area_ s ≠ p) ∧ n ≤ PAGE_SIZE * k.

Definition placed al bl a used (p n : Z) : Prop := 1 ≤ n ∧ (in_slab a used p n ∨ in_pages al bl a p n).

(** [al]: the blocks of the page allocator; those in [bl] are the clients' own. *)
Record heap_layout (w : pages) (a : Mallocator) (al : gmap Z Z) (used : nat → gset Z) (bl os : gmap Z Z) : Prop := {
  hl_rep : Mallocator_rep w al a used;
  hl_blocks : bl ⊆ al;
  hl_areas : ∀ s, s ∈ chain_ a → bl !! area_ s = None;
  hl_objects : ∀ p n, os !! p = Some n → placed al bl a used p n
}.

Definition kernel_heap_rep (m : kernel_memory) (bl os : gmap Z Z) : Prop :=
  ∃ al used, heap_layout (highmem_pages m) (highmem_mallocator m) al used bl os.

(** An element and the address arithmetic on it. *)
Lemma chunk_at w al s u c : Slab_rep w al s u → 0 ≤ c < nelems_ s →
  0 < elem_size_ s ∧ slab_elems s (chunk_addr s c) ∧ chunk_of s (chunk_addr s c) = c ∧
  0 < chunk_addr s c ∧ chunk_addr s c + elem_size_ s < 2 ^ 32 ∧
  ∀ x, in_block x (chunk_addr s c) (elem_size_ s) →
    slab_bytes_at s x ∧ ¬ slab_map_bytes s x ∧ chunk_of s x = c.
Proof.
  intros Hr Hc. pose proof (srep_inv _ _ _ _ Hr) as Hi. pose proof (slab_elem _ _ _ Hi).
  pose proof (slab_end _ _ _ Hi). pose proof (slab_memory _ _ _ Hi) as Em.
  destruct (slab_fit _ _ _ Hi) as (_ & Hn & _). rewrite expected_size_ceil in Em by lia.
  destruct (chunk_inside _ _ _ c Hi Hc) as (H1 & H2 & H3).
  split; [done|]. split; [unfold slab_elems; lia|]. split.
  { unfold chunk_of, chunk_addr. replace (_ - _) with (c * elem_size_ s) by lia. by rewrite Z.div_mul by lia. }
  split; [lia|]. split; [lia|]. intros x Hx. split_and!.
  - unfold slab_bytes_at. Z.div_mod_to_equations; lia.
  - unfold slab_map_bytes. rewrite expected_size_ceil by lia. lia.
  - unfold chunk_of, chunk_addr in *. symmetry. apply (Z.div_unique _ _ _ (x - memory_ s - c * elem_size_ s)); lia.
Qed.

(** A byte of an object is in a block of the allocator's own, outside the maps. *)
Lemma placed_byte w a al used bl os p n x : heap_layout w a al used bl os → os !! p = Some n → in_block x p n →
  ∃ q k, al !! q = Some k ∧ bl !! q = None ∧ run_bytes q k x ∧ ∀ s, s ∈ chain_ a → ¬ slab_map_bytes s x.
Proof.
  intros H Hp Hx. pose proof (hl_rep _ _ _ _ _ _ H) as Hr.
  destruct (hl_objects _ _ _ _ _ _ H p n Hp) as [Hn [(i & s & c & Hs & Hc & _ & -> & Hle)|(k & Hk & Hbl & Ha & Hle)]].
  - destruct (mrep_slabs _ _ _ _ Hr i s Hs) as [Hsr _].
    destruct (chunk_at _ _ _ _ c Hsr Hc) as (_ & _ & _ & _ & _ & Hb). destruct (Hb x ltac:(lia)) as (Hat & Hmap & _).
    destruct (slab_block _ _ _ _ _ Hsr Hat) as (k & Hk & Hkx). exists (area_ s), k. split; [done|].
    split; [apply (hl_areas _ _ _ _ _ _ H); by eapply list_elem_of_lookup_2|]. split; [done|].
    intros t (j & Ht)%list_elem_of_lookup_1 Hxt. destruct (mrep_slabs _ _ _ _ Hr j t Ht) as [Htr _].
    assert (j = i) as ->; [|congruence].
    apply (slabs_apart w al a used j i t s x Hr Ht Hs); [by eapply slab_map_at|done].
  - assert (Hkx : run_bytes p k x) by (unfold run_bytes; lia). exists p, k. split_and!; [done..|].
    intros t (j & Ht)%list_elem_of_lookup_1 Hxt. destruct (mrep_slabs _ _ _ _ Hr j t Ht) as [Htr _].
    destruct (slab_block _ _ _ _ _ Htr (slab_map_at _ _ _ _ _ Htr Hxt)) as (k' & Hk' & Hkx').
    apply (Ha t); [by eapply list_elem_of_lookup_2|].
    by apply (page_rep_disjoint w al (area_ t) k' p k x (mrep_pages _ _ _ _ Hr)).
Qed.

Lemma held_byte w a al used bl os x : heap_layout w a al used bl os → held bl os x →
  in_blocks al x ∧ ∀ s, s ∈ chain_ a → ¬ slab_map_bytes s x.
Proof.
  intros H [(p & n & Hp & Hx)|(p & n & Hp & Hx)].
  - assert (Hal : al !! p = Some n) by (eapply lookup_weaken; [done|apply H]). split; [by exists p, n|].
    intros s Hin Hxs. pose proof Hin as (i & Hs)%list_elem_of_lookup_1. pose proof (hl_rep _ _ _ _ _ _ H) as Hr.
    destruct (mrep_slabs _ _ _ _ Hr i s Hs) as [Hsr _].
    destruct (slab_block _ _ _ _ _ Hsr (slab_map_at _ _ _ _ _ Hsr Hxs)) as (k & Hk & Hkx).
    assert (area_ s = p) as E by by apply (page_rep_disjoint w al (area_ s) k p n x (mrep_pages _ _ _ _ Hr)).
    pose proof (hl_areas _ _ _ _ _ _ H s Hin). congruence.
  - destruct (placed_byte w a al used bl os p n x H Hp Hx) as (q & k & Hq & _ & Hqx & Hmap).
    split; [by exists q, k|done].
Qed.

(** Two objects are never at the same place. *)
Lemma placed_disjoint w a al used bl os p n q k x : heap_layout w a al used bl os →
  os !! p = Some n → os !! q = Some k → in_block x p n → in_block x q k → p = q.
Proof.
  intros H Hp Hq Hx Hy. pose proof (hl_rep _ _ _ _ _ _ H) as Hr.
  assert (Hmix : ∀ i s c q' j, chain_ a !! i = Some s → 0 ≤ c < nelems_ s → in_block x (chunk_addr s c) (elem_size_ s) →
    al !! q' = Some j → (∀ t, t ∈ chain_ a → area_ t ≠ q') → run_bytes q' j x → False).
  { intros i s c q' j Hs Hc Hb Hq' Ha Hj. destruct (mrep_slabs _ _ _ _ Hr i s Hs) as [Hsr _].
    destruct (chunk_at _ _ _ _ c Hsr Hc) as (_ & _ & _ & _ & _ & Hat). destruct (Hat x Hb) as (Hxs & _).
    destruct (slab_block _ _ _ _ _ Hsr Hxs) as (j' & Hj' & Hxj).
    apply (Ha s); [by eapply list_elem_of_lookup_2|].
    by apply (page_rep_disjoint w al (area_ s) j' q' j x (mrep_pages _ _ _ _ Hr)). }
  destruct (hl_objects _ _ _ _ _ _ H p n Hp) as [_ [(i & s & c & Hs & Hc & _ & -> & Hle)|(j & Hj & _ & Ha & Hle)]];
  destruct (hl_objects _ _ _ _ _ _ H q k Hq) as [_ [(i' & t & d & Ht & Hd & _ & -> & Hle')|(j' & Hj' & _ & Ha' & Hle')]].
  - destruct (mrep_slabs _ _ _ _ Hr i s Hs) as [Hsr _]. destruct (mrep_slabs _ _ _ _ Hr i' t Ht) as [Htr _].
    destruct (chunk_at _ _ _ _ c Hsr Hc) as (_ & _ & _ & _ & _ & Hb). destruct (Hb x ltac:(lia)) as (Hxs & _ & Hcx).
    destruct (chunk_at _ _ _ _ d Htr Hd) as (_ & _ & _ & _ & _ & Hb'). destruct (Hb' x ltac:(lia)) as (Hxt & _ & Hdx).
    assert (i = i') as <- by by apply (slabs_apart w al a used i i' s t x Hr Hs Ht).
    congruence.
  - exfalso. eapply (Hmix i s c q j'); try done; [lia|unfold run_bytes; lia].
  - exfalso. eapply (Hmix i' t d p j); try done; [lia|unfold run_bytes; lia].
  - apply (page_rep_disjoint w al p j q j' x (mrep_pages _ _ _ _ Hr)); try done; unfold run_bytes; lia.
Qed.

(** ** The operations on the layout *)
Lemma layout_fuel m al used bl os : heap_layout (highmem_pages m) (highmem_mallocator m) al used bl os →
  malloc_fuel fuel (highmem_mallocator m).
Proof. intros H. by apply (enough_fuel fuel Hfuel Hslab m al used), H. Qed.

Lemma placed_used al bl a used used' p n : (∀ i c, c ∈ used i → c ∈ used' i) →
  placed al bl a used p n → placed al bl a used' p n.
Proof. intros Hu [Hn [(i & s & c & ? & ? & ? & ?)|?]]; (split; [done|]); [left|by right]. exists i, s, c. auto. Qed.

Lemma placed_blocks al al' bl bl' a used p n :
  (∀ k, al !! p = Some k → bl !! p = None → al' !! p = Some k ∧ bl' !! p = None) →
  placed al bl a used p n → placed al' bl' a used p n.
Proof.
  intros Hb [Hn [?|(k & Hk & Hp & ?)]]; (split; [done|]); [by left|right].
  destruct (Hb k Hk Hp). by exists k.
Qed.

(** A fresh element is nobody's. *)
Lemma chunk_fresh w a al used bl os i s c : heap_layout w a al used bl os → chain_ a !! i = Some s →
  0 ≤ c < nelems_ s → c ∉ used i → os !! chunk_addr s c = None.
Proof.
  intros H Hs Hc Hu. pose proof (hl_rep _ _ _ _ _ _ H) as Hr. destruct (mrep_slabs _ _ _ _ Hr i s Hs) as [Hsr _].
  destruct (chunk_at _ _ _ _ c Hsr Hc) as (He & _ & _ & _ & _ & Hat). destruct (Hat (chunk_addr s c) ltac:(lia)) as (Hxs & _ & Hcc).
  destruct (os !! chunk_addr s c) as [n|] eqn:E; [|done]. exfalso.
  destruct (hl_objects _ _ _ _ _ _ H _ _ E) as [Hn [(j & t & d & Ht & Hd & Hdu & Ep & _)|(k & Hk & _ & Ha & _)]].
  - destruct (mrep_slabs _ _ _ _ Hr j t Ht) as [Htr _].
    destruct (chunk_at _ _ _ _ d Htr Hd) as (He' & _ & _ & _ & _ & Hat'). destruct (Hat' (chunk_addr s c)) as (Hxt & _ & Hdd); [lia|].
    assert (i = j) as <- by by apply (slabs_apart w al a used i j s t (chunk_addr s c) Hr Hs Ht).
    congruence.
  - destruct (slab_block _ _ _ _ _ Hsr Hxs) as (k' & Hk' & Hkx). apply (Ha s); [by eapply list_elem_of_lookup_2|].
    apply (page_rep_disjoint w al (area_ s) k' (chunk_addr s c) k (chunk_addr s c) (mrep_pages _ _ _ _ Hr)); try done.
    destruct (page_rep_block w al _ k (mrep_pages _ _ _ _ Hr) Hk) as (? & _). unfold run_bytes, PAGE_SIZE. lia.
Qed.

(** A fresh block is nobody's. *)
Lemma block_fresh w a al used bl os p k w' : heap_layout w a al used bl os → al !! p = None →
  page_rep w' (<[p := k]> al) → os !! p = None.
Proof.
  intros H Hnone Hw'. pose proof (hl_rep _ _ _ _ _ _ H) as Hr. destruct (os !! p) as [n|] eqn:E; [|done]. exfalso.
  destruct (hl_objects _ _ _ _ _ _ H _ _ E) as [Hn _].
  destruct (placed_byte w a al used bl os p n p H E) as (q & k' & Hq & _ & Hqx & _); [lia|].
  assert (q = p) as ->; [|congruence].
  destruct (page_rep_block w' _ p k Hw') as (? & _); [by rewrite lookup_insert_eq|].
  apply (page_rep_disjoint w' _ q k' p k p Hw'); [|by rewrite lookup_insert_eq|done|unfold run_bytes, PAGE_SIZE; lia].
  rewrite lookup_insert_ne; [done|congruence].
Qed.

Lemma layout_kept w a al used bl os w' x : heap_layout w a al used bl os → contents_kept w w' al a →
  held bl os x → load8 (page_mem w') x = load8 (page_mem w) x.
Proof. intros H Hk Hx. destruct (held_byte _ _ _ _ _ _ _ H Hx). by apply Hk. Qed.

Lemma layout_new m al used bl os n : heap_layout (highmem_pages m) (highmem_mallocator m) al used bl os →
  1 ≤ n ≤ 2 ^ 31 → ∃ p w' al' used' os',
    Mallocator_allocate fuel n (highmem_pages m, highmem_mallocator m) = Done (p, (w', highmem_mallocator m)) ∧
    heap_layout w' (highmem_mallocator m) al' used' bl os' ∧
    ((p = nullptr ∧ os' = os) ∨ (p ≠ nullptr ∧ os !! p = None ∧ os' = <[p := n]> os)) ∧
    ∀ x, held bl os x → load8 (page_mem w') x = load8 (page_mem (highmem_pages m)) x.
Proof.
  set (w := highmem_pages m). set (a := highmem_mallocator m). intros H Hn. pose proof H as [Hr Hbl Hareas Hobj].
  destruct (mallocator_allocate_cases fuel w al a used n Hr (layout_fuel m _ _ _ _ H) ltac:(lia))
    as (p & w' & al' & E & Hk & [(-> & i & s & c & Hs & Hc & Hu & -> & Hle & Hr' & _)|(_ & Hr' & Hcase)]).
  - exists (chunk_addr s c), w', al, (<[i := used i ∪ {[ c ]}]> used), (<[chunk_addr s c := n]> os).
    destruct (mrep_slabs _ _ _ _ Hr i s Hs) as [Hsr _]. destruct (chunk_at _ _ _ _ c Hsr Hc) as (_ & _ & _ & Hpos & _).
    pose proof (chunk_fresh w a al used bl os i s c H Hs Hc Hu) as Hfresh.
    split; [done|]. split; [|split; [right; split_and!; [unfold nullptr; lia|done|done]|intros x; by eapply layout_kept]].
    split; [done..|]. intros q k [[<- <-]|[_ Hq]]%lookup_insert_Some.
    + split; [lia|]. left. exists i, s, c. rewrite fn_lookup_insert. split_and!; (done || set_solver).
    + apply (placed_used _ _ _ used); [|by apply Hobj]. intros j d Hd. destruct (decide (j = i)) as [->|];
        rewrite ?fn_lookup_insert, ?fn_lookup_insert_ne by done; clear -Hd; set_solver.
  - destruct Hcase as [(-> & -> & _)|(k & Hp & Hnone & -> & Hle & _)].
    + exists nullptr, w', al, used, os. split; [done|]. split; [by split|]. split; [by left|].
      intros x. by eapply layout_kept.
    + exists p, w', (<[p := k]> al), used, (<[p := n]> os).
      pose proof (block_fresh w a al used bl os p k w' H Hnone (mrep_pages _ _ _ _ Hr')) as Hfresh.
      assert (Hblp : bl !! p = None) by exact (lookup_weaken_None _ _ _ Hnone Hbl).
      split; [done|]. split; [|split; [by right|intros x; by eapply layout_kept]].
      split; [done|by apply insert_subseteq_r|done|]. intros q j [[<- <-]|[_ Hq]]%lookup_insert_Some.
      * split; [lia|]. right. exists k. rewrite lookup_insert_eq. split_and!; try done.
        intros t (i & Ht)%list_elem_of_lookup_1 Et. destruct (mrep_slabs _ _ _ _ Hr i t Ht) as [Htr _].
        destruct (srep_block _ _ _ _ Htr) as (k' & Hk' & _). congruence.
      * apply (placed_blocks al _ bl _); [|by apply Hobj]. intros k' Hk' Hq'. split; [|done].
        rewrite lookup_insert_ne; [done|congruence].
Qed.

Lemma layout_delete m al used bl os p n : heap_layout (highmem_pages m) (highmem_mallocator m) al used bl os →
  os !! p = Some n → ∃ w' al' used',
    Mallocator_deallocate fuel p (highmem_pages m, highmem_mallocator m) = Done (tt, (w', highmem_mallocator m)) ∧
    heap_layout w' (highmem_mallocator m) al' used' bl (delete p os) ∧
    ∀ x, held bl (delete p os) x → load8 (page_mem w') x = load8 (page_mem (highmem_pages m)) x.
Proof.
  set (w := highmem_pages m). set (a := highmem_mallocator m). intros H Hp. pose proof H as [Hr Hbl Hareas Hobj].
  pose proof (layout_fuel m _ _ _ _ H) as Hf. fold a in Hf.
  assert (Hless : heap_layout w a al used bl (delete p os)).
  { split; [done..|]. intros q k [_ Hq]%lookup_delete_Some. by apply Hobj. }
  destruct (Hobj p n Hp) as [Hn [(i & s & c & Hs & Hc & Hu & -> & Hle)|(k & Hk & Hblp & Ha & Hle)]].
  - destruct (mrep_slabs _ _ _ _ Hr i s Hs) as [Hsr _]. destruct (chunk_at _ _ _ _ c Hsr Hc) as (_ & Hel & Hcc & _).
    destruct (Mallocator_deallocate_slab fuel w al a used i s (chunk_addr s c) Hr Hf Hs Hel) as (w' & E & Hr' & Hk').
    rewrite Hcc in Hr'. exists w', al, (<[i := used i ∖ {[ c ]}]> used). split; [done|].
    split; [|intros x; by eapply layout_kept].
    split; [done..|]. intros q k [Hne Hq]%lookup_delete_Some.
    destruct (Hobj q k Hq) as [Hk [(j & t & d & Ht & Hd & Hdu & -> & Hle')|?]]; (split; [done|]); [left|by right].
    exists j, t, d. split_and!; try (done || lia).
    destruct (decide (j = i)) as [->|]; [rewrite fn_lookup_insert|by rewrite fn_lookup_insert_ne by congruence].
    assert (t = s) as -> by congruence. apply elem_of_difference. split; [done|]. rewrite elem_of_singleton. by intros ->.
  - destruct (Mallocator_deallocate_pages fuel w al a used p k Hr Hf Hk Ha) as (w' & E & Hr' & Hk').
    exists w', (delete p al), used. split; [done|].
    assert (Hl' : heap_layout w' a (delete p al) used bl (delete p os)).
    { split; [done| |done|].
      - apply map_subseteq_spec. intros q j Hq. rewrite lookup_delete_ne by congruence.
        by eapply lookup_weaken.
      - intros q j [Hne Hq]%lookup_delete_Some. apply (placed_blocks al _ bl _); [|by apply Hobj].
        intros k' ? ?. by rewrite lookup_delete_ne. }
    split; [done|]. intros x Hx. destruct (held_byte _ _ _ _ _ _ _ Hl' Hx). by apply Hk'.
Qed.

Lemma layout_alloc m al used bl os n : heap_layout (highmem_pages m) (highmem_mallocator m) al used bl os →
  1 ≤ n ≤ 2 ^ 31 → ∃ p w' al' bl', allocate_body fuel n (highmem_pages m) = Done (p, w') ∧
    heap_layout w' (highmem_mallocator m) al' used bl' os ∧
    ((p = nullptr ∧ bl' = bl) ∨ (p ≠ nullptr ∧ bl !! p = None ∧ bl' = <[p := n]> bl)) ∧
    ∀ x, held bl os x → load8 (page_mem w') x = load8 (page_mem (highmem_pages m)) x.
Proof.
  set (w := highmem_pages m). set (a := highmem_mallocator m). intros H Hn. pose proof H as [Hr Hbl Hareas Hobj].
  destruct (alloc_pages_done w al n (mrep_pages _ _ _ _ Hr) Hn) as (p & w' & al' & E & Hw' & Hcase & Hm).
  assert (Hkept : ∀ x, held bl os x → load8 (page_mem w') x = load8 (page_mem w) x).
  { intros x Hx. apply Hm. by apply (held_byte w a al used bl os x H). }
  assert (Hr' : Mallocator_rep w' al' a used).
  { apply (Mallocator_rep_pages w w' al); [done|done| |].
    - intros s (i & Hs)%list_elem_of_lookup_1. destruct (mrep_slabs _ _ _ _ Hr i s Hs) as [Hsr _].
      destruct (srep_block _ _ _ _ Hsr) as (k & Hk & _).
      destruct Hcase as [(_ & -> & _)|(_ & Hnone & ->)]; [done|]. rewrite lookup_insert_ne; [done|congruence].
    - intros s x (i & Hs)%list_elem_of_lookup_1 Hx. apply Hm.
      destruct (mrep_slabs _ _ _ _ Hr i s Hs) as [Hsr _]. by apply (slab_map_in_block w al s (used i)). }
  destruct Hcase as [(-> & -> & _)|(Hp & Hnone & ->)].
  - exists nullptr, w', al, bl. split; [done|]. split; [by split|]. by split; [left|].
  - exists p, w', (<[p := n]> al), (<[p := n]> bl). split; [done|]. split; [|split; [right|done]].
    + split; [done|by apply insert_mono| |].
      * intros s Hin. rewrite lookup_insert_ne; [by apply Hareas|]. intros ->. apply list_elem_of_lookup_1 in Hin as [i Hs].
        destruct (mrep_slabs _ _ _ _ Hr i s Hs) as [Hsr _]. destruct (srep_block _ _ _ _ Hsr) as (k & Hk & _). congruence.
      * intros q j Hq. apply (placed_blocks al _ bl _); [|by apply Hobj]. intros k Hk Hqb.
        rewrite !lookup_insert_ne by congruence. done.
    + split_and!; [done|exact (lookup_weaken_None _ _ _ Hnone Hbl)|done].
Qed.

Lemma layout_free m al used bl os p n : heap_layout (highmem_pages m) (highmem_mallocator m) al used bl os →
  bl !! p = Some n → ∃ w', deallocate_body fuel p (highmem_pages m) = Done (tt, w') ∧
    heap_layout w' (highmem_mallocator m) (delete p al) used (delete p bl) os ∧
    ∀ x, held (delete p bl) os x → load8 (page_mem w') x = load8 (page_mem (highmem_pages m)) x.
Proof.
  set (w := highmem_pages m). set (a := highmem_mallocator m). intros H Hp. pose proof H as [Hr Hbl Hareas Hobj].
  assert (Hal : al !! p = Some n) by (by eapply lookup_weaken).
  destruct (free_pages_done w al p n (mrep_pages _ _ _ _ Hr) Hal) as (w' & E & Hw' & Hm).
  assert (Hne : ∀ s, s ∈ chain_ a → p ≠ area_ s) by (intros s Hs ->; specialize (Hareas s Hs); congruence).
  assert (Hl' : heap_layout w' a (delete p al) used (delete p bl) os).
  { split.
    - apply (Mallocator_rep_pages w w' al); [done|done| |].
      + intros s Hs. rewrite lookup_delete_ne; [done|by apply Hne].
      + intros s x Hin Hx. apply Hm. pose proof Hin as (i & Hs)%list_elem_of_lookup_1.
        destruct (mrep_slabs _ _ _ _ Hr i s Hs) as [Hsr _].
        destruct (slab_block _ _ _ _ _ Hsr (slab_map_at _ _ _ _ _ Hsr Hx)) as (k & Hk & Hkx).
        exists (area_ s), k. rewrite lookup_delete_ne by by apply Hne. done.
    - by apply delete_mono.
    - intros s Hs. rewrite lookup_delete_ne by by apply Hne. by apply Hareas.
    - intros q j Hq. apply (placed_blocks al _ bl _); [|by apply Hobj]. intros k Hk Hqb.
      rewrite !lookup_delete_ne by congruence. done. }
  exists w'. split; [done|]. split; [done|]. intros x Hx. apply Hm. by apply (held_byte w' a _ used _ os x Hl').
Qed.

Lemma layout_write w a al used bl os m : heap_layout w a al used bl os →
  (∀ x, ¬ held bl os x → load8 m x = load8 (page_mem w) x) → heap_layout (set_page_mem m w) a al used bl os.
Proof.
  intros H Hm. pose proof H as [Hr Hbl Hareas Hobj]. split; [|done..].
  apply (Mallocator_rep_pages w _ al); [done| |done|].
  - apply page_rep_write; [apply Hr|]. intros x Hx. apply Hm. intros Hh. apply Hx. by apply (held_byte w a al used bl os x H).
  - intros s x Hs Hx. rewrite page_mem_set. apply Hm. intros Hh.
    by destruct (held_byte w a al used bl os x H Hh) as [_ Hno]; apply (Hno s).
Qed.

(** ** The instance *)
Definition kernel_mem (m : kernel_memory) : mem := pg_mem (highmem_pages m).
Definition set_kernel_mem (b : mem) (m : kernel_memory) : kernel_memory :=
  mkKernelMemory (boot_info m) (highmem m) (set_pg_mem b (highmem_pages m)) (highmem_mallocator m).

#[program] Definition kernel_heap : KernelHeap kernel_memory := {|
  heap_alloc_pages := memory_alloc_pages fuel;
  heap_free_pages := memory_free_pages fuel;
  operator_new := kmalloc fuel Hfuel;
  operator_delete := kfree fuel Hfuel;
  heap_mem := kernel_mem;
  set_heap_mem := set_kernel_mem;
  heap_rep := kernel_heap_rep
|}.
Next Obligation. done. Qed.
Next Obligation.
  cbn. intros m bl os p n (al & used & H) Hp. eapply (page_rep_block (PageProvider := provider) _ al); [apply H|].
  eapply lookup_weaken; [done|apply H].
Qed.
Next Obligation.
  cbn. intros m bl os p n q k a (al & used & H) Hp Hq.
  apply (page_rep_disjoint (PageProvider := provider) (highmem_pages m) al);
    [apply H|eapply lookup_weaken; [done|apply H]..].
Qed.
Next Obligation.
  cbn. intros m bl os p n (al & used & H) Hp.
  destruct (hl_objects _ _ _ _ _ _ H p n Hp) as [Hn [(i & s & c & Hs & Hc & _ & -> & Hle)|(k & Hk & _ & _ & Hle)]].
  - destruct (mrep_slabs _ _ _ _ (hl_rep _ _ _ _ _ _ H) i s Hs) as [Hsr _].
    destruct (chunk_at _ _ _ _ c Hsr Hc) as (_ & _ & _ & ? & ? & _). lia.
  - destruct (page_rep_block (PageProvider := provider) (highmem_pages m) al p k) as (? & ? & _ & ?);
      [apply H|done|]. lia.
Qed.
Next Obligation. cbn. intros m bl os p n q k a (al & used & H). by eapply placed_disjoint. Qed.
Next Obligation.
  cbn. intros m bl os p n q k a (al & used & H) Hp Hq Ha Hb.
  destruct (placed_byte _ _ _ _ _ _ _ _ a H Hp Ha) as (r & j & Hr & Hrb & Hra & _).
  assert (Hal : al !! q = Some k) by (eapply lookup_weaken; [done|apply H]).
  assert (r = q) as ->; [|congruence].
  apply (page_rep_disjoint (PageProvider := provider) (highmem_pages m) al r j q k a); try done. apply H.
Qed.
Next Obligation. cbn. intros m bl os b (al & used & H) Hb. exists al, used. by apply layout_write. Qed.
Next Obligation.
  cbn. intros m bl os n (al & used & H) Hn.
  destruct (layout_alloc m al used bl os n H Hn) as (p & w' & al' & bl' & E & H' & Hcase & Hm).
  eexists p, _, bl'. split; [unfold memory_alloc_pages, on_highmem_pages, zoom; by rewrite E|].
  split; [by exists al', used|done].
Qed.
Next Obligation.
  cbn. intros m bl os p n (al & used & H) Hp.
  destruct (layout_free m al used bl os p n H Hp) as (w' & E & H' & Hm).
  eexists. split; [unfold memory_free_pages, on_highmem_pages, zoom; by rewrite E|].
  split; [by exists (delete p al), used|done].
Qed.
Next Obligation.
  cbn. intros m bl os n (al & used & H) Hn.
  destruct (layout_new m al used bl os n H Hn) as (p & w' & al' & used' & os' & E & H' & Hcase & Hm).
  eexists p, _, os'. split; [unfold kmalloc, on_highmem_mallocator, zoom; unfold provider in E; by rewrite E|].
  split; [by exists al', used'|done].
Qed.
Next Obligation.
  cbn. intros m bl os p n (al & used & H) Hp.
  destruct (layout_delete m al used bl os p n H Hp) as (w' & al' & used' & E & H' & Hm).
  eexists. split; [unfold kfree, on_highmem_mallocator, zoom; unfold provider in E; by rewrite E|].
  split; [by exists al', used'|done].
Qed.

(** The allocators in use are a heap of which nothing is promised yet. *)
Lemma memory_up_heap m : memory_up fuel Hfuel m → heap_rep (KernelHeap := kernel_heap) m ∅ ∅.
Proof.
  intros (al & used & H). exists al, used. split; [done|apply map_empty_subseteq|done|]. by intros p n Hp.
Qed.

Lemma heap_memory_up m bl os : heap_rep (KernelHeap := kernel_heap) m bl os → memory_up fuel Hfuel m.
Proof. intros (al & used & H). exists al, used. apply H. Qed.
End KernelMemory.

(** ** The heap as its users see it

    A call, what may be asked, and what a heap without a fault answers. *)
Inductive heap_call : Type :=
  | NewObject (n : Z) | DeleteObject (p : Z) | AllocPages (n : Z) | FreePages (p : Z) | WriteByte (a v : Z).

Definition call_allowed (bl os : gmap Z Z) (c : heap_call) : Prop :=
  match c with
  | NewObject n | AllocPages n => 1 ≤ n ≤ 2 ^ 31
  | DeleteObject p => is_Some (os !! p)
  | FreePages p => is_Some (bl !! p)
  | WriteByte a v => held bl os a ∧ 0 ≤ v < 256
  end.

Inductive heap_answer (bl os : gmap Z Z) : heap_call → Z → gmap Z Z → gmap Z Z → Prop :=
  | answer_none_new n : heap_answer bl os (NewObject n) nullptr bl os
  | answer_new n p : 0 < p → p + n < 2 ^ 32 → (∀ a, in_block a p n → ¬ held bl os a) →
      heap_answer bl os (NewObject n) p bl (<[p := n]> os)
  | answer_delete p : heap_answer bl os (DeleteObject p) 0 bl (delete p os)
  | answer_none_pages n : heap_answer bl os (AllocPages n) nullptr bl os
  | answer_pages n p : 0 < p → p mod PAGE_SIZE = 0 → p + PAGE_SIZE * n < 2 ^ 32 →
      (∀ a, run_bytes p n a → ¬ held bl os a) → heap_answer bl os (AllocPages n) p (<[p := n]> bl) os
  | answer_free p : heap_answer bl os (FreePages p) 0 (delete p bl) os
  | answer_write a v : heap_answer bl os (WriteByte a v) 0 bl os.

(** The calls of the kernel. *)
Definition heap_run (fuel : nat) (Hfuel : 2 ^ 20 + 1 < Z.of_nat fuel) (c : heap_call) : km_prog Z :=
  match c with
  | NewObject n => kmalloc fuel Hfuel n
  | DeleteObject p => kfree fuel Hfuel p ;; mret 0
  | AllocPages n => memory_alloc_pages fuel n
  | FreePages p => memory_free_pages fuel p ;; mret 0
  | WriteByte a v => modify (λ m, set_kernel_mem (store8 (kernel_mem m) a v) m) ;; mret 0
  end.

Definition written (c : heap_call) (m : kernel_memory) (a : Z) : Z :=
  match c with WriteByte b v => if a =? b then v else load8 (kernel_mem m) a | _ => load8 (kernel_mem m) a end.

(** * Properties *)

(** C36: [kmalloc], [kfree], [alloc_pages] and [free_pages] together are a heap: from any state
    in which the objects [os] and the page blocks [bl] are held, every call that a user may make
    returns; what it hands out is inside the address space and apart from everything held, what
    is given back is what was asked, and every held byte keeps what was written to it last. *)
Theorem kernel_memory_is_heap fuel Hfuel (Hslab : 2 ^ 29 ≤ Z.of_nat fuel) m bl os c
    (Hrep : kernel_heap_rep fuel Hfuel m bl os) (Hcall : call_allowed bl os c) :
  ∃ r m' bl' os', heap_run fuel Hfuel c m = Done (r, m') ∧ heap_answer bl os c r bl' os' ∧
    kernel_heap_rep fuel Hfuel m' bl' os' ∧
    ∀ a, held bl os a → held bl' os' a → load8 (kernel_mem m') a = written c m a.
Proof.
  set (KH := kernel_heap fuel Hfuel Hslab).
  destruct c as [n|p|n|p|b v]; cbn [call_allowed heap_run written] in *.
  - destruct (operator_new_done (KernelHeap := KH) m bl os n Hrep Hcall) as (p & m' & os' & E & H' & Hc & Hm).
    exists p, m', bl, os'. split; [exact E|]. split; [|split; [exact H'|auto]].
    destruct Hc as [[-> ->]|(_ & Hnone & ->)]; [constructor|].
    destruct (heap_rep_object (KernelHeap := KH) m' bl _ p n H') as (_ & ? & ?); [by rewrite lookup_insert_eq|].
    constructor; [done..|]. intros a. by apply (new_object_apart (KH := KH) m m').
  - destruct Hcall as [n Hp].
    destruct (operator_delete_done (KernelHeap := KH) m bl os p n Hrep Hp) as (m' & E & H' & Hm).
    exists 0, m', bl, (delete p os). split; [by rewrite (bind_done _ _ _ _ _ E)|]. split; [constructor|]. split; [exact H'|auto].
  - destruct (heap_alloc_pages_done (KernelHeap := KH) m bl os n Hrep Hcall) as (p & m' & bl' & E & H' & Hc & Hm).
    exists p, m', bl', os. split; [exact E|]. split; [|split; [exact H'|auto]].
    destruct Hc as [[-> ->]|(_ & Hnone & ->)]; [constructor|].
    destruct (heap_rep_block (KernelHeap := KH) m' _ os p n H') as (_ & ? & ? & ?); [by rewrite lookup_insert_eq|].
    constructor; [done..|]. intros a. by apply (new_block_apart (KH := KH) m m').
  - destruct Hcall as [n Hp].
    destruct (heap_free_pages_done (KernelHeap := KH) m bl os p n Hrep Hp) as (m' & E & H' & Hm).
    exists 0, m', (delete p bl), os. split; [by rewrite (bind_done _ _ _ _ _ E)|]. split; [constructor|]. split; [exact H'|auto].
  - destruct Hcall as [Hb Hv]. eexists 0, _, bl, os. split; [reflexivity|]. split; [constructor|]. split.
    + apply (heap_rep_write (KernelHeap := KH) m); [exact Hrep|]. intros a Ha.
      rewrite load8_store8_ne; [done|]. by intros <-.
    + intros a _ _. change (kernel_mem (set_kernel_mem _ m)) with (store8 (kernel_mem m) b v).
      destruct (Z.eqb_spec a b) as [->|Hne]; [by rewrite load8_store8_eq, u8_small|by rewrite load8_store8_ne].
Qed.

(** ** Witnesses *)

(** The high memory of the example before the slabs: pages only. *)
Lemma example_heap_memory : ∃ m, kernel_heap_rep boot_fuel boot_fuel_enough m ∅ ∅.
Proof.
  destruct (allocators_done boot_fuel boot_fuel_enough ∅ example_info 131072 1253377) as (w & ls & H & _);
    [by split|by split|by vm_compute|].
  exists (mkKernelMemory example_info (highmem_region 131072) w (mkMallocator 0 nullptr [] SlabAllocator_default true)).
  exists ∅, (λ _, ∅). split; [|done..]. split; cbn; try done. by exists ls, (highmem_region 131072).
Qed.

Lemma kernel_memory_is_heap_witness : ∃ m, kernel_heap_rep boot_fuel boot_fuel_enough m ∅ ∅ ∧
  ∃ r m' bl' os', heap_run boot_fuel boot_fuel_enough (NewObject 56) m = Done (r, m') ∧
    heap_answer ∅ ∅ (NewObject 56) r bl' os' ∧ kernel_heap_rep boot_fuel boot_fuel_enough m' bl' os' ∧
    ∀ a, held ∅ ∅ a → held bl' os' a → load8 (kernel_mem m') a = written (NewObject 56) m a.
Proof.
  destruct example_heap_memory as (m & H). exists m. split; [exact H|].
  apply (kernel_memory_is_heap boot_fuel boot_fuel_enough boot_fuel_slabs m ∅ ∅ (NewObject 56) H).
  cbn. lia.
Defined.
