(* ===== verification/SelfTest.v ===== *)
(** * The tests the kernel runs on itself

    [ost/src/memory.cpp], [ost/src/bitarray.cpp] and [ost/src/ost.cpp]: the on-start
    tests of the allocators, run on the allocators of the kernel itself.  A failed
    assertion is [Panic] with its place; the log output of the tests is left out. *)
From stdpp Require Import base functions tactics numbers list gmap strings sorting.
From S2P Require Import Prelude MemUtils MemoryRegion FreeList Buddy BuddyCanon BitArray PageProvider.
From S2P Require Import PageAllocator Slab Mallocator Multiboot MemoryInit.

(** [OST_ASSERT], at a file and line. *)
Definition ost_failure (place : string) : string := place +:+ ": On start test failed".
Definition ost_assert {St} (place : string) (expression : bool) : prog St unit :=
  if expression then mret tt else panic (ost_failure place).

Section Tests.
Context (fuel : nat) (Hfuel : 2 ^ 20 + 1 < Z.of_nat fuel).
(** [memory::alloc_pages] and [memory::free_pages], on the pages of the kernel. *)
Abbreviation provider := (pages_provider fuel Hfuel).
Abbreviation get_frames := (allocate_body fuel).
Abbreviation free_frames := (deallocate_body fuel).

(** A local object of a test, on the memory of the machine. *)
Definition with_local {L A} (l : L) (p : prog (mem * L) A) : prog pages A :=
  zoom (λ w, (pg_mem w, l)) (λ t w, set_pg_mem t.1 w) p.

(** ** [PageAlloc::test] *)
Definition five_blocks : prog pages (Z * Z * Z * Z * Z) :=
  p0 ← get_frames 1;
  p1 ← get_frames 2;
  p2 ← get_frames 3;
  p3 ← get_frames 2;
  free_frames p1 ;;
  p4 ← get_frames 2;
  mret (p0, p1, p2, p3, p4).

Definition PageAlloc_test : prog pages unit :=
  p ← five_blocks;
  let '(p0, p1, p2, p3, p4) := p in
  free_frames p0 ;; free_frames p2 ;; free_frames p3 ;; free_frames p4 ;;
  q ← five_blocks;
  let '(q0, q1, q2, q3, q4) := q in
  ost_assert "memory.cpp:40" (p0 =? q0) ;; ost_assert "memory.cpp:40" (p1 =? q1) ;;
  ost_assert "memory.cpp:40" (p2 =? q2) ;; ost_assert "memory.cpp:40" (p3 =? q3) ;;
  ost_assert "memory.cpp:40" (p4 =? q4).

(** ** [Slab::test]: the slab is constructed and destroyed *)
Definition sizeof_long : Z := 4.

Definition Slab_body : prog (pages * SlabAllocator) unit :=
  SlabAllocator_initialize (PP := provider) fuel sizeof_long 10 ;;
  initialized ← on_mem (PP := provider) SlabAllocator_is_initialized;
  ost_assert "memory.cpp:45" initialized ;;
  p0 ← on_mem (PP := provider) (SlabAllocator_allocate fuel);
  p1 ← on_mem (PP := provider) (SlabAllocator_allocate fuel);
  p2 ← on_mem (PP := provider) (SlabAllocator_allocate fuel);
  p3 ← on_mem (PP := provider) (SlabAllocator_allocate fuel);
  on_mem (PP := provider) (SlabAllocator_deallocate p2) ;;
  p4 ← on_mem (PP := provider) (SlabAllocator_allocate fuel);
  ost_assert "memory.cpp:55" (p1 =? u32 (p0 + sizeof_long)) ;;
  ost_assert "memory.cpp:56" (p2 =? u32 (p1 + sizeof_long)) ;;
  ost_assert "memory.cpp:57" (p3 =? u32 (p2 + sizeof_long)) ;;
  ost_assert "memory.cpp:58" (p4 =? p2) ;;
  SlabAllocator_destroy (PP := provider).

Definition Slab_test : prog pages unit := zoom (λ w, (w, SlabAllocator_default)) (λ t _, t.1) Slab_body.

(** ** [FreeList::*] *)
Definition small_order__even_body (first second third : Z) : fl_prog unit :=
  initialized ← FreeList_initialize fuel 0 false;
  ost_assert "memory.cpp:73" initialized ;;
  r ← FreeList_put fuel first; ost_assert "memory.cpp:75" (r =? nullptr) ;;
  r ← FreeList_put fuel second; ost_assert "memory.cpp:76" (r =? first) ;;
  r ← FreeList_put fuel third; ost_assert "memory.cpp:77" (r =? nullptr) ;;
  r ← FreeList_get fuel; ost_assert "memory.cpp:78" (r =? third) ;;
  r ← FreeList_get fuel; ost_assert "memory.cpp:79" (r =? nullptr).

Definition small_order__even : prog pages unit :=
  pages ← get_frames 128;
  ost_assert "memory.cpp:65" (negb (pages =? nullptr)) ;;
  let first_address := align_up (PAGE_SIZE * 2) pages in
  let second_address := frame_add first_address 1 in
  let third_address := frame_add second_address 1 in
  with_local FreeList_default (small_order__even_body first_address second_address third_address) ;;
  free_frames pages.

Definition small_order__odd_body (first second third : Z) : fl_prog unit :=
  initialized ← FreeList_initialize fuel 0 false;
  ost_assert "memory.cpp:95" initialized ;;
  r ← FreeList_put fuel first; ost_assert "memory.cpp:97" (r =? nullptr) ;;
  r ← FreeList_put fuel second; ost_assert "memory.cpp:98" (r =? nullptr) ;;
  r ← FreeList_put fuel third; ost_assert "memory.cpp:99" (r =? second) ;;
  r ← FreeList_get fuel; ost_assert "memory.cpp:100" (r =? first).

Definition small_order__odd : prog pages unit :=
  pages ← get_frames 128;
  ost_assert "memory.cpp:88" (negb (pages =? nullptr)) ;;
  let first_address := frame_add (align_up (PAGE_SIZE * 2) pages) 1 in
  let second_address := frame_add first_address 1 in
  let third_address := frame_add second_address 1 in
  with_local FreeList_default (small_order__odd_body first_address second_address third_address) ;;
  free_frames pages.

Definition high_order__even_body (first second third : Z) : fl_prog unit :=
  initialized ← FreeList_initialize fuel 3 true;
  ost_assert "memory.cpp:116" initialized ;;
  r ← FreeList_put fuel first; ost_assert "memory.cpp:118" (r =? nullptr) ;;
  r ← FreeList_put fuel second; ost_assert "memory.cpp:119" (r =? nullptr) ;;
  r ← FreeList_put fuel third; ost_assert "memory.cpp:120" (r =? nullptr) ;;
  r ← FreeList_get fuel;
  let got_addr := r / PAGE_SIZE in
  ost_assert "memory.cpp:123" (got_addr =? first / PAGE_SIZE).

Definition high_order__even : prog pages unit :=
  pages ← get_frames 128;
  ost_assert "memory.cpp:109" (negb (pages =? nullptr)) ;;
  let first_address := align_up (PAGE_SIZE * 16) pages in
  let second_address := frame_add first_address 8 in
  let third_address := frame_add second_address 8 in
  with_local FreeList_default (high_order__even_body first_address second_address third_address) ;;
  free_frames pages.

Definition high_order__odd_body (first second third : Z) : fl_prog unit :=
  initialized ← FreeList_initialize fuel 3 true;
  ost_assert "memory.cpp:141" initialized ;;
  r ← FreeList_put fuel first; ost_assert "memory.cpp:143" (r =? nullptr) ;;
  r ← FreeList_put fuel second; ost_assert "memory.cpp:144" (r =? nullptr) ;;
  r ← FreeList_put fuel third; ost_assert "memory.cpp:145" (r =? nullptr) ;;
  r ← FreeList_get fuel; ost_assert "memory.cpp:146" (r =? first) ;;
  r ← FreeList_get fuel; ost_assert "memory.cpp:147" (r =? second) ;;
  r ← FreeList_get fuel; ost_assert "memory.cpp:148" (r =? third) ;;
  r ← FreeList_get fuel; ost_assert "memory.cpp:149" (r =? nullptr).

Definition high_order__odd : prog pages unit :=
  pages ← get_frames 128;
  ost_assert "memory.cpp:134" (negb (pages =? nullptr)) ;;
  let first_address := frame_add (align_up (PAGE_SIZE * 16) pages) 8 in
  let second_address := frame_add first_address 8 in
  let third_address := frame_add second_address 8 in
  with_local FreeList_default (high_order__odd_body first_address second_address third_address) ;;
  free_frames pages.

(** ** [BuddyAllocator::test] *)
Definition PAGES : nat := 800.

Fixpoint get_pages (n : nat) : buddy_prog (list pblk_t) :=
  match n with
  | O => mret []
  | S n =>
      blk ← BuddyAllocator_get fuel 1;
      ost_assert "memory.cpp:176" (negb (blk_ptr blk =? nullptr)) ;;
      rest ← get_pages n;
      mret (blk :: rest)
  end.

Fixpoint put_pages (pages : list pblk_t) : buddy_prog unit :=
  match pages with
  | [] => mret tt
  | blk :: pages => BuddyAllocator_put fuel blk ;; put_pages pages
  end.

Fixpoint check_pages (pages : list pblk_t) : buddy_prog unit :=
  match pages with
  | [] => mret tt
  | page :: pages =>
      blk ← BuddyAllocator_get fuel 1;
      ost_assert "memory.cpp:184" (pblk_eqb page blk) ;;
      check_pages pages
  end.

Definition Buddy_body (blk : pblk_t) : buddy_prog unit :=
  let region := region_set_end (frame_add (blk_ptr blk) (blk_size blk))
    (region_set_begin (blk_ptr blk) MemoryRegion_default) in
  BuddyAllocator_initialize fuel region ;;
  BuddyAllocator_put fuel blk ;;
  pages ← get_pages PAGES;
  put_pages pages ;;
  check_pages pages.

Definition Buddy_test : prog pages unit :=
  let size := Z.of_nat PAGES + 223 in
  ptr ← get_frames size;
  ost_assert "memory.cpp:163" (negb (ptr =? nullptr)) ;;
  with_local BuddyAllocator_default (Buddy_body (mkPblk ptr size)) ;;
  free_frames ptr.

(** ** [BitArray::test] *)
Fixpoint set_bits (n : nat) (idx : Z) : prog (mem * BitArray) unit :=
  match n with
  | O => mret tt
  | S n => modify (λ s, (BitArray_set s.2 idx (negb (idx mod 2 =? 0)) s.1, s.2)) ;; set_bits n (idx + 1)
  end.

Fixpoint check_bits (n : nat) (idx : Z) : prog (mem * BitArray) unit :=
  match n with
  | O => mret tt
  | S n =>
      bit ← gets (λ s, BitArray_get s.2 idx s.1);
      if negb (eqb bit (negb (idx mod 2 =? 0))) then panic "Failed Test!" else check_bits n (idx + 1)
  end.

Definition BitArray_body (ptr : Z) : prog (mem * BitArray) unit :=
  modify (λ s, let '(ba, m) := BitArray_initialize ptr 10 s.1 in (m, ba)) ;;
  set_bits 10 0 ;;
  check_bits 10 0.

Definition BitArray_test : prog pages unit :=
  ptr ← get_frames 1;
  with_local BitArray_default (BitArray_body ptr) ;;
  free_frames ptr.

(** ** [Mallocator::test] *)
Fixpoint malloc_sizes (n : nat) (chunk_size : Z) : km_prog unit :=
  match n with
  | O => no_fuel
  | S n =>
      if chunk_size <? PAGE_SIZE * 3 then
        p ← kmalloc fuel Hfuel chunk_size;
        ost_assert "memory.cpp:195" (negb (p =? nullptr)) ;;
        kfree fuel Hfuel p ;;
        malloc_sizes n (u32 (chunk_size + 8))
      else mret tt
  end.

Definition Mallocator_test : km_prog unit := malloc_sizes fuel 7.

(** ** [ost::run]: the callers the linker has collected, in its order *)
Definition suite : list (km_prog unit) :=
  [ on_highmem_pages BitArray_test; on_highmem_pages PageAlloc_test; on_highmem_pages Slab_test;
    on_highmem_pages small_order__even; on_highmem_pages small_order__odd;
    on_highmem_pages high_order__even; on_highmem_pages high_order__odd;
    on_highmem_pages Buddy_test; Mallocator_test ].

Fixpoint ost_run (callers : list (km_prog unit)) : km_prog unit :=
  match callers with
  | [] => mret tt
  | test :: callers => test ;; ost_run callers
  end.
End Tests.

(** * Verification *)

(** ** What a program guarantees: a result with [Q], or a panic with [E] *)
Definition wp {St A} (p : prog St A) (E : string → Prop) (Q : A → St → Prop) (s : St) : Prop :=
  match p s with Done (a, s') => Q a s' | Panic msg => E msg | Fault _ | Fuel => False end.

Lemma wp_bind {St A B} (p : prog St A) (k : A → prog St B) E Q s :
  wp p E (λ a, wp (k a) E Q) s → wp (p ≫= k) E Q s.
Proof. unfold wp, mbind, prog_bind. by destruct (p s) as [[a s']| | |]. Qed.

Lemma wp_done {St A} (p : prog St A) E Q s a s' : p s = Done (a, s') → Q a s' → wp p E Q s.
Proof. unfold wp. by intros ->. Qed.

Lemma wp_mono {St A} (p : prog St A) E Q Q' s : wp p E Q s → (∀ a s', Q a s' → Q' a s') → wp p E Q' s.
Proof. unfold wp. destruct (p s) as [[a s']| | |]; auto. Qed.

Lemma wp_zoom {St T A} (get : St → T) (put : T → St → St) (p : prog T A) E Q s :
  wp p E (λ a t, Q a (put t s)) (get s) → wp (zoom get put p) E Q s.
Proof. unfold wp, zoom. by destruct (p (get s)) as [[a t]| | |]. Qed.

Lemma wp_assert {St} place b E (Q : unit → St → Prop) s :
  (b = false → E (ost_failure place)) → (b = true → Q tt s) → wp (ost_assert place b) E Q s.
Proof. intros H1 H2. unfold wp, ost_assert. destruct b; cbn; auto. Qed.

Lemma assert_true {St} place b (s : St) : b = true → ost_assert place b s = Done (tt, s).
Proof. by intros ->. Qed.

(** An assertion that holds at the head of the goal. *)
Ltac holds := match goal with |- context [mbind ?k (ost_assert ?place ?b) ?s] =>
  rewrite (bind_done (ost_assert place b) k s tt s) by (apply assert_true, Z.eqb_eq; first [done|lia]) end.

(** ** The pages, seen by a test

    [T] are the bytes of the free and of the allocated pages, which no call changes;
    [al0] are the blocks of others, whose contents stay as in [w0]. *)
Definition grow (p n : Z) (al : gmap Z Z) : gmap Z Z := if p =? nullptr then al else <[p := n]> al.
Definition fresh_block (al : gmap Z Z) (p : Z) : Prop := p = nullptr ∨ zero_size_page < p ∧ al !! p = None.

Create HintDb pages.

Section Client.
Context (r : MemoryRegion) (T : Z → Prop) (w0 : pages) (al0 : gmap Z Z).

Record tested (w : pages) (al : gmap Z Z) : Prop := {
  ts_stock : ∃ ls, PA_inv w al ls r ∧ ∀ a, T a ↔ owned ls a ∨ in_blocks al a;
  ts_sub : al0 ⊆ al;
  ts_kept : ∀ a, in_blocks al0 a → load8 (pg_mem w) a = load8 (pg_mem w0) a
}.

Lemma tested_null w al : tested w al → al !! nullptr = None.
Proof.
  intros [(ls & H & _) _ _]. destruct (al !! nullptr) as [n|] eqn:E; [|done].
  destruct (pa_runs _ _ _ _ H _ _ E) as (_ & _ & ? & _). pose proof (proj2 (pa_region_ok _ _ _ _ H)).
  unfold nullptr, zero_size_page in *. lia.
Qed.

(** Two machines with the same blocks allocated have the same free memory. *)
Lemma tested_same w1 w2 al ls1 ls2 : PA_inv w1 al ls1 r → PA_inv w2 al ls2 r →
  (∀ a, T a ↔ owned ls1 a ∨ in_blocks al a) → (∀ a, T a ↔ owned ls2 a ∨ in_blocks al a) → same_free ls1 ls2.
Proof.
  intros H1 H2 E1 E2 a. specialize (E1 a). specialize (E2 a).
  assert (in_blocks al a → ¬ owned ls1 a) by (intros Hb; by apply (in_blocks_free w1 al ls1 r)).
  assert (in_blocks al a → ¬ owned ls2 a) by (intros Hb; by apply (in_blocks_free w2 al ls2 r)).
  tauto.
Qed.

(** What one call does to one machine. *)
Lemma alloc_step w al ls n p w' al' ls' : tested w al → PA_inv w al ls r →
  (∀ a, T a ↔ owned ls a ∨ in_blocks al a) → PA_inv w' al' ls' r → pa_unchanged w w' ls →
  (∀ a, owned ls a ↔ owned ls' a ∨ run_bytes p n a) → al !! p = None → al' = <[p := n]> al →
  tested w' al'.
Proof.
  intros H Hi HT Hi' Hun Hown Hnone ->. split.
  - exists ls'. split; [done|]. intros a. rewrite (HT a), (Hown a), in_blocks_insert by done. tauto.
  - etrans; [apply H|]. by apply insert_subseteq.
  - intros a Ha. rewrite <- (ts_kept _ _ H a Ha). destruct Ha as (q & k & Hq & Ha).
    assert (Hb : in_blocks al a) by (exists q, k; split; [by apply (lookup_weaken _ _ _ _ Hq), H|done]).
    apply Hun; by apply (in_blocks_free w al ls r).
Qed.

Context (fuel : nat) (Hfuel : 2 ^ 20 + 1 < Z.of_nat fuel).

Lemma alloc_two w1 w2 al n : tested w1 al → tested w2 al → 1 ≤ n ≤ 2 ^ 31 →
  ∃ p w1' w2', allocate_body fuel n w1 = Done (p, w1') ∧ allocate_body fuel n w2 = Done (p, w2') ∧
    tested w1' (grow p n al) ∧ tested w2' (grow p n al) ∧ fresh_block al p.
Proof.
  intros H1 H2 Hn. destruct (ts_stock _ _ H1) as (ls1 & I1 & T1). destruct (ts_stock _ _ H2) as (ls2 & I2 & T2).
  pose proof (same_lists _ _ _ _ _ _ (pa_buddy _ _ _ _ I1) (pa_wf _ _ _ _ I1) (pa_buddy _ _ _ _ I2)
    (pa_wf _ _ _ _ I2) (tested_same _ _ _ _ _ I1 I2 T1 T2)) as El.
  destruct (PageAllocator_allocate_at fuel w1 al ls1 r n I1 Hfuel Hn) as (p & w1' & al1 & ls1' & W1 & I1' & C1).
  destruct (PageAllocator_allocate_at fuel w2 al ls2 r n I2 Hfuel Hn) as (q & w2' & al2 & ls2' & W2 & I2' & C2).
  destruct C1 as [(-> & -> & -> & U1 & N1)|(Hp & Np & Ep & U1 & O1 & F1)], C2 as [(-> & -> & -> & U2 & N2)|(Hq & Nq & Eq & U2 & O2 & F2)].
  - exists nullptr, w1', w2'. split_and!; [done..| | |by left]; unfold grow; rewrite Z.eqb_refl;
      (split; [by eexists|by eapply ts_sub|]); intros a Ha.
    + rewrite <- (ts_kept _ _ H1 a Ha). apply U1. tauto.
    + rewrite <- (ts_kept _ _ H2 a Ha). apply U2. tauto.
  - destruct F2 as (j & Hj & Hpj & Hx & _). by rewrite <- (El j), (N1 j) in Hx by done.
  - destruct F1 as (j & Hj & Hpj & Hx & _). by rewrite (El j), (N2 j) in Hx by done.
  - assert (p = q) as <- by exact (best_fit_unique _ _ _ _ _ El F1 F2).
    exists p, w1', w2'. assert (Eg : grow p n al = <[p := n]> al).
    { unfold grow. destruct (Z.eqb_spec p nullptr); [unfold nullptr, zero_size_page in *; lia|done]. }
    rewrite Eg. split_and!; [done..| | |by right].
    + by apply (alloc_step w1 al ls1 n p w1' (<[p := n]> al) ls1'); subst.
    + by apply (alloc_step w2 al ls2 n p w2' (<[p := n]> al) ls2'); subst.
Qed.

Lemma alloc_one w al n : tested w al → 1 ≤ n ≤ 2 ^ 31 →
  ∃ p w', allocate_body fuel n w = Done (p, w') ∧ tested w' (grow p n al) ∧ fresh_block al p.
Proof.
  intros H Hn. destruct (alloc_two w w al n H H Hn) as (p & w1 & w2 & W1 & W2 & H1 & _ & Hf). by exists p, w1.
Qed.

Lemma free_one w al p : tested w al → al0 !! p = None → p = nullptr ∨ is_Some (al !! p) →
  ∃ w', deallocate_body fuel p w = Done (tt, w') ∧ tested w' (delete p al).
Proof.
  intros H H0 [->|[n Hp]].
  { exists w. split; [done|]. by rewrite delete_id by (by apply tested_null in H). }
  destruct (ts_stock _ _ H) as (ls & Hi & HT).
  destruct (PageAllocator_deallocate_done fuel w al ls r p n Hi Hfuel Hp) as (w' & ls' & W & Hi' & Hadd & Hun).
  exists w'. split; [done|]. split.
  - exists ls'. split; [done|]. intros a. rewrite (HT a), (Hadd a).
    pose proof (in_blocks_delete al p n a Hp) as E. tauto.
  - apply map_subseteq_spec. intros q k Hq. rewrite lookup_delete_Some. split; [congruence|].
    by apply (lookup_weaken _ _ _ _ Hq), H.
  - intros a Ha. rewrite <- (ts_kept _ _ H a Ha). destruct Ha as (q & k & Hq & Ha).
    assert (Hq' : al !! q = Some k) by (by apply (lookup_weaken _ _ _ _ Hq), H).
    destruct (pa_taken _ _ _ _ Hi q k a Hq' Ha) as [Hno Hma]. apply Hun; [|done].
    intros [Ho|Ho]%Hadd; [done|]. assert (p = q) as <-; [|congruence].
    by apply (pa_disjoint _ _ _ _ Hi p n q k a).
Qed.

(** A test may write to its own blocks. *)
Lemma write_one w al p n m : tested w al → al0 !! p = None → al !! p = Some n →
  (∀ a, ¬ run_bytes p n a → load8 m a = load8 (pg_mem w) a) → tested (set_pg_mem m w) al.
Proof.
  intros H H0 Hp Hm. destruct (ts_stock _ _ H) as (ls & Hi & HT). split; [|apply H|].
  - exists ls. split; [|done]. apply PA_inv_write; [done|]. intros a Ha. apply Hm. intros Hr. apply Ha. by exists p, n.
  - intros a Ha. rewrite <- (ts_kept _ _ H a Ha). destruct Ha as (q & k & Hq & Ha). apply Hm. intros Hr.
    assert (p = q) as <-; [|congruence].
    apply (pa_disjoint _ _ _ _ Hi p n q k a); [done| |done..]. by apply (lookup_weaken _ _ _ _ Hq), H.
Qed.
End Client.

(** The assertions that fail for lack of memory, and no other. *)
Definition exhausted (msg : string) : Prop :=
  msg ∈ ost_failure <$> [ "memory.cpp:45"; "memory.cpp:65"; "memory.cpp:88"; "memory.cpp:109"; "memory.cpp:134";
                          "memory.cpp:163"; "memory.cpp:195" ].

Ltac exhausted_now := unfold exhausted; cbn [fmap list_fmap];
  repeat first [apply list_elem_of_here | apply list_elem_of_further].

(** The allocator works, and the blocks [al] of others are as they were in [w]. *)
Definition undisturbed (w : pages) (al : gmap Z Z) (w' : pages) : Prop :=
  ∃ al', (∃ ls r, PA_inv w' al' ls r) ∧ al ⊆ al' ∧
    ∀ a, in_blocks al a → load8 (pg_mem w') a = load8 (pg_mem w) a.

Lemma tested_undisturbed r T w al w' al' : tested r T w al w' al' → undisturbed w al w'.
Proof. intros [(ls & H & _) Hs Hk]. exists al'. split; [by exists ls, r|done]. Qed.

(** A test on the pages passes: from every state it leaves the blocks of others
    alone and returns. *)
Definition passes (t : prog pages unit) : Prop := ∀ r T w al, tested r T w al w al →
  wp t exhausted (λ _ w', undisturbed w al w') w.

Section Suite.
Context (fuel : nat) (Hfuel : 2 ^ 20 + 1 < Z.of_nat fuel) (Hslab : 2 ^ 29 ≤ Z.of_nat fuel).
Let provider : PageProvider pages := pages_provider fuel Hfuel.

Lemma tested_start w al : page_rep (PageProvider := provider) w al → ∃ r T, tested r T w al w al.
Proof.
  intros (ls & r & H). exists r, (λ a, owned ls a ∨ in_blocks al a). split; [|done..]. by exists ls.
Qed.

Lemma passes_up t m : passes t → memory_up fuel Hfuel m →
  wp (on_highmem_pages t) exhausted (λ _ m', memory_up fuel Hfuel m' ∧ highmem m' = highmem m) m.
Proof.
  intros Ht (al & used & Hm). destruct (tested_start _ _ (mrep_pages _ _ _ _ Hm)) as (r & T & H0).
  apply wp_zoom. eapply wp_mono; [by apply (Ht r T _ al)|]. intros [] w' (al' & Hp & Hsub & Hk). split; [|done].
  exists al', used. apply (Mallocator_rep_pages (PP := provider) (highmem_pages m) w' al); [done| | |].
  - done.
  - intros s (i & Hs)%list_elem_of_lookup_1. destruct (mrep_slabs _ _ _ _ Hm i s Hs) as [Hr _].
    destruct (srep_block _ _ _ _ Hr) as (n & Hn & _). rewrite Hn. by apply (lookup_weaken _ _ _ _ Hn).
  - intros s x (i & Hs)%list_elem_of_lookup_1 Hx. apply Hk.
    destruct (mrep_slabs _ _ _ _ Hm i s Hs) as [Hr _]. by apply (slab_map_in_block (PP := provider) (highmem_pages m) al s (used i)).
Qed.

(** ** The page test: what is free again is handed out again *)
Lemma grow_null p n al : al !! nullptr = None → grow p n al !! nullptr = None.
Proof. intros H. unfold grow. destruct (Z.eqb_spec p nullptr); [done|]. by rewrite lookup_insert_ne. Qed.

Lemma grow_delete p n al : fresh_block al p → al !! nullptr = None → delete p (grow p n al) = al.
Proof.
  intros Hf Hn. unfold grow. destruct (Z.eqb_spec p nullptr) as [->|Hp]; [by apply delete_id|].
  destruct Hf as [?|[_ Hf]]; [done|]. by rewrite delete_insert_id.
Qed.

(** [p] was allocated before [q]. *)
Definition apart (p q : Z) : Prop := p = nullptr ∨ p ≠ q.

Lemma fresh_grow p n al q : fresh_block (grow p n al) q → apart p q ∧ fresh_block al q.
Proof.
  unfold grow, apart, fresh_block. destruct (Z.eqb_spec p nullptr) as [->|Hp]; [tauto|].
  intros [->|[Hq [H1 H2]%lookup_insert_None]]; [auto|]. split; [by right|by right].
Qed.

Lemma delete_grow p q n al : apart p q → al !! nullptr = None → delete p (grow q n al) = grow q n (delete p al).
Proof.
  intros Ha Hn. unfold grow. destruct (Z.eqb_spec q nullptr) as [->|Hq]; [done|].
  destruct Ha as [->|Hpq]; [|by rewrite delete_insert_ne].
  rewrite delete_insert_ne by done. done.
Qed.

Lemma fresh_lookup p n al : p = nullptr ∨ is_Some (grow p n al !! p).
Proof.
  unfold grow. destruct (Z.eqb_spec p nullptr); [by left|right]. rewrite lookup_insert_eq. by eexists.
Qed.

Lemma held_grow p q n al : p = nullptr ∨ is_Some (al !! p) → p = nullptr ∨ is_Some (grow q n al !! p).
Proof.
  intros [->|H]; [by left|right]. unfold grow. destruct (q =? nullptr); [done|]. by apply lookup_insert_is_Some'; right.
Qed.

Lemma fresh_none al p : fresh_block al p → al !! nullptr = None → al !! p = None.
Proof. by intros [->|[_ H]] Hn. Qed.

#[local] Hint Resolve grow_null fresh_none : pages.

Lemma five_two r T w0 al w1 w2 : tested r T w0 al w1 al → tested r T w0 al w2 al →
  ∃ p0 p1 p2 p3 p4 w1' w2', five_blocks fuel w1 = Done ((p0, p1, p2, p3, p4), w1') ∧
    five_blocks fuel w2 = Done ((p0, p1, p2, p3, p4), w2') ∧
    let al' := grow p4 2 (grow p3 2 (grow p2 3 (grow p0 1 al))) in
    tested r T w0 al w1' al' ∧ tested r T w0 al w2' al' ∧
    Forall (fresh_block al) [p0; p2; p3; p4] ∧
    Forall (λ pq, apart pq.1 pq.2) [(p0, p2); (p0, p3); (p0, p4); (p2, p3); (p2, p4); (p3, p4)].
Proof.
  intros H1 H2. pose proof (tested_null _ _ _ _ _ _ H1) as Hn. unfold five_blocks.
  destruct (alloc_two r T w0 al fuel Hfuel w1 w2 al 1 H1 H2 ltac:(lia)) as (p0 & a1 & a2 & E1 & E2 & A1 & A2 & F0).
  rewrite (bind_done _ _ _ _ _ E1), (bind_done _ _ _ _ _ E2). clear E1 E2.
  destruct (alloc_two r T w0 al fuel Hfuel a1 a2 _ 2 A1 A2 ltac:(lia)) as (p1 & b1 & b2 & E1 & E2 & B1 & B2 & F1).
  rewrite (bind_done _ _ _ _ _ E1), (bind_done _ _ _ _ _ E2). clear E1 E2.
  destruct (alloc_two r T w0 al fuel Hfuel b1 b2 _ 3 B1 B2 ltac:(lia)) as (p2 & c1 & c2 & E1 & E2 & C1 & C2 & F2).
  rewrite (bind_done _ _ _ _ _ E1), (bind_done _ _ _ _ _ E2). clear E1 E2.
  destruct (alloc_two r T w0 al fuel Hfuel c1 c2 _ 2 C1 C2 ltac:(lia)) as (p3 & d1 & d2 & E1 & E2 & D1 & D2 & F3).
  rewrite (bind_done _ _ _ _ _ E1), (bind_done _ _ _ _ _ E2). clear E1 E2.
  assert (F1' := F1). apply fresh_grow in F1' as [A01 F1'].
  apply fresh_grow in F2 as [A12 F2]. apply fresh_grow in F2 as [A02 F2].
  apply fresh_grow in F3 as [A23 F3]. apply fresh_grow in F3 as [A13 F3]. apply fresh_grow in F3 as [A03 F3].
  assert (Ed : delete p1 (grow p3 2 (grow p2 3 (grow p1 2 (grow p0 1 al)))) = grow p3 2 (grow p2 3 (grow p0 1 al))).
  { rewrite !delete_grow, grow_delete by auto with pages. done. }
  destruct (free_one r T w0 al fuel Hfuel d1 _ p1 D1) as (e1 & E1 & X1);
    [by apply fresh_none|apply held_grow, held_grow, fresh_lookup|].
  destruct (free_one r T w0 al fuel Hfuel d2 _ p1 D2) as (e2 & E2 & X2);
    [by apply fresh_none|apply held_grow, held_grow, fresh_lookup|].
  rewrite Ed in X1, X2. rewrite (bind_done _ _ _ _ _ E1), (bind_done _ _ _ _ _ E2). clear E1 E2.
  destruct (alloc_two r T w0 al fuel Hfuel e1 e2 _ 2 X1 X2 ltac:(lia)) as (p4 & g1 & g2 & E1 & E2 & G1 & G2 & F4).
  rewrite (bind_done _ _ _ _ _ E1), (bind_done _ _ _ _ _ E2).
  apply fresh_grow in F4 as [A34 F4]. apply fresh_grow in F4 as [A24 F4]. apply fresh_grow in F4 as [A04 F4].
  exists p0, p1, p2, p3, p4, g1, g2. split; [done|]. split; [done|]. cbv zeta.
  split; [done|]. split; [done|]. rewrite !Forall_cons, !Forall_nil. done.
Qed.

Lemma PageAlloc_passes : passes (PageAlloc_test fuel).
Proof.
  intros r T w al H. pose proof (tested_null _ _ _ _ _ _ H) as Hn. unfold PageAlloc_test.
  destruct (five_two r T w al w w H H) as (p0 & p1 & p2 & p3 & p4 & w1 & _ & E1 & _ & H1 & _ & HF & HA).
  decompose_Forall_hyps. unfold wp. rewrite (bind_done _ _ _ _ _ E1). cbv beta iota.
  assert (Hfree : ∀ p w' al', tested r T w al w' al' → fresh_block al p → p = nullptr ∨ is_Some (al' !! p) →
    ∃ w'', deallocate_body fuel p w' = Done (tt, w'') ∧ tested r T w al w'' (delete p al')).
  { intros p w' al' Ht Hf Hh. apply free_one; [done|done|by apply fresh_none|done]. }
  destruct (Hfree p0 w1 _ H1) as (x0 & W0 & X0); [done|do 3 apply held_grow; apply fresh_lookup|].
  rewrite !delete_grow, grow_delete in X0 by auto with pages. rewrite (bind_done _ _ _ _ _ W0).
  destruct (Hfree p2 x0 _ X0) as (x2 & W2 & X2); [done|do 2 apply held_grow; apply fresh_lookup|].
  rewrite !delete_grow, grow_delete in X2 by auto with pages. rewrite (bind_done _ _ _ _ _ W2).
  destruct (Hfree p3 x2 _ X2) as (x3 & W3 & X3); [done|apply held_grow; apply fresh_lookup|].
  rewrite !delete_grow, grow_delete in X3 by auto with pages. rewrite (bind_done _ _ _ _ _ W3).
  destruct (Hfree p4 x3 _ X3) as (x4 & W4 & X4); [done|apply fresh_lookup|].
  rewrite grow_delete in X4 by done. rewrite (bind_done _ _ _ _ _ W4).
  destruct (five_two r T w al w x4 H X4) as (q0 & q1 & q2 & q3 & q4 & z & y & Eq & Ey & _ & Hy & _ & _).
  rewrite E1 in Eq. injection Eq as <- <- <- <- <- _. rewrite (bind_done _ _ _ _ _ Ey). cbv beta iota.
  do 4 holds. rewrite assert_true by (by rewrite Z.eqb_refl). by eapply tested_undisturbed.
Qed.

(** ** Tests that work in a block of their own *)
Definition confined {L} (n : Z) (l : L) (body : Z → prog (mem * L) unit) : Prop :=
  ∀ p m, 0 < p → p mod PAGE_SIZE = 0 → p + PAGE_SIZE * n < 2 ^ 32 →
  ∃ m' l', body p (m, l) = Done (tt, (m', l')) ∧ ∀ a, ¬ run_bytes p n a → load8 m' a = load8 m a.

Lemma confined_passes {L} n place (l : L) body : 1 ≤ n ≤ 2 ^ 31 → confined n l body →
  exhausted (ost_failure place) →
  passes (p ← allocate_body fuel n;
          ost_assert place (negb (p =? nullptr)) ;;
          with_local l (body p) ;;
          deallocate_body fuel p).
Proof.
  intros Hn Hb He r T w al H. destruct (alloc_one r T w al fuel Hfuel w al n H Hn) as (p & w1 & E & H1 & Hf).
  unfold wp. rewrite (bind_done _ _ _ _ _ E). destruct (Z.eqb_spec p nullptr) as [->|Hp]; [done|].
  destruct Hf as [?|[Hz Hnone]]; [done|]. assert (Eg : grow p n al !! p = Some n).
  { unfold grow. destruct (Z.eqb_spec p nullptr); [done|]. apply lookup_insert_eq. }
  destruct (ts_stock _ _ _ _ _ _ H1) as (ls & Hi & _).
  destruct (run_pages r p n) as (_ & _ & _ & _ & _ & Hlt); [apply Hi|by apply (pa_runs _ _ _ _ Hi)|].
  destruct (pa_runs _ _ _ _ Hi p n Eg) as (_ & Hal & _ & Hend).
  destruct (pa_region_ok _ _ _ _ Hi) as [(? & ? & ? & ? & ?) _].
  destruct (Hb p (pg_mem w1)) as (m & l' & Wb & Hm); [unfold zero_size_page in Hz; lia|done|lia|].
  rewrite (bind_done _ _ _ tt w1) by done.
  rewrite (bind_done _ _ _ tt (set_pg_mem m w1)) by (unfold with_local, zoom; by rewrite Wb).
  destruct (free_one r T w al fuel Hfuel (set_pg_mem m w1) (grow p n al) p) as (w2 & W2 & X2).
  - by apply (write_one r T w al w1 _ p n).
  - done.
  - right. by eexists.
  - rewrite W2. by eapply tested_undisturbed.
Qed.

Section FreeLists.
Context (p n o : Z) (d : bool) (m0 : mem) (Ho : 0 ≤ o ≤ MAX_ORDER).

Definition inside (x : Z) : Prop := block_ok o x ∧ p ≤ x ∧ x + block_size o ≤ p + PAGE_SIZE * n.

Record fl_test (m : mem) (fl : FreeList) (l : list Z) : Prop := {
  ft_rep : FreeList_rep m fl l;
  ft_order : order_ fl = o;
  ft_disabled : disable_squashing_ fl = d;
  ft_inside : Forall inside l;
  ft_mem : ∀ a, ¬ run_bytes p n a → load8 m a = load8 m0 a
}.

Lemma inside_write ws m m' : Forall inside ws → same_outside ws m m' →
  (∀ a, ¬ run_bytes p n a → load8 m a = load8 m0 a) → ∀ a, ¬ run_bytes p n a → load8 m' a = load8 m0 a.
Proof.
  intros Hw Hs Hm a Ha. rewrite <- Hm by done. apply Hs. intros x Hx Hin. rewrite Forall_forall in Hw.
  destruct (Hw x Hx) as (_ & H1 & H2). apply Ha. unfold run_bytes, block_size, PAGE_SIZE in *.
  pose proof (pow2_pos o). lia.
Qed.

Lemma fl_put m fl l f r l' : fl_test m fl l → inside f → f ∉ l → (S (length l) < fuel)%nat →
  spec_put d o f l = (r, l') →
  ∃ m' fl', FreeList_put fuel f (m, fl) = Done (r, (m', fl')) ∧ fl_test m' fl' l'.
Proof.
  intros [Hr Eo1 Ed1 Hin Hm] Hf Hfr Hfuel' E.
  pose proof (FreeList_put_done fuel m fl l f) as H. rewrite Eo1, Ed1, E in H.
  destruct H as (m' & fl' & W & Hr' & Hs & Eo & Ed); [done|done| |apply Hf|done|done|].
  { eapply Forall_impl; [done|]. by intros x (? & _). }
  exists m', fl'. split; [done|]. split; [done|done|done| |].
  - revert E. unfold spec_put. destruct (negb _ && _); intros [= <- <-]; rewrite Forall_forall in *.
    + intros x [_ Hx]%list_elem_of_filter. auto.
    + intros x [->|Hx]%elem_of_insert_block; auto.
  - eapply inside_write; [|done|done]. by constructor.
Qed.

Lemma fl_get m fl l : fl_test m fl l → (length l < fuel)%nat →
  ∃ m' fl', FreeList_get fuel (m, fl) = Done ((spec_get l).1, (m', fl')) ∧ fl_test m' fl' (spec_get l).2.
Proof.
  intros [Hr Eo1 Ed1 Hin Hm] Hfuel'. pose proof (FreeList_get_done fuel m fl l Hr Hfuel') as H.
  rewrite Eo1, Ed1 in H.
  destruct (spec_get l) as [x l'] eqn:E. destruct H as (m' & fl' & W & Hr' & Hs & Eo & Ed).
  exists m', fl'. split; [done|]. split; [done|done|done| |by eapply inside_write].
  destruct l; injection E as <- <-; [constructor|]. apply (Forall_cons_1 _ _ _ Hin).
Qed.

Lemma fl_start : FreeList_initialize fuel o d (m0, FreeList_default) = Done (true, (m0, mkFreeList 0 nullptr o d)) ∧
  fl_test m0 (mkFreeList 0 nullptr o d) [].
Proof.
  split; [by destruct fuel; [lia|]|]. split; [|done..]. split; [done|done|constructor].
Qed.
End FreeLists.

(** The rounded start of a block of pages, and the frames behind it. *)
Lemma align_up_run k p : k = 13 ∨ k = 16 → 0 < p → p mod PAGE_SIZE = 0 → p + PAGE_SIZE * 128 < 2 ^ 32 →
  let f := align_up (2 ^ k) p in p ≤ f ∧ f ≤ p + 2 ^ k - PAGE_SIZE ∧ f mod 2 ^ k = 0.
Proof.
  intros Hk Hp Hal Hend. cbv zeta. unfold PAGE_SIZE in *. rewrite align_up_spec by lia.
  destruct Hk as [->| ->]; zify_wraps.
Qed.

(** Run a [put] or a [get] of the goal, with the assertion behind it. *)
Lemma put_then p n o d m0 m fl l f r l' place want
    (k : unit → fl_prog unit) :
  0 ≤ o ≤ MAX_ORDER → fl_test p n o d m0 m fl l → inside p n o f → f ∉ l → (length l < 5)%nat →
  spec_put d o f l = (r, l') → r = want →
  (∀ m' fl', fl_test p n o d m0 m' fl' l' → ∃ m'' fl'', k tt (m', fl') = Done (tt, (m'', fl'')) ∧
     ∀ a, ¬ run_bytes p n a → load8 m'' a = load8 m0 a) →
  ∃ m'' fl'', (r ← FreeList_put fuel f; ost_assert place (r =? want) ≫= k) (m, fl) = Done (tt, (m'', fl'')) ∧
     ∀ a, ¬ run_bytes p n a → load8 m'' a = load8 m0 a.
Proof.
  intros Ho H Hf Hfr Hl E -> Hk. destruct (fl_put p n o d m0 Ho m fl l f want l' H Hf Hfr ltac:(lia) E) as (m' & fl' & W & H').
  rewrite (bind_done _ _ _ _ _ W). rewrite (bind_done _ _ _ _ _ (assert_true _ _ _ (Z.eqb_refl _))). by apply Hk.
Qed.

Lemma get_then p n o d m0 m fl l place want (k : unit → fl_prog unit) :
  0 ≤ o ≤ MAX_ORDER → fl_test p n o d m0 m fl l → (length l < 5)%nat → (spec_get l).1 = want →
  (∀ m' fl', fl_test p n o d m0 m' fl' (spec_get l).2 → ∃ m'' fl'', k tt (m', fl') = Done (tt, (m'', fl'')) ∧
     ∀ a, ¬ run_bytes p n a → load8 m'' a = load8 m0 a) →
  ∃ m'' fl'', (r ← FreeList_get fuel; ost_assert place (r =? want) ≫= k) (m, fl) = Done (tt, (m'', fl'')) ∧
     ∀ a, ¬ run_bytes p n a → load8 m'' a = load8 m0 a.
Proof.
  intros Ho H Hl E Hk. destruct (fl_get p n o d m0 Ho m fl l H ltac:(lia)) as (m' & fl' & W & H').
  rewrite (bind_done _ _ _ _ _ W), E.
  rewrite (bind_done _ _ _ _ _ (assert_true _ _ _ (Z.eqb_refl _))). by apply Hk.
Qed.

Lemma get_last p n o d m0 m fl l place want (b : Z → bool) :
  0 ≤ o ≤ MAX_ORDER → fl_test p n o d m0 m fl l → (length l < 5)%nat → (spec_get l).1 = want → b want = true →
  ∃ m'' fl'', (r ← FreeList_get fuel; ost_assert place (b r)) (m, fl) = Done (tt, (m'', fl'')) ∧
     ∀ a, ¬ run_bytes p n a → load8 m'' a = load8 m0 a.
Proof.
  intros Ho H Hl E Hb. destruct (fl_get p n o d m0 Ho m fl l H ltac:(lia)) as (m' & fl' & W & H').
  rewrite (bind_done _ _ _ _ _ W), E, assert_true by done. exists m', fl'. split; [done|]. apply H'.
Qed.

Lemma start_then p n o d m0 place (k : unit → fl_prog unit) : 0 ≤ o ≤ MAX_ORDER →
  (∀ fl, fl_test p n o d m0 m0 fl [] → ∃ m'' fl'', k tt (m0, fl) = Done (tt, (m'', fl'')) ∧
     ∀ a, ¬ run_bytes p n a → load8 m'' a = load8 m0 a) →
  ∃ m'' fl'', (i ← FreeList_initialize fuel o d; ost_assert place i ≫= k) (m0, FreeList_default) = Done (tt, (m'', fl'')) ∧
     ∀ a, ¬ run_bytes p n a → load8 m'' a = load8 m0 a.
Proof.
  intros Ho Hk. destruct (fl_start p n o d m0) as [W H]. rewrite (bind_done _ _ _ _ _ W).
  rewrite (bind_done _ _ _ _ _ (assert_true _ _ _ eq_refl)). by apply Hk.
Qed.

(** Arithmetic on blocks of a fixed order. *)
Ltac frames_arith := unfold inside, nullptr, block_ok, buddy_of, block_size, PAGE_SIZE in *; simpl in *;
  repeat (case_match; rewrite ?Z.eqb_eq, ?Z.eqb_neq in * ); Z.div_mod_to_equations; lia.
Ltac not_there := rewrite ?not_elem_of_cons; split_and?; first [apply not_elem_of_nil | lia].

(** The effect of a [put] on the list: a merge, or an insertion. *)
Lemma put_merges o f b l : buddy_of o f = b → b ∈ l → spec_put false o f l = (Z.min f b, filter (λ x, x ≠ b) l).
Proof. intros E Hb. unfold spec_put. rewrite E. by rewrite bool_decide_eq_true_2. Qed.

Lemma put_inserts d o f b l : buddy_of o f = b → d = true ∨ b ∉ l → spec_put d o f l = (nullptr, insert_block f l).
Proof.
  intros E Hb. unfold spec_put. rewrite E. destruct Hb as [->|Hb]; [done|].
  rewrite bool_decide_eq_false_2 by done. by rewrite andb_false_r.
Qed.

Ltac inserts b := rewrite (put_inserts _ _ _ b); [try reflexivity|done|first [by left|right; not_there]].

Lemma small_even_confined : confined 128 FreeList_default (λ pages,
  let first_address := align_up (PAGE_SIZE * 2) pages in
  let second_address := frame_add first_address 1 in
  let third_address := frame_add second_address 1 in
  small_order__even_body fuel first_address second_address third_address).
Proof.
  intros p m0 Hp Hal Hend. destruct (align_up_run 13 p) as (H1 & H2 & H3); [by left|done..|].
  cbv zeta. change (PAGE_SIZE * 2) with (2 ^ 13). set (f := align_up (2 ^ 13) p) in *.
  rewrite !frame_add_small by (unfold PAGE_SIZE in *; lia). unfold small_order__even_body.
  set (g := f + PAGE_SIZE * 1). set (h := g + PAGE_SIZE * 1).
  assert (B1 : buddy_of 0 f = g) by (subst g; clearbody f; frames_arith).
  assert (B2 : buddy_of 0 g = f) by (subst g; clearbody f; frames_arith).
  assert (I1 : inside p 128 0 f) by (clearbody f; frames_arith).
  assert (I2 : inside p 128 0 g) by (subst g; clearbody f; frames_arith).
  assert (I3 : inside p 128 0 h) by (subst h g; clearbody f; frames_arith).
  clearbody f. apply start_then; [done|]. intros fl H.
  apply (put_then _ _ _ _ _ _ _ _ _ nullptr [f] _ _ _ ltac:(done) H I1); [not_there|simpl; lia| |done|clear H; intros m1 fl1 H].
  { inserts g. }
  apply (put_then _ _ _ _ _ _ _ _ _ f [] _ _ _ ltac:(done) H I2); [subst g; unfold PAGE_SIZE in *; not_there|simpl; lia| |done|clear H; intros m2 fl2 H].
  { rewrite (put_merges 0 g f) by (done || by left). subst g. rewrite Z.min_r by (unfold PAGE_SIZE; lia).
    by rewrite filter_cons_False by tauto. }
  apply (put_then _ _ _ _ _ _ _ _ _ nullptr [h] _ _ _ ltac:(done) H I3); [not_there|simpl; lia| |done|clear H; intros m3 fl3 H].
  { inserts (buddy_of 0 h). }
  apply (get_then _ _ _ _ _ _ _ _ _ _ _ ltac:(done) H); [simpl; lia|done|clear H; intros m4 fl4 H].
  by apply (get_last _ _ _ _ _ _ _ _ _ nullptr (λ r, r =? nullptr) ltac:(done) H); [simpl; lia|..].
Qed.

Lemma small_even_passes : passes (small_order__even fuel).
Proof. apply (confined_passes 128 "memory.cpp:65" _ _ ltac:(lia) small_even_confined). exhausted_now. Qed.

Lemma small_odd_passes : passes (small_order__odd fuel).
Proof.
  refine (confined_passes 128 "memory.cpp:88" FreeList_default (λ pages, small_order__odd_body fuel _ _ _) ltac:(lia) _ _);
    [|exhausted_now].
  intros p m0 Hp Hal Hend. destruct (align_up_run 13 p) as (H1 & H2 & H3); [by left|done..|].
  cbv zeta. change (PAGE_SIZE * 2) with (2 ^ 13). set (e := align_up (2 ^ 13) p) in *.
  rewrite !frame_add_small by (unfold PAGE_SIZE in *; lia). unfold small_order__odd_body.
  set (f := e + PAGE_SIZE * 1). set (g := f + PAGE_SIZE * 1). set (h := g + PAGE_SIZE * 1).
  assert (B1 : buddy_of 0 f = e) by (subst f; clearbody e; frames_arith).
  assert (B2 : buddy_of 0 g = h) by (subst h g f; clearbody e; frames_arith).
  assert (B3 : buddy_of 0 h = g) by (subst h g f; clearbody e; frames_arith).
  assert (I1 : inside p 128 0 f) by (subst f; clearbody e; frames_arith).
  assert (I2 : inside p 128 0 g) by (subst g f; clearbody e; frames_arith).
  assert (I3 : inside p 128 0 h) by (subst h g f; clearbody e; frames_arith).
  assert (f < g) by (subst g; unfold PAGE_SIZE; lia). assert (g < h) by (subst h; unfold PAGE_SIZE; lia).
  clearbody h g f. apply start_then; [done|]. intros fl H0'. rename H0' into Hl.
  apply (put_then _ _ _ _ _ _ _ _ _ nullptr [f] _ _ _ ltac:(done) Hl I1); [not_there|simpl; lia| |done|clear Hl; intros m1 fl1 Hl].
  { inserts e. }
  apply (put_then _ _ _ _ _ _ _ _ _ nullptr [f; g] _ _ _ ltac:(done) Hl I2); [not_there|simpl; lia| |done|clear Hl; intros m2 fl2 Hl].
  { inserts h. cbn [insert_block]. by destruct (Z.ltb_spec f g); [|lia]. }
  apply (put_then _ _ _ _ _ _ _ _ _ g [f] _ _ _ ltac:(done) Hl I3); [not_there|simpl; lia| |done|clear Hl; intros m3 fl3 Hl].
  { rewrite (put_merges 0 h g) by (done || by right; left). rewrite Z.min_r by lia.
    by rewrite filter_cons_True, filter_cons_False by (lia || tauto). }
  by apply (get_last _ _ _ _ _ _ _ _ _ f (λ r, r =? f) ltac:(done) Hl); [simpl; lia| |apply Z.eqb_refl].
Qed.

(** Lists that do not merge: three blocks of eight pages. *)
Lemma three_inserts p m0 f k : 0 < p → p + PAGE_SIZE * 128 < 2 ^ 32 → p ≤ f ∧ f + PAGE_SIZE * 24 ≤ p + PAGE_SIZE * 128 →
  f mod (PAGE_SIZE * 8) = 0 →
  let g := f + PAGE_SIZE * 8 in let h := g + PAGE_SIZE * 8 in ∀ places place,
  (∀ m fl, fl_test p 128 3 true m0 m fl [f; g; h] → ∃ m'' fl'', k tt (m, fl) = Done (tt, (m'', fl'')) ∧
     ∀ a, ¬ run_bytes p 128 a → load8 m'' a = load8 m0 a) →
  ∃ m'' fl'', (i ← FreeList_initialize fuel 3 true; ost_assert places.1 i ;;
    r ← FreeList_put fuel f; ost_assert places.2.1 (r =? nullptr) ;;
    r ← FreeList_put fuel g; ost_assert places.2.2 (r =? nullptr) ;;
    r ← FreeList_put fuel h; ost_assert place (r =? nullptr) ≫= k) (m0, FreeList_default) = Done (tt, (m'', fl'')) ∧
     ∀ a, ¬ run_bytes p 128 a → load8 m'' a = load8 m0 a.
Proof.
  intros Hp Hend Hf Hal g h places place Hk. 
  assert (I1 : inside p 128 3 f) by (clear Hk; frames_arith).
  assert (I2 : inside p 128 3 g) by (clear Hk; subst g h; frames_arith).
  assert (I3 : inside p 128 3 h) by (clear Hk; subst h g; frames_arith).
  assert (f < g) by (subst g; unfold PAGE_SIZE; lia). assert (g < h) by (subst h; unfold PAGE_SIZE; lia).
  clearbody h g. apply start_then; [done|]. intros fl Hl.
  apply (put_then _ _ 3 _ _ _ _ _ _ nullptr [f] _ _ _ ltac:(done) Hl I1); [not_there|simpl; lia| |done|clear Hl; intros m1 fl1 Hl].
  { inserts (buddy_of 3 f). }
  apply (put_then _ _ 3 _ _ _ _ _ _ nullptr [f; g] _ _ _ ltac:(done) Hl I2); [not_there|simpl; lia| |done|clear Hl; intros m2 fl2 Hl].
  { inserts (buddy_of 3 g). cbn [insert_block]. by destruct (Z.ltb_spec f g); [|lia]. }
  apply (put_then _ _ 3 _ _ _ _ _ _ nullptr [f; g; h] _ _ _ ltac:(done) Hl I3); [not_there|simpl; lia| |done|exact Hk].
  inserts (buddy_of 3 h). cbn [insert_block]. destruct (Z.ltb_spec f h); [|lia]. by destruct (Z.ltb_spec g h); [|lia].
Qed.

Lemma high_even_passes : passes (high_order__even fuel).
Proof.
  refine (confined_passes 128 "memory.cpp:109" FreeList_default (λ pages, high_order__even_body fuel _ _ _) ltac:(lia) _ _);
    [|exhausted_now].
  intros p m0 Hp Hal Hend. destruct (align_up_run 16 p) as (H1 & H2 & H3); [by right|done..|].
  cbv zeta. change (PAGE_SIZE * 16) with (2 ^ 16). set (f := align_up (2 ^ 16) p) in *. clearbody f.
  rewrite !frame_add_small by (unfold PAGE_SIZE in *; lia).
  apply (three_inserts p m0 f _ Hp Hend ltac:(unfold PAGE_SIZE in *; lia)
    ltac:(unfold PAGE_SIZE in *; Z.div_mod_to_equations; lia) ("memory.cpp:116", ("memory.cpp:118", "memory.cpp:119"))).
  intros m fl Hl. by apply (get_last _ _ 3 _ _ _ _ _ _ f (λ r, r / PAGE_SIZE =? f / PAGE_SIZE) ltac:(done) Hl);
    [simpl; lia| |apply Z.eqb_refl].
Qed.

Lemma high_odd_passes : passes (high_order__odd fuel).
Proof.
  refine (confined_passes 128 "memory.cpp:134" FreeList_default (λ pages, high_order__odd_body fuel _ _ _) ltac:(lia) _ _);
    [|exhausted_now].
  intros p m0 Hp Hal Hend. destruct (align_up_run 16 p) as (H1 & H2 & H3); [by right|done..|].
  cbv zeta. change (PAGE_SIZE * 16) with (2 ^ 16). set (e := align_up (2 ^ 16) p) in *. clearbody e.
  rewrite !frame_add_small by (unfold PAGE_SIZE in *; lia).
  apply (three_inserts p m0 (e + PAGE_SIZE * 8) _ Hp Hend ltac:(unfold PAGE_SIZE in *; lia)
    ltac:(unfold PAGE_SIZE in *; Z.div_mod_to_equations; lia) ("memory.cpp:141", ("memory.cpp:143", "memory.cpp:144"))).
  intros m fl Hl.
  apply (get_then _ _ 3 _ _ _ _ _ _ _ _ ltac:(done) Hl); [simpl; lia|done|clear Hl; intros m1 fl1 Hl].
  apply (get_then _ _ 3 _ _ _ _ _ _ _ _ ltac:(done) Hl); [simpl; lia|done|clear Hl; intros m2 fl2 Hl].
  apply (get_then _ _ 3 _ _ _ _ _ _ _ _ ltac:(done) Hl); [simpl; lia|done|clear Hl; intros m3 fl3 Hl].
  by apply (get_last _ _ 3 _ _ _ _ _ _ nullptr (λ r, r =? nullptr) ltac:(done) Hl); [simpl; lia|..].
Qed.

(** ** The slab test *)
Lemma slab_next w al w1 al1 s used k : Slab_rep (PP := provider) w1 al1 s used → nelems_ s = 10 →
  (∀ a, in_blocks al a → ¬ slab_map_bytes s a) →
  (∀ a, in_blocks al a → load8 (pg_mem w1) a = load8 (pg_mem w) a) →
  0 ≤ k < 10 → k ∉ used → (∀ j, 0 ≤ j < k → j ∈ used) →
  ∃ w2, on_mem (PP := provider) (SlabAllocator_allocate fuel) (w1, s) = Done (chunk_addr s k, (w2, s)) ∧
    Slab_rep (PP := provider) w2 al1 s (used ∪ {[ k ]}) ∧
    ∀ a, in_blocks al a → load8 (pg_mem w2) a = load8 (pg_mem w) a.
Proof.
  intros Hs Hn Ha Hk Hk1 Hk2 Hk3.
  destruct (SlabAllocator_allocate_done (PP := provider) fuel w1 al1 s used Hs ltac:(lia))
    as [(i & Hi & Hi2 & Hi3 & w2 & W & Hr & Hm)|(Hall & _)].
  - assert (i = k) as ->.
    { destruct (Z.lt_trichotomy i k) as [Hlt|[->|Hlt]]; [|done|].
      - destruct Hi2. apply Hk3. lia.
      - destruct Hk2. apply Hi3. lia. }
    exists w2. split; [done|]. split; [done|]. intros a Hb. rewrite <- Hk by done. by apply Hm, Ha.
  - destruct Hk2. apply Hall. lia.
Qed.

Lemma Slab_passes : passes (Slab_test fuel Hfuel).
Proof.
  intros r T w al H. destruct (ts_stock _ _ _ _ _ _ H) as (ls & Hi & _).
  assert (Hrep : page_rep (PageProvider := provider) w al) by by exists ls, r.
  apply wp_zoom. unfold Slab_body.
  destruct (SlabAllocator_initialize_done (PP := provider) fuel w al SlabAllocator_default sizeof_long 10 Hrep)
    as (b & w1 & s & al1 & W1 & K1 & Ee & En & Hcase); [done|lia|done|lia|].
  unfold wp. rewrite (bind_done _ _ _ _ _ W1).
  destruct Hcase as [(-> & _ & Hp & _ & Ei & _)|(-> & Hnone & Eal & Hs)].
  { rewrite (bind_done _ _ _ false (w1, s)).
    2:{ unfold on_mem, zoom, SlabAllocator_is_initialized, gets. cbn [fst snd]. rewrite Ei. by destruct w1. }
    unfold ost_assert at 1. change (exhausted (ost_failure "memory.cpp:45")). exhausted_now. }
  rewrite (bind_done _ _ _ true (w1, s)).
  2:{ unfold on_mem, zoom, SlabAllocator_is_initialized, gets. cbn [fst snd].
      rewrite (srep_init _ _ _ _ Hs). by destruct w1. }
  rewrite (bind_done _ _ _ tt (w1, s)) by done.
  assert (Hmap : ∀ a, in_blocks al a → ¬ slab_map_bytes s a).
  { intros a (q & k & Hq & Ha) Hx. destruct (slab_block (PP := provider) _ _ _ _ a Hs
      (slab_map_at (PP := provider) _ _ _ _ a Hs Hx)) as (n & Hn & Hna).
    assert (area_ s = q) as <-; [|congruence].
    apply (page_rep_disjoint (PageProvider := provider) w1 al1 (area_ s) n q k a); try done; [apply Hs|].
    rewrite Eal, lookup_insert_ne by congruence. done. }
  pose proof (srep_inv _ _ _ _ Hs) as Hinv.
  pose proof (λ k, chunk_inside _ _ _ k Hinv) as Hc. rewrite En in Hc.
  pose proof (slab_end _ _ _ Hinv) as Hend. rewrite En, Ee in Hend.
  assert (Hnext : ∀ k, 0 ≤ k < 9 → u32 (chunk_addr s k + sizeof_long) = chunk_addr s (k + 1)).
  { intros k Hk. unfold chunk_addr. rewrite Ee. unfold sizeof_long in *.
    pose proof (Hc k ltac:(lia)) as (? & ? & ?). unfold chunk_addr in *. rewrite u32_small; lia. }
  destruct (slab_next w al w1 al1 s ∅ 0 Hs En Hmap K1) as (a0 & E0 & S0 & K0); [lia|set_solver|lia|].
  rewrite (bind_done _ _ _ _ _ E0). clear E0.
  destruct (slab_next w al a0 al1 s _ 1 S0 En Hmap K0) as (a1 & E1 & S1 & K2); [lia|set_solver| |].
  { intros j Hj. assert (j = 0) as -> by lia. set_solver. }
  rewrite (bind_done _ _ _ _ _ E1). clear E1.
  destruct (slab_next w al a1 al1 s _ 2 S1 En Hmap K2) as (a2 & E2 & S2 & K3); [lia|set_solver| |].
  { intros j Hj. assert (j = 0 ∨ j = 1) as [-> | ->] by lia; set_solver. }
  rewrite (bind_done _ _ _ _ _ E2). clear E2.
  destruct (slab_next w al a2 al1 s _ 3 S2 En Hmap K3) as (a3 & E3 & S3 & K4); [lia|set_solver| |].
  { intros j Hj. assert (j = 0 ∨ j = 1 ∨ j = 2) as [->|[-> | ->]] by lia; set_solver. }
  rewrite (bind_done _ _ _ _ _ E3). clear E3.
  pose proof (slab_elem _ _ _ Hinv) as Hel. pose proof (Hc 2 ltac:(lia)) as (? & ? & ?).
  destruct (SlabAllocator_deallocate_rep (PP := provider) a3 al1 s _ (chunk_addr s 2) S3) as (a4 & E4 & S4 & K5);
    [rewrite En; lia|].
  rewrite chunk_of_addr in S4 by done. rewrite (bind_done _ _ _ _ _ E4). clear E4.
  destruct (slab_next w al a4 al1 s _ 2 S4 En Hmap) as (a5 & E5 & S5 & K6); [|lia|set_solver| |].
  { intros a Ha. rewrite <- K4 by done. by apply K5, Hmap. }
  { intros j Hj. assert (j = 0 ∨ j = 1) as [-> | ->] by lia; set_solver. }
  rewrite (bind_done _ _ _ _ _ E5). clear E5. rewrite !Hnext by lia. do 4 holds.
  destruct (srep_block _ _ _ _ S5) as (n & Hn & _).
  destruct (free_pages_done (PageProvider := provider) a5 al1 (area_ s) n (srep_pages _ _ _ _ S5) Hn) as (w' & Wf & Hrep' & Kf).
  unfold SlabAllocator_destroy. rewrite gets_bind. cbn [snd]. 
  rewrite (bind_done _ _ _ tt (w', s)) by (unfold on_pages, zoom; cbn [fst snd]; unfold provider in Wf; by rewrite Wf).
  unfold modify. cbn [fst snd]. rewrite Eal, delete_insert_id in Hrep' by done.
  exists al. split; [exact Hrep'|]. split; [done|]. intros a Ha. rewrite <- K6 by done. apply Kf.
  by rewrite Eal, delete_insert_id by done.
Qed.

(** ** The buddy test *)
Section Pool.
Context (ptr n : Z) (m0 : mem) (Hptr : 0 < ptr ∧ ptr mod PAGE_SIZE = 0 ∧ ptr + PAGE_SIZE * n < 2 ^ 32).

(** The run, split into the free memory of the local buddy system and the pages in
    [got] that were taken from it. *)
Record pool (m : mem) (b : BuddyAllocator) (ls : nat → list Z) (got : list Z) : Prop := {
  po_rep : Buddy_rep m b ls;
  po_wf : wf ls;
  po_split : ∀ a, run_bytes ptr n a ↔ owned ls a ∨ ∃ q, q ∈ got ∧ run_bytes q 1 a;
  po_taken : ∀ q a, q ∈ got → run_bytes q 1 a → ¬ owned ls a;
  po_pages : Forall (λ q, q mod PAGE_SIZE = 0) got;
  po_nodup : NoDup got;
  po_mem : ∀ a, ¬ run_bytes ptr n a → load8 m a = load8 m0 a
}.

Lemma pool_inside m b ls got q : pool m b ls got → q ∈ got → ptr ≤ q ∧ q + PAGE_SIZE ≤ ptr + PAGE_SIZE * n.
Proof.
  intros H Hq. assert (Hr : ∀ a, run_bytes q 1 a → run_bytes ptr n a).
  { intros a Ha. apply (po_split _ _ _ _ H). right. by exists q. }
  pose proof (Hr q). pose proof (Hr (q + PAGE_SIZE - 1)). unfold run_bytes, PAGE_SIZE in *. lia.
Qed.

(** While fewer pages than the run has are taken, some byte is free. *)
Lemma pool_room m b ls got : pool m b ls got → Z.of_nat (length got) < n → ∃ a, owned ls a.
Proof.
  intros H Hlen. set (all := (λ i : nat, ptr + PAGE_SIZE * Z.of_nat i) <$> seq 0 (Z.to_nat n)).
  destruct (decide (Forall (λ x, x ∈ got) all)) as [Hall|Hex].
  - exfalso. assert (Hnd : NoDup all).
    { apply NoDup_fmap_2; [|apply NoDup_seq]. intros i j. unfold PAGE_SIZE. lia. }
    rewrite Forall_forall in Hall. pose proof (submseteq_length _ _ (NoDup_submseteq _ got Hnd Hall)) as Hle.
    unfold all in Hle. rewrite length_fmap, length_seq in Hle. lia.
  - apply not_Forall_Exists in Hex; [|apply _]. apply Exists_exists in Hex as (x & Hx & Hn).
    apply list_elem_of_fmap in Hx as (i & -> & Hi%elem_of_seq). exists (ptr + PAGE_SIZE * Z.of_nat i).
    assert (Hr : run_bytes ptr n (ptr + PAGE_SIZE * Z.of_nat i)) by (unfold run_bytes, PAGE_SIZE; lia).
    apply (po_split _ _ _ _ H) in Hr as [Ho|(q & Hq & Ha)]; [done|]. destruct Hn.
    pose proof (po_pages _ _ _ _ H) as Hal. rewrite Forall_forall in Hal. specialize (Hal q Hq).
    replace (ptr + PAGE_SIZE * Z.of_nat i) with q; [done|]. destruct Hptr as (_ & Hpa & _).
    unfold run_bytes, PAGE_SIZE in *. Z.div_mod_to_equations. lia.
Qed.

Lemma pool_get m b ls got : pool m b ls got → Z.of_nat (length got) < n →
  ∃ q m' b' ls', BuddyAllocator_get fuel 1 (m, b) = Done (mkPblk q 1, (m', b')) ∧ q ≠ nullptr ∧ pool m' b' ls' (q :: got).
Proof.
  intros H Hlen. destruct (pool_room m b ls got H Hlen) as (x & j & c & Hj & Hc & _).
  destruct (BuddyAllocator_get_done fuel m b ls 1 (po_rep _ _ _ _ H) (po_wf _ _ _ _ H) Hfuel ltac:(lia))
    as ([q k] & m' & b' & ls' & W & R & Hwf & _ & _ & Hcase).
  destruct Hcase as [(_ & _ & _ & Hnil)|(Hk & (Hq & Hal & Hend & Hown & Hdis) & _ & Hun)].
  { rewrite (Hnil j Hj) in Hc; [by apply elem_of_nil in Hc|]. pose proof (pow2_pos (Z.of_nat j)). lia. }
  cbn [blk_ptr blk_size] in *. subst k. exists q, m', b', ls'. split; [done|]. split; [unfold nullptr; lia|]. split; try done.
  - intros a. rewrite (po_split _ _ _ _ H a), (Hown a). setoid_rewrite elem_of_cons. naive_solver.
  - intros q' a [->|Hq']%elem_of_cons Ha; [by apply Hdis|]. intros Ho. apply (po_taken _ _ _ _ H q' a Hq' Ha).
    apply Hown. by left.
  - constructor; [done|apply H].
  - constructor; [|apply H]. intros Hin. assert (Hself : run_bytes q 1 q) by (unfold run_bytes, PAGE_SIZE; lia).
    apply (po_taken _ _ _ _ H q q Hin Hself), Hown. by right.
  - intros a Ha. rewrite <- (po_mem _ _ _ _ H) by done. apply Hun. intros Ho. apply Ha, (po_split _ _ _ _ H). by left.
Qed.

Lemma pool_put m b ls q got : pool m b ls (q :: got) →
  ∃ m' b' ls', BuddyAllocator_put fuel (mkPblk q 1) (m, b) = Done (tt, (m', b')) ∧ pool m' b' ls' got.
Proof.
  intros H. destruct (pool_inside m b ls _ q H ltac:(by left)) as [H1 H2]. destruct Hptr as (Hp1 & Hp2 & Hp3).
  pose proof (po_pages _ _ _ _ H) as Hal. apply Forall_cons in Hal as [Hal Hals].
  pose proof (po_nodup _ _ _ _ H) as [Hnq Hnd]%NoDup_cons.
  destruct (BuddyAllocator_put_done fuel m b ls q 1 (po_rep _ _ _ _ H) (po_wf _ _ _ _ H) Hfuel)
    as (m' & b' & ls' & W & R & Hwf & _ & _ & _ & Hadd & Hun); [lia|lia|done|lia| |].
  { intros a Ha. apply (po_taken _ _ _ _ H q a); [by left|done]. }
  exists m', b', ls'. split; [done|]. split; try done.
  - intros a. rewrite (po_split _ _ _ _ H a), (Hadd a). setoid_rewrite elem_of_cons. naive_solver.
  - intros q' a Hq' Ha [Ho|Ho]%Hadd.
    + apply (po_taken _ _ _ _ H q' a); [by right|done..].
    + rewrite Forall_forall in Hals. pose proof (Hals q' Hq'). assert (q = q') as <-; [|done].
      unfold run_bytes, PAGE_SIZE in *. Z.div_mod_to_equations. lia.
  - intros a Ha. rewrite <- (po_mem _ _ _ _ H) by done. apply Hun. intros Ho. apply Ha, (po_split _ _ _ _ H).
    apply Hadd in Ho as [Ho|Ho]; [by left|right]. exists q. split; [by left|done].
Qed.

Lemma pool_all m b ls : pool m b ls [] → ∀ a, owned ls a ↔ run_bytes ptr n a.
Proof.
  intros H a. rewrite (po_split _ _ _ _ H a). split; [by left|]. intros [Ho|(q & []%elem_of_nil & _)]. done.
Qed.

Lemma pool_perm m b ls got got' : got ≡ₚ got' → pool m b ls got → pool m b ls got'.
Proof.
  intros E [H1 H2 H3 H4 H5 H6 H7]. split; try done.
  - intros a. rewrite (H3 a). by setoid_rewrite E.
  - intros q a. rewrite <- E. apply H4.
  - by rewrite <- E.
  - by rewrite <- E.
Qed.

Lemma get_pages_done k : ∀ m b ls got, pool m b ls got → Z.of_nat (length got + k) ≤ n →
  ∃ qs m' b' ls', get_pages fuel k (m, b) = Done ((λ q, mkPblk q 1) <$> qs, (m', b')) ∧
    length qs = k ∧ pool m' b' ls' (reverse qs ++ got).
Proof.
  induction k as [|k IH]; intros m b ls got H Hlen; cbn [get_pages].
  { exists [], m, b, ls. done. }
  destruct (pool_get m b ls got H ltac:(lia)) as (q & m1 & b1 & ls1 & W & Hq & H1).
  rewrite (bind_done _ _ _ _ _ W). cbn [blk_ptr]. destruct (Z.eqb_spec q nullptr); [done|].
  rewrite (bind_done _ _ _ tt (m1, b1)) by done.
  destruct (IH m1 b1 ls1 (q :: got) H1) as (qs & m2 & b2 & ls2 & W2 & Hl & H2); [simpl; lia|].
  rewrite (bind_done _ _ _ _ _ W2). exists (q :: qs), m2, b2, ls2. split; [done|]. split; [simpl; lia|].
  by rewrite reverse_cons, <- app_assoc.
Qed.

Lemma put_pages_done qs : ∀ m b ls, pool m b ls qs →
  ∃ m' b' ls', put_pages fuel ((λ q, mkPblk q 1) <$> qs) (m, b) = Done (tt, (m', b')) ∧ pool m' b' ls' [].
Proof.
  induction qs as [|q qs IH]; intros m b ls H; cbn [put_pages fmap list_fmap]; [by exists m, b, ls|].
  destruct (pool_put m b ls q qs H) as (m1 & b1 & ls1 & W & H1). rewrite (bind_done _ _ _ _ _ W). by apply (IH _ _ ls1).
Qed.

(** The second round of requests is answered as the first. *)
Lemma check_pages_done k : ∀ m1 b1 ls1 m2 b2 ls2 got pages s, Buddy_rep m1 b1 ls1 → wf ls1 →
  same_free ls1 ls2 → pool m2 b2 ls2 got → Z.of_nat (length got + k) ≤ n →
  get_pages fuel k (m1, b1) = Done (pages, s) →
  ∃ m' b' ls' got', check_pages fuel pages (m2, b2) = Done (tt, (m', b')) ∧ pool m' b' ls' got'.
Proof.
  induction k as [|k IH]; intros m1 b1 ls1 m2 b2 ls2 got pages s R1 F1 Hs H Hlen E; cbn [get_pages] in E.
  { injection E as <- _. by exists m2, b2, ls2, got. }
  destruct (pool_get m2 b2 ls2 got H ltac:(lia)) as (q & m3 & b3 & ls3 & W & Hq & H3).
  destruct (get_same fuel m1 b1 ls1 m2 b2 ls2 1 R1 F1 (po_rep _ _ _ _ H) (po_wf _ _ _ _ H) Hs Hfuel ltac:(lia))
    as (x & m1' & b1' & ls1' & m2' & b2' & ls2' & W1 & W2 & R1' & F1' & R2' & F2' & Hs').
  rewrite W in W2. injection W2 as <- <- <-. rewrite (bind_done _ _ _ _ _ W1) in E. cbn [blk_ptr] in E.
  destruct (Z.eqb_spec q nullptr); [done|]. rewrite (bind_done _ _ _ tt (m1', b1')) in E by done.
  destruct (get_pages fuel k (m1', b1')) as [[rest s']| | |] eqn:Er; unfold mbind, prog_bind in E; rewrite Er in E; try done.
  injection E as <- <-. cbn [check_pages]. rewrite (bind_done _ _ _ _ _ W).
  rewrite (bind_done _ _ _ tt (m3, b3)) by (apply assert_true; unfold pblk_eqb; cbn; by rewrite Z.eqb_refl).
  apply (IH m1' b1' ls1' m3 b3 ls3 (q :: got) rest s'); [done|done| |done|simpl; lia|done].
  rewrite Hs'. apply (same_free_rep m3 b3); [done|apply H3].
Qed.
End Pool.

Lemma buddy_start region m : BuddyAllocator_initialize fuel region (m, BuddyAllocator_default) =
  Done (tt, (m, mkBuddy 0 0 empty_lists (Some region))).
Proof.
  assert (∃ k, fuel = S k) as [k ->] by (exists (Nat.pred fuel); lia). apply BuddyAllocator_initialize_done.
Qed.

Lemma buddy_confined : confined 1023 BuddyAllocator_default (λ ptr, Buddy_body fuel (mkPblk ptr 1023)).
Proof.
  intros p m0 Hp Hal Hend. unfold Buddy_body. set (region := region_set_end _ _).
  rewrite (bind_done _ _ _ _ _ (buddy_start region m0)). set (b0 := mkBuddy _ _ _ _).
  assert (Hr : 0 < p ∧ p mod PAGE_SIZE = 0 ∧ p + PAGE_SIZE * 1023 < 2 ^ 32) by done.
  assert (H0 : ∀ a, ¬ owned (λ _, []) a) by (intros a (? & ? & _ & []%elem_of_nil & _)).
  destruct (BuddyAllocator_put_done fuel m0 b0 (λ _, []) p 1023) as (m1 & b1 & ls1 & W1 & R1 & F1 & _ & _ & _ & A1 & U1);
    [apply empty_lists_rep|apply wf_empty|done|done|done|done|lia|intros a _; apply H0|].
  rewrite (bind_done _ _ _ _ _ W1).
  assert (P1 : pool p 1023 m0 m1 b1 ls1 []).
  { split; try done; [| |constructor|].
    - intros a. rewrite (A1 a). split; [by left; right|].
      intros [[Ho|Ho]|(q & []%elem_of_nil & _)]; [by destruct (H0 a)|done].
    - by intros q a []%elem_of_nil.
    - intros a Ha. apply U1. intros Ho. apply A1 in Ho as [Ho|Ho]; [by apply (H0 a)|done]. }
  destruct (get_pages_done p 1023 m0 Hr PAGES m1 b1 ls1 [] P1) as (qs & m2 & b2 & ls2 & W2 & Hl & P2); [done|].
  rewrite (bind_done _ _ _ _ _ W2). rewrite app_nil_r in P2.
  apply (pool_perm p 1023 m0 m2 b2 ls2 _ qs) in P2; [|by rewrite reverse_Permutation].
  destruct (put_pages_done p 1023 m0 Hr qs m2 b2 ls2 P2) as (m3 & b3 & ls3 & W3 & P3).
  rewrite (bind_done _ _ _ _ _ W3).
  destruct (check_pages_done p 1023 m0 Hr PAGES m1 b1 ls1 m3 b3 ls3 [] ((λ q, mkPblk q 1) <$> qs) (m2, b2) R1 F1) as (m4 & b4 & ls4 & got & W4 & P4);
    [|exact P3|done|exact W2|].
  { intros a. by rewrite (pool_all _ _ _ _ _ _ P1 a), (pool_all _ _ _ _ _ _ P3 a). }
  exists m4, b4. split; [exact W4|]. apply P4.
Qed.

Lemma Buddy_passes : passes (Buddy_test fuel).
Proof. apply (confined_passes 1023 "memory.cpp:163" _ _ ltac:(lia) buddy_confined). exhausted_now. Qed.

(** ** The bit array test; its page may be null *)
Definition alternating (m : mem) (ba : BitArray) (k : Z) : Prop :=
  ∀ i, 0 ≤ i < k → BitArray_get ba i m = negb (i mod 2 =? 0).

Lemma set_bits_done ba n : ba_size ba = 10 → bits_fit ba 10 → ∀ idx m, 0 ≤ idx → idx + Z.of_nat n = 10 →
  alternating m ba idx → ∃ m', set_bits n idx (m, ba) = Done (tt, (m', ba)) ∧ alternating m' ba 10 ∧
    ∀ a, ¬ in_block a (ba_data ba) 2 → load8 m' a = load8 m a.
Proof.
  intros Hs Hf. induction n as [|n IH]; intros idx m H0 Hn Ha; cbn [set_bits].
  { exists m. split; [done|]. split; [|done]. by replace 10 with idx by lia. }
  rewrite modify_bind. cbn [fst snd]. set (m1 := BitArray_set _ _ _ _).
  destruct (IH (idx + 1) m1) as (m2 & W & A2 & M2); [lia|lia| |].
  { intros i Hi. unfold m1. rewrite (BitArray_get_set ba 10) by (done || lia).
    destruct (decide (i = idx)) as [->|]; [done|]. apply Ha. lia. }
  exists m2. split; [done|]. split; [done|]. intros a Hna. rewrite M2 by done.
  apply (BitArray_set_other ba 10); [done|lia|]. intros ->. apply Hna. Z.div_mod_to_equations. lia.
Qed.

Lemma check_bits_done ba m n : alternating m ba 10 → ∀ idx, 0 ≤ idx → idx + Z.of_nat n = 10 →
  check_bits n idx (m, ba) = Done (tt, (m, ba)).
Proof.
  intros Ha. induction n as [|n IH]; intros idx H0 Hn; cbn [check_bits]; [done|].
  rewrite gets_bind. cbn [fst snd]. rewrite Ha by lia. rewrite eqb_reflx. cbn [negb]. apply IH; lia.
Qed.

Lemma bit_array_body p m : 0 ≤ p → p + 2 ≤ 2 ^ 32 →
  ∃ m' ba, BitArray_body p (m, BitArray_default) = Done (tt, (m', ba)) ∧ ∀ a, ¬ in_block a p 2 → load8 m' a = load8 m a.
Proof.
  intros Hp He. assert (Hf : bits_fit (mkBitArray 10 p) 10) by (split_and!; [done|lia|done|exact He]).
  unfold BitArray_body. rewrite modify_bind. cbn [fst snd].
  pose proof (λ a, BitArray_initialize_load p 10 m a Hf) as Hl.
  set (ini := BitArray_initialize p 10 m) in *. assert (Ei : ini = (mkBitArray 10 p, ini.2)) by done. rewrite Ei.
  destruct (set_bits_done (mkBitArray 10 p) 10 eq_refl Hf 0 ini.2) as (m1 & W & A & M); [lia|done|intros i Hi; lia|].
  rewrite (bind_done _ _ _ _ _ W), (check_bits_done _ _ 10 A) by done.
  exists m1, (mkBitArray 10 p). split; [done|]. intros a Ha. rewrite M by done. rewrite Hl.
  change (BitArray_expected_size 10) with 2. by destruct (decide _).
Qed.

Lemma BitArray_passes : passes (BitArray_test fuel).
Proof.
  intros r T w al H. unfold BitArray_test.
  destruct (alloc_one r T w al fuel Hfuel w al 1 H ltac:(lia)) as (p & w1 & E & H1 & Hf).
  unfold wp. rewrite (bind_done _ _ _ _ _ E). destruct (ts_stock _ _ _ _ _ _ H1) as (ls & Hi & _).
  destruct (pa_region_ok _ _ _ _ Hi) as [(? & ? & ? & ? & ?) Hlow]. unfold zero_size_page in Hlow.
  pose proof (ts_kept _ _ _ _ _ _ H1) as Hk.
  destruct Hf as [->|[Hz Hnone]].
  - destruct (bit_array_body nullptr (pg_mem w1)) as (m & ba & Wb & Hm); [done|done|].
    rewrite (bind_done _ _ _ tt (set_pg_mem m w1)) by (unfold with_local, zoom; by rewrite Wb).
    change (undisturbed w al (set_pg_mem m w1)). exists al. split; [|split; [done|]].
    + exists ls, r. apply PA_inv_ext; [done|]. intros a Ha. apply Hm. unfold nullptr. intros Hin.
      destruct Ha as [Ha|Ha]; [destruct (pa_owned _ _ _ _ Hi a Ha); lia|].
      pose proof (pa_map _ _ _ _ Hi). unfold map_bytes in Ha. lia.
    + intros a Ha. rewrite <- Hk by done. apply Hm. unfold nullptr. intros Hin.
      destruct Ha as (q & k & Hq & Ha). destruct (pa_runs _ _ _ _ Hi q k Hq) as (_ & _ & ? & _).
      unfold run_bytes in Ha. lia.
  - assert (Hp : p ≠ nullptr) by (unfold zero_size_page, nullptr in *; lia).
    assert (Eg : grow p 1 al !! p = Some 1).
    { unfold grow. destruct (Z.eqb_spec p nullptr); [done|]. apply lookup_insert_eq. }
    destruct (pa_runs _ _ _ _ Hi p 1 Eg) as (_ & Hal & _ & Hend).
    destruct (bit_array_body p (pg_mem w1)) as (m & ba & Wb & Hm); [unfold zero_size_page in Hz; lia|unfold PAGE_SIZE in *; lia|].
    rewrite (bind_done _ _ _ tt (set_pg_mem m w1)) by (unfold with_local, zoom; by rewrite Wb).
    destruct (free_one r T w al fuel Hfuel (set_pg_mem m w1) (grow p 1 al) p) as (w2 & W2 & X2); [|done|right; by eexists|].
    + apply (write_one r T w al w1 _ p 1); [done..|]. intros a Ha. apply Hm. unfold run_bytes, PAGE_SIZE in *. lia.
    + rewrite W2. by eapply tested_undisturbed.
Qed.

(** ** The test of [kmalloc] *)
Lemma malloc_sizes_done n : ∀ chunk m, 1 ≤ chunk ≤ 2 ^ 20 - 8 → PAGE_SIZE * 3 ≤ chunk + 8 * (Z.of_nat n - 1) →
  (0 < n)%nat → memory_up fuel Hfuel m →
  wp (malloc_sizes fuel Hfuel n chunk) exhausted (λ _ m', memory_up fuel Hfuel m' ∧ highmem m' = highmem m) m.
Proof.
  induction n as [|n IH]; intros chunk m Hc Hn Hpos Hm; [lia|]. cbn [malloc_sizes].
  destruct (Z.ltb_spec chunk (PAGE_SIZE * 3)) as [Hlt|Hge]; [|by unfold wp].
  destruct (kmalloc_kfree fuel Hfuel Hslab chunk m Hm ltac:(lia)) as (p & m1 & E1 & Eh & Hk).
  apply wp_bind. eapply wp_done; [exact E1|]. apply wp_bind. apply wp_assert.
  { intros _. exhausted_now. }
  intros Hp%negb_true_iff%Z.eqb_neq. destruct (Hk Hp) as (m2 & E2 & Hm2 & Eh2).
  apply wp_bind. eapply wp_done; [exact E2|]. unfold PAGE_SIZE in *. rewrite u32_small by lia.
  rewrite <- Eh2. apply IH; [lia|lia|lia|done].
Qed.

(** Every test of the suite passes or stops for lack of memory. *)
Lemma suite_ok t m : t ∈ suite fuel Hfuel → memory_up fuel Hfuel m →
  wp t exhausted (λ _ m', memory_up fuel Hfuel m' ∧ highmem m' = highmem m) m.
Proof.
  intros Ht Hm. revert t Ht. apply Forall_forall. unfold suite. rewrite !Forall_cons, Forall_nil.
  split_and!; try (apply passes_up; [|done]); [apply BitArray_passes|apply PageAlloc_passes|apply Slab_passes|
    apply small_even_passes|apply small_odd_passes|apply high_even_passes|apply high_odd_passes|apply Buddy_passes| |done].
  apply malloc_sizes_done; [lia|unfold PAGE_SIZE; lia|lia|done].
Qed.

Lemma ost_run_done callers : ∀ m, (∀ t, t ∈ callers → t ∈ suite fuel Hfuel) → memory_up fuel Hfuel m →
  wp (ost_run callers) exhausted (λ _ m', memory_up fuel Hfuel m' ∧ highmem m' = highmem m) m.
Proof.
  induction callers as [|t callers IH]; intros m Ht Hm; cbn [ost_run]; [by unfold wp|].
  apply wp_bind. eapply wp_mono; [apply suite_ok; [apply Ht; by left|done]|].
  intros [] m1 [H1 E1]. eapply wp_mono; [apply IH; [|done]|].
  - intros t' Ht'. apply Ht. by right.
  - intros [] m2 [H2 E2]. split; [done|congruence].
Qed.
End Suite.

(** * Properties *)


(** ** Witness: the suite on a machine with one slab and no free page *)
Lemma rep_any_fuel f1 H1 f2 H2 w al a used : Mallocator_rep (PP := pages_provider f1 H1) w al a used →
  Mallocator_rep (PP := pages_provider f2 H2) w al a used.
Proof.
  intros [R1 R2 R3 R4 R5]. split; [exact R1|done|done| |done]. intros i s Hs.
  destruct (R4 i s Hs) as [[S1 S2 S3 S4] He]. split; [|done]. split; [exact S1|exact S2|exact S3|done].
Qed.

Lemma example_up : memory_up boot_fuel boot_fuel_enough
  (mkKernelMemory example_info example_region example_slab_world example_malloc).
Proof. exists {[ 1089536 := 3 ]}, (λ _, example_used). apply (rep_any_fuel _ _ _ _ _ _ _ _ example_malloc_rep). Qed.

