(* ===== verification/CString.v ===== *)
(** * C strings and [lib::string]

    [libkernelcxx/src/cstring.cpp], [include/string.hpp], [src/string.cpp] on the
    byte-addressed memory.  Loops over memory of unknown extent carry fuel. *)
From stdpp Require Import base tactics numbers list gmap strings.
From S2P Require Import Prelude MemUtils.

(** ** [cstring.cpp] *)
Fixpoint strlen_loop (fuel : nat) (m : mem) (str length : Z) : outcome Z :=
  match fuel with
  | O => Fuel
  | S n =>
      if load8 m str =? 0 then Done length
      else strlen_loop n m (u32 (str + 1)) (u32 (length + 1))
  end.

Definition strlen (fuel : nat) (m : mem) (str : Z) : outcome Z := strlen_loop fuel m str 0.

(** [do dest[pos] = src[pos]; while (src[pos++]);] *)
Fixpoint strcpy_loop (fuel : nat) (m : mem) (dest src pos : Z) : outcome mem :=
  match fuel with
  | O => Fuel
  | S n =>
      let m' := store8 m (u32 (dest + pos)) (load8 m (u32 (src + pos))) in
      if load8 m' (u32 (src + pos)) =? 0 then Done m'
      else strcpy_loop n m' dest src (u32 (pos + 1))
  end.

Definition strcpy (fuel : nat) (m : mem) (dest src : Z) : outcome mem := strcpy_loop fuel m dest src 0.

(** The two loops of [strncpy]; [k] is the number of positions left. *)
Fixpoint strncpy_copy (k : nat) (m : mem) (dest src pos : Z) : mem * Z :=
  match k with
  | O => (m, pos)
  | S k =>
      if load8 m (u32 (src + pos)) =? 0 then (m, pos)
      else strncpy_copy k (store8 m (u32 (dest + pos)) (load8 m (u32 (src + pos))))
             dest src (u32 (pos + 1))
  end.

Fixpoint strncpy_fill (k : nat) (m : mem) (dest pos : Z) : mem :=
  match k with
  | O => m
  | S k => strncpy_fill k (store8 m (u32 (dest + pos)) 0) dest (u32 (pos + 1))
  end.

Definition strncpy (m : mem) (dest src n : Z) : mem :=
  let '(m, pos) := strncpy_copy (Z.to_nat n) m dest src 0 in
  strncpy_fill (Z.to_nat (n - pos)) m dest pos.

Fixpoint memset_loop (k : nat) (m : mem) (memory byte : Z) : mem :=
  match k with
  | O => m
  | S k => memset_loop k (store8 m memory byte) (u32 (memory + 1)) byte
  end.

Definition memset (m : mem) (s c n : Z) : mem := memset_loop (Z.to_nat n) m s (u8 c).

(** ** [lib::string]

    [operator new[]] and [delete[]] belong to the C++ runtime of the kernel;
    the address they return is an argument of the operations. *)
Record lib_string : Type := mkString { str_capacity : Z; str_size : Z; str_data : Z }.

Definition string_default : lib_string := mkString 0 0 nullptr.

Definition string_of (fuel : nat) (fresh : Z) (str : Z) (m : mem) : outcome (lib_string * mem) :=
  match strlen fuel m str with
  | Done capacity =>
      let m := strncpy m fresh str capacity in
      Done (mkString capacity capacity fresh, store8 m (u32 (fresh + capacity)) 0)
  | Panic msg => Panic msg | Fault msg => Fault msg | Fuel => Fuel
  end.

(** The move constructor swaps with an empty string. *)
Definition string_move (other : lib_string) : lib_string * lib_string := (other, string_default).

(** The move assignment swaps the two objects. *)
Definition string_move_assign (this other : lib_string) : lib_string * lib_string := (other, this).

(** The temporary buffer of [operator+], [len + 1] bytes at [tmp]. *)
Definition concat_buffer (m : mem) (tmp : Z) (lhs rhs : lib_string) : mem :=
  let m := strncpy m tmp (str_data lhs) (str_size lhs) in
  let ptr := u32 (tmp + str_size lhs) in
  let m := strncpy m ptr (str_data rhs) (str_size rhs) in
  let ptr := u32 (ptr + str_size rhs) in
  store8 m (u32 (ptr + 1)) 0.

Definition string_concat (fuel : nat) (tmp fresh : Z) (lhs rhs : lib_string) (m : mem)
    : outcome (lib_string * mem) :=
  string_of fuel fresh tmp (concat_buffer m tmp lhs rhs).

(** * Verification *)

(** The characters [l] are stored at [p], without a terminator. *)
Definition chars_at (m : mem) (p : Z) (l : list Z) : Prop :=
  ∀ i, 0 ≤ i < Z.of_nat (length l) → load8 m (p + i) = nth (Z.to_nat i) l 0.

Definition is_chars (l : list Z) : Prop := Forall (λ b, 0 < b < 256) l.

Record c_string (m : mem) (p : Z) (l : list Z) : Prop := {
  cs_chars : is_chars l;
  cs_fit : 0 ≤ p ∧ p + Z.of_nat (length l) < 2 ^ 32;
  cs_at : chars_at m p l;
  cs_end : load8 m (p + Z.of_nat (length l)) = 0
}.

Lemma is_chars_nth l i : is_chars l → 0 ≤ i < Z.of_nat (length l) → 0 < nth (Z.to_nat i) l 0 < 256.
Proof.
  intros H Hi. unfold is_chars in H. rewrite Forall_forall in H. apply H.
  apply list_elem_of_In, nth_In. lia.
Qed.

Lemma strlen_loop_done m p l : c_string m p l → ∀ fuel i,
  0 ≤ i ≤ Z.of_nat (length l) → Z.of_nat (length l) - i < Z.of_nat fuel →
  strlen_loop fuel m (p + i) i = Done (Z.of_nat (length l)).
Proof.
  intros H. pose proof (cs_fit _ _ _ H) as Hf. induction fuel as [|fuel IH]; intros i Hi Hfu; [lia|].
  cbn [strlen_loop]. destruct (decide (i = Z.of_nat (length l))) as [->|Hne].
  - by rewrite (cs_end _ _ _ H).
  - rewrite (cs_at _ _ _ H) by lia. pose proof (is_chars_nth l i (cs_chars _ _ _ H) ltac:(lia)).
    destruct (Z.eqb_spec (nth (Z.to_nat i) l 0) 0); [lia|].
    rewrite !u32_small by lia. rewrite <- Z.add_assoc. apply IH; lia.
Qed.

Lemma strlen_done m p l fuel : c_string m p l → (length l < fuel)%nat →
  strlen fuel m p = Done (Z.of_nat (length l)).
Proof.
  intros H Hf. unfold strlen. rewrite <- (Z.add_0_r p). by apply (strlen_loop_done m p l); [|lia|lia].
Qed.

(** What copying one byte after another leaves behind: [f i] at position [i]. *)
Definition filled (m m' : mem) (dest : Z) (n : Z) (f : Z → Z) : Prop :=
  (∀ i, 0 ≤ i < n → load8 m' (dest + i) = f i) ∧
  (∀ a, ¬ in_block a dest n → load8 m' a = load8 m a).

Lemma strncpy_fill_done dest : 0 ≤ dest → ∀ k m pos, 0 ≤ pos → dest + pos + Z.of_nat k ≤ 2 ^ 32 →
  ∀ a, load8 (strncpy_fill k m dest pos) a
       = if decide (in_block a (dest + pos) (Z.of_nat k)) then 0 else load8 m a.
Proof.
  intros Hd. induction k as [|k IH]; intros m pos Hp Hb a; cbn [strncpy_fill].
  - destruct (decide _); [lia|done].
  - rewrite (u32_small (dest + pos)) by lia. destruct (decide (k = 0%nat)) as [->|Hk].
    + cbn [strncpy_fill]. destruct (decide (a = dest + pos)) as [->|].
      * rewrite load8_store8_eq. destruct (decide _); [done|lia].
      * rewrite load8_store8_ne by lia. destruct (decide _); [lia|done].
    + rewrite (u32_small (pos + 1)), IH by lia. destruct (decide (a = dest + pos)) as [->|].
      * rewrite load8_store8_eq. repeat destruct (decide _); (lia || done).
      * rewrite load8_store8_ne by lia. repeat destruct (decide _); (lia || done).
Qed.

(** Copying the characters of a string that does not overlap the target. *)
Lemma strncpy_copy_done m0 dest src l n :
  is_chars l → 0 ≤ src ∧ src + Z.of_nat (length l) < 2 ^ 32 → 0 ≤ dest → dest + n ≤ 2 ^ 32 →
  chars_at m0 src l → (n ≤ Z.of_nat (length l) ∨ load8 m0 (src + Z.of_nat (length l)) = 0) →
  (dest + n ≤ src ∨ src + Z.of_nat (length l) < dest) →
  ∀ k m pos, 0 ≤ pos ≤ Z.of_nat (length l) → pos + Z.of_nat k = n →
  filled m0 m dest pos (λ i, nth (Z.to_nat i) l 0) →
  let '(m', pos') := strncpy_copy k m dest src pos in
  pos' = Z.min n (Z.of_nat (length l)) ∧ filled m0 m' dest pos' (λ i, nth (Z.to_nat i) l 0).
Proof.
  intros Hl Hs Hd Hdn Hat Hend Hov. induction k as [|k IH]; intros m pos Hp Hn [Hf1 Hf2];
    cbn [strncpy_copy]; [split; [lia|done]|].
  assert (Hsrc : load8 m (src + pos) = load8 m0 (src + pos)) by (apply Hf2; lia).
  rewrite (u32_small (src + pos)), Hsrc by lia.
  destruct (decide (pos = Z.of_nat (length l))) as [->|Hne].
  { destruct Hend as [|Hend]; [lia|]. rewrite Hend. cbn. split; [lia|by split]. }
  rewrite Hat by lia. pose proof (is_chars_nth l pos Hl ltac:(lia)) as Hc.
  destruct (Z.eqb_spec (nth (Z.to_nat pos) l 0) 0); [lia|].
  rewrite !u32_small by lia. apply IH; [lia|lia|]. split.
  - intros i Hi. destruct (decide (i = pos)) as [->|].
    + rewrite load8_store8_eq. apply u8_small. lia.
    + rewrite load8_store8_ne by lia. apply Hf1. lia.
  - intros a Ha. rewrite load8_store8_ne by lia. apply Hf2. lia.
Qed.

Lemma strncpy_done m dest src l n :
  is_chars l → 0 ≤ src ∧ src + Z.of_nat (length l) < 2 ^ 32 → 0 ≤ dest → 0 ≤ n → dest + n ≤ 2 ^ 32 →
  n < 2 ^ 32 → chars_at m src l → (n ≤ Z.of_nat (length l) ∨ load8 m (src + Z.of_nat (length l)) = 0) →
  (dest + n ≤ src ∨ src + Z.of_nat (length l) < dest) →
  filled m (strncpy m dest src n) dest n (λ i, nth (Z.to_nat i) l 0).
Proof.
  intros Hl Hs Hd Hn Hdn Hn2 Hat Hend Hov. unfold strncpy.
  pose proof (strncpy_copy_done m dest src l n Hl Hs Hd Hdn Hat Hend Hov (Z.to_nat n) m 0) as H.
  destruct (strncpy_copy (Z.to_nat n) m dest src 0) as [m' pos'].
  destruct H as [-> [H1 H2]]; [lia|lia|split; [lia|done]|].
  set (c := Z.min n (Z.of_nat (length l))) in *.
  split; intros a Ha; rewrite strncpy_fill_done by lia; rewrite Z2Nat.id by lia.
  - destruct (decide _) as [Hin|Hin]; [|apply H1; lia]. rewrite nth_overflow; [done|lia].
  - destruct (decide _); [lia|]. apply H2. lia.
Qed.

(** Both loops stay inside the destination, whatever the source holds. *)
Lemma strncpy_copy_outside dest src n : 0 ≤ dest → dest + n < 2 ^ 32 → ∀ k m pos m' pos',
  0 ≤ pos → pos + Z.of_nat k ≤ n → strncpy_copy k m dest src pos = (m', pos') →
  pos ≤ pos' ≤ n ∧ ∀ a, ¬ in_block a dest n → load8 m' a = load8 m a.
Proof.
  intros Hd Hn. induction k as [|k IH]; intros m pos m' pos' Hp Hk E; simpl in E.
  { injection E as <- <-. split; [lia|done]. }
  destruct (_ =? 0).
  { injection E as <- <-. split; [lia|done]. }
  rewrite (u32_small (pos + 1)), (u32_small (dest + pos)) in E by lia.
  apply IH in E as [H1 H2]; [|lia..]. split; [lia|]. intros a Ha. rewrite H2 by done.
  apply load8_store8_ne. lia.
Qed.

Lemma strncpy_fill_outside dest n : 0 ≤ dest → dest + n < 2 ^ 32 → ∀ k m pos,
  0 ≤ pos → pos + Z.of_nat k ≤ n → ∀ a, ¬ in_block a dest n →
  load8 (strncpy_fill k m dest pos) a = load8 m a.
Proof.
  intros Hd Hn. induction k as [|k IH]; intros m pos Hp Hk a Ha; simpl; [done|].
  destruct k as [|k].
  - simpl. rewrite u32_small by lia. apply load8_store8_ne. lia.
  - rewrite IH; [|zify_wraps..|done]. rewrite u32_small by lia. apply load8_store8_ne. lia.
Qed.

Lemma strncpy_outside m dest src n a : 0 ≤ dest → 0 ≤ n → dest + n < 2 ^ 32 →
  ¬ in_block a dest n → load8 (strncpy m dest src n) a = load8 m a.
Proof.
  intros Hd Hn Hle Ha. unfold strncpy. destruct (strncpy_copy _ _ _ _ _) as [m1 pos] eqn:E.
  apply (strncpy_copy_outside dest src n) in E as [Hp H1]; [|lia..].
  rewrite (strncpy_fill_outside dest n) by (done || lia). by apply H1.
Qed.

Lemma memset_loop_load byte : ∀ k m s, 0 ≤ s → s + Z.of_nat k ≤ 2 ^ 32 → ∀ a,
  load8 (memset_loop k m s byte) a = if decide (in_block a s (Z.of_nat k)) then u8 byte else load8 m a.
Proof.
  induction k as [|k IH]; intros m s Hs Hb a; cbn [memset_loop].
  - destruct (decide _); [lia|done].
  - destruct (decide (k = 0%nat)) as [->|Hk].
    + cbn [memset_loop]. destruct (decide (a = s)) as [->|].
      * rewrite load8_store8_eq. destruct (decide _); [done|lia].
      * rewrite load8_store8_ne by lia. destruct (decide _); [lia|done].
    + rewrite (u32_small (s + 1)), IH by lia. destruct (decide (a = s)) as [->|].
      * rewrite load8_store8_eq. repeat destruct (decide _); (lia || done).
      * rewrite load8_store8_ne by lia. repeat destruct (decide _); (lia || done).
Qed.

Lemma strcpy_loop_done m0 dest src l : c_string m0 src l → 0 ≤ dest →
  dest + Z.of_nat (length l) < 2 ^ 32 →
  (dest + Z.of_nat (length l) < src ∨ src + Z.of_nat (length l) < dest) →
  ∀ fuel m pos, 0 ≤ pos ≤ Z.of_nat (length l) → Z.of_nat (length l) - pos < Z.of_nat fuel →
  filled m0 m dest pos (λ i, nth (Z.to_nat i) l 0) →
  ∃ m', strcpy_loop fuel m dest src pos = Done m' ∧
    filled m0 m' dest (Z.of_nat (length l) + 1) (λ i, nth (Z.to_nat i) l 0).
Proof.
  intros H Hd Hdn Hov. pose proof (cs_fit _ _ _ H) as Hs.
  induction fuel as [|fuel IH]; intros m pos Hp Hf [H1 H2]; [lia|]. cbn [strcpy_loop].
  rewrite !(u32_small (_ + pos)) by lia.
  assert (Hsrc : load8 m (src + pos) = nth (Z.to_nat pos) l 0).
  { rewrite H2 by lia. destruct (decide (pos = Z.of_nat (length l))) as [->|].
    - rewrite (cs_end _ _ _ H), nth_overflow; [done|lia].
    - apply (cs_at _ _ _ H). lia. }
  set (m1 := store8 m (dest + pos) (load8 m (src + pos))).
  assert (Hm1 : filled m0 m1 dest (pos + 1) (λ i, nth (Z.to_nat i) l 0)).
  { split.
    - intros i Hi. unfold m1. destruct (decide (i = pos)) as [->|].
      + rewrite load8_store8_eq, Hsrc. apply u8_small.
        destruct (decide (pos = Z.of_nat (length l))) as [->|].
        * rewrite nth_overflow by lia. lia.
        * pose proof (is_chars_nth l pos (cs_chars _ _ _ H) ltac:(lia)). lia.
      + rewrite load8_store8_ne by lia. apply H1. lia.
    - intros a Ha. unfold m1. rewrite load8_store8_ne by lia. apply H2. lia. }
  assert (Hs1 : load8 m1 (src + pos) = nth (Z.to_nat pos) l 0).
  { unfold m1. rewrite load8_store8_ne by lia. done. }
  rewrite Hs1. destruct (decide (pos = Z.of_nat (length l))) as [->|Hne].
  - rewrite nth_overflow by lia. by exists m1.
  - pose proof (is_chars_nth l pos (cs_chars _ _ _ H) ltac:(lia)).
    destruct (Z.eqb_spec (nth (Z.to_nat pos) l 0) 0); [lia|].
    rewrite u32_small by lia. apply IH; [lia|lia|done].
Qed.

(** A filled region that ends in a zero is a string. *)
Lemma filled_c_string m m' dest n l : filled m m' dest n (λ i, nth (Z.to_nat i) l 0) →
  is_chars l → Z.of_nat (length l) < n → 0 ≤ dest → dest + Z.of_nat (length l) < 2 ^ 32 →
  c_string m' dest l.
Proof.
  intros [H1 _] Hl Hn Hd Hf. split; try done.
  - intros i Hi. apply H1. lia.
  - rewrite H1 by lia. rewrite nth_overflow; [done|lia].
Qed.

Lemma chars_at_filled m m' dest n l : filled m m' dest n (λ i, nth (Z.to_nat i) l 0) →
  Z.of_nat (length l) ≤ n → chars_at m' dest l.
Proof. intros [H _] Hn i Hi. apply H. lia. Qed.

(** The buffer after both halves are copied, before the final zero. *)
Lemma concat_buffer_done m tmp lhs rhs l1 l2 :
  let n1 := Z.of_nat (length l1) in let n2 := Z.of_nat (length l2) in
  c_string m (str_data lhs) l1 → str_size lhs = n1 → c_string m (str_data rhs) l2 → str_size rhs = n2 →
  0 ≤ tmp → tmp + n1 + n2 + 2 ≤ 2 ^ 32 →
  (tmp + n1 + n2 < str_data lhs ∨ str_data lhs + n1 < tmp) →
  (tmp + n1 + n2 < str_data rhs ∨ str_data rhs + n2 < tmp) →
  let m' := concat_buffer m tmp lhs rhs in
  chars_at m' tmp (l1 ++ l2) ∧ load8 m' (tmp + n1 + n2) = load8 m (tmp + n1 + n2) ∧
  load8 m' (tmp + n1 + n2 + 1) = 0 ∧
  (∀ a, ¬ in_block a tmp (n1 + n2 + 2) → load8 m' a = load8 m a).
Proof.
  intros n1 n2 H1 E1 H2 E2 Ht Hend Ho1 Ho2. unfold concat_buffer. rewrite E1, E2.
  pose proof (cs_fit _ _ _ H1). pose proof (cs_fit _ _ _ H2).
  assert (Hf1 : filled m (strncpy m tmp (str_data lhs) n1) tmp n1 (λ i, nth (Z.to_nat i) l1 0)).
  { apply strncpy_done; try apply H1; lia. }
  set (m1 := strncpy m tmp (str_data lhs) n1) in *. rewrite (u32_small (tmp + n1)) by lia.
  assert (Hf2 : filled m1 (strncpy m1 (tmp + n1) (str_data rhs) n2) (tmp + n1) n2
                  (λ i, nth (Z.to_nat i) l2 0)).
  { apply strncpy_done; try apply H2; try lia.
    intros i Hi. rewrite (proj2 Hf1) by lia. by apply (cs_at _ _ _ H2). }
  set (m2 := strncpy m1 _ _ _) in *. rewrite (u32_small (tmp + n1 + n2)), u32_small by lia.
  split_and!.
  - intros i Hi. rewrite length_app in Hi. rewrite load8_store8_ne by lia.
    destruct (decide (i < n1)).
    + rewrite (proj2 Hf2) by lia. rewrite (proj1 Hf1) by lia. rewrite app_nth1; [done|lia].
    + replace (tmp + i) with (tmp + n1 + (i - n1)) by lia. rewrite (proj1 Hf2) by lia.
      rewrite app_nth2 by lia. f_equal. lia.
  - rewrite load8_store8_ne by lia. rewrite (proj2 Hf2) by lia. apply (proj2 Hf1). lia.
  - by rewrite load8_store8_eq.
  - intros a Ha. rewrite load8_store8_ne by lia. rewrite (proj2 Hf2) by lia. apply (proj2 Hf1). lia.
Qed.

(** * Properties *)

(** [strcpy] copies a string with its terminator and nothing else: for
    buffers that do not overlap it terminates, the target reads as the same
    string, [strlen] of it is the length, and no other byte changes. *)
Theorem strcpy_correct fuel m dest src l
    (Hsrc : c_string m src l) (Hdest : 0 ≤ dest ∧ dest + Z.of_nat (length l) < 2 ^ 32)
    (Hapart : dest + Z.of_nat (length l) < src ∨ src + Z.of_nat (length l) < dest)
    (Hfuel : (length l < fuel)%nat) :
  ∃ m', strcpy fuel m dest src = Done m' ∧ c_string m' dest l ∧ c_string m' src l ∧
    strlen fuel m' dest = Done (Z.of_nat (length l)) ∧
    (∀ a, ¬ in_block a dest (Z.of_nat (length l) + 1) → load8 m' a = load8 m a).
Proof.
  destruct (strcpy_loop_done m dest src l Hsrc (proj1 Hdest) (proj2 Hdest) Hapart fuel m 0)
    as (m' & E & Hf); [lia|lia|split; [lia|done]|].
  assert (Hd : c_string m' dest l).
  { eapply filled_c_string; [done|apply Hsrc|lia..]. }
  exists m'. split_and!; [done|done| |by apply strlen_done|apply Hf].
  pose proof (cs_fit _ _ _ Hsrc). split; try apply Hsrc.
  - intros i Hi. rewrite (proj2 Hf) by lia. by apply (cs_at _ _ _ Hsrc).
  - rewrite (proj2 Hf) by lia. apply Hsrc.
Qed.

(** [operator+] of strings does not terminate its buffer: of the
    [len + 1] bytes it allocates, the last keeps whatever it held, and the zero
    is written one byte behind the buffer.  The result is the concatenation only
    when the allocator happened to return memory with a zero there. *)
Theorem string_concat_overflow fuel m tmp fresh lhs rhs l1 l2
    (H1 : c_string m (str_data lhs) l1 ∧ str_size lhs = Z.of_nat (length l1))
    (H2 : c_string m (str_data rhs) l2 ∧ str_size rhs = Z.of_nat (length l2))
    (Htmp : 0 ≤ tmp ∧ tmp + Z.of_nat (length l1) + Z.of_nat (length l2) + 2 ≤ 2 ^ 32)
    (Hapart : ∀ s l, (s = lhs ∧ l = l1) ∨ (s = rhs ∧ l = l2) →
       tmp + Z.of_nat (length l1) + Z.of_nat (length l2) < str_data s ∨
       str_data s + Z.of_nat (length l) < tmp)
    (Hfuel : (length l1 + length l2 < fuel)%nat) :
  let last := tmp + Z.of_nat (length l1) + Z.of_nat (length l2) in
  let m' := concat_buffer m tmp lhs rhs in
  load8 m' last = load8 m last ∧ load8 m' (last + 1) = 0 ∧
  (load8 m last = 0 → ∃ m'', string_concat fuel tmp fresh lhs rhs m
     = Done (mkString (Z.of_nat (length (l1 ++ l2))) (Z.of_nat (length (l1 ++ l2))) fresh, m'')).
Proof.
  destruct H1 as [H1 E1], H2 as [H2 E2], Htmp as [Ht He]. cbv zeta.
  destruct (concat_buffer_done m tmp lhs rhs l1 l2 H1 E1 H2 E2 Ht He) as (Hc & Hlast & Hzero & _);
    [apply (Hapart lhs l1); by left|apply (Hapart rhs l2); by right|].
  split_and!; [done|done|]. intros Hz. unfold string_concat, string_of.
  rewrite (strlen_done _ _ (l1 ++ l2)).
  - eexists. reflexivity.
  - split.
    + apply Forall_app. split; [apply H1|apply H2].
    + rewrite length_app. lia.
    + done.
    + rewrite length_app, Nat2Z.inj_add, Z.add_assoc. by rewrite Hlast.
  - rewrite length_app. lia.
Qed.

(** ** Witnesses *)
Definition example_text : mem := store32 (store32 ∅ 4096 6513249) 4112 26213. (* "abc" and "ef" *)

Lemma example_abc : c_string example_text 4096 [97; 98; 99].
Proof.
  split; [by repeat constructor|by split| |reflexivity].
  intros i Hi. simpl in Hi. assert (i = 0 ∨ i = 1 ∨ i = 2) as [->|[->| ->]] by lia; reflexivity.
Qed.

Lemma example_ef : c_string example_text 4112 [101; 102].
Proof.
  split; [by repeat constructor|by split| |reflexivity].
  intros i Hi. simpl in Hi. assert (i = 0 ∨ i = 1) as [->| ->] by lia; reflexivity.
Qed.

Lemma strcpy_correct_witness :
  ∃ m', strcpy 5 example_text 8192 4096 = Done m' ∧ c_string m' 8192 [97; 98; 99] ∧
    c_string m' 4096 [97; 98; 99] ∧ strlen 5 m' 8192 = Done 3 ∧
    (∀ a, ¬ in_block a 8192 4 → load8 m' a = load8 example_text a).
Proof.
  apply (strcpy_correct 5 example_text 8192 4096 [97; 98; 99]);
    [apply example_abc|by split|right; simpl; lia|simpl; lia].
Defined.

Lemma string_concat_overflow_witness :
  let lhs := mkString 3 3 4096 in let rhs := mkString 2 2 4112 in
  let m' := concat_buffer example_text 8192 lhs rhs in
  load8 m' 8197 = load8 example_text 8197 ∧ load8 m' 8198 = 0 ∧
  (load8 example_text 8197 = 0 → ∃ m'', string_concat 9 8192 12288 lhs rhs example_text
     = Done (mkString 5 5 12288, m'')).
Proof.
  apply (string_concat_overflow 9 example_text 8192 12288 (mkString 3 3 4096) (mkString 2 2 4112)
    [97; 98; 99] [101; 102]);
    [split; [apply example_abc|done]|split; [apply example_ef|done]|by split| |simpl; lia].
  intros s l [[-> ->]|[-> ->]]; right; simpl; lia.
Defined.
