(* ===== verification/ForwardList.v ===== *)
(** * The singly linked list

    [libkernelcxx/include/forward_list.hpp] and
    [include/impl/basic_forward_list.hpp].  Nodes live in a store of their own,
    indexed by address; [before_begin_] is a member of the list object.  The
    allocator of the nodes belongs to the C++ runtime of the kernel: the address
    it returns is an argument, null when it fails. *)
From stdpp Require Import base tactics numbers list gmap strings.
From S2P Require Import Prelude.

Section ForwardList.
Context {T : Type} `{EqDecision T}.

Record fwd_list_node : Type := mkNode { next : Z; value_ : T }.

Record forward_list : Type := mkForwardList {
  before_begin_next : Z;
  nodes : gmap Z fwd_list_node
}.

Definition forward_list_empty : forward_list := mkForwardList nullptr ∅.

Abbreviation list_prog := (prog forward_list).

(** An iterator points to [before_begin_], to a node, or to null, the end. *)
Inductive iterator : Type := BeforeBegin | Node (p : Z).

Definition end_iterator : iterator := Node nullptr.
Definition before_begin : iterator := BeforeBegin.

Definition node_at (p : Z) : list_prog fwd_list_node := λ s,
  match nodes s !! p with
  | Some n => Done (n, s)
  | None => Fault "access to a node that does not exist"
  end.

Definition next_of (it : iterator) : list_prog Z :=
  match it with
  | BeforeBegin => gets before_begin_next
  | Node p => n ← node_at p; mret (next n)
  end.

Definition set_next_of (it : iterator) (q : Z) : list_prog unit :=
  match it with
  | BeforeBegin => modify (λ s, mkForwardList q (nodes s))
  | Node p =>
      n ← node_at p;
      modify (λ s, mkForwardList (before_begin_next s) (<[p := mkNode q (value_ n)]> (nodes s)))
  end.

(** The operators of the iterators, on a node or the end. *)
Definition it_value (p : Z) : list_prog T := n ← node_at p; mret (value_ n).

Definition it_next (it : iterator) : list_prog iterator := q ← next_of it; mret (Node q).

(** [it++]: the old iterator and the new one. *)
Definition it_post_next (it : iterator) : list_prog (iterator * iterator) :=
  it' ← it_next it; mret (it, it').

#[export] Instance iterator_eq_dec : EqDecision iterator.
Proof. solve_decision. Defined.

Definition it_eqb (it1 it2 : iterator) : bool := bool_decide (it1 = it2).

(** [const_iterator] points to the same places; a default-constructed one is the end, and an
    iterator converts to it. *)
Definition const_iterator : Type := iterator.
Definition const_iterator_default : const_iterator := end_iterator.
Definition const_iterator_of (other : iterator) : const_iterator := other.

Definition cit_value (it : const_iterator) : list_prog T :=
  match it with
  | BeforeBegin => fault "the list object holds no value"
  | Node p => n ← node_at p; mret (value_ n)
  end.
Definition cit_next (it : const_iterator) : list_prog const_iterator := q ← next_of it; mret (Node q).
Definition cit_post_next (it : const_iterator) : list_prog (const_iterator * const_iterator) :=
  it' ← cit_next it; mret (it, it').
Definition cit_eqb (it1 it2 : const_iterator) : bool := bool_decide (it1 = it2).

(** [lib::advance] and [lib::next] *)
Fixpoint advance (n : nat) (it : iterator) : list_prog iterator :=
  match n with
  | O => mret it
  | S n => it ← it_next it; advance n it
  end.

Definition list_next (n : nat) (it : iterator) : list_prog iterator := advance n it.

(** [basic_forward_list] *)
Definition basic_push_after (after : iterator) (node : Z) : list_prog Z :=
  q ← next_of after; set_next_of (Node node) q ;; set_next_of after node ;; mret node.

Definition basic_erase_after (after : iterator) : list_prog Z :=
  erased ← next_of after; q ← next_of (Node erased); set_next_of after q ;; mret erased.

Definition list_begin : list_prog Z := next_of BeforeBegin.

(** [forward_list] *)
Definition list_is_empty : list_prog bool := b ← list_begin; mret (b =? nullptr).

Definition front : list_prog T := b ← list_begin; n ← node_at b; mret (value_ n).

Definition deallocate_node (p : Z) : list_prog unit :=
  modify (λ s, mkForwardList (before_begin_next s) (delete p (nodes s))).

Definition erase_after (position : const_iterator) : list_prog unit :=
  erased ← basic_erase_after position; deallocate_node erased.

Definition pop_front : list_prog unit := erase_after (const_iterator_of before_begin).

(** [fresh] is what [alloc_.allocate(1)] returned. *)
Definition push_after (fresh : Z) (position : const_iterator) (v : T) : list_prog iterator :=
  if fresh =? nullptr then mret end_iterator
  else
    modify (λ s, mkForwardList (before_begin_next s) (<[fresh := mkNode nullptr v]> (nodes s))) ;;
    p ← basic_push_after position fresh; mret (Node p).

Definition push_front (fresh : Z) (v : T) : list_prog iterator := push_after fresh before_begin v.

(** The destructor. *)
Fixpoint forward_list_destroy (fuel : nat) : list_prog unit :=
  match fuel with
  | O => no_fuel
  | S n =>
      e ← list_is_empty;
      if (e : bool) then mret tt else pop_front ;; forward_list_destroy n
  end.

Fixpoint clear (fuel : nat) : list_prog unit :=
  match fuel with
  | O => no_fuel
  | S n =>
      e ← list_is_empty;
      if (e : bool) then mret tt else erase_after before_begin ;; clear n
  end.

(** [remove(value)]; [next(it)] is one step of the iterator. *)
Fixpoint remove_loop (fuel : nat) (value : T) (it : iterator) (removed : Z) : list_prog Z :=
  match fuel with
  | O => no_fuel
  | S n =>
      next_it ← next_of it;
      if next_it =? nullptr then mret removed
      else
        node ← node_at next_it;
        if decide (value_ node = value) then
          erase_after it ;; remove_loop n value it (u32 (removed + 1))
        else remove_loop n value (Node next_it) removed
  end.

Definition remove (fuel : nat) (value : T) : list_prog Z := remove_loop fuel value before_begin 0.

(** * Verification *)

(** The nodes [ps] hold the values [vs], linked from [p] to [r]. *)
Fixpoint seg (m : gmap Z fwd_list_node) (p : Z) (ps : list Z) (vs : list T) (r : Z) : Prop :=
  match ps, vs with
  | [], [] => p = r
  | q :: ps, v :: vs => p = q ∧ q ≠ nullptr ∧ ∃ n, m !! q = Some n ∧ value_ n = v ∧ seg m (next n) ps vs r
  | _, _ => False
  end.

(** The list object holds [vs] in the nodes [ps], and every node is in use. *)
Record list_at (s : forward_list) (ps : list Z) (vs : list T) : Prop := {
  at_seg : seg (nodes s) (before_begin_next s) ps vs nullptr;
  at_nodup : NoDup ps;
  at_dom : ∀ p, p ∈ dom (nodes s) ↔ p ∈ ps
}.

Definition forward_list_rep (s : forward_list) (vs : list T) : Prop := ∃ ps, list_at s ps vs.

(** The iterator that points to the last of the nodes [ps]. *)
Definition it_of (ps : list Z) : iterator :=
  match last ps with None => BeforeBegin | Some p => Node p end.

Lemma seg_ext m m' p ps vs r : (∀ q, q ∈ ps → m' !! q = m !! q) → seg m p ps vs r → seg m' p ps vs r.
Proof.
  revert p vs. induction ps as [|q ps IH]; intros p [|v vs] Hm H; try done.
  destruct H as (-> & Hq & n & Hn & Hv & H). simpl. split_and!; [done..|].
  exists n. rewrite Hm by (by left). split_and!; [done..|]. apply IH; [|done].
  intros q' Hr. apply Hm. by right.
Qed.

Lemma seg_length m p ps vs r : seg m p ps vs r → length ps = length vs.
Proof.
  revert p vs. induction ps as [|q ps IH]; intros p [|v vs] H; try done.
  destruct H as (_ & _ & n & _ & _ & H). simpl. f_equal. by eapply IH.
Qed.

Lemma seg_app m p ps1 ps2 vs1 vs2 r : length ps1 = length vs1 →
  seg m p (ps1 ++ ps2) (vs1 ++ vs2) r ↔ ∃ q, seg m p ps1 vs1 q ∧ seg m q ps2 vs2 r.
Proof.
  revert p vs1. induction ps1 as [|x ps1 IH]; intros p [|v vs1] Hl; try done; simpl.
  - split; [by exists p|]. by intros (q & -> & H).
  - injection Hl as Hl. split.
    + intros (-> & Hx & n & Hn & Hv & (q & H1 & H2)%IH); [|done]. exists q. split; [|done].
      split_and!; [done..|]. by exists n.
    + intros (q & (-> & Hx & n & Hn & Hv & H1) & H2). split_and!; [done..|].
      exists n. split_and!; [done..|]. apply IH; [done|]. by exists q.
Qed.

Lemma next_of_done s ps vs r : seg (nodes s) (before_begin_next s) ps vs r →
  next_of (it_of ps) s = Done (r, s).
Proof.
  intros H. pose proof (seg_length _ _ _ _ _ H) as Hl. unfold it_of.
  destruct ps as [|p ps _] using rev_ind; [|rewrite last_snoc].
  - destruct vs; [|done]. simpl in *. by rewrite <- H.
  - destruct vs as [|v vs _] using rev_ind; [rewrite length_app in Hl; simpl in Hl; lia|].
    rewrite !length_app in Hl. simpl in Hl.
    apply seg_app in H as (q & _ & (-> & _ & n & Hn & _ & Hr)); [|lia]. simpl in Hr. subst r.
    unfold next_of, node_at, mbind, prog_bind. by rewrite Hn.
Qed.

Lemma fwd_set_next_done s ps vs r r' : seg (nodes s) (before_begin_next s) ps vs r → NoDup ps →
  ∃ s', set_next_of (it_of ps) r' s = Done (tt, s') ∧
    seg (nodes s') (before_begin_next s') ps vs r' ∧
    (∀ q, q ∉ ps → nodes s' !! q = nodes s !! q) ∧ dom (nodes s') = dom (nodes s).
Proof.
  intros H Hnd. pose proof (seg_length _ _ _ _ _ H) as Hl. unfold it_of.
  destruct ps as [|p ps _] using rev_ind; [|rewrite last_snoc].
  - destruct vs; [|done]. eexists. split; [reflexivity|]. by split_and!.
  - destruct vs as [|v vs _] using rev_ind; [rewrite length_app in Hl; simpl in Hl; lia|].
    rewrite !length_app in Hl. simpl in Hl. apply NoDup_app in Hnd as (_ & Hd & _).
    apply seg_app in H as (q & H & (-> & Hq & n & Hn & Hv & _)); [|lia].
    eexists. unfold set_next_of, node_at, mbind, prog_bind. rewrite Hn. split; [reflexivity|].
    cbn [nodes before_begin_next]. split_and!.
    + apply seg_app; [lia|]. exists p. split.
      * apply (seg_ext (nodes s)); [|done]. intros x Hx. rewrite lookup_insert_ne; [done|].
        intros ->. apply (Hd x Hx). by left.
      * simpl. split_and!; [done..|]. eexists. by rewrite lookup_insert_eq.
    + intros x Hx. rewrite lookup_insert_ne; [done|]. intros ->. apply Hx, elem_of_app. right. by left.
    + rewrite dom_insert_L. apply elem_of_dom_2 in Hn. set_solver.
Qed.

(** Erasing and inserting behind the nodes [ps0]. *)
Lemma erase_after_done s ps0 q ps vs0 v vs : length ps0 = length vs0 →
  list_at s (ps0 ++ q :: ps) (vs0 ++ v :: vs) →
  ∃ s', erase_after (it_of ps0) s = Done (tt, s') ∧ list_at s' (ps0 ++ ps) (vs0 ++ vs).
Proof.
  intros Hl [H Hnd Hdom]. apply seg_app in H as (x & H0 & (-> & Hq & n & Hn & Hv & H1)); [|done].
  rewrite NoDup_app, NoDup_cons in Hnd. destruct Hnd as (Hnd0 & Hd & Hqps & Hnd1).
  destruct (fwd_set_next_done s ps0 vs0 q (next n) H0 Hnd0) as (s1 & E1 & Hs1 & Hrest & Hdom1).
  assert (Hq0 : q ∉ ps0) by (intros Hx; apply (Hd q Hx); by left).
  exists (mkForwardList (before_begin_next s1) (delete q (nodes s1))). split.
  { unfold erase_after, basic_erase_after. rewrite bind_bind.
    rewrite (bind_done _ _ _ _ _ (next_of_done _ _ _ _ H0)), bind_bind.
    rewrite (bind_done _ _ _ (next n) s)
      by (unfold next_of, node_at, mbind, prog_bind; by rewrite Hn).
    by rewrite bind_bind, (bind_done _ _ _ _ _ E1). }
  split; cbn [nodes before_begin_next].
  - apply seg_app; [done|]. exists (next n). split.
    + apply (seg_ext (nodes s1)); [|done]. intros x Hx. rewrite lookup_delete_ne; [done|congruence].
    + apply (seg_ext (nodes s)); [|done]. intros x Hx. rewrite lookup_delete_ne by congruence.
      apply Hrest. intros Hx'. apply (Hd x Hx'). by right.
  - apply NoDup_app. split_and!; [done| |done]. intros x Hx Hx'. apply (Hd x Hx). by right.
  - intros x. rewrite dom_delete_L, elem_of_difference, elem_of_singleton, Hdom1, Hdom, !elem_of_app,
      elem_of_cons. split; [intuition congruence|]. intros Hx. split; [tauto|].
    intros ->. destruct Hx; [by apply Hq0|by apply Hqps].
Qed.

Lemma push_after_done s ps0 ps vs0 vs fresh v : length ps0 = length vs0 →
  list_at s (ps0 ++ ps) (vs0 ++ vs) → fresh ≠ nullptr → fresh ∉ dom (nodes s) →
  ∃ s', push_after fresh (it_of ps0) v s = Done (Node fresh, s') ∧
    list_at s' (ps0 ++ fresh :: ps) (vs0 ++ v :: vs).
Proof.
  intros Hl [H Hnd Hdom] Hf Hfr. pose proof Hnd as (Hnd0 & Hd & Hnd1)%NoDup_app.
  assert (Hnew : fresh ∉ ps0 ++ ps) by (by rewrite <- Hdom).
  rewrite not_elem_of_app in Hnew. destruct Hnew as [Hf0 Hf1].
  apply seg_app in H as (q & H0 & H1); [|done].
  unfold push_after. destruct (Z.eqb_spec fresh nullptr); [done|]. rewrite modify_bind.
  set (m1 := <[fresh := mkNode nullptr v]> (nodes s)).
  set (s1 := mkForwardList (before_begin_next s) m1).
  assert (H0' : seg (nodes s1) (before_begin_next s1) ps0 vs0 q).
  { apply (seg_ext (nodes s)); [|done]. intros x Hx. unfold s1, m1. cbn [nodes].
    rewrite lookup_insert_ne; [done|congruence]. }
  set (s2 := mkForwardList (before_begin_next s) (<[fresh := mkNode q v]> m1)).
  assert (H2 : seg (nodes s2) (before_begin_next s2) ps0 vs0 q).
  { apply (seg_ext (nodes s1)); [|done]. intros x Hx. unfold s2. cbn [nodes].
    rewrite lookup_insert_ne; [done|congruence]. }
  destruct (fwd_set_next_done s2 ps0 vs0 q fresh H2 Hnd0) as (s3 & E3 & Hs3 & Hrest & Hdom3).
  exists s3. split.
  { unfold basic_push_after. rewrite bind_bind, (bind_done _ _ _ _ _ (next_of_done _ _ _ _ H0')), bind_bind.
    rewrite (bind_done _ _ _ tt s2).
    - by rewrite bind_bind, (bind_done _ _ _ _ _ E3).
    - unfold set_next_of, node_at, mbind, prog_bind. cbn [nodes s1]. unfold m1 at 1.
      by rewrite lookup_insert_eq. }
  split.
  - apply seg_app; [done|]. exists fresh. split; [done|]. simpl. split_and!; [done..|].
    exists (mkNode q v). rewrite Hrest by done. cbn [nodes s2]. rewrite lookup_insert_eq.
    split_and!; [done..|]. apply (seg_ext (nodes s)); [|done]. intros x Hx.
    rewrite Hrest by (intros Hx'; by apply (Hd x Hx')). cbn [nodes s2]. unfold m1.
    by rewrite !lookup_insert_ne by congruence.
  - apply NoDup_app. split_and!; [done| |by apply NoDup_cons]. intros x Hx [->|Hx']%elem_of_cons; [done|].
    by apply (Hd x Hx).
  - intros x. rewrite Hdom3. cbn [nodes s2]. unfold m1. rewrite !dom_insert_L, !elem_of_union,
      !elem_of_singleton, Hdom, !elem_of_app, elem_of_cons. tauto.
Qed.

(** ** [clear] and [remove] *)
Lemma seg_null m p ps vs : seg m p ps vs nullptr → (p =? nullptr) = bool_decide (vs = []).
Proof.
  destruct ps as [|q ps], vs as [|v vs]; try done.
  - by intros ->.
  - intros (-> & Hq & _). rewrite bool_decide_eq_false_2 by done. by apply Z.eqb_neq.
Qed.

Lemma list_at_nil s ps : list_at s ps [] → s = forward_list_empty.
Proof.
  intros [H _ Hdom]. destruct ps; [|done]. destruct s as [b m]. cbn in H, Hdom. subst b.
  assert (m = ∅) as ->; [|done]. apply dom_empty_inv_L, elem_of_equiv_empty_L.
  intros p Hp%Hdom. by apply elem_of_nil in Hp.
Qed.

Lemma clear_done : ∀ vs s ps fuel, list_at s ps vs → (length vs < fuel)%nat →
  clear fuel s = Done (tt, forward_list_empty).
Proof.
  induction vs as [|v vs IH]; intros s ps fuel H Hf; (destruct fuel as [|fuel]; [lia|]);
    cbn [clear]; unfold list_is_empty, list_begin, next_of;
    rewrite bind_bind, gets_bind, ret_bind, (seg_null _ _ _ _ (at_seg _ _ _ H)).
  - rewrite bool_decide_eq_true_2 by done. by rewrite (list_at_nil _ _ H).
  - rewrite bool_decide_eq_false_2 by done. pose proof (seg_length _ _ _ _ _ (at_seg _ _ _ H)).
    destruct ps as [|q ps]; [done|].
    destruct (erase_after_done s [] q ps [] v vs eq_refl H) as (s' & E & H').
    change (it_of []) with before_begin in E. rewrite (bind_done _ _ _ _ _ E).
    apply (IH s' ps); [done|simpl in Hf; lia].
Qed.

(** The destructor leaves what [clear] leaves. *)
Lemma destroy_is_clear fuel s : forward_list_destroy fuel s = clear fuel s.
Proof.
  revert s. induction fuel as [|fuel IH]; intros s; [done|]. cbn [forward_list_destroy clear].
  unfold pop_front, const_iterator_of. unfold mbind at 1 3, prog_bind at 1 3.
  destruct (list_is_empty s) as [[[] s1]| | |]; [done| |done..].
  unfold mbind, prog_bind. destruct (erase_after before_begin s1) as [[[] s2]| | |]; [|done..]. apply IH.
Qed.

(** The first node in two halves, for a caller that frees its memory. *)
Lemma erase_first_done s q ps v vs : list_at s (q :: ps) (v :: vs) →
  ∃ s1 s2, basic_erase_after before_begin s = Done (q, s1) ∧ deallocate_node q s1 = Done (tt, s2) ∧ list_at s2 ps vs.
Proof.
  intros H. destruct (erase_after_done s [] q ps [] v vs eq_refl H) as (s2 & E & H').
  pose proof (at_seg _ _ _ H) as (Hb & _). change (it_of []) with before_begin in E.
  unfold erase_after, mbind, prog_bind in E. destruct (basic_erase_after before_begin s) as [[e s1]| | |] eqn:E1; try done.
  assert (e = q) as ->; [|by exists s1, s2].
  unfold basic_erase_after, next_of, before_begin in E1. rewrite gets_bind, Hb in E1.
  unfold mbind, prog_bind in E1. destruct (node_at q s) as [[n s0]| | |]; try done. by injection E1.
Qed.

Lemma list_is_empty_done s ps vs : list_at s ps vs → list_is_empty s = Done (bool_decide (vs = []), s).
Proof.
  intros H. unfold list_is_empty, list_begin, next_of. rewrite gets_bind, (seg_null _ _ _ _ (at_seg _ _ _ H)).
  done.
Qed.

Lemma remove_loop_done value : ∀ vs ps vs0 ps0 s fuel removed,
  length ps0 = length vs0 → list_at s (ps0 ++ ps) (vs0 ++ vs) → (length vs < fuel)%nat →
  0 ≤ removed → removed + Z.of_nat (length vs) < 2 ^ 32 →
  ∃ s' ps', remove_loop fuel value (it_of ps0) removed s
    = Done (removed + Z.of_nat (length (filter (λ v, v = value) vs)), s') ∧
    list_at s' ps' (vs0 ++ filter (λ v, v ≠ value) vs).
Proof.
  induction vs as [|v vs IH]; intros ps vs0 ps0 s fuel removed Hl H Hf Hr0 Hr;
    (destruct fuel as [|fuel]; [lia|]); cbn [remove_loop];
    pose proof (at_seg _ _ _ H) as (q & H0 & H1)%seg_app; try done;
    rewrite (bind_done _ _ _ _ _ (next_of_done _ _ _ _ H0)), (seg_null _ _ _ _ H1).
  - rewrite bool_decide_eq_true_2 by done. exists s, (ps0 ++ ps). split; [|done].
    simpl. by rewrite Z.add_0_r.
  - rewrite bool_decide_eq_false_2 by done. destruct ps as [|x ps]; [done|].
    destruct H1 as (-> & Hx & n & Hn & Hv & H1).
    rewrite (bind_done _ _ _ n s) by (unfold node_at; by rewrite Hn). rewrite Hv.
    destruct (decide (v = value)) as [->|Hne]; cbn [length] in *.
    + destruct (erase_after_done s ps0 x ps vs0 value vs Hl H) as (s1 & E & H').
      rewrite (bind_done _ _ _ _ _ E), u32_small by lia.
      destruct (IH ps vs0 ps0 s1 fuel (removed + 1) Hl H') as (s2 & ps2 & E2 & H2); [lia..|].
      exists s2, ps2. rewrite filter_cons_True, filter_cons_False by tauto. split; [|done].
      rewrite E2. do 2 f_equal. simpl. lia.
    + replace (Node x) with (it_of (ps0 ++ [x])) by (unfold it_of; by rewrite last_snoc).
      rewrite (cons_middle x ps0 ps), (cons_middle v vs0 vs) in H. rewrite !app_assoc in H.
      destruct (IH ps (vs0 ++ [v]) (ps0 ++ [x]) s fuel removed) as (s2 & ps2 & E2 & H2);
        [rewrite !length_app; simpl; lia|done|lia..|].
      exists s2, ps2. rewrite filter_cons_False, filter_cons_True by tauto. split; [done|].
      by rewrite <- app_assoc in H2.
Qed.
End ForwardList.

Arguments fwd_list_node T : clear implicits.
Arguments forward_list T : clear implicits.

(** * Properties *)

(** [remove] deletes exactly the elements equal to the value: on a list
    that represents [vs] it terminates, returns how many there were, leaves the
    others in their order, and frees exactly the nodes it unlinked. *)
Theorem forward_list_remove_correct {T} `{EqDecision T} fuel (s : forward_list T) vs value
    (Hrep : forward_list_rep s vs) (Hfuel : (length vs < fuel)%nat)
    (Hlen : Z.of_nat (length vs) < 2 ^ 32) :
  ∃ s', remove fuel value s = Done (Z.of_nat (length (filter (λ v, v = value) vs)), s') ∧
    forward_list_rep s' (filter (λ v, v ≠ value) vs) ∧
    (∀ fuel', (length vs < fuel')%nat → clear fuel' s' = Done (tt, forward_list_empty)).
Proof.
  destruct Hrep as (ps & H).
  destruct (remove_loop_done value vs ps [] [] s fuel 0) as (s' & ps' & E & H'); [done..|lia|].
  exists s'. split; [exact E|]. split; [by exists ps'|]. intros fuel' Hf'.
  eapply clear_done; [exact H'|]. pose proof (length_filter (λ v, v ≠ value) vs). simpl. lia.
Qed.

(** [push_after] and [erase_after] are inverse at every position: inserting
    behind the first [length vs0] elements puts the value there, and erasing at
    the same position restores the list and the store. *)
Theorem forward_list_push_erase {T} `{EqDecision T} (s : forward_list T) ps0 ps vs0 vs fresh v
    (Hat : list_at s (ps0 ++ ps) (vs0 ++ vs)) (Hlen : length ps0 = length vs0)
    (Hfresh : fresh ≠ nullptr ∧ fresh ∉ dom (nodes s)) :
  ∃ s1 s2, push_after fresh (it_of ps0) v s = Done (Node fresh, s1) ∧
    forward_list_rep s1 (vs0 ++ v :: vs) ∧
    erase_after (it_of ps0) s1 = Done (tt, s2) ∧ list_at s2 (ps0 ++ ps) (vs0 ++ vs).
Proof.
  destruct Hfresh as [Hf Hd]. destruct (push_after_done s ps0 ps vs0 vs fresh v Hlen Hat Hf Hd)
    as (s1 & E1 & H1). destruct (erase_after_done s1 ps0 fresh ps vs0 v vs Hlen H1) as (s2 & E2 & H2).
  exists s1, s2. split_and!; try done. by exists (ps0 ++ fresh :: ps).
Qed.

(** ** Witnesses *)
Definition example_fwd_list : forward_list Z :=
  mkForwardList 64 {[ 64 := mkNode 96 7; 96 := mkNode 32 3; 32 := mkNode 0 7 ]}.

Lemma example_fwd_list_at : list_at example_fwd_list [64; 96; 32] [7; 3; 7].
Proof.
  split.
  - repeat (split_and!; [done..|]; eexists; split_and!; [reflexivity..|]). done.
  - repeat constructor; rewrite ?elem_of_cons, ?elem_of_nil; lia.
  - intros p. cbn. rewrite !dom_insert_L, dom_singleton_L. set_solver.
Qed.

Lemma forward_list_remove_correct_witness :
  ∃ s', remove 4 7 example_fwd_list = Done (2, s') ∧ forward_list_rep s' [3] ∧
    (∀ fuel', (3 < fuel')%nat → clear fuel' s' = Done (tt, forward_list_empty)).
Proof.
  exact (forward_list_remove_correct 4 example_fwd_list [7; 3; 7] 7
    (ex_intro _ [64; 96; 32] example_fwd_list_at) ltac:(simpl; lia) ltac:(simpl; lia)).
Defined.

Lemma forward_list_push_erase_witness :
  ∃ s1 s2, push_after 128 (Node 64) 5 example_fwd_list = Done (Node 128, s1) ∧
    forward_list_rep s1 [7; 5; 3; 7] ∧
    erase_after (Node 64) s1 = Done (tt, s2) ∧ list_at s2 [64; 96; 32] [7; 3; 7].
Proof.
  apply (forward_list_push_erase example_fwd_list [64] [96; 32] [7] [3; 7] 128 5);
    [apply example_fwd_list_at|done|]. split; [done|]. cbn.
  rewrite !dom_insert_L, dom_singleton_L. set_solver.
Defined.
