(* ===== verification/CircularList.v ===== *)
(** * The intrusive circular list

    [libkernelcxx/include/ext/intrusive_circular_list.hpp]: a ring of nodes
    embedded in the objects they link.  The nodes live in a store indexed by
    address; [get_node] is the member function pointer of the list, from the
    address of an object to the address of its node. *)
From stdpp Require Import base tactics numbers list gmap strings.
From S2P Require Import Prelude.

Record IntrusiveListNode : Type := mkListNode { owner : Z; node_next : Z; node_prev : Z }.

Record circular_list : Type := mkCircular {
  _some : Z;
  ring_nodes : gmap Z IntrusiveListNode
}.

Abbreviation ring_prog := (prog circular_list).

Definition ring_node (p : Z) : ring_prog IntrusiveListNode := λ s,
  match ring_nodes s !! p with
  | Some n => Done (n, s)
  | None => Fault "access to a node that does not exist"
  end.

Definition update_node (p : Z) (f : IntrusiveListNode → IntrusiveListNode) : ring_prog unit :=
  n ← ring_node p; modify (λ s, mkCircular (_some s) (<[p := f n]> (ring_nodes s))).

Definition set_next (p q : Z) : ring_prog unit := update_node p (λ n, mkListNode (owner n) q (node_prev n)).
Definition set_prev (p q : Z) : ring_prog unit := update_node p (λ n, mkListNode (owner n) (node_next n) q).
Definition set_some (p : Z) : ring_prog unit := modify (λ s, mkCircular p (ring_nodes s)).

Definition ring_is_empty : ring_prog bool := gets (λ s, _some s =? nullptr).
Definition some : ring_prog Z := p ← gets _some; n ← ring_node p; mret (owner n).

Section Ring.
Context (get_node : Z → Z).

Definition ring_insert (value : Z) : ring_prog unit :=
  let value_node := get_node value in
  p ← gets _some;
  if p =? nullptr then
    set_prev value_node value_node ;; set_next value_node value_node ;; set_some value_node
  else
    n ← ring_node p;
    set_next value_node (node_next n) ;;
    set_prev value_node p ;;
    n ← ring_node p;
    set_prev (node_next n) value_node ;;
    set_next p value_node.

Definition ring_remove (value : Z) : ring_prog Z :=
  let value_node := get_node value in
  n ← ring_node value_node;
  if value_node =? node_next n then
    set_next value_node nullptr ;; set_prev value_node nullptr ;; set_some nullptr ;; mret nullptr
  else
    let ret_node := node_next n in
    set_next (node_prev n) (node_next n) ;;
    n ← ring_node value_node;
    set_prev (node_next n) (node_prev n) ;;
    set_next value_node nullptr ;;
    set_prev value_node nullptr ;;
    p ← gets _some;
    (if p =? value_node then set_some ret_node else mret tt) ;;
    r ← ring_node ret_node; mret (owner r).
End Ring.

(** ** Iteration *)
Record ring_iterator : Type := mkRingIterator { it_node : Z; it_shift : Z }.

Definition ring_begin : ring_prog ring_iterator := gets (λ s, mkRingIterator (_some s) 0).
(** The end iterator remembers the first node. *)
Definition ring_end : ring_prog Z := gets _some.

Definition has_shifted (it : ring_iterator) : bool := negb (it_shift it =? 0).

(** [it != end] *)
Definition not_at_end (it : ring_iterator) (end_node : Z) : bool :=
  negb ((it_node it =? end_node) && eqb (has_shifted it) true).

Definition it_deref (it : ring_iterator) : ring_prog Z := n ← ring_node (it_node it); mret (owner n).

Definition it_incr (it : ring_iterator) : ring_prog ring_iterator :=
  n ← ring_node (it_node it); mret (mkRingIterator (node_next n) (u32 (it_shift it + 1))).

(** A range-for over the list that collects the objects it visits. *)
Fixpoint ring_for (fuel : nat) (end_node : Z) (it : ring_iterator) (visited : list Z)
    : ring_prog (list Z) :=
  match fuel with
  | O => no_fuel
  | S n =>
      if not_at_end it end_node then
        v ← it_deref it; it' ← it_incr it; ring_for n end_node it' (visited ++ [v])
      else mret visited
  end.

Definition ring_to_list (fuel : nat) : ring_prog (list Z) :=
  it ← ring_begin; e ← ring_end; ring_for fuel e it [].

(** * Verification *)

(** The links as partial functions. *)
Definition nxt (m : gmap Z IntrusiveListNode) (p : Z) : option Z := node_next <$> m !! p.
Definition prv (m : gmap Z IntrusiveListNode) (p : Z) : option Z := node_prev <$> m !! p.

(** Every two neighbours are linked in both directions. *)
Fixpoint path (nx pv : Z → option Z) (ps : list Z) : Prop :=
  match ps with
  | a :: (b :: _) as t => nx a = Some b ∧ pv b = Some a ∧ path nx pv t
  | _ => True
  end.

(** The nodes [ps] form the ring, in order from [_some]. *)
Definition ring (s : circular_list) (ps : list Z) : Prop :=
  match ps with
  | [] => _some s = nullptr
  | p :: _ => _some s = p ∧ NoDup ps ∧ nullptr ∉ ps ∧
      path (nxt (ring_nodes s)) (prv (ring_nodes s)) (ps ++ [p])
  end.

Lemma path_ext nx nx' pv pv' ps :
  (∀ x, x ∈ removelast ps → nx' x = nx x) → (∀ x, x ∈ tail ps → pv' x = pv x) →
  path nx pv ps → path nx' pv' ps.
Proof.
  induction ps as [|a [|b t] IH]; intros Hn Hp H; try done.
  destruct H as (Ha & Hb & H). simpl. split_and!.
  - rewrite Hn; [done|]. by left.
  - rewrite Hp; [done|]. by left.
  - apply IH; [| |done].
    + intros x Hx. apply Hn. simpl. destruct t; [by apply elem_of_nil in Hx|by right].
    + intros x Hx. apply Hp. by right.
Qed.

Lemma path_app nx pv l1 x l2 : path nx pv (l1 ++ x :: l2) ↔ path nx pv (l1 ++ [x]) ∧ path nx pv (x :: l2).
Proof.
  induction l1 as [|a l1 IH]; simpl app; [simpl; tauto|].
  destruct l1 as [|b l1]; simpl app in *.
  - simpl. destruct l2; simpl; tauto.
  - change (path nx pv (a :: b :: l1 ++ x :: l2)) with
      (nx a = Some b ∧ pv b = Some a ∧ path nx pv (b :: l1 ++ x :: l2)).
    change (path nx pv (a :: b :: l1 ++ [x])) with
      (nx a = Some b ∧ pv b = Some a ∧ path nx pv (b :: l1 ++ [x])). tauto.
Qed.

Lemma removelast_snoc (l : list Z) x : removelast (l ++ [x]) = l.
Proof. apply removelast_last. Qed.

(** The ring seen from any of its nodes. *)
Lemma path_rotate nx pv x l1 y l2 :
  path nx pv ((x :: l1 ++ y :: l2) ++ [x]) → path nx pv ((y :: l2 ++ x :: l1) ++ [y]).
Proof.
  intros H. change (x :: l1 ++ y :: l2) with ((x :: l1) ++ y :: l2) in H.
  rewrite <- app_assoc in H. change ((y :: l2) ++ [x]) with (y :: (l2 ++ [x])) in H.
  apply path_app in H as [H1 H2].
  change (y :: l2 ++ x :: l1) with ((y :: l2) ++ x :: l1). rewrite <- app_assoc.
  apply path_app. split; [done|]. done.
Qed.

Lemma nxt_insert m p n q : nxt (<[p := n]> m) q = if decide (q = p) then Some (node_next n) else nxt m q.
Proof.
  unfold nxt. destruct (decide (q = p)) as [->|]; [by rewrite lookup_insert_eq|].
  by rewrite lookup_insert_ne.
Qed.

Lemma prv_insert m p n q : prv (<[p := n]> m) q = if decide (q = p) then Some (node_prev n) else prv m q.
Proof.
  unfold prv. destruct (decide (q = p)) as [->|]; [by rewrite lookup_insert_eq|].
  by rewrite lookup_insert_ne.
Qed.

(** ** One write *)
Lemma ring_set_next_done s p q : p ∈ dom (ring_nodes s) →
  ∃ m, set_next p q s = Done (tt, mkCircular (_some s) m) ∧ dom m = dom (ring_nodes s) ∧
    (∀ x, nxt m x = if decide (x = p) then Some q else nxt (ring_nodes s) x) ∧
    (∀ x, prv m x = prv (ring_nodes s) x) ∧ (∀ x, owner <$> m !! x = owner <$> ring_nodes s !! x).
Proof.
  intros [n Hn]%elem_of_dom. eexists. split.
  { unfold set_next, update_node, mbind, prog_bind, ring_node. rewrite Hn. reflexivity. }
  split_and!.
  - rewrite dom_insert_L. apply elem_of_dom_2 in Hn. set_solver.
  - intros x. by rewrite nxt_insert.
  - intros x. rewrite prv_insert. destruct (decide (x = p)) as [->|]; [|done].
    unfold prv. by rewrite Hn.
  - intros x. destruct (decide (x = p)) as [->|]; [by rewrite lookup_insert_eq, Hn|].
    by rewrite lookup_insert_ne.
Qed.

Lemma set_prev_done s p q : p ∈ dom (ring_nodes s) →
  ∃ m, set_prev p q s = Done (tt, mkCircular (_some s) m) ∧ dom m = dom (ring_nodes s) ∧
    (∀ x, nxt m x = nxt (ring_nodes s) x) ∧
    (∀ x, prv m x = if decide (x = p) then Some q else prv (ring_nodes s) x) ∧
    (∀ x, owner <$> m !! x = owner <$> ring_nodes s !! x).
Proof.
  intros [n Hn]%elem_of_dom. eexists. split.
  { unfold set_prev, update_node, mbind, prog_bind, ring_node. rewrite Hn. reflexivity. }
  split_and!.
  - rewrite dom_insert_L. apply elem_of_dom_2 in Hn. set_solver.
  - intros x. rewrite nxt_insert. destruct (decide (x = p)) as [->|]; [|done].
    unfold nxt. by rewrite Hn.
  - intros x. by rewrite prv_insert.
  - intros x. destruct (decide (x = p)) as [->|]; [by rewrite lookup_insert_eq, Hn|].
    by rewrite lookup_insert_ne.
Qed.

Lemma ring_node_done s p : p ∈ dom (ring_nodes s) →
  ∃ n, ring_node p s = Done (n, s) ∧ nxt (ring_nodes s) p = Some (node_next n) ∧
    prv (ring_nodes s) p = Some (node_prev n) ∧ ring_nodes s !! p = Some n.
Proof.
  intros [n Hn]%elem_of_dom. exists n. unfold ring_node, nxt, prv. by rewrite Hn.
Qed.

(** The links of a node without its owner, after the two kinds of write. *)
Ltac ring_write H :=
  let m := fresh "m" in let E := fresh "E" in let Hd := fresh "Hd" in
  let Hn := fresh "Hn" in let Hp := fresh "Hp" in let Ho := fresh "Ho" in
  destruct H as (m & E & Hd & Hn & Hp & Ho);
  [try (cbn [ring_nodes]; congruence || set_solver)|
   rewrite (bind_done _ _ _ _ _ E); cbn [ring_nodes _some] in Hd, Hn, Hp, Ho].

(** ** [insert] *)
Lemma path_nxt nx pv a b t : path nx pv (a :: b :: t) → nx a = Some b ∧ pv b = Some a.
Proof. intros (? & ? & _). done. Qed.

Lemma ring_insert_links nx pv nx' pv' p rest v y :
  path nx pv ((p :: rest) ++ [p]) → NoDup (p :: rest) → v ∉ p :: rest → nx p = Some y →
  (∀ x, nx' x = if decide (x = p) then Some v else if decide (x = v) then Some y else nx x) →
  (∀ x, pv' x = if decide (x = y) then Some v else if decide (x = v) then Some p else pv x) →
  path nx' pv' ((p :: v :: rest) ++ [p]).
Proof.
  intros H Hnd Hv Hy Hn Hp. rewrite not_elem_of_cons in Hv. destruct Hv as [Hvp Hv].
  apply NoDup_cons in Hnd as [Hpr Hnd].
  assert (Hhead : head (rest ++ [p]) = Some y ∧ y ≠ v).
  { destruct rest as [|z rest]; simpl in *; destruct H as (E & _); rewrite Hy in E;
      injection E as <-; split; try done. set_solver. }
  destruct Hhead as [Hhead Hyv].
  change ((p :: v :: rest) ++ [p]) with (p :: v :: (rest ++ [p])).
  change ((p :: rest) ++ [p]) with (p :: (rest ++ [p])) in H.
  split_and!; [rewrite Hn; by destruct (decide (p = p))| |].
  { rewrite Hp. destruct (decide (v = y)); [congruence|]. by destruct (decide (v = v)). }
  destruct (rest ++ [p]) as [|z t] eqn:Et; [done|]. injection Hhead as ->.
  split_and!.
  - rewrite Hn. destruct (decide (v = p)); [congruence|]. by destruct (decide (v = v)).
  - rewrite Hp. by destruct (decide (y = y)).
  - apply (path_ext nx nx' pv pv'); [| |by destruct H as (_ & _ & H)].
    + intros x Hx. rewrite <- Et, removelast_snoc in Hx. rewrite Hn.
      destruct (decide (x = p)) as [->|]; [done|]. by destruct (decide (x = v)) as [->|].
    + intros x Hx. simpl in Hx. rewrite Hp.
      assert (Hndr : NoDup (y :: t)).
      { rewrite <- Et. apply NoDup_app. split_and!; [done| |apply NoDup_singleton].
        intros z Hz ->%list_elem_of_singleton. done. }
      apply NoDup_cons in Hndr as [Hyt _].
      assert (Hxin : x ∈ rest ++ [p]) by (rewrite Et; by right).
      destruct (decide (x = y)) as [->|]; [done|]. destruct (decide (x = v)) as [->|]; [|done].
      apply elem_of_app in Hxin as [?|?%list_elem_of_singleton]; [done|congruence].
Qed.

Lemma ring_insert_done get_node s ps value :
  ring s ps → (∀ p, p ∈ ps → p ∈ dom (ring_nodes s)) →
  let v := get_node value in v ∈ dom (ring_nodes s) → v ∉ ps → v ≠ nullptr →
  ∃ s', ring_insert get_node value s = Done (tt, s') ∧
    ring s' (match ps with [] => [v] | p :: rest => p :: v :: rest end) ∧
    dom (ring_nodes s') = dom (ring_nodes s) ∧
    (∀ x, owner <$> ring_nodes s' !! x = owner <$> ring_nodes s !! x).
Proof.
  intros Hr Hdom v Hv Hvp Hv0. unfold ring_insert. rewrite gets_bind. fold v.
  destruct ps as [|p rest]; simpl in Hr.
  - rewrite Hr, Z.eqb_refl.
    ring_write (set_prev_done s v v). ring_write (ring_set_next_done (mkCircular (_some s) m) v v).
    eexists. split; [reflexivity|]. cbn [ring_nodes]. split_and!.
    + cbn. split_and!; [done|apply NoDup_singleton|set_solver| | |done].
      * rewrite Hn0. by destruct (decide (v = v)).
      * rewrite Hp0, Hp. by destruct (decide (v = v)).
    + congruence.
    + intros x. by rewrite Ho0, Ho.
  - destruct Hr as (Hs & Hnd & H0 & H). rewrite Hs.
    assert (Hpn : p ≠ nullptr) by set_solver. destruct (Z.eqb_spec p nullptr) as [|_]; [done|].
    assert (Hpd : p ∈ dom (ring_nodes s)) by (apply Hdom; by left).
    destruct (ring_node_done s p Hpd) as (n & E & Hnx & _). rewrite (bind_done _ _ _ _ _ E).
    set (y := node_next n) in *.
    assert (Hy : y ∈ dom (ring_nodes s)).
    { destruct rest as [|z t]; simpl in H; destruct H as (E' & _); rewrite Hnx in E';
        injection E' as ->; [done|]. apply Hdom. right. by left. }
    assert (Hvne : p ≠ v) by set_solver.
    ring_write (ring_set_next_done s v y).
    ring_write (set_prev_done (mkCircular (_some s) m) v p).
    destruct (ring_node_done (mkCircular (_some s) m0) p) as (n2 & E2 & Hnx2 & _);
      [cbn [ring_nodes]; congruence|].
    rewrite (bind_done _ _ _ _ _ E2). cbn [ring_nodes] in Hnx2.
    rewrite Hn0, Hn in Hnx2. destruct (decide (p = v)); [done|].
    rewrite Hnx in Hnx2. injection Hnx2 as Hy2. rewrite <- Hy2.
    ring_write (set_prev_done (mkCircular (_some s) m0) y v).
    destruct (ring_set_next_done (mkCircular (_some s) m1) p v) as (m2 & E4 & Hd2 & Hn2 & Hp2 & Ho2);
      [cbn [ring_nodes]; congruence|]. cbn [ring_nodes _some] in *.
    exists (mkCircular (_some s) m2). split; [done|]. cbn [ring_nodes _some].
    split_and!.
    + split_and!; [done| |set_solver|].
      * apply NoDup_cons in Hnd as [? ?]. apply NoDup_cons. split; [set_solver|].
        apply NoDup_cons. split; [set_solver|done].
      * eapply (ring_insert_links _ _ _ _ p rest v y H Hnd Hvp Hnx).
        -- intros x. rewrite Hn2, Hn1, Hn0, Hn. done.
        -- intros x. rewrite Hp2, Hp1, Hp0, Hp. done.
    + congruence.
    + intros x. by rewrite Ho2, Ho1, Ho0, Ho.
Qed.

(** ** [remove] *)
Lemma list_rotate_last (v : Z) m z : v :: (m ++ [z]) ++ [v] = (v :: m) ++ z :: [v].
Proof. simpl. by rewrite <- app_assoc. Qed.

Lemma ring_remove_links nx pv nx' pv' v y t p :
  path nx pv (v :: (y :: t) ++ [v]) → NoDup (v :: y :: t) → nx v = Some y → pv v = Some p →
  (∀ x, nx' x = if decide (x = v) then Some nullptr else if decide (x = p) then Some y else nx x) →
  (∀ x, pv' x = if decide (x = v) then Some nullptr else if decide (x = y) then Some p else pv x) →
  path nx' pv' ((y :: t) ++ [y]).
Proof.
  intros H Hnd Hy Hp Hn Hv. apply NoDup_cons in Hnd as [Hvm Hnd].
  assert (Hlast : ∃ m0, y :: t = m0 ++ [p]).
  { destruct (exists_last (l := y :: t)) as (m0 & z & E); [done|]. exists m0. rewrite E in H |- *.
    f_equal. f_equal. rewrite (list_rotate_last v m0 z) in H.
    apply path_app in H as [_ (_ & Hz & _)]. congruence. }
  destruct Hlast as (m0 & Em). rewrite Em.
  assert (Hpm : p ∈ y :: t) by (rewrite Em; apply elem_of_app; right; by left).
  assert (Hpv : p ≠ v) by (intros ->; done). assert (Hyv : y ≠ v) by (intros ->; apply Hvm; by left).
  assert (Hin : path nx pv (y :: t)).
  { destruct H as (_ & _ & H). change (path nx pv ((y :: t) ++ [v])) in H. rewrite Em in H |- *.
    rewrite <- app_assoc in H. simpl in H. by apply path_app in H as [H _]. }
  assert (Hin' : path nx' pv' (y :: t)).
  { apply (path_ext nx nx' pv pv'); [| |done].
    - intros x Hx. rewrite Em, removelast_snoc in Hx. rewrite Hn.
      assert (Hxm : x ∈ y :: t) by (rewrite Em; apply elem_of_app; by left).
      destruct (decide (x = v)) as [->|]; [done|]. destruct (decide (x = p)) as [->|]; [|done].
      rewrite Em in Hnd. apply NoDup_app in Hnd as (_ & Hd & _). destruct (Hd p Hx). by left.
    - intros x Hx. simpl in Hx. rewrite Hv. apply NoDup_cons in Hnd as [Hyt _].
      destruct (decide (x = v)) as [->|]; [|by destruct (decide (x = y)) as [->|]].
      destruct Hvm. by right. }
  rewrite <- app_assoc. simpl. apply path_app. rewrite <- Em. split; [done|]. split_and!; [| |done].
  - rewrite Hn. destruct (decide (p = v)); [done|]. by destruct (decide (p = p)).
  - rewrite Hv. destruct (decide (y = v)); [done|]. by destruct (decide (y = y)).
Qed.

Lemma ring_single s v get_node value : get_node value = v → ring s [v] → v ∈ dom (ring_nodes s) →
  ∃ s', ring_remove get_node value s = Done (nullptr, s') ∧ ring s' [] ∧
    dom (ring_nodes s') = dom (ring_nodes s) ∧
    (∀ x, owner <$> ring_nodes s' !! x = owner <$> ring_nodes s !! x).
Proof.
  intros Ev (Hs & Hnd & H0 & Hnv & Hpv & _) Hv. unfold ring_remove. rewrite Ev.
  destruct (ring_node_done s v Hv) as (n & E & Hnx & _). rewrite (bind_done _ _ _ _ _ E).
  rewrite Hnv in Hnx. injection Hnx as <-. rewrite Z.eqb_refl.
  ring_write (ring_set_next_done s v nullptr). ring_write (set_prev_done (mkCircular (_some s) m) v nullptr).
  eexists. split; [reflexivity|]. cbn [ring_nodes]. split_and!; [done|congruence|].
  intros x. by rewrite Ho0, Ho.
Qed.

(** The writes of [remove] when the object is not alone. *)
Lemma ring_remove_writes s v y t get_node value : get_node value = v →
  path (nxt (ring_nodes s)) (prv (ring_nodes s)) (v :: (y :: t) ++ [v]) → NoDup (v :: y :: t) →
  (∀ p, p ∈ v :: y :: t → p ∈ dom (ring_nodes s)) →
  ∃ m n, ring_remove get_node value s =
      Done (owner n, mkCircular (if _some s =? v then y else _some s) m) ∧
    ring_nodes s !! y = Some n ∧ path (nxt m) (prv m) ((y :: t) ++ [y]) ∧ dom m = dom (ring_nodes s) ∧
    (∀ x, owner <$> m !! x = owner <$> ring_nodes s !! x).
Proof.
  intros Ev H Hnd Hdom. unfold ring_remove. rewrite Ev.
  assert (Hv : v ∈ dom (ring_nodes s)) by (apply Hdom; by left).
  assert (Hy : y ∈ dom (ring_nodes s)) by (apply Hdom; right; by left).
  pose proof (path_nxt _ _ _ _ _ H) as [Hvy Hyv].
  assert (Hne : v ≠ y) by (apply NoDup_cons in Hnd as [Hnd _]; set_solver).
  destruct (ring_node_done s v Hv) as (n & E & Hnx & Hpv & _). rewrite (bind_done _ _ _ _ _ E).
  rewrite Hvy in Hnx. injection Hnx as Hnx. rewrite <- Hnx.
  set (p := node_prev n) in *.
  assert (Hpm : p ∈ y :: t).
  { destruct (exists_last (l := y :: t)) as (m0 & z & Em); [done|]. rewrite Em in H |- *.
    rewrite (list_rotate_last v m0 z) in H.
    apply path_app in H as [_ (_ & Hz & _)]. rewrite Hpv in Hz. injection Hz as ->.
    apply elem_of_app. right. by left. }
  assert (Hp : p ∈ dom (ring_nodes s)) by (apply Hdom; by right).
  assert (Hpne : p ≠ v) by (intros ->; apply NoDup_cons in Hnd as [Hnd _]; done).
  destruct (Z.eqb_spec v y) as [|_]; [done|].
  ring_write (ring_set_next_done s p y).
  destruct (ring_node_done (mkCircular (_some s) m) v) as (n2 & E2 & Hnx2 & Hpv2 & _);
    [cbn [ring_nodes]; congruence|].
  rewrite (bind_done _ _ _ _ _ E2). cbn [ring_nodes] in Hnx2, Hpv2.
  rewrite Hn in Hnx2. rewrite Hp0 in Hpv2. destruct (decide (v = p)); [congruence|].
  rewrite Hvy in Hnx2. rewrite Hpv in Hpv2. injection Hnx2 as <-. injection Hpv2 as <-. fold p.
  ring_write (set_prev_done (mkCircular (_some s) m) y p).
  ring_write (ring_set_next_done (mkCircular (_some s) m0) v nullptr).
  ring_write (set_prev_done (mkCircular (_some s) m1) v nullptr).
  rewrite gets_bind. cbn [_some].
  assert (Hlast : ∃ n, m2 !! y = Some n ∧ owner <$> ring_nodes s !! y = Some (owner n)).
  { assert (Hy2 : y ∈ dom m2) by congruence. apply elem_of_dom in Hy2 as [n3 Hn3]. exists n3.
    split; [done|]. by rewrite <- Ho, <- Ho0, <- Ho1, <- Ho2, Hn3. }
  destruct Hlast as (n3 & Hn3 & Hn3'). apply elem_of_dom in Hy as [n4 Hn4].
  exists m2, n4. rewrite Hn4 in Hn3'. injection Hn3' as Eo. split_and!.
  - destruct (Z.eqb_spec (_some s) v).
    + unfold set_some. rewrite modify_bind. unfold mbind, prog_bind, ring_node. cbn [ring_nodes].
      by rewrite Hn3, Eo.
    + rewrite ret_bind. unfold mbind, prog_bind, ring_node. cbn [ring_nodes]. by rewrite Hn3, Eo.
  - done.
  - eapply (ring_remove_links _ _ _ _ v y t p H Hnd Hvy Hpv).
    + intros x. rewrite Hn2, Hn1, Hn0, Hn. done.
    + intros x. rewrite Hp3, Hp2, Hp1, Hp0. done.
  - congruence.
  - intros x. by rewrite Ho2, Ho1, Ho0, Ho.
Qed.

Lemma ring_remove_done get_node s l1 l2 value : let v := get_node value in
  ring s (l1 ++ v :: l2) → (∀ p, p ∈ l1 ++ v :: l2 → p ∈ dom (ring_nodes s)) →
  ∃ s' r, ring_remove get_node value s = Done (r, s') ∧ ring s' (l1 ++ l2) ∧
    dom (ring_nodes s') = dom (ring_nodes s) ∧
    (∀ x, owner <$> ring_nodes s' !! x = owner <$> ring_nodes s !! x) ∧
    (l1 ++ l2 = [] ∧ r = nullptr ∨ ∃ y n, head (l2 ++ l1) = Some y ∧ ring_nodes s !! y = Some n ∧ r = owner n).
Proof.
  intros v Hr Hdom. destruct (l2 ++ l1) as [|y t] eqn:Em.
  { apply app_eq_nil in Em as [-> ->]. simpl in *.
    destruct (ring_single s v get_node value eq_refl Hr) as (s' & ? & ? & ? & ?);
      [apply Hdom; by left|]. exists s', nullptr. split_and!; auto. }
  assert (Hrot : path (nxt (ring_nodes s)) (prv (ring_nodes s)) (v :: (y :: t) ++ [v]) ∧
    NoDup (v :: y :: t) ∧ (∀ p, p ∈ v :: y :: t ↔ p ∈ l1 ++ v :: l2) ∧
    _some s = (match l1 with [] => v | x :: _ => x end) ∧ nullptr ∉ l1 ++ v :: l2).
  { rewrite <- Em. destruct l1 as [|x l1]; simpl in Hr; destruct Hr as (Hs & Hnd & H0 & H).
    - rewrite app_nil_r. split_and!; try done.
    - split_and!; try done.
      + change (v :: (l2 ++ x :: l1) ++ [v]) with ((v :: l2 ++ x :: l1) ++ [v]). by apply path_rotate.
      + change (x :: l1 ++ v :: l2) with ((x :: l1) ++ v :: l2) in Hnd.
        change (v :: l2 ++ x :: l1) with ((v :: l2) ++ x :: l1).
        by rewrite Permutation_app_comm in Hnd.
      + intros p. change (v :: l2 ++ x :: l1) with ((v :: l2) ++ x :: l1).
        rewrite !elem_of_app. tauto. }
  destruct Hrot as (Hpath & Hnd & Hmem & Hs & H0).
  destruct (ring_remove_writes s v y t get_node value eq_refl Hpath Hnd) as
    (m & n & E & Hn & Hp & Hd & Ho); [intros p Hp; by apply Hdom, Hmem|].
  eexists _, (owner n). split; [exact E|]. cbn [ring_nodes]. split_and!; [|done|done|].
  2:{ right. by exists y, n. }
  apply NoDup_cons in Hnd as [Hvm Hndm].
  assert (Hnull : nullptr ∉ y :: t) by (intros Hx; apply H0, Hmem; by right).
  destruct l1 as [|x l1]; simpl app in *.
  - rewrite app_nil_r in Em. subst l2. rewrite Hs, Z.eqb_refl. by split_and!.
  - assert (Hxv : x ≠ v).
    { intros ->. apply Hvm. rewrite <- Em. apply elem_of_app. right. by left. }
    rewrite Hs. destruct (Z.eqb_spec x v) as [|_]; [done|].
    assert (Hx : x ≠ nullptr) by (intros ->; apply H0; by left).
    rewrite <- Em in *. split_and!; [done| | |].
    + change (x :: l1 ++ l2) with ((x :: l1) ++ l2). by rewrite Permutation_app_comm.
    + intros Hin. apply Hnull. change (x :: l1 ++ l2) with ((x :: l1) ++ l2) in Hin.
      rewrite elem_of_app in Hin |- *. tauto.
    + cbn [ring_nodes]. destruct l2 as [|z l2]; simpl app in *.
      * rewrite app_nil_r. injection Em as -> ->. done.
      * injection Em as <- <-. change (x :: (l1 ++ z :: l2) ++ [x]) with ((x :: l1 ++ z :: l2) ++ [x]).
        apply path_rotate. exact Hp.
Qed.

(** ** Iteration *)
Lemma ring_for_done s p0 : ∀ ps it visited fuel,
  path (nxt (ring_nodes s)) (prv (ring_nodes s)) (it_node it :: ps ++ [p0]) →
  (∀ q, q ∈ it_node it :: ps → q ∈ dom (ring_nodes s)) → p0 ∉ ps →
  (it_node it = p0 → it_shift it = 0) → 0 ≤ it_shift it → it_shift it + Z.of_nat (length ps) + 1 < 2 ^ 32 →
  (S (length ps) < fuel)%nat →
  ∃ vs, ring_for fuel p0 it visited s = Done (visited ++ vs, s) ∧
    Forall2 (λ q v, owner <$> ring_nodes s !! q = Some v) (it_node it :: ps) vs.
Proof.
  induction ps as [|q ps IH]; intros [p k] visited fuel Hpath Hdom Hp0 Hshift Hk0 Hk Hf;
    cbn [it_node it_shift] in *; (destruct fuel as [|fuel]; [lia|]); cbn [ring_for];
    unfold not_at_end, has_shifted; cbn [it_node it_shift];
    (assert (Hne : negb ((p =? p0) && eqb (negb (k =? 0)) true) = true);
     [destruct (Z.eqb_spec p p0) as [->|]; [rewrite (Hshift eq_refl)|]; done|]); rewrite Hne;
    destruct (ring_node_done s p) as (n & E & Hnx & _ & Hn); try (apply Hdom; by left);
    (rewrite (bind_done _ _ s (owner n) s);
     [|unfold it_deref, mbind, prog_bind; cbn [it_node]; by rewrite E]);
    (rewrite (bind_done _ _ s (mkRingIterator (node_next n) (u32 (k + 1))) s);
     [|unfold it_incr, mbind, prog_bind; cbn [it_node]; by rewrite E]).
  - simpl in Hpath. destruct Hpath as (Hpn & _). rewrite Hnx in Hpn. injection Hpn as ->.
    simpl in Hk. destruct fuel as [|fuel]; [simpl in Hf; lia|]. cbn [ring_for]. unfold not_at_end, has_shifted.
    cbn [it_node it_shift]. rewrite Z.eqb_refl, u32_small by lia.
    destruct (Z.eqb_spec (k + 1) 0); [lia|]. cbn [negb eqb andb].
    exists [owner n]. split; [done|]. constructor; [by rewrite Hn|constructor].
  - simpl in Hpath. destruct Hpath as (Hpn & _ & Hpath). rewrite Hnx in Hpn. injection Hpn as Hpn.
    rewrite Hpn. rewrite not_elem_of_cons in Hp0. destruct Hp0 as [Hp0q Hp0]. simpl in Hk, Hf.
    rewrite u32_small by lia.
    destruct (IH (mkRingIterator q (k + 1)) (visited ++ [owner n]) fuel) as (vs & E2 & Hvs);
      cbn [it_node it_shift]; [done| |done| |lia|lia|lia|].
    + intros r Hr. apply Hdom. by right.
    + intros ->. done.
    + exists (owner n :: vs). rewrite E2, <- app_assoc. split; [done|].
      constructor; [by rewrite Hn|done].
Qed.

Lemma ring_to_list_done fuel s ps : ps ≠ [] → ring s ps → (∀ p, p ∈ ps → p ∈ dom (ring_nodes s)) →
  Z.of_nat (length ps) < 2 ^ 32 → (S (length ps) < fuel)%nat →
  ∃ vs, ring_to_list fuel s = Done (vs, s) ∧
    Forall2 (λ q v, owner <$> ring_nodes s !! q = Some v) ps vs.
Proof.
  intros Hne Hr Hdom Hl Hf. destruct ps as [|p ps]; [done|].
  destruct Hr as (Hs & Hnd & _ & Hpath). unfold ring_to_list, ring_begin, ring_end.
  rewrite !gets_bind, Hs.
  destruct (ring_for_done s p ps (mkRingIterator p 0) [] fuel) as (vs & E & Hvs);
    cbn [it_node it_shift]; [done|done|by apply NoDup_cons in Hnd as [? _]|done|lia|simpl in Hl; lia|
    simpl in Hf; lia|]. by exists vs.
Qed.

(** * Properties *)

(** [insert] keeps the ring and puts the object right behind [_some] (or
    makes it the ring, when it was empty): all links in both directions are
    those of the new order, and no other field changes. *)
Theorem circular_insert_correct get_node s ps value
    (Hring : ring s ps) (Hnodes : ∀ p, p ∈ ps → p ∈ dom (ring_nodes s))
    (Hvalue : get_node value ∈ dom (ring_nodes s) ∧ get_node value ≠ nullptr)
    (Hnew : get_node value ∉ ps) :
  ∃ s', ring_insert get_node value s = Done (tt, s') ∧
    ring s' (match ps with [] => [get_node value] | p :: rest => p :: get_node value :: rest end) ∧
    (∀ x, owner <$> ring_nodes s' !! x = owner <$> ring_nodes s !! x).
Proof.
  destruct Hvalue as [Hv H0].
  destruct (ring_insert_done get_node s ps value Hring Hnodes Hv Hnew H0) as (s' & ? & ? & _ & ?).
  by exists s'.
Qed.

(** [remove] takes the object out of the ring wherever it is, moves [_some]
    to its successor when it pointed to the object, and returns the object that
    followed it, or null when it was the last one. *)
Theorem circular_remove_correct get_node s l1 l2 value
    (Hring : ring s (l1 ++ get_node value :: l2))
    (Hnodes : ∀ p, p ∈ l1 ++ get_node value :: l2 → p ∈ dom (ring_nodes s)) :
  ∃ s' r, ring_remove get_node value s = Done (r, s') ∧ ring s' (l1 ++ l2) ∧
    (∀ x, owner <$> ring_nodes s' !! x = owner <$> ring_nodes s !! x) ∧
    (l1 ++ l2 = [] ∧ r = nullptr ∨
     ∃ y, head (l2 ++ l1) = Some y ∧ owner <$> ring_nodes s !! y = Some r).
Proof.
  destruct (ring_remove_done get_node s l1 l2 value Hring Hnodes) as (s' & r & E & Hr & _ & Ho & Hc).
  exists s', r. split_and!; try done. destruct Hc as [?|(y & n & ? & Hn & ->)]; [by left|right].
  exists y. by rewrite Hn.
Qed.

(** A range-for over a non-empty list terminates and visits every object
    once, in ring order; over an empty list the iterators of [begin] and [end]
    differ, and the loop dereferences the null pointer. *)
Theorem circular_iteration_correct fuel s ps
    (Hring : ring s ps) (Hnodes : ∀ p, p ∈ ps → p ∈ dom (ring_nodes s))
    (Hnull : nullptr ∉ dom (ring_nodes s)) (Hlen : Z.of_nat (length ps) < 2 ^ 32)
    (Hfuel : (S (length ps) < fuel)%nat) :
  (ps ≠ [] → ∃ vs, ring_to_list fuel s = Done (vs, s) ∧
     Forall2 (λ q v, owner <$> ring_nodes s !! q = Some v) ps vs) ∧
  (ps = [] → ring_to_list fuel s = Fault "access to a node that does not exist").
Proof.
  split; [intros; by apply ring_to_list_done|]. intros ->. unfold ring_to_list, ring_begin, ring_end.
  rewrite !gets_bind. destruct fuel as [|fuel]; [simpl in Hfuel; lia|]. cbn [ring_for].
  change (_some s = nullptr) in Hring. rewrite Hring. cbn.
  unfold it_deref, mbind, prog_bind, ring_node. cbn [it_node].
  apply not_elem_of_dom in Hnull. by rewrite Hnull.
Qed.

(** ** Witnesses: two objects in the ring, a third outside *)
Definition example_node_of (v : Z) : Z := v + 8.
Definition example_ring : circular_list :=
  mkCircular 108 {[ 108 := mkListNode 100 208 208; 208 := mkListNode 200 108 108;
                    308 := mkListNode 300 0 0 ]}.

Lemma example_ring_ok : ring example_ring [108; 208] ∧
  (∀ p, p ∈ [108; 208] → p ∈ dom (ring_nodes example_ring)).
Proof.
  split.
  - split_and!; [done| |set_solver|by split_and!].
    repeat constructor; rewrite ?elem_of_cons, ?elem_of_nil; lia.
  - intros p Hp. cbn. rewrite !dom_insert_L. set_solver.
Qed.

Lemma circular_insert_correct_witness :
  ∃ s', ring_insert example_node_of 300 example_ring = Done (tt, s') ∧
    ring s' [108; 308; 208] ∧
    (∀ x, owner <$> ring_nodes s' !! x = owner <$> ring_nodes example_ring !! x).
Proof.
  apply (circular_insert_correct example_node_of example_ring [108; 208] 300);
    [apply example_ring_ok|apply example_ring_ok| |].
  - split; [|done]. cbn. rewrite !dom_insert_L, dom_singleton_L. set_solver.
  - change (example_node_of 300) with 308. rewrite !elem_of_cons, elem_of_nil. lia.
Defined.

Lemma circular_remove_correct_witness :
  ∃ s' r, ring_remove example_node_of 100 example_ring = Done (r, s') ∧ ring s' [208] ∧
    (∀ x, owner <$> ring_nodes s' !! x = owner <$> ring_nodes example_ring !! x) ∧
    ([208] = [] ∧ r = nullptr ∨
     ∃ y, head [208] = Some y ∧ owner <$> ring_nodes example_ring !! y = Some r).
Proof.
  apply (circular_remove_correct example_node_of example_ring [] [208] 100); apply example_ring_ok.
Defined.

Lemma circular_iteration_correct_witness :
  ∃ vs, ring_to_list 4 example_ring = Done (vs, example_ring) ∧
    Forall2 (λ q v, owner <$> ring_nodes example_ring !! q = Some v) [108; 208] vs.
Proof.
  apply (circular_iteration_correct 4 example_ring [108; 208]);
    [apply example_ring_ok|apply example_ring_ok| |simpl; lia|simpl; lia|done].
  cbn. rewrite !dom_insert_L, dom_singleton_L. set_solver.
Defined.
