(* ===== verification/Atomics.v ===== *)
(** * Atomic instructions and their interleavings

    The memory and model-specific register wrappers of
    [x86/include/bolgenos-ng/asm.hpp], at each size the templates are enabled for,
    and the operations of [libkernelcxx/include/atomic.hpp] on a cell that several
    tasks and interrupt handlers share: every operation is one instruction, and the
    operations of different actors interleave at will. *)
From stdpp Require Import base functions tactics numbers list gmap relations.
From S2P Require Import Prelude MemUtils Ports.

(** ** Instructions

    The three overloads of every wrapper, selected by [sizeof(T)]. *)
Inductive width : Type := Byte | Word | Long.
Definition bits (w : width) : Z := match w with Byte => 8 | Word => 16 | Long => 32 end.
Definition wrap (w : width) (v : Z) : Z := v mod 2 ^ bits w.

Definition store16 (m : mem) (a v : Z) : mem := store8 (store8 m a v) (a + 1) (v / 2 ^ 8).

Definition mov_load (w : width) (m : mem) (from : Z) : Z :=
  match w with Byte => load8 m from | Word => load16 m from | Long => load32 m from end.
Definition mov_store (w : width) (m : mem) (to v : Z) : mem :=
  match w with Byte => store8 m to v | Word => store16 m to v | Long => store32 m to v end.

(** [exchange]: the new memory and the new value of [to].  The statement exchanges the memory with the
    register that the compiler chooses for [to] and reads the result from [eax]: if they are the same
    the result is the old content, and if not it is what [eax] held. *)
Inductive operand : Type := In_eax | Elsewhere (eax : Z).
Definition xchg (choice : operand) (w : width) (m : mem) (from to : Z) : mem * Z :=
  (mov_store w m from to, match choice with In_eax => mov_load w m from | Elsewhere eax => wrap w eax end).
Definition xadd (w : width) (m : mem) (variable increment : Z) : mem * Z :=
  (mov_store w m variable (mov_load w m variable + increment), mov_load w m variable).

(** [lzcnt] of a 32-bit value. *)
Definition lzcnt (value : Z) : Z := if value =? 0 then 32 else 31 - Z.log2 value.

(** Model-specific registers are 64 bits wide, accessed as two halves. *)
Definition msr_ia32_apic_base : Z := 0x1b.
Abbreviation msrs := (Z → Z).
Definition read_msr (msr : Z) (s : msrs) : Z * Z := (u32 (s msr), u32 (s msr / 2 ^ 32)).
Definition write_msr (msr low high : Z) (s : msrs) : msrs := <[msr := u32 low + 2 ^ 32 * u32 high]> s.

(** ** Operations on a shared cell *)
Inductive atomic_op : Type :=
  | Load | Store (value : Z) | Exchange (value : Z) | CompareExchange (expected desired : Z)
  | FetchAdd (increment : Z).

(** One operation on the cell at [a]: the new memory and the result.  The compiler is taken to choose
    [eax] for the operand of [exchange]. *)
Definition run_op (w : width) (a : Z) (o : atomic_op) (m : mem) : mem * Z :=
  match o with
  | Load => (m, mov_load w m a)
  | Store v => (mov_store w m a v, 0)
  | Exchange v => xchg In_eax w m a v
  | CompareExchange e d => if mov_load w m a =? e then (mov_store w m a d, 1) else (m, 0)
  | FetchAdd d => xadd w m a d
  end.

(** [fetch_sub], and the four operators of [atomic]. *)
Definition FetchSub (w : width) (decrement : Z) : atomic_op := FetchAdd (wrap w (- decrement)).
Definition pre_incr_result (w : width) (old : Z) : Z := wrap w (old + 1).
Definition pre_decr_result (w : width) (old : Z) : Z := wrap w (old - 1).

(** ** Actors: what each still has to do, and what has been done *)
Record config : Type := mkConfig {
  cells : mem;
  todo : gmap nat (list atomic_op);
  history : list (nat * atomic_op * Z)
}.

Inductive step (w : width) (a : Z) : config → config → Prop :=
  | step_actor i o os m m' t h r : t !! i = Some (o :: os) → run_op w a o m = (m', r) →
      step w a (mkConfig m t h) (mkConfig m' (<[i := os]> t) (h ++ [(i, o, r)])).

(** The steps as a function of the schedule: which actor runs next. *)
Definition turn (w : width) (a : Z) (i : nat) (c : config) : config :=
  match todo c !! i with
  | Some (o :: os) => let '(m', r) := run_op w a o (cells c) in mkConfig m' (<[i := os]> (todo c)) (history c ++ [(i, o, r)])
  | _ => c
  end.
Definition schedule (w : width) (a : Z) (order : list nat) (c : config) : config := foldl (λ c i, turn w a i c) c order.

(** * Verification *)

(** ** Cells *)
Lemma wrap_range w v : 0 ≤ wrap w v < 2 ^ bits w.
Proof. apply Z.mod_pos_bound. by destruct w. Qed.

Lemma mov_load_range w m a : 0 ≤ mov_load w m a < 2 ^ bits w.
Proof.
  destruct w; cbn [mov_load bits]; [apply load8_range| |apply load32_range].
  unfold load16. pose proof (load8_range m a). pose proof (load8_range m (a + 1)). lia.
Qed.

Lemma mov_load_store w m a v : mov_load w (mov_store w m a v) a = wrap w v.
Proof.
  destruct w; cbn [mov_load mov_store]; [apply load8_store8_eq| |apply load32_store32_eq].
  unfold load16, store16. rewrite load8_store8_eq, load8_store8_ne, load8_store8_eq by lia.
  unfold wrap, bits. zify_wraps.
Qed.

Lemma mov_store_other w m a v b : ¬ in_block b a (bits w / 8) → load8 (mov_store w m a v) b = load8 m b.
Proof.
  destruct w; cbn [mov_store bits]; intros H.
  - apply load8_store8_ne. change (8 / 8) with 1 in H. lia.
  - change (16 / 8) with 2 in H. unfold store16. by rewrite !load8_store8_ne by lia.
  - by apply load8_store32_ne.
Qed.

Lemma lzcnt_spec v : 0 < v < 2 ^ 32 → 0 ≤ lzcnt v < 32 ∧ 2 ^ (31 - lzcnt v) ≤ v < 2 ^ (32 - lzcnt v).
Proof.
  intros Hv. unfold lzcnt. destruct (Z.eqb_spec v 0); [lia|].
  pose proof (Z.log2_spec v ltac:(lia)) as Hl. pose proof (Z.log2_nonneg v).
  assert (Z.log2 v < 32) by (apply Z.log2_lt_pow2; lia).
  replace (31 - (31 - Z.log2 v)) with (Z.log2 v) by lia.
  replace (32 - (31 - Z.log2 v)) with (Z.succ (Z.log2 v)) by lia. lia.
Qed.

Lemma msr_roundtrip msr low high s : 0 ≤ low < 2 ^ 32 → 0 ≤ high < 2 ^ 32 →
  read_msr msr (write_msr msr low high s) = (low, high).
Proof.
  intros Hl Hh. unfold read_msr, write_msr. rewrite fn_lookup_insert, (u32_small low), (u32_small high) by done.
  f_equal; zify_wraps.
Qed.

(** With another register than [eax] it does not return the old content of some cell. *)
Lemma exchange_elsewhere w from to eax : ∃ m, (xchg (Elsewhere eax) w m from to).2 ≠ mov_load w m from.
Proof.
  exists (mov_store w ∅ from (eax + 1)). cbn [xchg snd]. rewrite mov_load_store. unfold wrap.
  intros E. assert (H : (eax + 1 - eax) mod 2 ^ bits w = 0) by (rewrite Zminus_mod, <- E, Z.sub_diag; by destruct w).
  replace (eax + 1 - eax) with 1 in H by lia. by destruct w.
Qed.

(** ** The sequential meaning: the new content and the result *)
Definition effect (w : width) (o : atomic_op) (v : Z) : Z * Z :=
  match o with
  | Load => (v, v)
  | Store x => (wrap w x, 0)
  | Exchange x => (wrap w x, v)
  | CompareExchange e d => if v =? e then (wrap w d, 1) else (v, 0)
  | FetchAdd d => (wrap w (v + d), v)
  end.

(** The 32-bit operations of [Ports.v] are these. *)
Lemma effect_long v x e d : 0 ≤ v < 2 ^ 32 →
  effect Long (Exchange x) v = atomic_exchange x v ∧
  effect Long (FetchAdd x) v = atomic_fetch_add x v ∧
  effect Long (CompareExchange e d) v = (let '(v', b) := atomic_compare_exchange e d v in (v', if b then 1 else 0)).
Proof. intros Hv. unfold atomic_compare_exchange. cbn. by destruct (v =? e). Qed.

Lemma run_op_effect w a o m m' r : run_op w a o m = (m', r) →
  effect w o (mov_load w m a) = (mov_load w m' a, r) ∧ ∀ b, ¬ in_block b a (bits w / 8) → load8 m' b = load8 m b.
Proof.
  destruct o as [|v|v|e d|d]; cbn [run_op effect]; unfold xchg, xadd; [| | |destruct (_ =? e)|];
    intros [= <- <-]; rewrite ?mov_load_store; split; try done; intros b Hb; by apply mov_store_other.
Qed.

Fixpoint replay (w : width) (v : Z) (os : list atomic_op) : Z * list Z :=
  match os with
  | [] => (v, [])
  | o :: os => let '(v', r) := effect w o v in let '(v'', rs) := replay w v' os in (v'', r :: rs)
  end.

Lemma replay_snoc w os : ∀ v o, replay w v (os ++ [o]) =
  let '(v', rs) := replay w v os in let '(v'', r) := effect w o v' in (v'', rs ++ [r]).
Proof.
  induction os as [|o' os IH]; intros v o; cbn [app replay].
  - by destruct (effect w o v) as [v' r].
  - destruct (effect w o' v) as [v' r]. rewrite IH. destruct (replay w v' os) as [v'' rs].
    by destruct (effect w o v'') as [v3 r3].
Qed.

(** ** Every interleaving is a sequential run of a merge of the programs *)
Definition ops (h : list (nat * atomic_op * Z)) : list atomic_op := (λ e, e.1.2) <$> h.
Definition results (h : list (nat * atomic_op * Z)) : list Z := snd <$> h.
Definition ops_of (i : nat) (h : list (nat * atomic_op * Z)) : list atomic_op :=
  ops (filter (λ e, e.1.1 = i) h).

Record merged (w : width) (a : Z) (m0 : mem) (progs : gmap nat (list atomic_op)) (c : config) : Prop := {
  mg_replay : replay w (mov_load w m0 a) (ops (history c)) = (mov_load w (cells c) a, results (history c));
  mg_todo : ∀ i os, progs !! i = Some os → ∃ rest, todo c !! i = Some rest ∧ os = ops_of i (history c) ++ rest;
  mg_dom : ∀ i rest, todo c !! i = Some rest → is_Some (progs !! i);
  mg_from : ∀ e, e ∈ history c → ∃ os, progs !! e.1.1 = Some os ∧ e.1.2 ∈ os;
  mg_other : ∀ b, ¬ in_block b a (bits w / 8) → load8 (cells c) b = load8 m0 b
}.

Lemma merged_step w a m0 progs c c' : merged w a m0 progs c → step w a c c' → merged w a m0 progs c'.
Proof.
  intros [H1 H2 H3 H4 H5] Hs. destruct Hs as [i o os m m' t h r Ht Hr].
  cbn [cells todo history] in *. destruct (run_op_effect w a o m m' r Hr) as [He Hm].
  assert (Hd : ∃ rest', progs !! i = Some (ops_of i h ++ o :: rest')).
  { destruct (H3 i _ Ht) as [p Hp]. destruct (H2 i p Hp) as (rest & Hrest & ->). rewrite Ht in Hrest.
    injection Hrest as <-. by eexists. }
  split; cbn [cells todo history].
  - unfold ops, results. rewrite !fmap_app. cbn [fmap list_fmap fst snd]. rewrite replay_snoc.
    unfold ops in H1. rewrite H1, He. done.
  - intros j p Hp. destruct (H2 j p Hp) as (rest & Hrest & Ep). unfold ops_of in *. rewrite filter_app, filter_cons.
    cbn [fst snd]. destruct (decide (i = j)) as [->|Hne].
    + rewrite Ht in Hrest. injection Hrest as <-. exists os. rewrite lookup_insert_eq. split; [done|].
      unfold ops in *. rewrite fmap_app, <- app_assoc. exact Ep.
    + exists rest. rewrite lookup_insert_ne by done. split; [done|]. rewrite filter_nil, app_nil_r. done.
  - intros j rest. rewrite lookup_insert_Some. intros [[<- _]|[_ Hj]]; [|by apply (H3 j rest)].
    destruct Hd as (? & Hd). by eexists.
  - intros e [He'|He'%list_elem_of_singleton]%elem_of_app; [by apply H4|subst e; cbn [fst snd]].
    destruct Hd as (rest & Hd). eexists. split; [exact Hd|]. apply elem_of_app. right. by left.
  - intros b Hb. rewrite Hm by done. by apply H5.
Qed.

Lemma merged_reachable w a m0 progs c : rtc (step w a) (mkConfig m0 progs []) c → merged w a m0 progs c.
Proof.
  assert (H0 : merged w a m0 progs (mkConfig m0 progs [])).
  { split; cbn; [done| | |by intros e []%elem_of_nil|done].
    - intros i os Hi. by exists os.
    - intros i rest Hi. by eexists. }
  revert H0. generalize (mkConfig m0 progs []). intros c0 H0 Hr. revert H0.
  induction Hr as [x|x y z Hs _ IH]; intros Hx; [done|]. apply IH. by eapply merged_step.
Qed.

Lemma turn_step w a i c : rtc (step w a) c (turn w a i c).
Proof.
  unfold turn. destruct c as [m t h]. cbn. destruct (t !! i) as [[|o os]|] eqn:Hi; try apply rtc_refl.
  destruct (run_op w a o m) as [m' r] eqn:E. apply rtc_once. by eapply step_actor.
Qed.

Lemma schedule_reachable w a order : ∀ c, rtc (step w a) c (schedule w a order c).
Proof. induction order as [|i js IH]; intros c; [apply rtc_refl|]. cbn. etrans; [apply turn_step|apply IH]. Qed.

(** ** What the histories of the common protocols look like *)

(** What an operation adds to the cell, for the operations that add. *)
Definition increment (o : atomic_op) : option Z := match o with FetchAdd d => Some d | _ => None end.

(** A counter: any interleaving of additions adds their sum. *)
Lemma replay_additions w os ds : ∀ v, mapM increment os = Some ds → 0 ≤ v < 2 ^ bits w →
  (replay w v os).1 = wrap w (v + foldr Z.add 0 ds).
Proof.
  revert ds. induction os as [|o os IH]; intros ds v; cbn [mapM mret mbind replay].
  - intros [= <-] Hv. cbn. unfold wrap. rewrite Z.add_0_r. symmetry. by apply Z.mod_small.
  - destruct o as [| | | |d]; try discriminate. cbn [increment mbind option_bind].
    destruct (mapM increment os) as [ds'|] eqn:E; [|discriminate]. intros [= <-] Hv. cbn [effect foldr].
    specialize (IH ds' (wrap w (v + d)) eq_refl (wrap_range w _)).
    destruct (replay w (wrap w (v + d)) os) as [v' rs]. cbn [fst] in *. rewrite IH. unfold wrap.
    rewrite Zplus_mod_idemp_l. f_equal. lia.
Qed.

(** Tickets: the results of [n] increments by one are the first [n] successors. *)
Lemma replay_tickets w n : ∀ v, 0 ≤ v < 2 ^ bits w →
  (replay w v (replicate n (FetchAdd 1))).2 = (λ k, wrap w (v + k)) <$> seqZ 0 (Z.of_nat n).
Proof.
  induction n as [|n IH]; intros v Hv; cbn [replicate replay]; [done|]. cbn [effect].
  specialize (IH (wrap w (v + 1)) (wrap_range w _)).
  destruct (replay w (wrap w (v + 1)) (replicate n (FetchAdd 1))) as [v' rs]. cbn [snd] in *.
  rewrite IH, (seqZ_cons 0 (Z.of_nat (S n))) by lia. rewrite fmap_cons. f_equal.
  - unfold wrap. rewrite Z.add_0_r. symmetry. by apply Z.mod_small.
  - replace (Z.pred (Z.of_nat (S n))) with (Z.of_nat n) by lia. rewrite <- (fmap_add_seqZ 1 0), <- list_fmap_compose.
    apply list_fmap_ext. intros _ k _. cbn. unfold wrap. rewrite Zplus_mod_idemp_l. f_equal. lia.
Qed.

Lemma tickets_distinct w n v : Z.of_nat n ≤ 2 ^ bits w → NoDup ((λ k, wrap w (v + k)) <$> seqZ 0 (Z.of_nat n)).
Proof.
  intros Hn. apply NoDup_fmap_2_strong; [|apply NoDup_seqZ].
  intros x y Hx%elem_of_seqZ Hy%elem_of_seqZ. unfold wrap. intros E.
  assert (((x - y) mod 2 ^ bits w) = 0) as Hd.
  { replace (x - y) with ((v + x) - (v + y)) by lia. rewrite Zminus_mod, E, Z.sub_diag. by apply Z.mod_0_l; destruct w. }
  apply Z.mod_divide in Hd as [q Hq]; [|by destruct w]. assert (q = 0) by nia. lia.
Qed.

(** A flag: of all who try to raise it only the first does. *)
Lemma replay_raised w n : (replay w 1 (replicate n (CompareExchange 0 1))) = (1, replicate n 0).
Proof. induction n as [|n IH]; [done|]. cbn [replicate replay effect]. change (1 =? 0) with false. cbn match. by rewrite IH. Qed.

Lemma replay_raise w n : replay w 0 (replicate (S n) (CompareExchange 0 1)) = (1, 1 :: replicate n 0).
Proof.
  cbn [replicate replay effect]. change (0 =? 0) with true. cbn match.
  replace (wrap w 1) with 1 by by destruct w. by rewrite replay_raised.
Qed.

Lemma merged_forall w a m0 progs c (P : atomic_op → Prop) : merged w a m0 progs c →
  map_Forall (λ _ os, Forall P os) progs → Forall P (ops (history c)).
Proof.
  intros Hm HP. apply Forall_fmap, Forall_forall. intros e He. cbn.
  destruct (mg_from _ _ _ _ _ Hm e He) as (os & Hi & Ho). by eapply Forall_forall; [apply (HP _ _ Hi)|].
Qed.

Lemma forall_replicate {A} (x : A) l : Forall (eq x) l → l = replicate (length l) x.
Proof. induction 1 as [|y l <- _ IH]; [done|]. cbn. by rewrite <- IH. Qed.

(** ** Every schedule can be completed *)
Definition left_over (c : config) : nat := map_fold (λ _ (os : list atomic_op) n, length os + n)%nat 0%nat (todo c).

Lemma left_over_insert i o os m t h m' h' : t !! i = Some (o :: os) →
  left_over (mkConfig m t h) = S (left_over (mkConfig m' (<[i := os]> t) h')).
Proof.
  intros Hi. unfold left_over. cbn [todo]. rewrite <- (insert_delete_id t i (o :: os) Hi) at 1.
  rewrite <- (insert_delete_eq t i os), !map_fold_insert_L; [cbn; lia|..];
    try apply lookup_delete_eq; intros; cbn; lia.
Qed.

Lemma step_or_done w a c : (∃ c', step w a c c' ∧ left_over c = S (left_over c')) ∨
  map_Forall (λ _ os, os = []) (todo c).
Proof.
  destruct c as [m t h]. cbn [todo].
  destruct (decide (map_Forall (λ _ os, os = []) t)) as [H|H]; [by right|left].
  apply map_not_Forall in H as (i & os & Hi & Hos); [|apply _].
  destruct os as [|o os]; [done|]. destruct (run_op w a o m) as [m' r] eqn:E.
  eexists. split; [by eapply step_actor|]. by apply left_over_insert with (o := o).
Qed.

Lemma completes w a c : ∃ c', rtc (step w a) c c' ∧ map_Forall (λ _ os, os = []) (todo c').
Proof.
  remember (left_over c) as n eqn:En. revert c En. induction n as [|n IH]; intros c En;
    destruct (step_or_done w a c) as [(c' & Hs & El)|Hd]; try (by exists c); [lia|].
  destruct (IH c' ltac:(lia)) as (c'' & Hr & Hc). exists c''. split; [by eapply rtc_l|done].
Qed.

(** C38: operations of any number of tasks and handlers on one cell, in whatever order they are
    scheduled, behave as one sequential run of a merge of the programs, at every width, touch no
    other byte, and can always be carried to the end; additions add up to their sum modulo the
    width, increments hand out distinct tickets as long as there are at most [2 ^ bits] of them, and
    of all the [compare_exchange(0, 1)] on a cleared flag exactly one succeeds.  [exchange] is taken with
    its operand in [eax]. *)
Theorem atomic_interleavings w a m0 progs c :
  rtc (step w a) (mkConfig m0 progs []) c →
  replay w (mov_load w m0 a) (ops (history c)) = (mov_load w (cells c) a, results (history c)) ∧
  (∀ i os, progs !! i = Some os → ∃ rest, todo c !! i = Some rest ∧ os = ops_of i (history c) ++ rest) ∧
  (∀ b, ¬ in_block b a (bits w / 8) → load8 (cells c) b = load8 m0 b) ∧
  (∃ c', rtc (step w a) c c' ∧ ∀ i os, progs !! i = Some os → ops_of i (history c') = os) ∧
  (∀ ds, mapM increment (ops (history c)) = Some ds →
    mov_load w (cells c) a = wrap w (mov_load w m0 a + foldr Z.add 0 ds)) ∧
  (map_Forall (λ _ os, Forall (eq (FetchAdd 1)) os) progs → Z.of_nat (length (history c)) ≤ 2 ^ bits w →
    NoDup (results (history c))) ∧
  (map_Forall (λ _ os, Forall (eq (CompareExchange 0 1)) os) progs → mov_load w m0 a = 0 → history c ≠ [] →
    results (history c) = 1 :: replicate (pred (length (history c))) 0).
Proof.
  intros Hr. pose proof (merged_reachable w a m0 progs c Hr) as Hm. pose proof Hm as [H1 H2 _ _ H5].
  assert (Hlen : length (ops (history c)) = length (history c)) by apply length_fmap.
  split; [done|]. split; [done|]. split; [done|]. split; [|split; [|split]].
  - destruct (completes w a c) as (c' & Hr' & Hd). exists c'. split; [done|]. intros i os Hi.
    destruct (mg_todo _ _ _ _ _ (merged_reachable w a m0 progs c' ltac:(by etrans)) i os Hi) as (rest & Ht & ->).
    rewrite (Hd i rest Ht). by rewrite app_nil_r.
  - intros ds Hds. rewrite <- (replay_additions w _ _ _ Hds (mov_load_range w m0 a)). by rewrite H1.
  - intros HP Hn. apply (merged_forall _ _ _ _ _ _ Hm), forall_replicate in HP. rewrite HP in H1.
    apply (f_equal snd) in H1. rewrite replay_tickets in H1 by apply mov_load_range. cbn [snd] in H1.
    rewrite <- H1, Hlen. by apply tickets_distinct.
  - intros HP Hz Hne. apply (merged_forall _ _ _ _ _ _ Hm), forall_replicate in HP. rewrite HP, Hlen, Hz in H1.
    destruct (history c) as [|e h]; [done|]. cbn [length] in *. rewrite replay_raise in H1. symmetry. exact (f_equal snd H1).
Qed.

(** A task, another task and an interrupt handler race for a byte at 0x1000. *)
Definition race_progs : gmap nat (list atomic_op) :=
  <[0%nat := [CompareExchange 0 1]]> (<[1%nat := [CompareExchange 0 1]]> (<[2%nat := [CompareExchange 0 1]]> ∅)).
Definition race_end : config := schedule Byte 0x1000 [1; 0; 2]%nat (mkConfig ∅ race_progs []).

Lemma atomic_interleavings_witness : results (history race_end) = [1; 0; 0].
Proof.
  refine (proj2 (proj2 (proj2 (proj2 (proj2 (proj2 (atomic_interleavings Byte 0x1000 ∅ race_progs race_end _)))))) _ _ _).
  - apply schedule_reachable.
  - apply map_Forall_to_list. repeat constructor.
  - reflexivity.
  - intros E. vm_compute in E. discriminate.
Defined.
