(* ===== verification/Scheduler.v ===== *)
(** * The cooperative scheduler

    [kernel/sched]: tasks, their creation, the switch between them, the loop of
    the scheduler task and the removal of finished tasks.  The machine runs one
    task at a time; a suspended task is described by the place in its code where
    it will resume and by the interrupt flag [pushfl] saved for it.  The stacks
    and the objects come from a [KernelHeap]. *)
From stdpp Require Import base functions tactics numbers list gmap strings relations.
From S2P Require Import Prelude MemUtils CString ForwardList CircularList Irq Buddy PageProvider KernelHeap.

(** ** Tasks

    [place]: a task that has only the frame laid down by [create_task], one inside
    its routine, one in or behind [handle_exit]; the scheduler task at the top of
    its endless loop, or inside the for loop behind the switch to a task. *)
Inductive place : Type :=
  | Fresh
  | InRoutine
  | Exiting
  | LoopTop
  | InLoop (it : ring_iterator) (end_node : Z).

Record Task : Type := mkTask {
  _routine : Z; _arg : Z; _id : Z; _exited : bool; _stack : Z; _esp : Z;
  resume_place : place; saved_if : bool
}.

Definition stack_pages : Z := 16.

(** [Task::_tasks_list_node] and [Task::_name] by their offsets in the object. *)
Definition tasks_list_node (task : Z) : Z := task + 36.
Definition name_at (task : Z) : Z := task + 20.
Definition task_size : Z := 56.

(** A node of [_finished_tasks]: the table of its virtual functions, the link and the value. *)
Definition finished_node_size : Z := 12.

Definition Task_name (this name : Z) (m : mem) : mem :=
  store8 (strncpy m (name_at this) name 15) (name_at this + 15) 0.

Definition set_exited (t : Task) : Task :=
  mkTask (_routine t) (_arg t) (_id t) true (_stack t) (_esp t) (resume_place t) (saved_if t).
Definition set_esp (esp : Z) (t : Task) : Task :=
  mkTask (_routine t) (_arg t) (_id t) (_exited t) (_stack t) esp (resume_place t) (saved_if t).
Definition suspend_at (at_ : place) (f : bool) (t : Task) : Task :=
  mkTask (_routine t) (_arg t) (_id t) (_exited t) (_stack t) (_esp t) at_ f.

(** ** The frame of a new task *)
Record NewTaskStack : Type := mkNewTaskStack {
  ebp2 : Z; frame_flags : Z; ebp1 : Z; frame_eip : Z; frame_task : Z
}.

Definition NewTaskStack_size : Z := 20.

Definition store_frame (m : mem) (p : Z) (f : NewTaskStack) : mem :=
  store32 (store32 (store32 (store32 (store32 m (p + 12) (frame_eip f)) (p + 16) (frame_task f))
    (p + 8) (ebp1 f)) p (ebp2 f)) (p + 4) (frame_flags f).

Definition load_frame (m : mem) (p : Z) : NewTaskStack :=
  mkNewTaskStack (load32 m p) (load32 m (p + 4)) (load32 m (p + 8)) (load32 m (p + 12))
    (load32 m (p + 16)).

(** The flags register: bit 9 is the interrupt flag, the other bits are whatever
    the processor holds. *)
Definition processor_flags (other : Z) (f : bool) : Z :=
  if f then Z.setbit other 9 else Z.clearbit other 9.

(** *** The frame in memory *)
Lemma store_frame_outside m p f a : ¬ in_block a p NewTaskStack_size →
  load8 (store_frame m p f) a = load8 m a.
Proof. unfold NewTaskStack_size. intros Ha. unfold store_frame. by rewrite !load8_store32_ne by lia. Qed.

Lemma load_store_frame m p f :
  load_frame (store_frame m p f) p =
  mkNewTaskStack (u32 (ebp2 f)) (u32 (frame_flags f)) (u32 (ebp1 f)) (u32 (frame_eip f)) (u32 (frame_task f)).
Proof.
  unfold load_frame, store_frame.
  f_equal; repeat (rewrite load32_store32_eq || rewrite load32_store32_ne by lia); done.
Qed.

Lemma load_frame_ext m m' p : (∀ a, in_block a p NewTaskStack_size → load8 m' a = load8 m a) →
  load_frame m' p = load_frame m p.
Proof.
  unfold NewTaskStack_size. intros H. unfold load_frame, load32. by rewrite !H by lia.
Qed.

Lemma Task_name_outside this name m a : 0 ≤ this → this + task_size < 2 ^ 32 →
  ¬ in_block a this task_size → load8 (Task_name this name m) a = load8 m a.
Proof.
  unfold Task_name, name_at, task_size. intros H0 H1 Ha.
  rewrite load8_store8_ne by lia. apply strncpy_outside; lia.
Qed.

(** ** The scheduler *)
Section Scheduler.
Context {W : Type} `{KH : KernelHeap W}.

(** The address of [Task::start_on_new_frame] and of the scheduler's routine. *)
Context (start_on_new_frame scheduling_task_routine : Z).
(** What the compiler lays out. *)
Context (sizeof_Scheduler : Z).

Record sched_state : Type := mkSched {
  irqs : irq_state;
  _tasks : circular_list;
  _finished_tasks : forward_list Z;
  task_objects : gmap Z Task;
  _scheduler_task : Z;
  _current : Z;
  next_task_id : Z;
  heap : W
}.

Abbreviation sched_prog := (prog sched_state).

Definition put_irqs (i : irq_state) (s : sched_state) : sched_state :=
  mkSched i (_tasks s) (_finished_tasks s) (task_objects s) (_scheduler_task s) (_current s)
    (next_task_id s) (heap s).
Definition put_tasks (r : circular_list) (s : sched_state) : sched_state :=
  mkSched (irqs s) r (_finished_tasks s) (task_objects s) (_scheduler_task s) (_current s)
    (next_task_id s) (heap s).
Definition put_finished (l : forward_list Z) (s : sched_state) : sched_state :=
  mkSched (irqs s) (_tasks s) l (task_objects s) (_scheduler_task s) (_current s)
    (next_task_id s) (heap s).
Definition put_objects (o : gmap Z Task) (s : sched_state) : sched_state :=
  mkSched (irqs s) (_tasks s) (_finished_tasks s) o (_scheduler_task s) (_current s)
    (next_task_id s) (heap s).
Definition put_scheduler_task (t : Z) (s : sched_state) : sched_state :=
  mkSched (irqs s) (_tasks s) (_finished_tasks s) (task_objects s) t (_current s)
    (next_task_id s) (heap s).
Definition put_current (t : Z) (s : sched_state) : sched_state :=
  mkSched (irqs s) (_tasks s) (_finished_tasks s) (task_objects s) (_scheduler_task s) t
    (next_task_id s) (heap s).
Definition put_next_id (n : Z) (s : sched_state) : sched_state :=
  mkSched (irqs s) (_tasks s) (_finished_tasks s) (task_objects s) (_scheduler_task s) (_current s)
    n (heap s).
Definition put_heap (w : W) (s : sched_state) : sched_state :=
  mkSched (irqs s) (_tasks s) (_finished_tasks s) (task_objects s) (_scheduler_task s) (_current s)
    (next_task_id s) w.

Definition on_irq {A} : irq_prog A → sched_prog A := zoom irqs put_irqs.
Definition on_tasks {A} : prog circular_list A → sched_prog A := zoom _tasks put_tasks.
Definition on_finished {A} : prog (forward_list Z) A → sched_prog A := zoom _finished_tasks put_finished.
Definition on_heap {A} : prog W A → sched_prog A := zoom heap put_heap.
Definition on_mem (f : mem → mem) : sched_prog unit :=
  modify (λ s, put_heap (set_heap_mem (f (heap_mem (heap s))) (heap s)) s).

Definition task_at (p : Z) : sched_prog Task := λ s,
  match task_objects s !! p with
  | Some t => Done (t, s)
  | None => Fault "access to a task that does not exist"
  end.

Definition update_task (p : Z) (f : Task → Task) : sched_prog unit :=
  t ← task_at p; modify (λ s, put_objects (<[p := f t]> (task_objects s)) s).

(** ** Creation *)
Definition allocate_task_id : sched_prog Z :=
  n ← gets next_task_id; modify (put_next_id (u32 (n + 1))) ;; mret n.

(** The constructor of [Task] on the object at [this].  It does not test what
    [alloc_pages] returns before it adds to the pointer. *)
Definition Task_new (this routine arg name : Z) : sched_prog unit :=
  id ← allocate_task_id;
  stack ← on_heap (heap_alloc_pages stack_pages);
  if stack =? nullptr then fault null_stack
  else
    modify (λ s, put_objects
      (<[this := mkTask routine arg id false stack (u32 (stack + PAGE_SIZE * stack_pages)) Fresh false]>
         (task_objects s)) s) ;;
    on_tasks (modify (λ r, mkCircular (_some r)
      (<[tasks_list_node this := mkListNode this nullptr nullptr]> (ring_nodes r)))) ;;
    on_mem (Task_name this name).

(** [flags]: the other bits of the flags register. *)
Definition create_task (flags routine arg name : Z) : sched_prog Z :=
  new_task ← on_heap (new_object task_size);
  Task_new new_task routine arg name ;;
  on_tasks (ring_insert tasks_list_node new_task) ;;
  t ← task_at new_task;
  f ← gets (λ s, if_flag (irqs s));
  let new_task_stack := u32 (_esp t - NewTaskStack_size) in
  let ebp := u32 (_stack t - 8) in
  on_mem (λ m, store_frame m new_task_stack
    (mkNewTaskStack ebp (processor_flags flags f) ebp start_on_new_frame new_task)) ;;
  update_task new_task (set_esp new_task_stack) ;;
  mret new_task.

(** ** The switch *)

(** [Task::run] up to the call of the routine. *)
Definition run (task : Z) : sched_prog unit :=
  t ← task_at task;
  on_irq enable ;;
  update_task task (λ t, suspend_at InRoutine (saved_if t) t).

(** [popfl] *)
Definition popfl (f : bool) : sched_prog unit :=
  modify (λ s, put_irqs (mkIrq f (interrupts_enabled (irqs s))) s).

(** What the processor does once the stack of [next] is loaded.  A task that ran
    before resumes inside its own [switch_to]; a fresh one returns from the frame
    of [create_task] into [start_on_new_frame], which calls [run] on the task
    below. *)
Definition resume (next : Z) : sched_prog unit :=
  t ← task_at next;
  match resume_place t with
  | Fresh =>
      fr ← gets (λ s, load_frame (heap_mem (heap s)) (_esp t));
      popfl (Z.testbit (frame_flags fr) 9) ;;
      (if frame_eip fr =? start_on_new_frame then run (frame_task fr)
       else fault "return to an address that is no code")
  | _ => popfl (saved_if t) ;; on_irq enable
  end.

(** [at_] is the place of the caller. *)
Definition switch_tasks_impl (at_ : place) (prev next : Z) : sched_prog unit :=
  f ← gets (λ s, if_flag (irqs s));
  update_task prev (suspend_at at_ f) ;;
  resume next.

Definition switch_to (at_ : place) (task : Z) : sched_prog unit :=
  enabled ← on_irq is_enabled;
  if negb enabled then panic "switching while interrupts are disabled"
  else
    on_irq disable ;;
    prev ← gets _current;
    modify (put_current task) ;;
    switch_tasks_impl at_ prev task.

Definition yield (at_ : place) : sched_prog unit :=
  t ← gets _scheduler_task; switch_to at_ t.

(** ** The end of a task *)

(** [push_front] asks the allocator of the list for a node. *)
Definition handle_exit (task : Z) : sched_prog unit :=
  e ← on_irq irq_lock;
  fresh ← on_heap (new_array finished_node_size);
  on_finished (push_front fresh task) ;;
  on_irq (irq_unlock e) ;;
  yield Exiting.

(** [Task::run] after the routine has returned. *)
Definition exit_task : sched_prog unit :=
  task ← gets _current;
  update_task task set_exited ;;
  handle_exit task.

(** The loop at the end of [Task::run]. *)
Definition exit_loop : sched_prog unit := yield Exiting.

(** ** The loop of the scheduler *)
Definition should_schedule (task : Z) : sched_prog bool :=
  st ← gets _scheduler_task;
  if task =? st then mret false else t ← task_at task; mret (negb (_exited t)).

(** [delete task_ptr] *)
Definition Task_delete (task : Z) : sched_prog unit :=
  t ← task_at task;
  on_heap (heap_free_pages (_stack t)) ;;
  modify (λ s, put_objects (delete task (task_objects s)) s) ;;
  on_tasks (modify (λ r, mkCircular (_some r) (delete (tasks_list_node task) (ring_nodes r)))) ;;
  on_heap (operator_delete task).

(** The for loop over [_finished_tasks] from the node at [p]. *)
Fixpoint delete_finished (fuel : nat) (p : Z) : sched_prog unit :=
  match fuel with
  | O => no_fuel
  | S n =>
      if p =? nullptr then mret tt
      else
        node ← on_finished (node_at p);
        on_tasks (ring_remove tasks_list_node (value_ node)) ;;
        Task_delete (value_ node) ;;
        next_p ← on_finished (next_of (Node p));
        delete_finished n next_p
  end.

(** [_finished_tasks.clear()] *)
Fixpoint clear_finished (fuel : nat) : sched_prog unit :=
  match fuel with
  | O => no_fuel
  | S n =>
      e ← on_finished list_is_empty;
      if (e : bool) then mret tt
      else
        erased ← on_finished (basic_erase_after before_begin);
        on_finished (deallocate_node erased) ;;
        on_heap (delete_array erased) ;;
        clear_finished n
  end.

Definition handle_finished_tasks (fuel : nat) : sched_prog unit :=
  e ← on_irq irq_lock;
  p ← on_finished list_begin;
  delete_finished fuel p ;;
  clear_finished fuel ;;
  on_irq (irq_unlock e).

(** The for loop from an iterator to the next switch (true) or to its end. *)
Fixpoint for_tasks (fuel : nat) (it : ring_iterator) (end_node : Z) : sched_prog bool :=
  match fuel with
  | O => no_fuel
  | S n =>
      if not_at_end it end_node then
        task_ptr ← on_tasks (it_deref it);
        ok ← should_schedule task_ptr;
        if (ok : bool) then
          on_irq enable ;; switch_to (InLoop it end_node) task_ptr ;; mret true
        else it' ← on_tasks (it_incr it); for_tasks n it' end_node
      else mret false
  end.

(** Behind the for loop: the end of the round. *)
Definition end_of_round (fuel : nat) (switched : bool) : sched_prog unit :=
  if switched then mret tt
  else
    handle_finished_tasks fuel ;;
    on_irq enable ;;
    t ← gets _scheduler_task; update_task t (λ t, suspend_at LoopTop (saved_if t) t).

(** One stretch of [schedule_forever]: from where the scheduler task stands to
    its next switch, or to the end of the round. *)
Definition schedule_step (fuel : nat) : sched_prog unit :=
  t ← gets _scheduler_task; t ← task_at t;
  match resume_place t with
  | InLoop it end_node =>
      on_irq disable ;;
      it' ← on_tasks (it_incr it);
      switched ← for_tasks fuel it' end_node; end_of_round fuel switched
  | _ =>
      on_irq disable ;;
      it ← on_tasks ring_begin; end_node ← on_tasks ring_end;
      switched ← for_tasks fuel it end_node; end_of_round fuel switched
  end.

(** ** The start *)

(** The constructor on the object at [this]. *)
Definition Scheduler_new (flags main_continuation scheduler_name main_name this : Z) : sched_prog unit :=
  modify (λ s, mkSched (irqs s) (mkCircular nullptr ∅) forward_list_empty (task_objects s) nullptr nullptr
                 (next_task_id s) (heap s)) ;;
  e ← on_irq irq_lock;
  (if main_continuation =? nullptr then panic "no main specified"
   else
     scheduler_task ← create_task flags scheduling_task_routine this scheduler_name;
     modify (put_scheduler_task scheduler_task) ;;
     create_task flags main_continuation nullptr main_name ;;
     modify (put_current scheduler_task)) ;;
  on_irq (irq_unlock e).

(** [start_scheduling] up to the endless loop. *)
Definition start_scheduling : sched_prog unit :=
  t ← gets _scheduler_task;
  switch_to LoopTop t ;;
  enabled ← on_irq is_enabled;
  if negb enabled then panic "started scheduling with blocked interrupts" else mret tt.

Definition init_scheduling (flags main_continuation scheduler_name main_name : Z) : sched_prog unit :=
  this ← on_heap (new_object sizeof_Scheduler);
  Scheduler_new flags main_continuation scheduler_name main_name this ;;
  start_scheduling.

(** * Verification *)

(** ** Single operations *)
Lemma zoom_done {T A} (get : sched_state → T) put (p : prog T A) s a t :
  p (get s) = Done (a, t) → zoom get put p s = Done (a, put t s).
Proof. intros H. unfold zoom. by rewrite H. Qed.

Lemma task_at_done s p t : task_objects s !! p = Some t → task_at p s = Done (t, s).
Proof. intros H. unfold task_at. by rewrite H. Qed.

Lemma update_task_done s p t f : task_objects s !! p = Some t →
  update_task p f s = Done (tt, put_objects (<[p := f t]> (task_objects s)) s).
Proof. intros H. unfold update_task. by rewrite (bind_done _ _ _ _ _ (task_at_done _ _ _ H)). Qed.

(** Interrupts are on and the shadow says so. *)
Definition irqs_on (s : sched_state) : Prop := irqs s = mkIrq true true.

(** A fresh task: its frame leads into [run] on the task itself. *)
Definition fresh_frame (m : mem) (p : Z) (t : Task) : Prop :=
  _esp t = _stack t + PAGE_SIZE * stack_pages - NewTaskStack_size ∧
  frame_eip (load_frame m (_esp t)) = start_on_new_frame ∧
  frame_task (load_frame m (_esp t)) = p.

Definition runnable_frame (m : mem) (p : Z) (t : Task) : Prop :=
  resume_place t = Fresh → fresh_frame m p t.

(** The task after [resume]: a fresh one has entered its routine. *)
Definition resumed (t : Task) : Task :=
  match resume_place t with Fresh => suspend_at InRoutine (saved_if t) t | _ => t end.

Lemma resume_done s next t : task_objects s !! next = Some t →
  runnable_frame (heap_mem (heap s)) next t →
  resume next s = Done (tt, put_objects (<[next := resumed t]> (task_objects s))
                              (put_irqs (mkIrq true true) s)).
Proof.
  intros Ht Hf. unfold resume. rewrite (bind_done _ _ _ _ _ (task_at_done _ _ _ Ht)).
  unfold resumed. destruct (resume_place t) eqn:E;
    try (rewrite insert_id by exact Ht; destruct s as [[]]; reflexivity).
  destruct (Hf E) as (_ & Heip & Htask). rewrite gets_bind. unfold popfl. rewrite modify_bind.
  rewrite Heip, Z.eqb_refl, Htask. unfold run.
  rewrite (bind_done _ _ _ t _) by (by apply task_at_done).
  rewrite (bind_done (on_irq enable) _ _ tt (put_irqs (mkIrq true true) s)).
  2:{ destruct s as [[]]; reflexivity. }
  by rewrite (update_task_done _ _ t) by done.
Qed.

(** The switch: the caller is suspended with interrupts off, the callee runs
    with interrupts on. *)
Lemma switch_to_done s at_ c tp t : irqs_on s → at_ ≠ Fresh →
  task_objects s !! _current s = Some tp →
  <[_current s := suspend_at at_ false tp]> (task_objects s) !! c = Some t →
  runnable_frame (heap_mem (heap s)) c t →
  switch_to at_ c s = Done (tt, put_objects
    (<[c := resumed t]> (<[_current s := suspend_at at_ false tp]> (task_objects s)))
    (put_current c s)).
Proof.
  unfold irqs_on. intros Hi Hat Hp Hc Hf. unfold switch_to.
  rewrite (bind_done _ _ _ true s).
  2:{ unfold on_irq, zoom. rewrite Hi. destruct s; cbn in *. by subst. }
  cbn [negb]. rewrite (bind_done _ _ _ true (put_irqs (mkIrq false false) s)).
  2:{ unfold on_irq, zoom. by rewrite Hi. }
  rewrite gets_bind, modify_bind. unfold switch_tasks_impl. rewrite gets_bind.
  erewrite bind_done; [|apply (update_task_done _ _ tp); exact Hp].
  rewrite (resume_done _ c t) by done. destruct s; cbn in *. by rewrite Hi.
Qed.

(** ** The standing invariant

    [ts]: the tasks in ring order, [al] and [os]: the page blocks and the objects of
    the heap.  Every task object is in the ring and has a stack of its own, and the
    frames of the fresh tasks are intact. *)
Record sched_static (s : sched_state) (ts : list Z) (al os : gmap Z Z) : Prop := {
  st_ring : ring (_tasks s) (tasks_list_node <$> ts);
  st_nodes : ∀ x, x ∈ dom (ring_nodes (_tasks s)) ↔ x ∈ tasks_list_node <$> ts;
  st_owner : ∀ t, t ∈ ts → owner <$> ring_nodes (_tasks s) !! tasks_list_node t = Some t;
  st_objects : ∀ t, t ∈ dom (task_objects s) ↔ t ∈ ts;
  st_nodup : NoDup ts;
  st_heap : heap_rep (heap s) al os;
  st_memory : ∀ t, t ∈ ts → os !! t = Some task_size;
  st_stack : ∀ p t, task_objects s !! p = Some t → al !! _stack t = Some stack_pages;
  st_stack_inj : ∀ p q t u, task_objects s !! p = Some t → task_objects s !! q = Some u →
    _stack t = _stack u → p = q;
  st_frame : ∀ p t, task_objects s !! p = Some t → runnable_frame (heap_mem (heap s)) p t
}.

Lemma st_range s ts al os t : sched_static s ts al os → t ∈ ts → 0 < t ∧ t + task_size < 2 ^ 32.
Proof. intros H Ht. apply (heap_rep_object (heap s) al os t task_size); by apply H. Qed.

Lemma static_eq s s' ts al os : _tasks s' = _tasks s → task_objects s' = task_objects s →
  heap s' = heap s → sched_static s ts al os → sched_static s' ts al os.
Proof.
  intros E1 E2 E3 []. split; rewrite ?E1, ?E2, ?E3; done.
Qed.

Lemma static_update s ts al os p t t' : sched_static s ts al os → task_objects s !! p = Some t →
  _stack t' = _stack t → runnable_frame (heap_mem (heap s)) p t' →
  sched_static (put_objects (<[p := t']> (task_objects s)) s) ts al os.
Proof.
  intros [] Ht Hs Hpl.
  assert (Hold : ∀ q u, <[p := t']> (task_objects s) !! q = Some u →
    ∃ u0, task_objects s !! q = Some u0 ∧ _stack u = _stack u0 ∧
      (u = u0 ∨ q = p ∧ u = t')).
  { intros q u. destruct (decide (q = p)) as [->|].
    - rewrite lookup_insert_eq. intros [= <-]. exists t. auto.
    - rewrite lookup_insert_ne by done. intros. exists u. auto. }
  split; cbn [_tasks task_objects heap put_objects]; try done.
  - intros q. rewrite dom_insert_L, <- st_objects0.
    assert (p ∈ dom (task_objects s)) by (by apply elem_of_dom_2 in Ht). set_solver.
  - intros q u (u0 & Hu & -> & _)%Hold. eauto.
  - intros q r u v (u0 & Hu & -> & _)%Hold (v0 & Hv & -> & _)%Hold. eauto.
  - intros q u (u0 & Hu & _ & [->|[-> ->]])%Hold; eauto.
Qed.

Lemma static_task s ts al os t : sched_static s ts al os → t ∈ ts → ∃ T, task_objects s !! t = Some T.
Proof. intros H Ht. by apply (st_objects _ _ _ _ H), elem_of_dom in Ht. Qed.

Lemma static_length s ts al os : sched_static s ts al os → Z.of_nat (length ts) < 2 ^ 32.
Proof.
  intros H. assert (Hle : (length ts ≤ length (seqZ 1 (2 ^ 32 - 1)))%nat).
  { apply submseteq_length, NoDup_submseteq; [apply (st_nodup _ _ _ _ H)|].
    intros t Ht. destruct (st_range _ _ _ _ t H Ht). unfold task_size in *.
    apply elem_of_seqZ. lia. }
  rewrite length_seqZ in Hle. lia.
Qed.

(** ** The for loop *)

(** The loop skips the scheduler itself and what has finished. *)
Definition skipped (s : sched_state) (c : Z) : Prop :=
  c = _scheduler_task s ∨ ∃ t, task_objects s !! c = Some t ∧ _exited t = true.
Definition eligible (s : sched_state) (c : Z) : Prop :=
  c ≠ _scheduler_task s ∧ ∃ t, task_objects s !! c = Some t ∧ _exited t = false.

Lemma should_schedule_done s ts al os c : sched_static s ts al os → c ∈ ts →
  ∃ b, should_schedule c s = Done (b, s) ∧ (if b then eligible s c else skipped s c).
Proof.
  intros H Hc. destruct (static_task _ _ _ _ _ H Hc) as [t Ht].
  unfold should_schedule. rewrite gets_bind. destruct (Z.eqb_spec c (_scheduler_task s)) as [->|Hne].
  - exists false. split; [done|]. by left.
  - rewrite (bind_done _ _ _ _ _ (task_at_done _ _ _ Ht)). exists (negb (_exited t)). split; [done|].
    destruct (_exited t) eqn:E; [right|split; [done|]]; by exists t.
Qed.

Lemma on_tasks_read {A} (p : prog circular_list A) s a :
  p (_tasks s) = Done (a, _tasks s) → on_tasks p s = Done (a, s).
Proof. intros H. unfold on_tasks. rewrite (zoom_done _ _ _ _ _ _ H). by destruct s. Qed.

(** The iterator on the first of [cs], or behind the last task. *)
Definition iterator_at (s : sched_state) (it : ring_iterator) (pre cs : list Z) : Prop :=
  it_node it = tasks_list_node (match cs with [] => _scheduler_task s | c :: _ => c end) ∧
  (pre = [] → it_shift it = 0) ∧ (pre ≠ [] → 1 ≤ it_shift it) ∧
  0 ≤ it_shift it ∧ it_shift it + Z.of_nat (length cs) < 2 ^ 32.

Lemma node_inj : Inj (=) (=) tasks_list_node.
Proof. intros x y. unfold tasks_list_node. lia. Qed.

(** One step of the iterator inside the ring. *)
Lemma iterator_step s ts al os pre c cs it : sched_static s ts al os → head ts = Some (_scheduler_task s) →
  ts = pre ++ c :: cs → iterator_at s it pre (c :: cs) →
  not_at_end it (tasks_list_node (_scheduler_task s)) = true ∧
  on_tasks (it_deref it) s = Done (c, s) ∧
  ∃ it', on_tasks (it_incr it) s = Done (it', s) ∧ iterator_at s it' (pre ++ [c]) cs.
Proof.
  intros H Hh -> (Hn & H0 & H1 & Hs & Hl). simpl in Hl.
  pose proof (st_nodup _ _ _ _ H) as Hnd.
  assert (Hc : c ∈ pre ++ c :: cs) by (apply elem_of_app; right; by left).
  assert (Hdom : tasks_list_node c ∈ dom (ring_nodes (_tasks s))).
  { apply (st_nodes _ _ _ _ H). by apply list_elem_of_fmap_2. }
  destruct (ring_node_done _ _ Hdom) as (n & E & Hnx & _ & Hlook).
  pose proof (st_owner _ _ _ _ H c Hc) as Ho. rewrite Hlook in Ho. injection Ho as Ho.
  split_and!.
  - unfold not_at_end, has_shifted. rewrite Hn. destruct pre as [|x pre].
    + rewrite H0 by done. by rewrite andb_comm.
    + destruct (Z.eqb_spec (tasks_list_node c) (tasks_list_node (_scheduler_task s))) as [Heq|]; [|done].
      apply node_inj in Heq. simpl in Hh. injection Hh as ->. exfalso.
      rewrite Heq in Hnd. apply NoDup_cons in Hnd as [Hx _]. apply Hx, elem_of_app. right. by left.
  - apply on_tasks_read. unfold it_deref. rewrite Hn, (bind_done _ _ _ _ _ E). by rewrite Ho.
  - exists (mkRingIterator (node_next n) (u32 (it_shift it + 1))). split.
    + apply on_tasks_read. unfold it_incr. by rewrite Hn, (bind_done _ _ _ _ _ E).
    + unfold iterator_at. cbn [it_node it_shift]. rewrite u32_small by lia.
      split_and!; [|by destruct pre|lia..].
      pose proof (st_ring _ _ _ _ H) as Hr. rewrite fmap_app, fmap_cons in Hr.
      assert (Hp : path (nxt (ring_nodes (_tasks s))) (prv (ring_nodes (_tasks s)))
        (tasks_list_node c :: (tasks_list_node <$> cs) ++ [tasks_list_node (_scheduler_task s)])).
      { destruct pre as [|x pre]; simpl in Hh; injection Hh as ->; simpl in Hr;
          destruct Hr as (_ & _ & _ & Hr); [exact Hr|].
        rewrite <- app_assoc in Hr.
        by apply (path_app _ _ (_ :: (tasks_list_node <$> pre))) in Hr as [_ Hr]. }
      assert (Hp' : nxt (ring_nodes (_tasks s)) (tasks_list_node c) =
        Some (tasks_list_node (match cs with [] => _scheduler_task s | c :: _ => c end))).
      { destruct cs; by apply path_nxt in Hp as [? _]. }
      rewrite Hnx in Hp'. by injection Hp'.
Qed.

Lemma for_tasks_done s ts al os : sched_static s ts al os → head ts = Some (_scheduler_task s) →
  let e := tasks_list_node (_scheduler_task s) in
  ∀ cs pre it fuel, ts = pre ++ cs → iterator_at s it pre cs → (length cs < fuel)%nat →
  (∃ sk c l2 it', cs = sk ++ c :: l2 ∧ Forall (skipped s) sk ∧ eligible s c ∧
     iterator_at s it' (pre ++ sk) (c :: l2) ∧
     for_tasks fuel it e s =
       (on_irq enable ;; switch_to (InLoop it' e) c ;; mret true) s) ∨
  (Forall (skipped s) cs ∧ for_tasks fuel it e s = Done (false, s)).
Proof.
  intros H Hh e. induction cs as [|c cs IH]; intros pre it fuel Hts Hit Hf;
    (destruct fuel as [|fuel]; [lia|]); cbn [for_tasks].
  - right. split; [done|]. destruct Hit as (Hn & _ & H1 & _).
    assert (pre ≠ []) as Hpre by (intros ->; by subst ts). specialize (H1 Hpre).
    unfold not_at_end, has_shifted. rewrite Hn. fold e. rewrite Z.eqb_refl.
    by destruct (Z.eqb_spec (it_shift it) 0); [lia|].
  - destruct (iterator_step _ _ _ _ _ _ _ _ H Hh Hts Hit) as (Hne & E1 & it' & E2 & Hit').
    fold e in Hne. rewrite Hne.
    rewrite (bind_done _ _ _ _ _ E1).
    destruct (should_schedule_done s ts al os c H) as (b & E3 & Hb).
    { subst ts. apply elem_of_app. right. by left. }
    rewrite (bind_done _ _ _ _ _ E3). destruct b.
    + left. exists [], c, cs, it. rewrite app_nil_r. split_and!; done.
    + rewrite (bind_done _ _ _ _ _ E2). simpl in Hf.
      destruct (IH (pre ++ [c]) it' fuel) as [(sk & c' & l2 & it2 & -> & Hsk & Hc' & Hit2 & E)|[Hsk E]];
        [by rewrite <- app_assoc|done|lia|left|right].
      * exists (c :: sk), c', l2, it2. rewrite <- app_assoc in Hit2. split_and!; try done. by constructor.
      * split; [by constructor|done].
Qed.

(** ** The invariant of the running system *)

(** [cs]: what the scheduler's for loop has still to visit. *)
Definition remaining (s : sched_state) (ts cs : list Z) : Prop :=
  ∃ T, task_objects s !! _scheduler_task s = Some T ∧
    ((resume_place T = LoopTop ∧ cs = ts ∧ _current s = _scheduler_task s) ∨
     ∃ pre c it, resume_place T = InLoop it (tasks_list_node (_scheduler_task s)) ∧
       ts = pre ++ c :: cs ∧ iterator_at s it pre (c :: cs) ∧ c ≠ _scheduler_task s ∧
       (_current s = _scheduler_task s ∨ _current s = c)).

(** Where a task other than the scheduler stands. *)
Definition place_ok (s : sched_state) (p : Z) (t : Task) : Prop :=
  if _exited t then resume_place t = Exiting
  else resume_place t = InRoutine ∨ resume_place t = Fresh ∧ p ≠ _current s.

(** The nodes of [_finished_tasks], each behind the cookie of its array. *)
Definition finished_nodes (l : forward_list Z) (os : gmap Z Z) : Prop :=
  ∀ p, p ∈ dom (nodes l) → os !! (p - array_cookie) = Some (finished_node_size + array_cookie).

Record sched_inv (s : sched_state) (ts fin : list Z) (al os : gmap Z Z) : Prop := {
  si_static : sched_static s ts al os;
  si_irqs : irqs_on s;
  si_head : head ts = Some (_scheduler_task s);
  si_finished : forward_list_rep (_finished_tasks s) fin;
  si_nodes : finished_nodes (_finished_tasks s) os;
  si_fin_nodup : NoDup fin;
  si_fin : ∀ p, p ∈ fin → ∃ t, task_objects s !! p = Some t ∧ _exited t = true;
  si_current : ∃ t, task_objects s !! _current s = Some t ∧ _exited t = false;
  si_place : ∀ p t, task_objects s !! p = Some t → p ≠ _scheduler_task s → place_ok s p t;
  si_scheduler : ∀ t, task_objects s !! _scheduler_task s = Some t → _exited t = false;
  si_remaining : ∃ cs, remaining s ts cs
}.

(** ** The running task gives up the processor *)
Lemma yield_done s at_ t ts cs : irqs_on s → at_ ≠ Fresh → task_objects s !! _current s = Some t →
  _current s ≠ _scheduler_task s → remaining s ts cs →
  yield at_ s = Done (tt, put_objects (<[_current s := suspend_at at_ false t]> (task_objects s))
                            (put_current (_scheduler_task s) s)).
Proof.
  intros Hi Hat Ht Hne (T & HT & Hpl). unfold yield. rewrite gets_bind.
  assert (Hnf : resume_place T ≠ Fresh).
  { destruct Hpl as [[-> _]|(? & ? & ? & -> & _)]; done. }
  assert (HT' : <[_current s := suspend_at at_ false t]> (task_objects s) !! _scheduler_task s = Some T).
  { by rewrite lookup_insert_ne. }
  rewrite (switch_to_done s at_ _ t T) by done. f_equal. f_equal. f_equal.
  rewrite insert_id; [done|]. rewrite HT'. unfold resumed. by destruct (resume_place T).
Qed.

(** The state behind it keeps the invariant, whether the task yielded or exited. *)
Lemma inv_suspend s ts fin al os t t' fl fin' : sched_inv s ts fin al os →
  _current s ≠ _scheduler_task s → task_objects s !! _current s = Some t → _stack t' = _stack t →
  (_exited t' = false ∧ resume_place t' = InRoutine ∧ fin' = fin ∨
   _exited t' = true ∧ resume_place t' = Exiting ∧ (fin' = fin ∨ fin' = _current s :: fin)) →
  forward_list_rep fl fin' → finished_nodes fl os →
  sched_inv (put_finished fl (put_objects (<[_current s := t']> (task_objects s))
                                (put_current (_scheduler_task s) s))) ts fin' al os.
Proof.
  intros H Hne Ht Hst Hcase Hfl Hnd. pose proof H as [].
  assert (Hcur : ∀ p, p ∈ fin → p ≠ _current s).
  { intros p Hp ->. destruct (si_fin0 _ Hp) as (u & Hu & Hx).
    destruct si_current0 as (v & Hv & Hx'). congruence. }
  split; cbn [irqs _tasks _finished_tasks task_objects _scheduler_task _current heap put_finished
    put_objects put_current]; try done.
  - apply (static_eq (put_objects (<[_current s := t']> (task_objects s)) s)); [done..|].
    apply (static_update _ _ _ _ _ t); [done..|]. intros Hf. exfalso.
    destruct Hcase as [(_ & E & _)|(_ & E & _)]; congruence.
  - destruct Hcase as [(_ & _ & ->)|(_ & _ & [->| ->])]; [done..|].
    apply NoDup_cons. split; [|done]. intros Hp. by apply (Hcur _ Hp).
  - intros p Hp. destruct (decide (p = _current s)) as [->|Hpc].
    + rewrite lookup_insert_eq. exists t'. split; [done|].
      destruct Hcase as [(_ & _ & ->)|(? & _)]; [by destruct (Hcur _ Hp)|done].
    + rewrite lookup_insert_ne by done. apply si_fin0.
      destruct Hcase as [(_ & _ & ->)|(_ & _ & [->| ->])]; [done..|].
      by apply elem_of_cons in Hp as [->|Hp].
  - destruct si_remaining0 as (cs & T & HT & _). exists T. rewrite lookup_insert_ne by done. eauto.
  - intros p u Hu Hps. unfold place_ok. cbn [_current].
    destruct (decide (p = _current s)) as [->|Hpc].
    + rewrite lookup_insert_eq in Hu. injection Hu as <-.
      destruct Hcase as [(-> & -> & _)|(-> & -> & _)]; auto.
    + rewrite lookup_insert_ne in Hu by done. specialize (si_place0 p u Hu Hps).
      unfold place_ok in si_place0. destruct (_exited u); [done|].
      destruct si_place0 as [->|[-> _]]; auto.
  - intros u. rewrite lookup_insert_ne by done. eauto.
  - destruct si_remaining0 as (cs & T & HT & Hpl). exists cs, T. cbn.
    rewrite lookup_insert_ne by done. split; [done|].
    destruct Hpl as [(? & ? & ?)|(pre & c & it & ? & ? & ? & ? & ?)]; [by left; auto|].
    right. exists pre, c, it. split_and!; auto.
Qed.

Lemma push_front_done (fl : forward_list Z) fin fresh v : forward_list_rep fl fin →
  fresh ≠ nullptr → fresh ∉ dom (nodes fl) →
  ∃ fl', push_front fresh v fl = Done (Node fresh, fl') ∧ forward_list_rep fl' (v :: fin) ∧
    dom (nodes fl') = {[ fresh ]} ∪ dom (nodes fl).
Proof.
  intros [ps Hps] Hne Hf.
  destruct (push_after_done fl [] ps [] fin fresh v eq_refl Hps Hne Hf) as (fl' & E & H).
  exists fl'. split; [exact E|]. split; [by exists (fresh :: ps)|]. apply set_eq. intros p.
  rewrite elem_of_union, elem_of_singleton, (at_dom _ _ _ H), (at_dom _ _ _ Hps). apply elem_of_cons.
Qed.

Lemma inv_yield s ts fin al os : sched_inv s ts fin al os → _current s ≠ _scheduler_task s →
  ∃ s', yield InRoutine s = Done (tt, s') ∧ sched_inv s' ts fin al os ∧
    _current s' = _scheduler_task s ∧ _scheduler_task s' = _scheduler_task s ∧
    ∃ t, task_objects s !! _current s = Some t ∧
      task_objects s' = <[_current s := suspend_at InRoutine false t]> (task_objects s).
Proof.
  intros H Hne. destruct (si_current _ _ _ _ _ H) as (t & Ht & Hx).
  destruct (si_remaining _ _ _ _ _ H) as [cs Hcs].
  eexists. split; [by apply (yield_done s InRoutine t ts cs (si_irqs _ _ _ _ _ H))|].
  split; [|split_and!; [done|done|by exists t]].
  pose proof (inv_suspend s ts fin al os t (suspend_at InRoutine false t) (_finished_tasks s) fin H Hne Ht
    eq_refl) as Hinv. apply Hinv; [by left|apply H..].
Qed.

(** *** The heap changes under the scheduler *)
Lemma runnable_frame_keep m m' p t :
  (∀ a, run_bytes (_stack t) stack_pages a → load8 m' a = load8 m a) →
  runnable_frame m p t → runnable_frame m' p t.
Proof.
  intros Hm Hf E. destruct (Hf E) as (He & H1 & H2). split; [done|].
  rewrite (load_frame_ext m m'); [done|]. intros a Ha. apply Hm. rewrite He in Ha.
  unfold run_bytes, NewTaskStack_size, PAGE_SIZE, stack_pages in *. lia.
Qed.

(** The memory of the tasks and of the list is still there. *)
Definition owned (s : sched_state) (al os : gmap Z Z) : Prop :=
  (∀ t T, task_objects s !! t = Some T → al !! _stack T = Some stack_pages ∧ os !! t = Some task_size) ∧
  finished_nodes (_finished_tasks s) os.

(** The stacks of the tasks that have not run yet keep their contents. *)
Definition frames_kept (s : sched_state) (w : W) : Prop := ∀ t T a, task_objects s !! t = Some T →
  resume_place T = Fresh → run_bytes (_stack T) stack_pages a → load8 (heap_mem w) a = load8 (heap_mem (heap s)) a.

Lemma inv_owned s ts fin al os : sched_inv s ts fin al os → owned s al os.
Proof.
  intros H. split; [|apply H]. intros t T HT. split; [by apply (st_stack _ _ _ _ (si_static _ _ _ _ _ H) t T)|].
  apply (st_memory _ _ _ _ (si_static _ _ _ _ _ H)), (st_objects _ _ _ _ (si_static _ _ _ _ _ H)).
  by apply elem_of_dom_2 in HT.
Qed.

Lemma static_memory s ts al os w al' os' : sched_static s ts al os → heap_rep w al' os' →
  (∀ t T, task_objects s !! t = Some T → al' !! _stack T = Some stack_pages ∧ os' !! t = Some task_size) →
  frames_kept s w → sched_static (put_heap w s) ts al' os'.
Proof.
  intros H Hw Hown Hsame. pose proof H as []. split; try done; cbn.
  - intros t Ht. apply st_objects0, elem_of_dom in Ht as [T HT]. by apply (Hown t T).
  - intros p t Ht. by apply (Hown p t).
  - intros p t Ht Hf. apply (runnable_frame_keep (heap_mem (heap s))); [|by apply st_frame0|done].
    intros a Ha. by apply (Hsame p t a).
Qed.

Lemma inv_memory s ts fin al os w al' os' : sched_inv s ts fin al os → heap_rep w al' os' →
  owned s al' os' → frames_kept s w → sched_inv (put_heap w s) ts fin al' os'.
Proof.
  intros H Hw [Hown Hnodes] Hsame. pose proof H as []. split; try done.
  by apply (static_memory s ts al os).
Qed.

(** What is held stays, so the frames do. *)
Lemma held_frames s ts al os w : sched_static s ts al os →
  (∀ a, held al os a → load8 (heap_mem w) a = load8 (heap_mem (heap s)) a) → frames_kept s w.
Proof.
  intros H Hm t T a HT _ Ha. apply Hm. apply (held_block _ _ (_stack T) stack_pages); [|done].
  by apply (st_stack _ _ _ _ H t T).
Qed.

Lemma owned_insert s al os p n : owned s al os → os !! p = None → owned s al (<[p := n]> os).
Proof.
  intros [H1 H2] Hp. split.
  - intros t T HT. destruct (H1 t T HT). rewrite lookup_insert_ne by congruence. done.
  - intros q Hq. specialize (H2 q Hq). by rewrite lookup_insert_ne by congruence.
Qed.

(** The end of a task: the node of its entry in the list is a new object, unless the
    heap is exhausted. *)
Lemma inv_exit s ts fin al os : sched_inv s ts fin al os → _current s ≠ _scheduler_task s →
  exit_task s = Fault null_object ∨
  ∃ s' p, exit_task s = Done (tt, s') ∧ os !! p = None ∧
    sched_inv s' ts (_current s :: fin) al (<[p := finished_node_size + array_cookie]> os) ∧
    dom (nodes (_finished_tasks s')) = {[ p + array_cookie ]} ∪ dom (nodes (_finished_tasks s)) ∧
    _current s' = _scheduler_task s ∧ _scheduler_task s' = _scheduler_task s ∧
    ∃ t, task_objects s !! _current s = Some t ∧
      task_objects s' = <[_current s := suspend_at Exiting false (set_exited t)]> (task_objects s).
Proof.
  intros H Hne. destruct (si_current _ _ _ _ _ H) as (t & Ht & Hx).
  pose proof (st_heap _ _ _ _ (si_static _ _ _ _ _ H)) as Hheap.
  set (s1 := put_irqs (mkIrq false false) (put_objects (<[_current s := set_exited t]> (task_objects s)) s)).
  assert (E1 : exit_task s = (fresh ← on_heap (new_array finished_node_size);
    on_finished (push_front fresh (_current s)) ;; on_irq (irq_unlock true) ;; yield Exiting) s1).
  { pose proof (si_irqs _ _ _ _ _ H) as Hi. unfold irqs_on in Hi. unfold exit_task.
    rewrite gets_bind, (bind_done _ _ _ _ _ (update_task_done _ _ _ _ Ht)). unfold handle_exit.
    rewrite (bind_done (on_irq irq_lock) _ _ true s1); [done|]. unfold on_irq, zoom. cbn [irqs put_objects]. by rewrite Hi. }
  rewrite E1.
  destruct (new_array_done (heap s) al os finished_node_size Hheap) as
    [E|(p & w & E & Hp & Hp0 & Hp1 & Hw & Hm)]; [unfold finished_node_size; lia|left|right].
  { unfold on_heap, zoom, mbind, prog_bind. cbn [heap s1 put_irqs put_objects]. by rewrite E. }
  rewrite (bind_done _ _ _ (p + array_cookie) (put_heap w s1)).
  2:{ unfold on_heap, zoom. cbn [heap s1 put_irqs put_objects]. by rewrite E. }
  assert (Hinv : sched_inv (put_heap w s) ts fin al (<[p := finished_node_size + array_cookie]> os)).
  { apply (inv_memory s ts fin al os); [done|done|apply owned_insert; [by eapply inv_owned|done]|].
    eapply held_frames; [apply H|done]. }
  destruct (push_front_done (_finished_tasks s) fin (p + array_cookie) (_current s)) as (fl & Ef & Hfl & Hdom).
  { apply H. }
  { unfold array_cookie, nullptr. lia. }
  { intros Hin. pose proof (si_nodes _ _ _ _ _ H _ Hin) as Hn. rewrite Z.add_simpl_r in Hn. congruence. }
  rewrite (bind_done _ _ _ (Node (p + array_cookie)) (put_finished fl (put_heap w s1))).
  2:{ unfold on_finished, zoom. cbn [_finished_tasks put_heap s1 put_irqs put_objects]. by rewrite Ef. }
  rewrite (bind_done _ _ _ tt (put_irqs (mkIrq true true) (put_finished fl (put_heap w s1)))) by done.
  destruct (si_remaining _ _ _ _ _ H) as [cs (T & HT & Hcs)].
  eexists _, p. split.
  { apply (yield_done _ Exiting (set_exited t) ts cs); cbn; [done|done|by rewrite lookup_insert_eq|done|].
    exists T. cbn. rewrite lookup_insert_ne by done. done. }
  split; [done|]. split.
  2:{ split_and!; [exact Hdom|done|done|]. exists t. split; [done|]. cbn. by rewrite insert_insert_eq. }
  cbn. rewrite insert_insert_eq.
  pose proof (si_irqs _ _ _ _ _ H) as Hi. unfold irqs_on in Hi.
  pose proof (inv_suspend (put_heap w s) ts fin al _ t (suspend_at Exiting false (set_exited t)) fl
    (_current s :: fin) Hinv Hne Ht eq_refl) as Hs.
  destruct s; cbn in *. subst. apply Hs; [right; split_and!; auto|done|].
  intros q Hq. rewrite Hdom in Hq. apply elem_of_union in Hq as [->%elem_of_singleton|Hq].
  - by rewrite Z.add_simpl_r, lookup_insert_eq.
  - pose proof (si_nodes _ _ _ _ _ H _ Hq) as Hn. cbn in Hn. by rewrite lookup_insert_ne by congruence.
Qed.

(** ** The scheduler takes over *)
Lemma round_start s ts fin al os cs fuel : sched_inv s ts fin al os → _current s = _scheduler_task s →
  remaining s ts cs →
  let e := tasks_list_node (_scheduler_task s) in
  ∃ pre it, ts = pre ++ cs ∧ iterator_at s it pre cs ∧
    schedule_step fuel s =
      (switched ← for_tasks fuel it e; end_of_round fuel switched) (put_irqs (mkIrq false false) s).
Proof.
  intros H Hc (T & HT & Hpl) e. pose proof (si_irqs _ _ _ _ _ H) as Hi. unfold irqs_on in Hi.
  pose proof (si_static _ _ _ _ _ H) as Hst.
  unfold schedule_step. rewrite gets_bind, (bind_done _ _ _ _ _ (task_at_done _ _ _ HT)).
  assert (Hdis : on_irq disable s = Done (true, put_irqs (mkIrq false false) s)).
  { unfold on_irq, zoom. by rewrite Hi. }
  destruct Hpl as [(-> & -> & _)|(pre & c & it & -> & Hts & Hit & Hcs & _)];
    rewrite (bind_done _ _ _ _ _ Hdis).
  - pose proof (si_head _ _ _ _ _ H) as Hh.
    assert (Hs : _some (_tasks s) = e).
    { pose proof (st_ring _ _ _ _ Hst) as Hr. destruct ts; [done|]. injection Hh as ->. by destruct Hr. }
    exists [], (mkRingIterator e 0). split_and!; [done| |].
    + unfold iterator_at. cbn [it_node it_shift]. pose proof (static_length _ _ _ _ Hst).
      split_and!; [|done|done|lia|lia]. destruct ts; [done|]. by injection Hh as ->.
    + rewrite (bind_done _ _ _ (mkRingIterator e 0) (put_irqs (mkIrq false false) s))
        by (apply on_tasks_read; unfold ring_begin, ring_end, gets; cbn; by rewrite Hs).
      rewrite (bind_done _ _ _ e (put_irqs (mkIrq false false) s))
        by (apply on_tasks_read; unfold ring_begin, ring_end, gets; cbn; by rewrite Hs). done.
  - destruct (iterator_step (put_irqs (mkIrq false false) s) ts al os pre c cs it) as (_ & _ & it' & E & Hit').
    + by apply (static_eq s).
    + apply (si_head _ _ _ _ _ H).
    + done.
    + done.
    + exists (pre ++ [c]), it'. split_and!; [by rewrite <- app_assoc|done|].
      by rewrite (bind_done _ _ _ _ _ E).
Qed.

(** The switch to an eligible task keeps the invariant. *)
Lemma inv_resume s ts fin al os pre c l2 it Ts t : sched_inv s ts fin al os →
  _current s = _scheduler_task s → task_objects s !! _scheduler_task s = Some Ts →
  ts = pre ++ c :: l2 → iterator_at s it pre (c :: l2) → c ≠ _scheduler_task s →
  task_objects s !! c = Some t → _exited t = false →
  let e := tasks_list_node (_scheduler_task s) in
  let s' := put_objects (<[c := resumed t]>
              (<[_scheduler_task s := suspend_at (InLoop it e) false Ts]> (task_objects s)))
              (put_current c s) in
  sched_inv s' ts fin al os ∧ remaining s' ts l2.
Proof.
  intros H Hcur HTs Hts Hit Hne Ht Hx e s'. pose proof H as [].
  assert (Hst1 : sched_static (put_objects (<[_scheduler_task s := suspend_at (InLoop it e) false Ts]>
    (task_objects s)) s) ts al os) by (by apply (static_update _ _ _ _ _ Ts)).
  assert (Hrem : remaining s' ts l2).
  { exists (suspend_at (InLoop it e) false Ts). unfold s'. cbn. rewrite lookup_insert_ne by done.
    rewrite lookup_insert_eq. split; [done|]. right. exists pre, c, it. split_and!; auto. }
  split; [|done]. split; unfold s'; cbn; try done; [| | | | |by exists l2].
  - set (s1 := put_objects (<[_scheduler_task s := suspend_at (InLoop it e) false Ts]>
      (task_objects s)) s) in *.
    apply (static_eq (put_objects (<[c := resumed t]> (task_objects s1)) s1)); [done..|].
    apply (static_update s1 ts al os c t (resumed t)); [exact Hst1|cbn; by rewrite lookup_insert_ne| |].
    + unfold resumed. by destruct (resume_place t).
    + unfold resumed, runnable_frame. destruct (resume_place t) eqn:E; cbn; congruence.
  - intros p Hp. destruct (si_fin0 p Hp) as (u & Hu & Hxu). exists u.
    rewrite !lookup_insert_ne; [done| |]; intros <-; [|congruence].
    specialize (si_scheduler0 _ Hu). congruence.
  - exists (resumed t). rewrite lookup_insert_eq. split; [done|].
    unfold resumed. by destruct (resume_place t).
  - intros p u Hu Hps. unfold place_ok. cbn [_current].
    destruct (decide (p = c)) as [->|Hpc].
    + rewrite lookup_insert_eq in Hu. injection Hu as <-. specialize (si_place0 c t Ht Hne).
      unfold place_ok in si_place0. rewrite Hx in si_place0. unfold resumed.
      destruct (resume_place t) eqn:E; cbn; rewrite ?Hx, ?E; naive_solver.
    + rewrite !lookup_insert_ne in Hu by done. specialize (si_place0 p u Hu Hps).
      unfold place_ok in si_place0. destruct (_exited u); [done|]. naive_solver.
  - intros u. rewrite lookup_insert_ne, lookup_insert_eq by done. intros [= <-]. cbn. eauto.
Qed.

(** ** Removing the finished tasks *)
(** Everything but tasks, objects and pages is as before. *)
Definition same_rest (s s' : sched_state) : Prop :=
  irqs s' = irqs s ∧ _finished_tasks s' = _finished_tasks s ∧
  _scheduler_task s' = _scheduler_task s ∧ _current s' = _current s.

Lemma filter_all (P : Z → Prop) `{!∀ x, Decision (P x)} (l : list Z) : (∀ x, x ∈ l → P x) → filter P l = l.
Proof.
  induction l as [|x l IH]; intros Hl; [done|]. rewrite filter_cons_True by (apply Hl; by left).
  rewrite IH; [done|]. intros y Hy. apply Hl. by right.
Qed.

Lemma filter_other (t : Z) l1 l2 : NoDup (l1 ++ t :: l2) →
  filter (λ u, u ≠ t) (l1 ++ t :: l2) = l1 ++ l2.
Proof.
  intros Hnd. apply NoDup_app in Hnd as (_ & Hd & [Ht _]%NoDup_cons).
  rewrite filter_app, filter_cons_False by (intros Hx; by apply Hx). rewrite !filter_all; [done| |].
  - by intros u Hu ->.
  - intros u Hu ->. apply (Hd t Hu). by left.
Qed.

Lemma delete_task_done s ts al os t T : sched_static s ts al os → task_objects s !! t = Some T →
  ∃ s', (on_tasks (ring_remove tasks_list_node t) ;; Task_delete t) s = Done (tt, s') ∧
    sched_static s' (filter (λ u, u ≠ t) ts) (delete (_stack T) al) (delete t os) ∧
    task_objects s' = delete t (task_objects s) ∧ same_rest s s'.
Proof.
  intros H HT. pose proof H as [].
  assert (Ht : t ∈ ts) by (apply st_objects0; by apply elem_of_dom_2 in HT).
  apply list_elem_of_split in Ht as (l1 & l2 & ->). rewrite filter_other by done.
  rewrite fmap_app, fmap_cons in st_ring0.
  destruct (ring_remove_done tasks_list_node (_tasks s) (tasks_list_node <$> l1)
    (tasks_list_node <$> l2) t st_ring0) as (r & x & E & Hr & Hd & Ho & _).
  { intros q Hq. apply st_nodes0. by rewrite fmap_app, fmap_cons. }
  rewrite (bind_done _ _ _ x (put_tasks r s)) by (unfold on_tasks, zoom; by rewrite E).
  unfold Task_delete. rewrite (bind_done _ _ _ T (put_tasks r s)) by (by apply task_at_done).
  destruct (heap_free_pages_done (heap s) al os (_stack T) stack_pages st_heap0 (st_stack0 _ _ HT))
    as (w1 & Ew1 & Hw1 & Hm1).
  rewrite (bind_done _ _ _ tt (put_heap w1 (put_tasks r s)))
    by (unfold on_heap, zoom; cbn [heap put_tasks]; by rewrite Ew1).
  destruct (operator_delete_done w1 (delete (_stack T) al) os t task_size Hw1) as (w & Ew & Hw & Hm).
  { apply st_memory0. rewrite elem_of_app, elem_of_cons. tauto. }
  erewrite bind_done; [|reflexivity]. erewrite bind_done; [|reflexivity].
  eexists. split; [unfold on_heap, zoom; cbn [heap put_tasks put_heap put_objects]; rewrite Ew; reflexivity|].
  split; [|by split].
  assert (Hne : ∀ u, u ∈ l1 ++ l2 → u ≠ t).
  { intros u Hu ->. apply NoDup_app in st_nodup0 as (_ & Hdis & [Hnt _]%NoDup_cons).
    apply elem_of_app in Hu as [Hu|Hu]; [|done]. apply (Hdis t Hu). by left. }
  assert (Hobj : ∀ p u, delete t (task_objects s) !! p = Some u → p ≠ t ∧ task_objects s !! p = Some u).
  { intros p u Hu. destruct (decide (p = t)) as [->|]; [by rewrite lookup_delete_eq in Hu|].
    by rewrite lookup_delete_ne in Hu. }
  split; cbn [_tasks task_objects heap put_objects put_tasks put_heap ring_nodes _some].
  - cbn. rewrite fmap_app. destruct r as [so m]. cbn [_some ring_nodes] in *.
    destruct ((tasks_list_node <$> l1) ++ (tasks_list_node <$> l2)) as [|q qs] eqn:Eq; [done|].
    destruct Hr as (Hs & Hnd & H0 & Hp). split_and!; [done..|]. cbn [ring_nodes] in *.
    assert (Hq : ∀ y, y ∈ (q :: qs) ++ [q] → y ≠ tasks_list_node t).
    { intros y Hy. assert (Hy' : y ∈ tasks_list_node <$> (l1 ++ l2)).
      { rewrite fmap_app, Eq. apply elem_of_app in Hy as [Hy|Hy]; [done|].
        apply list_elem_of_singleton in Hy as ->. by left. }
      apply list_elem_of_fmap in Hy' as (u & -> & Hu). intros Heq%node_inj. by apply (Hne u). }
    eapply path_ext; [| |exact Hp]; intros y Hy; unfold nxt, prv; rewrite lookup_delete_ne; try done;
      apply not_eq_sym, Hq.
    + rewrite removelast_snoc in Hy. apply elem_of_app. by left.
    + simpl in Hy. simpl. by right.
  - intros y. rewrite dom_delete_L, elem_of_difference, elem_of_singleton, Hd, st_nodes0.
    rewrite !fmap_app, fmap_cons, !elem_of_app, elem_of_cons. split; [tauto|].
    intros Hy. split; [tauto|]. intros ->.
    assert (Hy' : tasks_list_node t ∈ tasks_list_node <$> (l1 ++ l2)) by (rewrite fmap_app, elem_of_app; tauto).
    apply list_elem_of_fmap in Hy' as (u & Heq%node_inj & Hu). subst u. by apply (Hne t).
  - intros u Hu. rewrite lookup_delete_ne by (intros Heq%node_inj; apply (Hne u); done).
    rewrite Ho. apply st_owner0. rewrite elem_of_app in Hu. rewrite elem_of_app, elem_of_cons. tauto.
  - intros u. rewrite dom_delete_L, elem_of_difference, elem_of_singleton, st_objects0.
    rewrite !elem_of_app, elem_of_cons. split; [tauto|]. intros Hu. split; [tauto|].
    apply Hne. by rewrite elem_of_app.
  - apply NoDup_app in st_nodup0 as (Hn1 & Hdis & [_ Hn2]%NoDup_cons). apply NoDup_app.
    split_and!; [done| |done]. intros u Hu Hu2. apply (Hdis u Hu). by right.
  - done.
  - intros u Hu. rewrite lookup_delete_ne by (intros ->; by apply (Hne u)). apply st_memory0.
    rewrite elem_of_app in Hu. rewrite elem_of_app, elem_of_cons. tauto.
  - intros p u [Hp Hu]%Hobj. rewrite lookup_delete_ne; [eauto|]. intros Heq. apply Hp. eauto.
  - intros p q u v [_ Hu]%Hobj [_ Hv]%Hobj. eauto.
  - intros p u [Hp Hu]%Hobj. apply (runnable_frame_keep (heap_mem (heap s))); [|eauto].
    assert (Hst : delete (_stack T) al !! _stack u = Some stack_pages).
    { rewrite lookup_delete_ne; [eauto|]. intros Heq. apply Hp. eauto. }
    intros a Ha. cbn. rewrite Hm by (by eapply held_block). apply Hm1. by eapply held_block.
Qed.

(** The stacks of [vs] are gone from [al'], every other block is still there. *)
Definition stacks_freed (s : sched_state) (vs : list Z) (al al' : gmap Z Z) : Prop :=
  (∀ v T, v ∈ vs → task_objects s !! v = Some T → al' !! _stack T = None) ∧
  (∀ q, (∀ v T, v ∈ vs → task_objects s !! v = Some T → _stack T ≠ q) → al' !! q = al !! q).

(** The objects of [vs] are gone, every other object of the heap is still there. *)
Definition memory_freed (vs : list Z) (os os' : gmap Z Z) : Prop :=
  ∀ q, os' !! q = if decide (q ∈ vs) then None else os !! q.

Definition objects_without (s s' : sched_state) (vs : list Z) : Prop :=
  ∀ u, task_objects s' !! u = if decide (u ∈ vs) then None else task_objects s !! u.

Lemma without_cons {A} (m : gmap Z A) v vs u :
  (if decide (u ∈ vs) then None else delete v m !! u) = if decide (u ∈ v :: vs) then None else m !! u.
Proof.
  destruct (decide (u ∈ vs)) as [Hu|Hu]; [by rewrite decide_True by (by right)|].
  destruct (decide (u = v)) as [->|Huv].
  - rewrite lookup_delete_eq, decide_True; [done|by left].
  - rewrite lookup_delete_ne, decide_False; [done| |done]. rewrite elem_of_cons. by intros [?|?].
Qed.

Lemma delete_finished_done : ∀ vs ps fuel s ts al os p,
  seg (nodes (_finished_tasks s)) p ps vs nullptr → NoDup vs →
  (∀ v, v ∈ vs → v ∈ ts) → sched_static s ts al os → (length vs < fuel)%nat →
  ∃ s' al' os', delete_finished fuel p s = Done (tt, s') ∧
    sched_static s' (filter (λ u, u ∉ vs) ts) al' os' ∧ same_rest s s' ∧
    objects_without s s' vs ∧ stacks_freed s vs al al' ∧ memory_freed vs os os'.
Proof.
  induction vs as [|v vs IH]; intros ps fuel s ts al os p Hseg Hnd Hin H Hf;
    (destruct fuel as [|fuel]; [lia|]); cbn [delete_finished]; destruct ps as [|q ps]; try done.
  - simpl in Hseg. subst p. exists s, al, os. split; [done|]. split_and!.
    + rewrite filter_all; [done|]. intros u _. apply not_elem_of_nil.
    + by split.
    + intros u. rewrite decide_False by apply not_elem_of_nil. done.
    + split; [|done]. intros v T Hv. by apply elem_of_nil in Hv.
    + intros u. rewrite decide_False by apply not_elem_of_nil. done.
  - destruct Hseg as (-> & Hq & n & Hn & Hv & Hseg). destruct (Z.eqb_spec q nullptr); [done|].
    apply NoDup_cons in Hnd as [Hvv Hnd].
    rewrite (bind_done _ _ _ n s).
    2:{ unfold on_finished, zoom, node_at. rewrite Hn. by destruct s. }
    rewrite Hv. destruct (static_task _ _ _ _ v H) as [T HT]; [apply Hin; by left|].
    destruct (delete_task_done s ts al os v T H HT) as (s1 & E1 & H1 & Ho1 & Hr1).
    rewrite <- bind_bind, (bind_done _ _ _ _ _ E1).
    destruct Hr1 as (Hi1 & Hf1 & Hsc1 & Hc1).
    rewrite (bind_done _ _ _ (next n) s1).
    2:{ unfold on_finished, zoom, next_of, node_at, mbind, prog_bind. rewrite Hf1, Hn.
        destruct s1; cbn in *. by subst. }
    destruct (IH ps fuel s1 (filter (λ u, u ≠ v) ts) (delete (_stack T) al) (delete v os) (next n))
      as (s2 & al2 & os2 & E2 & H2 & (Hi2 & Hf2 & Hsc2 & Hc2) & Ho2 & [Hal Hal'] & Hos).
    + by rewrite Hf1.
    + done.
    + intros u Hu. apply list_elem_of_filter. split; [congruence|]. apply Hin. by right.
    + done.
    + simpl in Hf. lia.
    + exists s2, al2, os2. split; [done|]. split_and!.
      * rewrite list_filter_filter in H2. erewrite list_filter_iff; [exact H2|].
        intros u. cbn. rewrite not_elem_of_cons. tauto.
      * unfold same_rest. split_and!; congruence.
      * intros u. rewrite Ho2, Ho1. by apply without_cons.
      * split.
        -- intros u U [->|Hu]%elem_of_cons HU.
           ++ replace U with T by congruence. rewrite Hal'; [by rewrite lookup_delete_eq|].
              intros w X Hw HX Heq. rewrite Ho1 in HX. apply lookup_delete_Some in HX as [Hne HX].
              by pose proof (st_stack_inj _ _ _ _ H _ _ _ _ HX HT Heq).
           ++ apply (Hal u U Hu). rewrite Ho1, lookup_delete_ne; [done|congruence].
        -- intros y Hy. rewrite Hal'.
           ++ rewrite lookup_delete_ne; [done|]. apply (Hy v T); [by left|done].
           ++ intros w X Hw HX. rewrite Ho1 in HX. apply lookup_delete_Some in HX as [Hne HX].
              apply (Hy w X); [by right|done].
      * intros u. rewrite Hos. by apply without_cons.
Qed.

Lemma fin_in_tasks s ts fin al os p : sched_inv s ts fin al os → p ∈ fin → p ∈ ts.
Proof.
  intros H Hp. destruct (si_fin _ _ _ _ _ H p Hp) as (t & Ht & _).
  apply (st_objects _ _ _ _ (si_static _ _ _ _ _ H)). by apply elem_of_dom_2 in Ht.
Qed.

Lemma fin_length s ts fin al os : sched_inv s ts fin al os → (length fin ≤ length ts)%nat.
Proof.
  intros H. apply submseteq_length, NoDup_submseteq; [apply (si_fin_nodup _ _ _ _ _ H)|].
  intros p. by apply (fin_in_tasks s ts fin al os).
Qed.

Lemma head_filter (P : Z → Prop) `{!∀ x, Decision (P x)} (l : list Z) x :
  head l = Some x → P x → head (filter P l) = Some x.
Proof.
  destruct l as [|y l]; [done|]. intros [= ->] Hx. by rewrite filter_cons_True.
Qed.

(** The list of finished tasks is emptied and its nodes are given back. *)
Definition node_objects (ps : list Z) : list Z := (λ p, p - array_cookie) <$> ps.

Lemma clear_finished_done : ∀ vs ps fuel s ts al os,
  list_at (_finished_tasks s) ps vs → sched_static s ts al os →
  (∀ p, p ∈ ps → os !! (p - array_cookie) = Some (finished_node_size + array_cookie)) → (length vs < fuel)%nat →
  ∃ w os', clear_finished fuel s = Done (tt, put_finished forward_list_empty (put_heap w s)) ∧
    sched_static (put_heap w s) ts al os' ∧ memory_freed (node_objects ps) os os'.
Proof.
  induction vs as [|v vs IH]; intros ps fuel s ts al os Hl H Hos Hf; (destruct fuel as [|fuel]; [lia|]);
    cbn [clear_finished].
  - assert (ps = []) as -> by (destruct ps as [|q ps]; [done|]; by pose proof (at_seg _ _ _ Hl)).
    rewrite (bind_done _ _ s true s).
    2:{ unfold on_finished. rewrite (zoom_done _ _ _ _ _ _ (list_is_empty_done _ _ _ Hl)).
        rewrite bool_decide_eq_true_2 by done. by destruct s. }
    exists (heap s), os. split_and!.
    + rewrite <- (list_at_nil _ _ Hl). by destruct s.
    + by apply (static_eq s).
    + intros q. rewrite decide_False by apply not_elem_of_nil. done.
  - destruct ps as [|q ps]; [by pose proof (at_seg _ _ _ Hl)|].
    rewrite (bind_done _ _ s false s).
    2:{ unfold on_finished. rewrite (zoom_done _ _ _ _ _ _ (list_is_empty_done _ _ _ Hl)).
        rewrite bool_decide_eq_false_2 by done. by destruct s. }
    destruct (erase_first_done _ _ _ _ _ Hl) as (l1 & l2 & E1 & E2 & Hl2).
    rewrite (bind_done _ _ s q (put_finished l1 s)) by (by apply zoom_done).
    rewrite (bind_done _ _ _ tt (put_finished l2 s)).
    2:{ unfold on_finished, zoom. cbn [_finished_tasks put_finished]. by rewrite E2. }
    assert (Hq : os !! (q - array_cookie) = Some (finished_node_size + array_cookie)) by (apply Hos; by left).
    destruct (delete_array_done (heap s) al os (q - array_cookie) _ (st_heap _ _ _ _ H) Hq) as (w & Ew & Hw & Hm).
    replace (q - array_cookie + array_cookie) with q in Ew by lia.
    rewrite (bind_done _ _ _ tt (put_finished l2 (put_heap w s))).
    2:{ unfold on_heap, zoom. cbn [heap put_finished]. by rewrite Ew. }
    assert (Hst : sched_static (put_heap w s) ts al (delete (q - array_cookie) os)).
    { apply (static_memory s ts al os); [done|done| |].
      - intros t T HT. split; [by apply (st_stack _ _ _ _ H t T)|].
        assert (Ht : os !! t = Some task_size).
        { apply (st_memory _ _ _ _ H), (st_objects _ _ _ _ H). by apply elem_of_dom_2 in HT. }
        rewrite lookup_delete_ne; [done|]. intros E. rewrite E, Ht in Hq. by injection Hq.
      - intros t T a HT _ Ha. apply Hm. apply (held_block _ _ (_stack T) stack_pages); [|done].
        by apply (st_stack _ _ _ _ H t T). }
    pose proof (at_nodup _ _ _ Hl) as [Hnq _]%NoDup_cons.
    destruct (IH ps fuel (put_finished l2 (put_heap w s)) ts al (delete (q - array_cookie) os) Hl2)
      as (w2 & os2 & E & Hst2 & Hfree).
    + by apply (static_eq (put_heap w s)).
    + intros p Hp. rewrite lookup_delete_ne; [apply Hos; by right|]. intros Epq.
      apply Hnq. by replace q with p by lia.
    + simpl in Hf. lia.
    + exists w2, os2. split; [exact E|]. split; [by apply (static_eq (put_heap w2 (put_finished l2 (put_heap w s))))|].
      intros u. rewrite Hfree. apply without_cons.
Qed.

(** The end of the round: what has finished is gone, with its stack and its entry. *)
Definition round_freed (s : sched_state) (fin : list Z) (os os' : gmap Z Z) : Prop := ∀ q, os' !! q =
  if decide (q ∈ fin ∨ q + array_cookie ∈ dom (nodes (_finished_tasks s))) then None else os !! q.

Lemma inv_end_of_round s ts fin al os fuel : sched_inv s ts fin al os →
  _current s = _scheduler_task s → (length ts < fuel)%nat →
  ∃ s' al' os', end_of_round fuel false (put_irqs (mkIrq false false) s) = Done (tt, s') ∧
    sched_inv s' (filter (λ u, u ∉ fin) ts) [] al' os' ∧
    remaining s' (filter (λ u, u ∉ fin) ts) (filter (λ u, u ∉ fin) ts) ∧
    _current s' = _scheduler_task s ∧ _scheduler_task s' = _scheduler_task s ∧
    stacks_freed s fin al al' ∧ round_freed s fin os os' ∧ _finished_tasks s' = forward_list_empty ∧
    (∀ u, task_objects s' !! u = None ↔ u ∈ fin ∨ task_objects s !! u = None).
Proof.
  intros H Hcur Hf. pose proof H as []. pose proof (fin_length _ _ _ _ _ H) as Hlen.
  destruct si_finished0 as [ps Hps].
  set (s0 := put_irqs (mkIrq false false) s).
  destruct (delete_finished_done fin ps fuel s0 ts al os (before_begin_next (_finished_tasks s)))
    as (s1 & al1 & os1 & E1 & H1 & (Hi1 & Hf1 & Hsc1 & Hc1) & Ho1 & Hal1 & Hos1).
  { apply (at_seg _ _ _ Hps). }
  { done. }
  { intros v Hv. by apply (fin_in_tasks s ts fin al os). }
  { by apply (static_eq s). }
  { lia. }
  assert (Hnf : ∀ p, p ∈ ps → os !! (p - array_cookie) = Some (finished_node_size + array_cookie) ∧
    p - array_cookie ∉ fin).
  { intros p Hp. apply (at_dom _ _ _ Hps) in Hp. specialize (si_nodes0 p Hp). split; [done|]. intros Hin.
    rewrite (st_memory _ _ _ _ si_static0 _ (fin_in_tasks s ts fin al os _ H Hin)) in si_nodes0.
    by injection si_nodes0. }
  destruct (clear_finished_done fin ps fuel s1 (filter (λ u, u ∉ fin) ts) al1 os1) as (w & os2 & E2 & H2 & Hos2).
  { by rewrite Hf1. }
  { done. }
  { intros p Hp. destruct (Hnf p Hp). rewrite Hos1, decide_False by done. done. }
  { lia. }
  destruct si_remaining0 as (cs & T & HT & _).
  assert (Hsf : _scheduler_task s ∉ fin).
  { intros Hin. destruct (si_fin0 _ Hin) as (t & Ht & Hx). specialize (si_scheduler0 _ Ht). congruence. }
  assert (HT1 : task_objects s1 !! _scheduler_task s = Some T).
  { rewrite Ho1, decide_False by done. done. }
  set (objs := <[_scheduler_task s := suspend_at LoopTop (saved_if T) T]> (task_objects s1)).
  set (s2 := put_finished forward_list_empty (put_heap w s1)) in *.
  exists (put_objects objs (put_irqs (mkIrq true true) s2)), al1, os2.
  assert (Hobj : ∀ u t, objs !! u = Some t → ∃ t0, task_objects s !! u = Some t0 ∧ u ∉ fin ∧
    (u ≠ _scheduler_task s ∧ t = t0 ∨ u = _scheduler_task s ∧ t = suspend_at LoopTop (saved_if T) T)).
  { intros u t. unfold objs. destruct (decide (u = _scheduler_task s)) as [->|Hus].
    - rewrite lookup_insert_eq. intros [= <-]. exists T. auto.
    - rewrite lookup_insert_ne, Ho1 by done. destruct (decide (u ∈ fin)); [done|]. intros. exists t. auto. }
  split.
  { cbn [end_of_round]. unfold handle_finished_tasks. rewrite bind_bind.
    rewrite (bind_done _ _ _ false s0) by done. rewrite bind_bind.
    rewrite (bind_done _ _ _ (before_begin_next (_finished_tasks s)) s0).
    2:{ unfold on_finished, zoom, s0. by destruct s. }
    rewrite bind_bind, (bind_done _ _ _ _ _ E1), bind_bind, (bind_done _ _ _ _ _ E2). fold s2.
    rewrite (bind_done _ _ _ tt s2) by (by destruct s1).
    rewrite (bind_done _ _ _ tt (put_irqs (mkIrq true true) s2)) by done.
    rewrite gets_bind. cbn [_scheduler_task put_irqs put_finished put_heap s2]. rewrite Hsc1.
    by rewrite (update_task_done _ _ T). }
  assert (Hrem : remaining (put_objects objs (put_irqs (mkIrq true true) s2))
    (filter (λ u, u ∉ fin) ts) (filter (λ u, u ∉ fin) ts)).
  { exists (suspend_at LoopTop (saved_if T) T). cbn. rewrite Hsc1. unfold objs, s0. cbn.
    rewrite lookup_insert_eq. split; [done|]. left. split_and!; [done..|]. rewrite Hc1. done. }
  split_and!; try done.
  - split; cbn; try done; try rewrite Hsc1; try rewrite Hc1; try done; [| | | | | | | |by eexists].
    + apply (static_eq (put_objects objs (put_heap w s1))); [done..|]. by apply (static_update (put_heap w s1) _ _ _ _ T).
    + by apply head_filter.
    + exists []. split; [done|constructor|]. intros p. cbn [nodes forward_list_empty]. rewrite dom_empty_L. set_solver.
    + constructor.
    + intros p Hp. by apply elem_of_nil in Hp.
    + exists (suspend_at LoopTop (saved_if T) T). unfold objs, s0. cbn. rewrite Hcur, lookup_insert_eq.
      split; [done|]. cbn. eauto.
    + intros p t Hp Hps'. destruct (Hobj p t Hp) as (t0 & Ht0 & _ & [[_ ->]|[-> _]]); [|done].
      unfold place_ok. cbn. rewrite Hc1. exact (si_place0 p t0 Ht0 Hps').
    + intros t. unfold objs, s0. cbn. rewrite lookup_insert_eq. intros [= <-]. cbn. eauto.
  - cbn. rewrite Hc1. done.
  - intros q. rewrite Hos2, Hos1.
    assert (Hq : q ∈ node_objects ps ↔ q + array_cookie ∈ dom (nodes (_finished_tasks s))).
    { rewrite (at_dom _ _ _ Hps). unfold node_objects. rewrite list_elem_of_fmap. split.
      - intros (p & -> & Hp). by replace (p - array_cookie + array_cookie) with p by lia.
      - intros Hp. exists (q + array_cookie). split; [lia|done]. }
    destruct (decide (q ∈ node_objects ps)) as [Hn|Hn]; [rewrite decide_True by tauto; done|].
    destruct (decide (q ∈ fin)); [rewrite decide_True by tauto; done|]. by rewrite decide_False by tauto.
  - intros u. cbn. unfold objs. destruct (decide (u = _scheduler_task s)) as [->|Hus].
    + rewrite lookup_insert_eq. split; [done|]. intros [?|?]; [done|congruence].
    + rewrite lookup_insert_ne, Ho1 by done. destruct (decide (u ∈ fin)); cbn; tauto.
Qed.

(** One stretch of the scheduler, from any state in which it runs. *)
Lemma inv_schedule_step s ts fin al os cs fuel : sched_inv s ts fin al os →
  _current s = _scheduler_task s → remaining s ts cs → (length ts < fuel)%nat →
  (∃ sk c l2 s', cs = sk ++ c :: l2 ∧ Forall (skipped s) sk ∧ eligible s c ∧
     schedule_step fuel s = Done (tt, s') ∧ sched_inv s' ts fin al os ∧ remaining s' ts l2 ∧
     _current s' = c ∧ _scheduler_task s' = _scheduler_task s) ∨
  (Forall (skipped s) cs ∧
   let ts' := filter (λ u, u ∉ fin) ts in
   ∃ s' al' os', schedule_step fuel s = Done (tt, s') ∧ sched_inv s' ts' [] al' os' ∧ remaining s' ts' ts' ∧
     _current s' = _scheduler_task s ∧ _scheduler_task s' = _scheduler_task s ∧
     stacks_freed s fin al al' ∧ round_freed s fin os os' ∧ _finished_tasks s' = forward_list_empty ∧
     (∀ u, task_objects s' !! u = None ↔ u ∈ fin ∨ task_objects s !! u = None)).
Proof.
  intros H Hcur Hrem Hf. pose proof (si_static _ _ _ _ _ H) as Hst.
  destruct (round_start s ts fin al os cs fuel H Hcur Hrem) as (pre & it & Hts & Hit & ->).
  set (s0 := put_irqs (mkIrq false false) s).
  assert (Hst0 : sched_static s0 ts al os) by (by apply (static_eq s)).
  destruct (for_tasks_done s0 ts al os Hst0 (si_head _ _ _ _ _ H) cs pre it fuel Hts Hit)
    as [(sk & c & l2 & it' & -> & Hsk & Hel & Hit' & E)|[Hsk E]].
  { subst ts. rewrite length_app in Hf. lia. }
  - left. destruct Hel as (Hne & t & Ht & Hx). destruct Hrem as (Ts & HTs & _).
    assert (Hts' : ts = (pre ++ sk) ++ c :: l2) by (rewrite <- app_assoc; done).
    destruct (inv_resume s ts fin al os (pre ++ sk) c l2 it' Ts t H Hcur HTs Hts' Hit' Hne Ht Hx)
      as [Hinv Hrem'].
    match type of Hinv with sched_inv ?x _ _ _ _ => set (sx := x) in * end.
    exists sk, c, l2, sx.
    split_and!; [done|done|by split; [|exists t]| |exact Hinv|exact Hrem'|done|done].
    cbn [_scheduler_task s0 put_irqs] in E. rewrite (bind_done _ _ _ true sx); [reflexivity|].
    rewrite E. rewrite (bind_done _ _ _ tt (put_irqs (mkIrq true true) s)) by done.
    rewrite (bind_done _ _ _ tt sx); [reflexivity|].
    rewrite (switch_to_done _ _ _ Ts t); [|done|done|by cbn; rewrite Hcur|..].
    + cbn. rewrite Hcur. pose proof (si_irqs _ _ _ _ _ H) as Hi. unfold irqs_on in Hi.
      destruct s; cbn in *. by subst.
    + cbn. by rewrite Hcur, lookup_insert_ne.
    + cbn. by apply (st_frame _ _ _ _ Hst).
  - right. split; [done|]. destruct (inv_end_of_round s ts fin al os fuel H Hcur Hf)
      as (s' & al' & os' & E' & Hinv & Hrem' & Hc' & Hs' & Hal & Hos & Hfe & Hobj).
    exists s', al', os'. split_and!; try done. by rewrite (bind_done _ _ _ _ _ E).
Qed.

(** ** Creating a task *)

Definition insert_task (new : Z) (ts : list Z) : list Z :=
  match ts with [] => [new] | h :: r => h :: new :: r end.

Lemma elem_of_insert_task new ts x : x ∈ insert_task new ts ↔ x = new ∨ x ∈ ts.
Proof. destruct ts; cbn; rewrite ?elem_of_cons, ?list_elem_of_singleton; set_solver. Qed.

(** The memory after the allocation of the stack, the copy of the name and the frame. *)
Lemma create_memory w al os new name fr : heap_rep w al os → os !! new = Some task_size →
  (∃ w1, heap_alloc_pages stack_pages w = Done (nullptr, w1)) ∨
  ∃ stack w1, heap_alloc_pages stack_pages w = Done (stack, w1) ∧ stack ≠ nullptr ∧
    al !! stack = None ∧ 0 < stack ∧ stack + PAGE_SIZE * stack_pages < 2 ^ 32 ∧
    let w2 := set_heap_mem (Task_name new name (heap_mem w1)) w1 in
    let esp := stack + PAGE_SIZE * stack_pages - NewTaskStack_size in
    let w3 := set_heap_mem (store_frame (heap_mem w2) esp (fr stack)) w2 in
    heap_rep w3 (<[stack := stack_pages]> al) os ∧
    load_frame (heap_mem w3) esp = load_frame (store_frame (heap_mem w2) esp (fr stack)) esp ∧
    (∀ q n, al !! q = Some n → ∀ a, run_bytes q n a → load8 (heap_mem w3) a = load8 (heap_mem w) a).
Proof.
  intros Hw Hnew. destruct (heap_rep_object _ _ _ _ _ Hw Hnew) as (_ & Hn0 & Hn1).
  destruct (heap_alloc_pages_done w al os stack_pages Hw) as (stack & w1 & al' & E & Hw1 & Hal & Hm);
    [unfold stack_pages; lia|].
  destruct Hal as [[-> _]|(Hnz & Hfresh & ->)]; [left; by exists w1|right].
  destruct (heap_rep_block _ _ _ stack stack_pages Hw1) as (_ & Hs0 & _ & Hs1); [by rewrite lookup_insert_eq|].
  exists stack, w1. split; [done|]. split_and!; [done..|]. intros w2 esp w3.
  assert (Hesp : ∀ a, in_block a esp NewTaskStack_size → run_bytes stack stack_pages a).
  { intros a. unfold esp, run_bytes, NewTaskStack_size, PAGE_SIZE, stack_pages. lia. }
  assert (Hw2 : heap_rep w2 (<[stack := stack_pages]> al) os).
  { apply heap_rep_write; [done|]. intros a Ha. apply Task_name_outside; [lia|lia|].
    intros Hin. apply Ha. by eapply held_object. }
  assert (Hw3 : heap_rep w3 (<[stack := stack_pages]> al) os).
  { apply heap_rep_write; [done|]. intros a Ha. apply store_frame_outside.
    intros Hin. apply Ha. apply (held_block _ _ stack stack_pages); [by rewrite lookup_insert_eq|by apply Hesp]. }
  split_and!; [done|unfold w3; by rewrite heap_mem_set|].
  intros q n Hq a Ha.
  assert (Hq' : <[stack := stack_pages]> al !! q = Some n) by (rewrite lookup_insert_ne; congruence).
  unfold w3, w2. rewrite !heap_mem_set. rewrite store_frame_outside.
  2:{ intros Hin. assert (q = stack); [|congruence].
      apply (heap_rep_disjoint _ _ _ _ _ _ stack_pages a Hw3 Hq'); [by rewrite lookup_insert_eq|done|by apply Hesp]. }
  rewrite Task_name_outside; [apply Hm; by eapply held_block|lia|lia|].
  intros Hin. by apply (heap_rep_apart w al os new task_size q n a Hw Hnew Hq).
Qed.

(** The ring after the new node came to life and was inserted. *)
Lemma create_ring r ts new : ring r (tasks_list_node <$> ts) →
  (∀ x, x ∈ dom (ring_nodes r) ↔ x ∈ tasks_list_node <$> ts) →
  (∀ t, t ∈ ts → owner <$> ring_nodes r !! tasks_list_node t = Some t) →
  0 < new → new ∉ ts →
  let r0 := mkCircular (_some r) (<[tasks_list_node new := mkListNode new nullptr nullptr]> (ring_nodes r)) in
  ∃ r1, ring_insert tasks_list_node new r0 = Done (tt, r1) ∧
    ring r1 (tasks_list_node <$> insert_task new ts) ∧
    (∀ x, x ∈ dom (ring_nodes r1) ↔ x ∈ tasks_list_node <$> insert_task new ts) ∧
    (∀ t, t ∈ insert_task new ts → owner <$> ring_nodes r1 !! tasks_list_node t = Some t).
Proof.
  intros Hr Hd Ho Hn0 Hnew r0.
  assert (Hnode : tasks_list_node new ∉ tasks_list_node <$> ts).
  { intros (u & Heq%node_inj & Hu)%list_elem_of_fmap. congruence. }
  assert (Hr0 : ring r0 (tasks_list_node <$> ts)).
  { destruct ts as [|t ts]; [done|]. rewrite fmap_cons in *. destruct Hr as (Hs & Hnd & Hz & Hp).
    split_and!; [done..|]. eapply path_ext; [| |exact Hp]; intros y Hy; unfold r0, nxt, prv; cbn [ring_nodes];
      rewrite lookup_insert_ne; try done; intros Heq; apply Hnode; rewrite Heq.
    - by rewrite removelast_snoc in Hy.
    - simpl in Hy. apply elem_of_app in Hy as [Hy|Hy]; [by right|].
      apply list_elem_of_singleton in Hy as ->. by left. }
  destruct (ring_insert_done tasks_list_node r0 (tasks_list_node <$> ts) new Hr0)
    as (r1 & E & Hr1 & Hd1 & Ho1); unfold r0; cbn [ring_nodes].
  { intros p Hp. rewrite dom_insert_L. apply elem_of_union_r. by apply Hd. }
  { rewrite dom_insert_L. set_solver. }
  { done. }
  { unfold tasks_list_node, nullptr. lia. }
  exists r1. split; [done|]. split_and!.
  - by destruct ts.
  - intros x. rewrite Hd1. unfold r0. cbn [ring_nodes]. rewrite dom_insert_L, elem_of_union, elem_of_singleton, Hd.
    rewrite !list_elem_of_fmap. split.
    + intros [->|(u & -> & Hu)]; eexists; (split; [done|]); apply elem_of_insert_task; auto.
    + intros (u & -> & [->|Hu]%elem_of_insert_task); [by left|right]. by exists u.
  - intros t [->|Ht]%elem_of_insert_task; rewrite Ho1; unfold r0; cbn [ring_nodes].
    + by rewrite lookup_insert_eq.
    + rewrite lookup_insert_ne; [by apply Ho|]. intros Heq%node_inj. congruence.
Qed.

Lemma create_task_done s ts al os flags routine arg name :
  sched_static s ts al os → 0 ≤ start_on_new_frame < 2 ^ 32 →
  (∃ msg, create_task flags routine arg name s = Fault msg ∧ out_of_memory msg) ∨
  ∃ new stack s', create_task flags routine arg name s = Done (new, s') ∧
    os !! new = None ∧ al !! stack = None ∧
    sched_static s' (insert_task new ts) (<[stack := stack_pages]> al) (<[new := task_size]> os) ∧ same_rest s s' ∧
    task_objects s' =
      <[new := mkTask routine arg (next_task_id s) false stack
          (stack + PAGE_SIZE * stack_pages - NewTaskStack_size) Fresh false]> (task_objects s) ∧
    load_frame (heap_mem (heap s')) (stack + PAGE_SIZE * stack_pages - NewTaskStack_size) =
      mkNewTaskStack (u32 (stack - 8)) (u32 (processor_flags flags (if_flag (irqs s))))
        (u32 (stack - 8)) start_on_new_frame new.
Proof.
  intros H Hstart. pose proof H as []. unfold create_task.
  destruct (new_object_done (heap s) al os task_size st_heap0) as [E|(new & w0 & E & Hfree & Hw0 & Hm0)];
    [unfold task_size; lia|left|].
  { exists null_object. split; [|by left]. unfold on_heap, zoom, mbind, prog_bind. by rewrite E. }
  rewrite (bind_done _ _ _ new (put_heap w0 s)) by (unfold on_heap, zoom; by rewrite E).
  assert (Hnew : new ∉ ts) by (intros Hin; specialize (st_memory0 _ Hin); congruence).
  destruct (heap_rep_object w0 al _ new task_size Hw0) as (_ & Hn0 & Hn1); [by rewrite lookup_insert_eq|].
  set (fl := processor_flags flags (if_flag (irqs s))).
  set (fr := λ stack, mkNewTaskStack (u32 (stack - 8)) fl (u32 (stack - 8)) start_on_new_frame new).
  destruct (create_memory w0 al (<[new := task_size]> os) new name fr Hw0) as
    [(w1 & Ew)|(stack & w1 & Ew & Hnz & Hfresh & Hs0 & Hs1 & Hw3 & Hfr & Hkeep)]; [by rewrite lookup_insert_eq|left|right].
  { exists null_stack. split; [|by right]. unfold Task_new. rewrite !bind_bind.
    rewrite (bind_done _ _ _ (next_task_id s) (put_next_id (u32 (next_task_id s + 1)) (put_heap w0 s))) by done.
    rewrite !bind_bind. rewrite (bind_done _ _ _ nullptr (put_heap w1 (put_next_id (u32 (next_task_id s + 1)) (put_heap w0 s)))).
    2:{ unfold on_heap, zoom. cbn [heap put_next_id put_heap]. by rewrite Ew. }
    done. }
  set (w2 := set_heap_mem (Task_name new name (heap_mem w1)) w1) in *.
  set (esp := stack + PAGE_SIZE * stack_pages - NewTaskStack_size) in *.
  set (w3 := set_heap_mem (store_frame (heap_mem w2) esp (fr stack)) w2) in *.
  destruct (create_ring (_tasks s) ts new st_ring0 st_nodes0 st_owner0 Hn0 Hnew)
    as (r1 & Er & Hr1 & Hd1 & Ho1).
  set (T1 := mkTask routine arg (next_task_id s) false stack esp Fresh false).
  assert (Hesp : u32 (u32 (stack + PAGE_SIZE * stack_pages) - NewTaskStack_size) = esp).
  { unfold esp, NewTaskStack_size, PAGE_SIZE, stack_pages in *.
    rewrite (u32_small (stack + _)) by lia. apply u32_small. lia. }
  exists new, stack, (mkSched (irqs s) r1 (_finished_tasks s) (<[new := T1]> (task_objects s))
    (_scheduler_task s) (_current s) (u32 (next_task_id s + 1)) w3).
  assert (Hframe : load_frame (heap_mem w3) esp = mkNewTaskStack (u32 (stack - 8)) (u32 fl) (u32 (stack - 8))
    start_on_new_frame new).
  { rewrite Hfr, load_store_frame. cbn. rewrite !u32_u32, !(u32_small _ Hstart), (u32_small new); [done|].
    unfold task_size in Hn1. lia. }
  split; [|split; [done|split; [done|split; [|split; [by split|by split]]]]].
  - unfold Task_new. rewrite !bind_bind.
    rewrite (bind_done _ _ _ (next_task_id s) (put_next_id (u32 (next_task_id s + 1)) (put_heap w0 s))) by done.
    rewrite !bind_bind. rewrite (bind_done _ _ _ stack (put_heap w1 (put_next_id (u32 (next_task_id s + 1)) (put_heap w0 s)))).
    2:{ unfold on_heap, zoom. cbn [heap put_next_id put_heap]. by rewrite Ew. }
    destruct (Z.eqb_spec stack nullptr); [done|].
    rewrite !bind_bind, modify_bind, !bind_bind. erewrite bind_done; [|reflexivity].
    erewrite bind_done; [|reflexivity]. erewrite bind_done.
    2:{ unfold on_tasks, zoom. cbn. rewrite Er. reflexivity. }
    erewrite bind_done; [|apply task_at_done; cbn; apply lookup_insert_eq].
    rewrite gets_bind. erewrite bind_done; [|reflexivity].
    erewrite bind_done; [|apply update_task_done; cbn; apply lookup_insert_eq].
    cbn. rewrite insert_insert_eq, Hesp. unfold mret, prog_ret, set_esp, put_objects. cbn.
    reflexivity.
  - assert (Hob : ∀ q t, <[new := T1]> (task_objects s) !! q = Some t →
      q = new ∧ t = T1 ∨ q ≠ new ∧ task_objects s !! q = Some t).
    { intros q t. destruct (decide (q = new)) as [->|].
      - rewrite lookup_insert_eq. intros [= <-]. auto.
      - rewrite lookup_insert_ne by done. auto. }
    split; cbn; try done.
    + intros t. rewrite dom_insert_L, elem_of_union, elem_of_singleton, st_objects0.
      by rewrite elem_of_insert_task.
    + destruct ts as [|h r]; cbn; [apply NoDup_singleton|].
      rewrite not_elem_of_cons in Hnew. apply NoDup_cons in st_nodup0 as [Hh Hr].
      apply NoDup_cons. split; [set_solver|]. apply NoDup_cons. split; [tauto|done].
    + intros t [->|Ht]%elem_of_insert_task; [by rewrite lookup_insert_eq|].
      rewrite lookup_insert_ne; [by apply st_memory0|congruence].
    + intros q t [[-> ->]|[Hq Ht]]%Hob; [by rewrite lookup_insert_eq|].
      rewrite lookup_insert_ne; [by eapply st_stack0|]. intros Heq.
      specialize (st_stack0 _ _ Ht). congruence.
    + intros q q' t t' [[-> ->]|[Hq Ht]]%Hob [[-> ->]|[Hq' Ht']]%Hob Heq; [done| | |by eapply st_stack_inj0];
        cbn in Heq; [specialize (st_stack0 _ _ Ht')|specialize (st_stack0 _ _ Ht)]; congruence.
    + intros q t [[-> ->]|[Hq Ht]]%Hob.
      * intros _. split_and!; [done|exact (f_equal frame_eip Hframe)|exact (f_equal frame_task Hframe)].
      * apply (runnable_frame_keep (heap_mem (heap s))); [|by apply st_frame0].
        intros a Ha. rewrite (Hkeep _ stack_pages (st_stack0 _ _ Ht) a Ha). apply Hm0.
        apply (held_block _ _ (_stack t) stack_pages); [by eapply st_stack0|done].
Qed.

(** ** The system as a whole

    The running task may create tasks, yield or return from its routine; it, an
    interrupt handler or any other part of the kernel may use the heap as it likes,
    as long as it leaves alone what the scheduler owns; the scheduler task takes its
    stretches. *)
Inductive sched_step : sched_state → sched_state → Prop :=
  | step_create s flags routine arg name new s' :
      _current s ≠ _scheduler_task s → create_task flags routine arg name s = Done (new, s') → sched_step s s'
  | step_yield s s' :
      _current s ≠ _scheduler_task s → yield InRoutine s = Done (tt, s') → sched_step s s'
  | step_exit s s' :
      _current s ≠ _scheduler_task s → exit_task s = Done (tt, s') → sched_step s s'
  | step_memory s w al os :
      heap_rep w al os → owned s al os → frames_kept s w → sched_step s (put_heap w s)
  | step_schedule s fuel s' :
      _current s = _scheduler_task s → (size (task_objects s) < fuel)%nat →
      schedule_step fuel s = Done (tt, s') → sched_step s s'.

(** The calls of the others are such uses of the heap: a [new], an [alloc_pages], a
    write outside of what is held for the scheduler, a [delete] and a [free_pages] of
    what the scheduler does not own. *)
Definition not_owned (s : sched_state) (p : Z) : Prop :=
  p ∉ dom (task_objects s) ∧ p + array_cookie ∉ dom (nodes (_finished_tasks s)) ∧
  ∀ t T, task_objects s !! t = Some T → _stack T ≠ p.

Lemma others_use_heap s ts al os w : sched_static s ts al os → owned s al os →
  (∃ n p, 1 ≤ n ≤ 2 ^ 31 ∧ operator_new n (heap s) = Done (p, w)) ∨
  (∃ n p, 1 ≤ n ≤ 2 ^ 31 ∧ heap_alloc_pages n (heap s) = Done (p, w)) ∨
  (∃ n p, os !! p = Some n ∧ not_owned s p ∧ operator_delete p (heap s) = Done (tt, w)) ∨
  (∃ n p, al !! p = Some n ∧ not_owned s p ∧ heap_free_pages p (heap s) = Done (tt, w)) ∨
  (∃ n p m, os !! p = Some n ∧ (∀ a, ¬ in_block a p n → load8 m a = load8 (heap_mem (heap s)) a) ∧
     w = set_heap_mem m (heap s)) →
  sched_step s (put_heap w s).
Proof.
  intros Hst Hown Hcase. pose proof (st_heap _ _ _ _ Hst) as H. pose proof Hown as [Ho1 Ho2].
  destruct Hcase as [(n & p & Hn & E)|[(n & p & Hn & E)|[(n & p & Hp & (Hd & Hl & Hk) & E)|
    [(n & p & Hp & (Hd & Hl & Hk) & E)|(n & p & m & Hp & Hm & ->)]]]].
  - destruct (operator_new_done (heap s) al os n H Hn) as (p' & w' & os' & E' & H' & Hc & Hm).
    replace w' with w in * by congruence. apply (step_memory s w al os'); [done| |by eapply held_frames].
    destruct Hc as [[_ ->]|(_ & Hnone & ->)]; [done|by apply owned_insert].
  - destruct (heap_alloc_pages_done (heap s) al os n H Hn) as (p' & w' & al' & E' & H' & Hc & Hm).
    replace w' with w in * by congruence. apply (step_memory s w al' os); [done| |by eapply held_frames].
    destruct Hc as [[_ ->]|(_ & Hnone & ->)]; [done|]. split; [|done]. intros t T HT. destruct (Ho1 t T HT) as [Ha Hb].
    rewrite lookup_insert_ne by congruence. done.
  - destruct (operator_delete_done (heap s) al os p n H Hp) as (w' & E' & H' & Hm).
    replace w' with w in * by congruence. apply (step_memory s w al (delete p os)); [done| |].
    + split.
      * intros t T HT. destruct (Ho1 t T HT). split; [done|]. rewrite lookup_delete_ne; [done|].
        intros <-. apply Hd. by apply elem_of_dom_2 in HT.
      * intros q Hq. rewrite lookup_delete_ne; [by apply Ho2|]. intros ->. apply Hl.
        by replace (q - array_cookie + array_cookie) with q by lia.
    + intros t T a HT _ Ha. apply Hm. apply (held_block _ _ (_stack T) stack_pages); [|done]. by apply (Ho1 t T).
  - destruct (heap_free_pages_done (heap s) al os p n H Hp) as (w' & E' & H' & Hm).
    replace w' with w in * by congruence. apply (step_memory s w (delete p al) os); [done| |].
    + split; [|done]. intros t T HT. destruct (Ho1 t T HT). by rewrite lookup_delete_ne by (apply not_eq_sym; eauto).
    + intros t T a HT _ Ha. apply Hm. apply (held_block _ _ (_stack T) stack_pages); [|done].
      rewrite lookup_delete_ne by (apply not_eq_sym; eauto). by apply (Ho1 t T).
  - apply (step_memory s _ al os); [|done|].
    + apply heap_rep_write; [done|]. intros a Ha. apply Hm. intros Hin. apply Ha. by eapply held_object.
    + intros t T a HT _ Ha. rewrite heap_mem_set. apply Hm. intros Hin.
      apply (heap_rep_apart (heap s) al os p n (_stack T) stack_pages a H Hp); [by apply (Ho1 t T)|done|done].
Qed.

Lemma static_size s ts al os : sched_static s ts al os → size (task_objects s) = length ts.
Proof.
  intros H. rewrite <- size_dom.
  assert (dom (task_objects s) = list_to_set ts) as ->.
  { apply set_eq. intros t. rewrite elem_of_list_to_set. apply (st_objects _ _ _ _ H). }
  apply size_list_to_set, (st_nodup _ _ _ _ H).
Qed.

Lemma inv_create s ts fin al os flags routine arg name : 0 ≤ start_on_new_frame < 2 ^ 32 →
  sched_inv s ts fin al os → _current s ≠ _scheduler_task s →
  (∃ msg, create_task flags routine arg name s = Fault msg ∧ out_of_memory msg) ∨
  ∃ new stack s', create_task flags routine arg name s = Done (new, s') ∧
    os !! new = None ∧ new ∉ dom (task_objects s) ∧
    sched_inv s' (insert_task new ts) fin (<[stack := stack_pages]> al) (<[new := task_size]> os) ∧
    same_rest s s' ∧ task_objects s' =
      <[new := mkTask routine arg (next_task_id s) false stack
          (stack + PAGE_SIZE * stack_pages - NewTaskStack_size) Fresh false]> (task_objects s).
Proof.
  intros Hstart H Hne. pose proof H as [].
  destruct (create_task_done s ts al os flags routine arg name si_static0 Hstart)
    as [?|(new & stack & s' & E & Hos & _ & Hst & Hrest & Ho & _)]; [by left|right].
  pose proof Hrest as (Hi & Hf & Hs & Hc).
  match type of Ho with _ = <[_ := ?x]> _ => set (T := x) in * end.
  assert (Hnew : new ∉ dom (task_objects s)).
  { rewrite (st_objects _ _ _ _ si_static0). intros Hin. pose proof (st_memory _ _ _ _ si_static0 _ Hin). congruence. }
  exists new, stack, s'. split; [done|]. split; [done|]. split; [done|]. split; [|done].
  assert (Hcur : _current s ≠ new).
  { destruct si_current0 as (t & Ht & _). intros <-. apply Hnew. by apply elem_of_dom_2 in Ht. }
  assert (Hsch : _scheduler_task s ≠ new).
  { destruct si_remaining0 as (cs & t & Ht & _). intros <-. apply Hnew. by apply elem_of_dom_2 in Ht. }
  assert (Hhd : ∃ r, ts = _scheduler_task s :: r).
  { destruct ts as [|h r]; [done|]. exists r. by injection si_head0 as ->. }
  destruct Hhd as [r Hts].
  split; rewrite ?Hf, ?Hs, ?Hc; try done; unfold irqs_on; rewrite ?Hi; try done; rewrite ?Ho.
  - by rewrite Hts.
  - intros p Hp. specialize (si_nodes0 p Hp). by rewrite lookup_insert_ne by congruence.
  - intros p Hp. destruct (si_fin0 p Hp) as (t & Ht & Hx). exists t.
    rewrite lookup_insert_ne; [done|]. intros <-. apply Hnew. by apply elem_of_dom_2 in Ht.
  - destruct si_current0 as (t & Ht & Hx). exists t. by rewrite lookup_insert_ne.
  - intros p t. destruct (decide (p = new)) as [->|Hp].
    + rewrite lookup_insert_eq. intros [= <-] _. unfold place_ok. cbn. rewrite Hc. auto.
    + rewrite lookup_insert_ne by done. intros Ht Hps. specialize (si_place0 p t Ht Hps).
      unfold place_ok in *. by rewrite Hc.
  - intros t. rewrite lookup_insert_ne by done. eauto.
  - destruct si_remaining0 as (cs & t & Ht & Hpl). exists cs, t. rewrite Hs, Ho, lookup_insert_ne by done.
    split; [done|]. destruct Hpl as [(_ & _ & ?)|(pre & c & it & Hpl & Hts' & Hit & Hcs & Hcc)]; [done|].
    right. rewrite Hts in Hts'. destruct pre as [|h pre]; simpl in Hts'; injection Hts' as Hh Hr; [done|].
    exists (h :: new :: pre), c, it. split_and!; try done; [| |by rewrite Hc].
    + by rewrite Hts, Hr, Hh.
    + unfold iterator_at in *. destruct Hit as (? & _ & Hsh & ? & ?).
      split_and!; try done. intros _. by apply Hsh.
Qed.

Definition sched_ok (s : sched_state) : Prop := ∃ ts fin al os, sched_inv s ts fin al os.

Lemma inv_step s s' : 0 ≤ start_on_new_frame < 2 ^ 32 → sched_step s s' → sched_ok s → sched_ok s'.
Proof.
  intros Hstart Hstep (ts & fin & al & os & H).
  destruct Hstep as [s flags routine arg name new s' Hne E|s s' Hne E|s s' Hne E|s w al' os' Hw Hown Hm|s fuel s' Hcur Hf E].
  - destruct (inv_create s ts fin al os flags routine arg name Hstart H Hne) as [(msg & E' & _)|(new' & k & s1 & E' & _ & _ & H' & _)].
    + congruence.
    + replace s1 with s' in * by congruence. by do 4 eexists.
  - destruct (inv_yield s ts fin al os H Hne) as (s1 & E' & H' & _).
    replace s1 with s' in * by congruence. by do 4 eexists.
  - destruct (inv_exit s ts fin al os H Hne) as [E'|(s1 & p & E' & _ & H' & _)]; [congruence|].
    replace s1 with s' in * by congruence. by do 4 eexists.
  - exists ts, fin, al', os'. by apply (inv_memory s ts fin al os).
  - destruct (si_remaining _ _ _ _ _ H) as [cs Hcs]. rewrite (static_size _ _ _ _ (si_static _ _ _ _ _ H)) in *.
    destruct (inv_schedule_step s ts fin al os cs fuel H Hcur Hcs Hf) as
      [(sk & c & l2 & s1 & _ & _ & _ & E' & H' & _)|(_ & s1 & al1 & os1 & E' & H' & _)];
      replace s1 with s' in * by congruence; by do 4 eexists.
Qed.

Lemma inv_reachable s s' : 0 ≤ start_on_new_frame < 2 ^ 32 → rtc sched_step s s' → sched_ok s → sched_ok s'.
Proof. intros Hstart. induction 1 as [|s s1 s' Hs _ IH]; [done|]. intros H. apply IH. by eapply inv_step. Qed.

(** ** The start *)
Definition boot_state (w : W) : sched_state :=
  mkSched (mkIrq true true) (mkCircular nullptr ∅) forward_list_empty ∅ nullptr nullptr 0 w.

Lemma boot_static w al os i : heap_rep w al os → sched_static (put_irqs i (boot_state w)) [] al os.
Proof.
  intros Hw. split; cbn; try done; try (intros; set_solver); try apply NoDup_nil_2.
Qed.

(** The start ends for lack of memory, or with the scheduler at the top of its loop and
    the main task fresh. *)
Lemma init_done w al os flags main sched_name main_name :
  0 ≤ start_on_new_frame < 2 ^ 32 → 1 ≤ sizeof_Scheduler ≤ 2 ^ 31 → heap_rep w al os → main ≠ nullptr →
  (∃ msg, init_scheduling flags main sched_name main_name (boot_state w) = Fault msg ∧ out_of_memory msg) ∨
  ∃ s0 t1 t2 al0 os0, init_scheduling flags main sched_name main_name (boot_state w) = Done (tt, s0) ∧
    sched_inv s0 [t1; t2] [] al0 os0 ∧ remaining s0 [t1; t2] [t1; t2] ∧
    _scheduler_task s0 = t1 ∧ _current s0 = t1 ∧
    ∀ t, task_objects s0 !! t2 = Some t → _exited t = false.
Proof.
  intros Hstart Hsize Hw Hmain. unfold init_scheduling.
  destruct (new_object_done w al os sizeof_Scheduler Hw Hsize) as [E|(this & w1 & E & _ & Hw1 & _)]; [left|].
  { exists null_object. split; [|by left]. unfold on_heap, zoom, mbind, prog_bind. cbn [heap boot_state]. by rewrite E. }
  rewrite (bind_done _ _ _ this (boot_state w1)) by (unfold on_heap, zoom; cbn [heap boot_state]; by rewrite E).
  clear E Hw w. set (os1 := <[this := sizeof_Scheduler]> os) in *.
  unfold Scheduler_new. rewrite ?bind_bind, modify_bind, ?bind_bind.
  rewrite (bind_done _ _ _ true (put_irqs (mkIrq false false) (boot_state w1))) by done. rewrite ?bind_bind.
  destruct (Z.eqb_spec main nullptr) as [|_]; [done|]. rewrite ?bind_bind.
  destruct (create_task_done (put_irqs (mkIrq false false) (boot_state w1)) [] al os1 flags scheduling_task_routine
    this sched_name (boot_static w1 al os1 _ Hw1) Hstart)
    as [(msg & E1 & Hmsg)|(t1 & k1 & s1 & E1 & _ & Hk1 & Hst1 & (Hi1 & Hf1 & Hs1 & Hc1) & Ho1 & _)].
  { left. exists msg. split; [|done]. unfold mbind, prog_bind. by rewrite E1. }
  rewrite (bind_done _ _ _ _ _ E1), ?bind_bind, modify_bind, ?bind_bind.
  match type of Ho1 with _ = <[_ := ?x]> _ => set (T1 := x) in * end.
  destruct (create_task_done (put_scheduler_task t1 s1) [t1] (<[k1 := stack_pages]> al) (<[t1 := task_size]> os1)
    flags main nullptr main_name) as [(msg & E2 & Hmsg)|(t2 & k2 & s2 & E2 & Hn2 & _ & Hst2 & (Hi2 & Hf2 & Hs2 & Hc2) & Ho2 & _)].
  { by apply (static_eq s1). }
  { done. }
  { left. exists msg. split; [|done]. unfold mbind, prog_bind. by rewrite E2. }
  right. rewrite (bind_done _ _ _ _ _ E2), modify_bind, ?bind_bind.
  assert (Hne : t1 ≠ t2) by (intros ->; by rewrite lookup_insert_eq in Hn2).
  match type of Ho2 with _ = <[_ := ?x]> _ => set (T2 := x) in * end.
  cbn in Hi1, Hf1, Hi2, Hf2, Hs2, Hc2, Ho1, Ho2.
  set (s3 := put_irqs (mkIrq true true) (put_current t1 s2)).
  assert (HT1 : task_objects s3 !! t1 = Some T1).
  { unfold s3. cbn. rewrite Ho2, lookup_insert_ne by done. rewrite Ho1. apply lookup_insert_eq. }
  assert (Hsw : switch_to LoopTop t1 s3 =
    Done (tt, put_objects (<[t1 := suspend_at LoopTop false T1]> (task_objects s2)) s3)).
  { rewrite (switch_to_done s3 LoopTop t1 T1 (suspend_at LoopTop false T1)); try done.
    - unfold s3. cbn. by rewrite insert_insert_eq.
    - unfold s3. cbn. apply lookup_insert_eq. }
  set (s4 := put_objects (<[t1 := suspend_at LoopTop false T1]> (task_objects s2)) s3) in *.
  exists s4, t1, t2, (<[k2 := stack_pages]> (<[k1 := stack_pages]> al)),
    (<[t2 := task_size]> (<[t1 := task_size]> os1)). split.
  { rewrite (bind_done _ _ _ tt s3) by done. unfold start_scheduling.
    rewrite gets_bind. cbn [_scheduler_task s3 put_irqs put_current]. rewrite Hs2. fold s3.
    by rewrite (bind_done _ _ _ _ _ Hsw). }
  assert (Hrem : remaining s4 [t1; t2] [t1; t2]).
  { exists (suspend_at LoopTop false T1). unfold s4, s3. cbn. rewrite Hs2. cbn. rewrite lookup_insert_eq.
    split; [done|]. by left. }
  split; [|split_and!; try done].
  2:{ unfold s4. cbn. intros t. rewrite lookup_insert_ne, Ho2, lookup_insert_eq by done. by intros [= <-]. }
  split; unfold s4; cbn; rewrite ?Hs2; cbn; try done; [| | | | | | | |by eexists].
  - unfold s3. apply (static_eq (put_objects (<[t1 := suspend_at LoopTop false T1]> (task_objects s2)) s2));
      [done..|]. by apply (static_update _ _ _ _ _ T1).
  - rewrite Hf2, Hf1. exists []. split; [done|constructor|]. intros p. cbn [nodes forward_list_empty].
    rewrite dom_empty_L. set_solver.
  - by rewrite Hf2, Hf1.
  - constructor.
  - intros p Hp. by apply elem_of_nil in Hp.
  - exists (suspend_at LoopTop false T1). by rewrite lookup_insert_eq.
  - intros p t Ht Hp. rewrite lookup_insert_ne in Ht by done. rewrite Ho2 in Ht.
    apply lookup_insert_Some in Ht as [[<- <-]|[_ Ht]].
    + unfold place_ok. cbn. right. split; [done|congruence].
    + rewrite Ho1 in Ht. by apply lookup_insert_Some in Ht as [[<- _]|[_ ?]].
  - intros t. rewrite lookup_insert_eq. by intros [= <-].
Qed.
End Scheduler.

(** * Properties *)

(** C1: the scheduler is safe, whatever the tasks do and whatever the rest of the kernel
    does with the heap: started on any heap it comes up, unless the memory runs out, and
    in every state it can reach interrupts are on, the task that runs exists and has not
    finished, and it can go on - the scheduler task completes its stretch, any other task
    can yield, can finish and can create tasks, without a panic and without touching a
    deleted task; only a [new] without memory stops a task. *)
Theorem scheduler_safe {W} `{KH : KernelHeap W} start routine object_size w al os flags main sched_name main_name
    (Hstart : 0 ≤ start < 2 ^ 32) (Hsize : 1 ≤ object_size ≤ 2 ^ 31) (Hw : heap_rep w al os) (Hmain : main ≠ nullptr) :
  match init_scheduling start routine object_size flags main sched_name main_name (boot_state w) with
  | Done (_, s0) => ∀ s, rtc (sched_step start) s0 s →
      irqs s = mkIrq true true ∧
      (∃ t, task_objects s !! _current s = Some t ∧ _exited t = false) ∧
      (_current s = _scheduler_task s → ∀ fuel, (size (task_objects s) < fuel)%nat →
         ∃ s', schedule_step start fuel s = Done (tt, s')) ∧
      (_current s ≠ _scheduler_task s →
         (∃ s', yield start InRoutine s = Done (tt, s')) ∧
         (exit_task start s = Fault null_object ∨ ∃ s', exit_task start s = Done (tt, s')) ∧
         ∀ flags routine arg name,
           (∃ msg, create_task start flags routine arg name s = Fault msg ∧ out_of_memory msg) ∨
           ∃ new s', create_task start flags routine arg name s = Done (new, s'))
  | Fault msg => out_of_memory msg
  | Panic _ | Fuel => False
  end.
Proof.
  destruct (init_done start routine object_size w al os flags main sched_name main_name Hstart Hsize Hw Hmain)
    as [(msg & -> & Hmsg)|(s0 & t1 & t2 & al0 & os0 & -> & H0 & _)]; [done|]. intros s Hr.
  destruct (inv_reachable start s0 s Hstart Hr) as (ts & fin & al' & os' & H); [by do 4 eexists|].
  split_and!; [apply (si_irqs _ _ _ _ _ _ H)|apply (si_current _ _ _ _ _ _ H)| |].
  - intros Hc fuel Hf. rewrite (static_size start _ _ _ _ (si_static _ _ _ _ _ _ H)) in Hf.
    destruct (si_remaining _ _ _ _ _ _ H) as [cs Hcs].
    destruct (inv_schedule_step start s ts fin al' os' cs fuel H Hc Hcs Hf) as
      [(? & ? & ? & s' & ? & ? & ? & E & _)|(? & s' & ? & ? & E & _)]; by exists s'.
  - intros Hc. split_and!.
    + destruct (inv_yield start s ts fin al' os' H Hc) as (s' & E & _). by exists s'.
    + destruct (inv_exit start s ts fin al' os' H Hc) as [?|(s' & p & E & _)]; [by left|right; by exists s'].
    + intros fl r a n. destruct (inv_create start s ts fin al' os' fl r a n Hstart H Hc)
        as [?|(new & k & s' & E & _)]; [by left|right; by exists new, s'].
Qed.

(** C9: a stretch of the scheduler switches to the first task the round has still
    to visit that is not finished, and keeps the rest of the round; when there is
    none the round ends: exactly the tasks in the list of finished tasks leave the
    ring; their objects, their stacks and the nodes of the list are given back and
    nothing else is, and the next round starts with the whole ring. *)
Theorem scheduler_round {W} `{KH : KernelHeap W} start (s : sched_state) ts fin al os cs fuel
    (Hinv : sched_inv start s ts fin al os) (Hcur : _current s = _scheduler_task s)
    (Hrem : remaining s ts cs) (Hfuel : (length ts < fuel)%nat) :
  (∃ sk c l2 s', cs = sk ++ c :: l2 ∧ Forall (skipped s) sk ∧ eligible s c ∧
     schedule_step start fuel s = Done (tt, s') ∧ sched_inv start s' ts fin al os ∧ remaining s' ts l2 ∧
     _current s' = c ∧ _scheduler_task s' = _scheduler_task s) ∨
  (Forall (skipped s) cs ∧
   let ts' := filter (λ u, u ∉ fin) ts in
   ∃ s' al' os', schedule_step start fuel s = Done (tt, s') ∧ sched_inv start s' ts' [] al' os' ∧
     remaining s' ts' ts' ∧
     _current s' = _scheduler_task s ∧ _scheduler_task s' = _scheduler_task s ∧
     stacks_freed s fin al al' ∧ round_freed s fin os os' ∧ _finished_tasks s' = forward_list_empty ∧
     (∀ u, task_objects s' !! u = None ↔ u ∈ fin ∨ task_objects s !! u = None)).
Proof. by apply inv_schedule_step. Qed.

(** C26: [create_task] allocates the task and puts it behind the head of the ring with a
    stack of its own, and leaves on it a frame from which the first switch enters
    [Task::run] on that very task, whatever the flags were at its creation, with
    interrupts on; without memory it ends in the use of a null pointer. *)
Theorem create_task_correct {W} `{KH : KernelHeap W} start (s : sched_state) ts al os flags routine arg name
    (Hinv : sched_static start s ts al os) (Hstart : 0 ≤ start < 2 ^ 32) :
  (∃ msg, create_task start flags routine arg name s = Fault msg ∧ out_of_memory msg) ∨
  ∃ new s' t, create_task start flags routine arg name s = Done (new, s') ∧
    task_objects s' = <[new := t]> (task_objects s) ∧ os !! new = None ∧ new ∉ ts ∧
    al !! _stack t = None ∧ _esp t = _stack t + 65516 ∧ resume_place t = Fresh ∧
    _routine t = routine ∧ _arg t = arg ∧ _exited t = false ∧
    sched_static start s' (insert_task new ts) (<[_stack t := stack_pages]> al) (<[new := task_size]> os) ∧
    same_rest s s' ∧
    load_frame (heap_mem (heap s')) (_esp t) =
      mkNewTaskStack (u32 (_stack t - 8)) (u32 (processor_flags flags (if_flag (irqs s))))
        (u32 (_stack t - 8)) start new ∧
    resume start new s' =
      Done (tt, put_objects (<[new := suspend_at InRoutine false t]> (task_objects s'))
                  (put_irqs (mkIrq true true) s')).
Proof.
  destruct (create_task_done start s ts al os flags routine arg name Hinv Hstart)
    as [?|(new & stack & s' & E & Hos & Hfresh & Hst & Hrest & Ho & Hfr)]; [by left|right].
  match type of Ho with _ = <[_ := ?x]> _ => set (T := x) in * end.
  assert (HT : task_objects s' !! new = Some T) by (by rewrite Ho, lookup_insert_eq).
  exists new, s', T. split_and!; try done.
  - intros Hin. pose proof (st_memory _ _ _ _ _ Hinv _ Hin). congruence.
  - unfold T, PAGE_SIZE, stack_pages, NewTaskStack_size. cbn. lia.
  - rewrite (resume_done start s' new T HT); [done|]. apply (st_frame _ _ _ _ _ Hst _ _ HT).
Qed.

(** ** Witnesses *)
Section Examples.

(** A heap that hands out pages in order and keeps count: a run is a block, or an
    object of some size. *)
Record bump : Type := mkBump { bump_mem : mem; bump_next : Z; bump_runs : gmap Z (Z * option Z) }.

Record bump_rep (w : bump) (al os : gmap Z Z) : Prop := {
  bump_al : ∀ p n, al !! p = Some n ↔ bump_runs w !! p = Some (n, None);
  bump_os : ∀ p n, os !! p = Some n ↔ ∃ k, bump_runs w !! p = Some (k, Some n) ∧ 1 ≤ n ≤ PAGE_SIZE * k;
  bump_pos : 0 < bump_next w ∧ bump_next w mod PAGE_SIZE = 0;
  bump_run : ∀ p k x, bump_runs w !! p = Some (k, x) → 1 ≤ k ∧ 0 < p ∧ p mod PAGE_SIZE = 0 ∧
    p + PAGE_SIZE * k ≤ bump_next w ∧ p + PAGE_SIZE * k < 2 ^ 32;
  bump_disjoint : ∀ p k x q j y a, bump_runs w !! p = Some (k, x) → bump_runs w !! q = Some (j, y) →
    run_bytes p k a → run_bytes q j a → p = q
}.

Definition bump_take (k : Z) (x : option Z) : prog bump Z := λ w,
  if bump_next w + PAGE_SIZE * k <? 2 ^ 32 then
    Done (bump_next w, mkBump (bump_mem w) (bump_next w + PAGE_SIZE * k)
                         (<[bump_next w := (k, x)]> (bump_runs w)))
  else Done (nullptr, w).

Definition bump_drop (p : Z) : prog bump unit := λ w,
  Done (tt, mkBump (bump_mem w) (bump_next w) (delete p (bump_runs w))).

Definition bump_new (n : Z) : prog bump Z := bump_take (n / PAGE_SIZE + 1) (Some n).

Lemma bump_fresh w al os : bump_rep w al os →
  bump_runs w !! bump_next w = None ∧ al !! bump_next w = None ∧ os !! bump_next w = None.
Proof.
  intros H. assert (Hn : bump_runs w !! bump_next w = None).
  { destruct (bump_runs w !! bump_next w) as [[k x]|] eqn:E; [|done].
    pose proof (bump_run _ _ _ H _ _ _ E). unfold PAGE_SIZE in *. lia. }
  split_and!; [done|..]; apply eq_None_not_Some; intros [n E].
  - apply (bump_al _ _ _ H) in E. congruence.
  - apply (bump_os _ _ _ H) in E as (k & E & _). congruence.
Qed.

Lemma bump_take_rep w al os k x : bump_rep w al os → 1 ≤ k →
  (∀ n, x = Some n → 1 ≤ n ≤ PAGE_SIZE * k) →
  bump_take k x w = Done (nullptr, w) ∨
  ∃ w', bump_take k x w = Done (bump_next w, w') ∧ bump_mem w' = bump_mem w ∧
    bump_rep w' (if x then al else <[bump_next w := k]> al)
      (match x with Some n => <[bump_next w := n]> os | None => os end).
Proof.
  intros H Hk Hx. destruct (bump_fresh w al os H) as (Hnone & Ha & Ho). pose proof H as [H1 H2 [H3 H4] H5 H6].
  unfold bump_take. destruct (Z.ltb_spec (bump_next w + PAGE_SIZE * k) (2 ^ 32)) as [Hlt|]; [right|by left].
  eexists. split; [reflexivity|]. split; [done|]. unfold PAGE_SIZE in *.
  assert (Hap : ∀ q j y, bump_runs w !! q = Some (j, y) → ∀ a, run_bytes (bump_next w) k a → run_bytes q j a → False).
  { intros q j y Hq a. pose proof (H5 q j y Hq). unfold run_bytes, PAGE_SIZE. lia. }
  split; cbn [bump_runs bump_next].
  - intros p n. destruct (decide (p = bump_next w)) as [->|Hne].
    + rewrite lookup_insert_eq. destruct x; [rewrite Ha|rewrite lookup_insert_eq]; naive_solver.
    + rewrite lookup_insert_ne by done. destruct x; [apply H1|]. rewrite lookup_insert_ne by done. apply H1.
  - intros p n. destruct (decide (p = bump_next w)) as [->|Hne].
    + rewrite lookup_insert_eq. destruct x as [m|]; [rewrite lookup_insert_eq|rewrite Ho].
      * split; [intros [= <-]; exists k; split; [done|by apply Hx]|]. by intros (j & [= _ ->] & _).
      * split; [done|]. by intros (j & ? & _).
    + rewrite lookup_insert_ne by done. destruct x as [m|]; [|apply H2]. rewrite lookup_insert_ne by done. apply H2.
  - split; [lia|]. unfold PAGE_SIZE. rewrite Z.mul_comm, Z_mod_plus_full. done.
  - unfold PAGE_SIZE. intros p j y [[<- [= <- <-]]|[Hne Hp]]%lookup_insert_Some; [lia|].
    destruct (H5 p j y Hp) as (? & ? & ? & ? & ?). split_and!; try done; lia.
  - intros p i y q j z a [[<- [= <- <-]]|[Hne Hp]]%lookup_insert_Some [[<- [= <- <-]]|[Hne' Hq]]%lookup_insert_Some
      Hpa Hqa; [done| | |by eapply H6]; exfalso; eapply Hap; done.
Qed.

Lemma bump_drop_rep w al os p : bump_rep w al os → ∃ w', bump_drop p w = Done (tt, w') ∧
  bump_mem w' = bump_mem w ∧ bump_rep w' (delete p al) (delete p os).
Proof.
  intros [H1 H2 H3 H4 H5]. eexists. split; [reflexivity|]. split; [done|]. split; cbn [bump_runs bump_next]; try done.
  - intros q n. destruct (decide (q = p)) as [->|]; [by rewrite !lookup_delete_eq|]. rewrite !lookup_delete_ne by done. apply H1.
  - intros q n. destruct (decide (q = p)) as [->|].
    + rewrite !lookup_delete_eq. split; [done|]. by intros (? & ? & _).
    + rewrite !lookup_delete_ne by done. apply H2.
  - intros q k x [_ Hq]%lookup_delete_Some. by apply (H4 q k x).
  - intros q k x q' k' x' a [_ Hq]%lookup_delete_Some [_ Hq']%lookup_delete_Some. by eapply H5.
Qed.

#[program] Definition bump_heap : KernelHeap bump := {|
  heap_alloc_pages n := bump_take n None;
  heap_free_pages := bump_drop;
  operator_new := bump_new;
  operator_delete := bump_drop;
  heap_mem := bump_mem;
  set_heap_mem m w := mkBump m (bump_next w) (bump_runs w);
  heap_rep := bump_rep
|}.
Next Obligation. done. Qed.
Next Obligation.
  cbn. intros w al os p n H Hp%(bump_al _ _ _ H). by destruct (bump_run _ _ _ H _ _ _ Hp) as (? & ? & ? & _ & ?).
Qed.
Next Obligation.
  cbn. intros w al os p n q k a H Hp%(bump_al _ _ _ H) Hq%(bump_al _ _ _ H). by apply (bump_disjoint _ _ _ H p n None q k None).
Qed.
Next Obligation.
  cbn. intros w al os p n H (k & Hp & Hn)%(bump_os _ _ _ H). destruct (bump_run _ _ _ H _ _ _ Hp) as (? & ? & ? & _ & ?). lia.
Qed.
Next Obligation.
  cbn. intros w al os p n q k a H (i & Hp & Hn)%(bump_os _ _ _ H) (j & Hq & Hk)%(bump_os _ _ _ H) Ha Hb.
  apply (bump_disjoint _ _ _ H p i (Some n) q j (Some k) a); try done; unfold run_bytes; lia.
Qed.
Next Obligation.
  cbn. intros w al os p n q k a H (i & Hp & Hn)%(bump_os _ _ _ H) Hq%(bump_al _ _ _ H) Ha Hb.
  assert (p = q) as ->; [|congruence].
  apply (bump_disjoint _ _ _ H p i (Some n) q k None a); try done; unfold run_bytes; lia.
Qed.
Next Obligation. cbn. intros w al os m []. by split. Qed.
Next Obligation.
  cbn. intros w al os n H Hn. destruct (bump_take_rep w al os n None H) as [E|(w' & E & Hm & H')]; [lia|done|..].
  - exists nullptr, w, al. split_and!; try done. by left.
  - destruct (bump_fresh w al os H) as (_ & Ha & _). exists (bump_next w), w', (<[bump_next w := n]> al).
    split_and!; try done; [right|intros a _; by rewrite Hm].
    split_and!; try done. destruct (bump_pos _ _ _ H). unfold nullptr. lia.
Qed.
Next Obligation.
  cbn. intros w al os p n H Hp. destruct (bump_drop_rep w al os p H) as (w' & E & Hm & H').
  exists w'. split; [done|]. split; [|intros a _; by rewrite Hm].
  assert (os !! p = None) as Hos; [|by rewrite (delete_id os) in H' by done].
  apply eq_None_not_Some. intros [k (j & Hk & _)%(bump_os _ _ _ H)]. apply (bump_al _ _ _ H) in Hp. congruence.
Qed.
Next Obligation.
  cbn. intros w al os n H Hn.
  destruct (bump_take_rep w al os (n / PAGE_SIZE + 1) (Some n) H) as [E|(w' & E & Hm & H')].
  - unfold PAGE_SIZE. Z.div_mod_to_equations. lia.
  - intros m [= <-]. unfold PAGE_SIZE. Z.div_mod_to_equations. lia.
  - exists nullptr, w, os. split_and!; try done. by left.
  - destruct (bump_fresh w al os H) as (_ & _ & Ho). exists (bump_next w), w', (<[bump_next w := n]> os).
    split_and!; try done; [right|intros a _; by rewrite Hm].
    split_and!; try done. destruct (bump_pos _ _ _ H). unfold nullptr. lia.
Qed.
Next Obligation.
  cbn. intros w al os p n H Hp. destruct (bump_drop_rep w al os p H) as (w' & E & Hm & H').
  exists w'. split; [done|]. split; [|intros a _; by rewrite Hm].
  assert (al !! p = None) as Hal; [|by rewrite (delete_id al) in H' by done].
  apply eq_None_not_Some. intros [k Hk%(bump_al _ _ _ H)]. apply (bump_os _ _ _ H) in Hp as (j & Hp & _). congruence.
Qed.

(** Memory from the second page on. *)
Definition example_heap : bump := mkBump ∅ 4096 ∅.

Lemma example_heap_rep : heap_rep (KernelHeap := bump_heap) example_heap ∅ ∅.
Proof.
  split; cbn; try done.
  - intros p n. split; [done|]. by intros (k & ? & _).
Qed.

(** The scheduler object, then the two tasks, each in front of its stack. *)
Example example_start :
  match init_scheduling (KH := bump_heap) 77 66 32 0 55 0 0 (boot_state example_heap) with
  | Done (_, s) => _scheduler_task s = 8192 ∧ dom (task_objects s) = {[ 8192; 77824 ]} ∧
      (_stack <$> task_objects s !! 77824) = Some 81920
  | _ => False
  end.
Proof. by vm_compute. Qed.

Lemma scheduler_safe_witness :
  match init_scheduling (KH := bump_heap) 77 66 32 0 55 0 0 (boot_state example_heap) with
  | Done (_, s0) => ∀ s, rtc (sched_step (KH := bump_heap) 77) s0 s →
      irqs s = mkIrq true true ∧
      (∃ t, task_objects s !! _current s = Some t ∧ _exited t = false) ∧
      (_current s = _scheduler_task s → ∀ fuel, (size (task_objects s) < fuel)%nat →
         ∃ s', schedule_step (KH := bump_heap) 77 fuel s = Done (tt, s')) ∧
      (_current s ≠ _scheduler_task s →
         (∃ s', yield (KH := bump_heap) 77 InRoutine s = Done (tt, s')) ∧
         (exit_task (KH := bump_heap) 77 s = Fault null_object ∨
            ∃ s', exit_task (KH := bump_heap) 77 s = Done (tt, s')) ∧
         ∀ flags routine arg name,
           (∃ msg, create_task (KH := bump_heap) 77 flags routine arg name s = Fault msg ∧ out_of_memory msg) ∨
           ∃ new s', create_task (KH := bump_heap) 77 flags routine arg name s = Done (new, s'))
  | Fault msg => out_of_memory msg
  | Panic _ | Fuel => False
  end.
Proof. apply (scheduler_safe (KH := bump_heap) 77 66 32 example_heap ∅ ∅); [lia|lia|apply example_heap_rep|done]. Defined.

(** The state behind the start of the example: the scheduler at the top of its
    loop, the main task fresh. *)
Lemma example_sched_started : ∃ s al os, sched_inv (KH := bump_heap) 77 s [8192; 77824] [] al os ∧
  remaining (W := bump) s [8192; 77824] [8192; 77824] ∧ _scheduler_task s = 8192 ∧ _current s = 8192.
Proof.
  destruct (init_done (KH := bump_heap) 77 66 32 example_heap ∅ ∅ 0 55 0 0)
    as [(msg & E & _)|(s & t1 & t2 & al & os & E & H1 & H2 & H3 & H4 & _)];
    [lia|lia|apply example_heap_rep|done|vm_compute in E; discriminate|].
  pose proof example_start as Hs. rewrite E in Hs. clear E. destruct Hs as (Hs & Hd & _).
  assert (t1 = 8192) as -> by congruence.
  assert (t2 = 77824) as ->; [|by exists s, al, os].
  pose proof (si_static _ _ _ _ _ _ H1) as Hst. pose proof (st_objects _ _ _ _ _ Hst t2) as Ho. rewrite Hd in Ho.
  pose proof (st_nodup _ _ _ _ _ Hst) as Hnd. apply NoDup_cons in Hnd as [Hne _]. set_solver.
Qed.

Lemma scheduler_round_witness : ∃ s al os, sched_inv (KH := bump_heap) 77 s [8192; 77824] [] al os ∧
  ((∃ sk c l2 s', [8192; 77824] = sk ++ c :: l2 ∧ Forall (skipped s) sk ∧ eligible s c ∧
     schedule_step (KH := bump_heap) 77 3 s = Done (tt, s') ∧
     sched_inv (KH := bump_heap) 77 s' [8192; 77824] [] al os ∧ remaining s' [8192; 77824] l2 ∧
     _current s' = c ∧ _scheduler_task s' = _scheduler_task s) ∨
  (Forall (skipped s) [8192; 77824] ∧
   let ts' := filter (λ u, u ∉ []) [8192; 77824] in
   ∃ s' al' os', schedule_step (KH := bump_heap) 77 3 s = Done (tt, s') ∧
     sched_inv (KH := bump_heap) 77 s' ts' [] al' os' ∧ remaining s' ts' ts' ∧
     _current s' = _scheduler_task s ∧ _scheduler_task s' = _scheduler_task s ∧
     stacks_freed s [] al al' ∧ round_freed s [] os os' ∧ _finished_tasks s' = forward_list_empty ∧
     (∀ u, task_objects s' !! u = None ↔ u ∈ [] ∨ task_objects s !! u = None))).
Proof.
  destruct example_sched_started as (s & al & os & H & Hr & Hs & Hc). exists s, al, os. split; [exact H|].
  apply (scheduler_round (KH := bump_heap) 77 s [8192; 77824] [] al os [8192; 77824] 3 H);
    [congruence|exact Hr|simpl; lia].
Defined.

Lemma create_task_correct_witness :
  let s := boot_state example_heap in
  (∃ msg, create_task (KH := bump_heap) 77 0 5 6 0 s = Fault msg ∧ out_of_memory msg) ∨
  ∃ new s' t, create_task (KH := bump_heap) 77 0 5 6 0 s = Done (new, s') ∧
    task_objects s' = <[new := t]> ∅ ∧ (∅ : gmap Z Z) !! new = None ∧ new ∉ [] ∧
    (∅ : gmap Z Z) !! _stack t = None ∧ _esp t = _stack t + 65516 ∧ resume_place t = Fresh ∧
    _routine t = 5 ∧ _arg t = 6 ∧ _exited t = false ∧
    sched_static (KH := bump_heap) 77 s' [new] (<[_stack t := stack_pages]> ∅) (<[new := task_size]> ∅) ∧
    same_rest s s' ∧
    load_frame (bump_mem (heap s')) (_esp t) =
      mkNewTaskStack (u32 (_stack t - 8)) (u32 (processor_flags 0 true)) (u32 (_stack t - 8)) 77 new ∧
    resume (KH := bump_heap) 77 new s' =
      Done (tt, put_objects (<[new := suspend_at InRoutine false t]> (task_objects s'))
                  (put_irqs (mkIrq true true) s')).
Proof.
  apply (create_task_correct (KH := bump_heap) 77 (boot_state example_heap) [] ∅ ∅ 0 5 6 0).
  - exact (boot_static (KH := bump_heap) 77 example_heap ∅ ∅ (mkIrq true true) example_heap_rep).
  - lia.
Defined.
End Examples.
