(* ===== verification/OStream.v ===== *)
(** * Output streams

    [libkernelcxx/src/ostream.cpp], [streambuf.cpp], [src/ext/scoped_format_guard.cpp]
    and [src/ext/snprintf_stream.cpp].  A stream is formatting state over a stream
    buffer; what the buffer does with a character is behind the two virtual
    functions of [streambuf], the class [StreamBuf] below. *)
From stdpp Require Import base tactics numbers list gmap strings.
From S2P Require Import Prelude MemUtils CString.

(** ** [streambuf] *)
Class StreamBuf (B : Type) : Type := {
  overflow : Z → prog B Z;
  xsputn : list Z → prog B Z
}.

(** A buffer that keeps all it gets. *)
#[export] Instance collecting_buf : StreamBuf (list Z) := {|
  overflow c := λ b, Done (c, b ++ [c]);
  xsputn s := λ b, Done (Z.of_nat (length s), b ++ s)
|}.

(** ** [ostream] *)
Definition fmt_dec : Z := Z.shiftl 1 0.
Definition fmt_hex : Z := Z.shiftl 1 1.
Definition basefield : Z := Z.lor fmt_dec fmt_hex.

Record ostream : Type := mkOstream {
  streambuf_ : bool;  (* is there a buffer *)
  format_ : Z;
  width_ : Z;
  fillch_ : Z
}.

Definition ostream_default : ostream := mkOstream false fmt_dec 0 32.
Definition ostream_over_buffer : ostream := mkOstream true fmt_dec 0 32.

(** The types [show_numerical_value] is instantiated with. *)
Record int_type : Type := mkIntType { int_bits : Z; int_signed : bool }.
Definition unsigned_char_type : int_type := mkIntType 8 false.
Definition short_type : int_type := mkIntType 16 true.
Definition unsigned_short_type : int_type := mkIntType 16 false.
Definition int_type_ : int_type := mkIntType 32 true.
Definition unsigned_int_type : int_type := mkIntType 32 false.
Definition long_type : int_type := mkIntType 32 true.
Definition unsigned_long_type : int_type := mkIntType 32 false.

Definition MAX_DEC_LENGTH : Z := 20 + 1.
Definition char_0 : Z := 48.
Definition char_a : Z := 97.
Definition char_minus : Z := 45.
Definition char_newline : Z := 10.

Definition to_printable (digit : Z) : Z :=
  if digit <? 10 then char_0 + digit else char_a + digit - 10.

(** The text of a string literal. *)
Definition chars_of (s : string) : list Z := (λ a, Z.of_N (Ascii.N_of_ascii a)) <$> String.list_ascii_of_string s.

Section Ostream.
Context {B : Type} `{StreamBuf B}.

Abbreviation stream_prog := (prog (ostream * B)).

Definition on_buf {A} : prog B A → stream_prog A := zoom snd (λ b s, (s.1, b)).

Definition sputc (c : Z) : prog B Z := overflow c.
Definition sputn (s : list Z) : prog B Z := xsputn s.

Definition put (c : Z) : stream_prog unit :=
  o ← gets fst; if streambuf_ o then on_buf (sputc c) ;; mret tt else mret tt.

Definition write (str : list Z) : stream_prog unit :=
  o ← gets fst; if streambuf_ o then on_buf (sputn str) ;; mret tt else mret tt.

(** The format state. *)
Definition setf (fl : Z) (o : ostream) : ostream * Z :=
  (mkOstream (streambuf_ o) (Z.lor (format_ o) fl) (width_ o) (fillch_ o), format_ o).

Definition setf_mask (fl mask : Z) (o : ostream) : ostream * Z :=
  (mkOstream (streambuf_ o) (Z.lor (Z.ldiff (format_ o) mask) fl) (width_ o) (fillch_ o), format_ o).

Definition set_width (wide : Z) (o : ostream) : ostream * Z :=
  (mkOstream (streambuf_ o) (format_ o) wide (fillch_ o), width_ o).

Definition set_fill (fillch : Z) (o : ostream) : ostream * Z :=
  (mkOstream (streambuf_ o) (format_ o) (width_ o) fillch, fillch_ o).

Definition copyfmt (other o : ostream) : ostream :=
  mkOstream (streambuf_ o) (format_ other) (width_ other) (fillch_ other).

Definition rdbuf_set (sb : bool) (o : ostream) : ostream * bool :=
  (mkOstream sb (format_ o) (width_ o) (fillch_ o), streambuf_ o).

Definition on_format (f : ostream → ostream) : stream_prog unit := modify (λ s, (f s.1, s.2)).

(** The manipulators. *)
Definition dec : stream_prog unit := on_format (λ o, (setf_mask fmt_dec basefield o).1).
Definition hex : stream_prog unit := on_format (λ o, (setf_mask fmt_hex basefield o).1).
Definition endl : stream_prog unit := put char_newline.
Definition setw (n : Z) : stream_prog unit := on_format (λ o, (set_width n o).1).
Definition setfill (fillch : Z) : stream_prog unit := on_format (λ o, (set_fill fillch o).1).

(** [while (width-- > already_have) stream.put(fillch);] *)
Fixpoint fill_loop (fuel : nat) (fillch width already_have : Z) : stream_prog unit :=
  match fuel with
  | O => no_fuel
  | S n =>
      if already_have <? width then put fillch ;; fill_loop n fillch (u32 (width - 1)) already_have
      else mret tt
  end.

Definition fill_field (width already_have : Z) : stream_prog unit :=
  o ← gets fst; fill_loop (S (Z.to_nat width)) (fillch_ o) width already_have.

(** [operator<<(char)] *)
Definition show_char (val : Z) : stream_prog unit :=
  o ← gets fst; fill_field (width_ o) 1 ;; put val.

(** [operator<<] of a C string on the memory [m]. *)
Fixpoint show_string_loop (fuel : nat) (m : mem) (p : Z) : stream_prog unit :=
  match fuel with
  | O => no_fuel
  | S n =>
      if load8 m p =? 0 then mret tt
      else put (load8 m p) ;; show_string_loop n m (u32 (p + 1))
  end.

Definition show_string (fuel : nat) (m : mem) (p : Z) : stream_prog unit :=
  len ← lift_outcome (strlen fuel m p);
  o ← gets fst; fill_field (width_ o) len ;; show_string_loop fuel m p.

(** The same on a literal. *)
Fixpoint put_all (l : list Z) : stream_prog unit :=
  match l with [] => mret tt | c :: l => put c ;; put_all l end.

Definition show_literal (l : list Z) : stream_prog unit :=
  o ← gets fst; fill_field (width_ o) (Z.of_nat (length l)) ;; put_all l.

Definition show_bool (value : bool) : stream_prog unit :=
  show_literal (chars_of (if value then "true" else "false")).

(** [buffer[digits++] = c] *)
Definition push_digit (c : Z) (buffer : list Z) : outcome (list Z) :=
  if MAX_DEC_LENGTH <=? Z.of_nat (length buffer) then Fault "write past the digit buffer"
  else Done (buffer ++ [c]).

Fixpoint digits_loop (fuel : nat) (base u : Z) (buffer : list Z) : outcome (list Z) :=
  match fuel with
  | O => Fuel
  | S n =>
      if u =? 0 then Done buffer
      else match push_digit (to_printable (u8 (u mod base))) buffer with
           | Done buffer => digits_loop n base (u / base) buffer
           | e => e
           end
  end.

(** No type has more than 32 bits, so that 32 divisions reach zero. *)
Definition digits_fuel : nat := 33.

(** The digit buffer, least significant digit first. *)
Definition digit_buffer (ty : int_type) (format value : Z) : outcome (list Z) :=
  let bf := Z.land format basefield in
  let base := if bf =? fmt_hex then 16 else 10 in
  let u := if bf =? fmt_hex then value mod 2 ^ int_bits ty
           else if 0 <=? value then value mod 2 ^ int_bits ty
           else (0 - value) mod 2 ^ int_bits ty in
  match digits_loop digits_fuel base u [] with
  | Done buffer =>
      match (if Z.of_nat (length buffer) =? 0 then push_digit char_0 buffer else Done buffer) with
      | Done buffer =>
          if (bf =? fmt_dec) && (value <? 0) then push_digit char_minus buffer else Done buffer
      | e => e
      end
  | e => e
  end.

Definition show_numerical_value (ty : int_type) (value : Z) : stream_prog unit :=
  o ← gets fst;
  buffer ← lift_outcome (digit_buffer ty (format_ o) value);
  fill_field (width_ o) (Z.of_nat (length buffer)) ;;
  put_all (rev buffer).

(** The operators on the integer types, and on a manipulator. *)
Definition show_unsigned_char (val : Z) : stream_prog unit := show_numerical_value unsigned_char_type val.
Definition show_short (val : Z) : stream_prog unit := show_numerical_value short_type val.
Definition show_unsigned_short (val : Z) : stream_prog unit := show_numerical_value unsigned_short_type val.
Definition show_int (val : Z) : stream_prog unit := show_numerical_value int_type_ val.
Definition show_unsigned_int (val : Z) : stream_prog unit := show_numerical_value unsigned_int_type val.
Definition show_long (val : Z) : stream_prog unit := show_numerical_value long_type val.
Definition show_unsigned_long (val : Z) : stream_prog unit := show_numerical_value unsigned_long_type val.
Definition show_manipulator (func : stream_prog unit) : stream_prog unit := func.

Definition show_pointer (ptr : Z) : stream_prog unit := show_numerical_value unsigned_int_type ptr.

(** ** [ScopedFormatGuard]: the format of the stream around a body *)
Definition with_format_guard {A} (body : stream_prog A) : stream_prog A :=
  backup ← gets (λ s, copyfmt s.1 ostream_default);
  a ← body;
  on_format (copyfmt backup) ;; mret a.
End Ostream.

(** ** [SnprintfStream::Buf] *)
Record Buf : Type := mkBuf { _buf : Z; _last : Z }.

Definition Buf_new (buf max_len : Z) (m : mem) : mem * Buf :=
  (store8 m buf 0, mkBuf buf (if max_len =? 0 then buf else u32 (u32 (buf + max_len) - 1))).

Definition Buf_overflow (c : Z) : prog (mem * Buf) Z := λ '(m, b),
  if _buf b =? _last b then Done (c, (m, b))
  else Done (c, (store8 (store8 m (_buf b) c) (u32 (_buf b + 1)) 0, mkBuf (u32 (_buf b + 1)) (_last b))).

(** The copying loop of [xsputn]; the list is what is left of the source. *)
Fixpoint xsputn_loop (s : list Z) (m : mem) (b : Buf) : mem * Buf :=
  match s with
  | [] => (m, b)
  | c :: s =>
      if _buf b =? _last b then (m, b)
      else xsputn_loop s (store8 m (_buf b) c) (mkBuf (u32 (_buf b + 1)) (_last b))
  end.

Definition Buf_xsputn (s : list Z) : prog (mem * Buf) Z := λ '(m, b),
  if _buf b =? _last b then Done (Z.of_nat (length s), (m, b))
  else
    let '(m, b) := xsputn_loop s m b in
    Done (Z.of_nat (length s), (store8 m (_buf b) 0, b)).

#[export] Instance snprintf_buf : StreamBuf (mem * Buf) := {|
  overflow := Buf_overflow;
  xsputn := Buf_xsputn
|}.

(** * Verification *)

(** ** Numerals

    The digits are in a table.  A reader looks a character up among the first [base] of them and
    fails on any other. *)
Definition digit_chars : list Z := chars_of "0123456789abcdef".
Definition digit_char (d : Z) : Z := nth (Z.to_nat d) digit_chars 0.

Definition digit_value (base c : Z) : option Z :=
  '(i, _) ← list_find (λ d, d = c) (take (Z.to_nat base) digit_chars); Some (Z.of_nat i).

Fixpoint parse_digits (base v : Z) (text : list Z) : option Z :=
  match text with
  | [] => Some v
  | c :: text => d ← digit_value base c; parse_digits base (base * v + d) text
  end.

Definition parse_nat (base : Z) (text : list Z) : option Z :=
  match text with [] => None | _ => parse_digits base 0 text end.

Definition parse_dec (text : list Z) : option Z :=
  match text with
  | c :: text' => if c =? char_minus then Z.opp <$> parse_nat 10 text' else parse_nat 10 text
  | [] => None
  end.

(** The numeral of a number, most significant digit first. *)
Fixpoint radix (fuel : nat) (base u : Z) : list Z :=
  match fuel with
  | O => []
  | S n => if u <? base then [digit_char u] else radix n base (u / base) ++ [digit_char (u mod base)]
  end.

Lemma to_printable_char d : 0 ≤ d < 16 → to_printable d = digit_char d.
Proof.
  intros Hd. assert (H : forallb (λ d, to_printable d =? digit_char d) (seqZ 0 16) = true) by by vm_compute.
  rewrite forallb_forall in H. apply Z.eqb_eq, H, list_elem_of_In, elem_of_seqZ. lia.
Qed.

Lemma digit_value_char base d : 2 ≤ base ≤ 16 → 0 ≤ d < base → digit_value base (digit_char d) = Some d.
Proof.
  intros Hb Hd.
  assert (H : forallb (λ b, forallb (λ d, bool_decide (digit_value b (digit_char d) = Some d)) (seqZ 0 b)) (seqZ 2 15)
    = true) by by vm_compute.
  rewrite forallb_forall in H. specialize (H base). rewrite <- list_elem_of_In, elem_of_seqZ in H.
  specialize (H ltac:(lia)). rewrite forallb_forall in H. specialize (H d).
  rewrite <- list_elem_of_In, elem_of_seqZ in H. specialize (H ltac:(lia)). by apply bool_decide_eq_true_1 in H.
Qed.

Lemma parse_digits_app base t1 : ∀ v t2,
  parse_digits base v (t1 ++ t2) = v' ← parse_digits base v t1; parse_digits base v' t2.
Proof.
  induction t1 as [|c t1 IH]; intros v t2; [done|]. cbn [app parse_digits].
  destruct (digit_value base c); [apply IH|done].
Qed.

Section Radix.
Context (base : Z) (Hbase : 2 ≤ base ≤ 16).

(** A number below [base ^ (k + 1)] has one more digit than its quotient. *)
Lemma quotient_bound k u : 0 ≤ u < base ^ Z.of_nat (S k) →
  0 ≤ u / base < base ^ Z.of_nat k ∧ 0 ≤ u mod base < base ∧ u = base * (u / base) + u mod base.
Proof.
  intros Hu. rewrite Nat2Z.inj_succ, Z.pow_succ_r in Hu by lia.
  split_and!; [apply Z.div_pos; lia|apply Z.div_lt_upper_bound; lia|apply Z.mod_pos_bound; lia..|apply Z.div_mod; lia].
Qed.

Lemma radix_length k : ∀ u, (length (radix k base u) ≤ k)%nat.
Proof.
  induction k as [|k IH]; intros u; cbn [radix]; [done|]. destruct (u <? base); [simpl; lia|].
  rewrite length_app. specialize (IH (u / base)). simpl. lia.
Qed.

Lemma radix_fuel k : ∀ j u, 0 ≤ u < base ^ Z.of_nat k → (1 ≤ k ≤ j)%nat → radix j base u = radix k base u.
Proof.
  induction k as [|k IH]; intros j u Hu Hj; [lia|]. destruct j as [|j]; [lia|]. cbn [radix].
  destruct (Z.ltb_spec u base) as [|Hge]; [done|]. destruct (quotient_bound k u Hu) as (Hq & _ & Eu).
  assert (1 ≤ k)%nat by (destruct k; [simpl in Hq; nia|lia]). f_equal. apply IH; [done|lia].
Qed.

(** Reading gives the number back. *)
Lemma radix_parse k : ∀ u v, 0 ≤ u < base ^ Z.of_nat k → (1 ≤ k)%nat →
  parse_digits base v (radix k base u) = Some (base ^ Z.of_nat (length (radix k base u)) * v + u).
Proof.
  induction k as [|k IH]; intros u v Hu Hk; [lia|]. cbn [radix].
  destruct (Z.ltb_spec u base) as [Hlt|Hge].
  - cbn [parse_digits length]. rewrite digit_value_char by lia. cbn. f_equal. lia.
  - destruct (quotient_bound k u Hu) as (Hq & Hm & Eu).
    assert (1 ≤ k)%nat by (destruct k; [simpl in Hq; nia|lia]).
    rewrite parse_digits_app, IH by done. cbn [mbind option_bind parse_digits].
    rewrite digit_value_char by done. cbn. f_equal. rewrite length_app. cbn [length].
    replace (Z.of_nat (length (radix k base (u / base)) + 1)) with (Z.succ (Z.of_nat (length (radix k base (u / base))))) by lia.
    rewrite Z.pow_succ_r by lia. lia.
Qed.

(** Its first digit is zero for zero only. *)
Lemma radix_head k : ∀ u, 0 ≤ u < base ^ Z.of_nat k → (1 ≤ k)%nat →
  ∃ d t, radix k base u = digit_char d :: t ∧ 0 ≤ d < base ∧ (d = 0 → u = 0 ∧ t = []).
Proof.
  induction k as [|k IH]; intros u Hu Hk; [lia|]. cbn [radix]. destruct (Z.ltb_spec u base) as [Hlt|Hge].
  { exists u, []. split; [done|]. split; [lia|]. by intros. }
  destruct (quotient_bound k u Hu) as (Hq & Hm & Eu).
  assert (1 ≤ k)%nat by (destruct k; [simpl in Hq; nia|lia]).
  destruct (IH (u / base) Hq) as (d & t & E & Hd & H0); [done|]. rewrite E.
  exists d, (t ++ [digit_char (u mod base)]). split; [done|]. split; [lia|]. intros ->. destruct H0 as [H0 _]; [done|nia].
Qed.

Lemma radix_nat k u : 0 ≤ u < base ^ Z.of_nat k → (1 ≤ k)%nat → parse_nat base (radix k base u) = Some u.
Proof.
  intros Hu Hk. pose proof (radix_parse k u 0 Hu Hk) as E. destruct (radix_head k u Hu Hk) as (d & t & Er & _).
  unfold parse_nat. rewrite Er in *. rewrite E. f_equal. lia.
Qed.

(** The loop of the kernel produces the numeral, least significant digit first; nothing for zero. *)
Lemma digits_loop_done fuel : ∀ k u buffer, 0 ≤ u < base ^ Z.of_nat k → (k < fuel)%nat →
  Z.of_nat (length buffer) + Z.of_nat k ≤ 20 →
  digits_loop fuel base u buffer = Done (buffer ++ if u =? 0 then [] else rev (radix k base u)).
Proof.
  induction fuel as [|fuel IH]; intros k u buffer Hu Hk Hl; [lia|].
  cbn [digits_loop]. destruct (Z.eqb_spec u 0) as [->|Hne]; [by rewrite app_nil_r|].
  destruct k as [|k]; [simpl in Hu; lia|]. destruct (quotient_bound k u Hu) as (Hq & Hm & Eu).
  unfold push_digit, MAX_DEC_LENGTH. destruct (Z.leb_spec (20 + 1) (Z.of_nat (length buffer))); [lia|].
  rewrite u8_small by lia. rewrite to_printable_char by lia.
  rewrite (IH k) by (done || lia || (rewrite length_app; simpl; lia)). rewrite <- app_assoc. do 2 f_equal.
  cbn [radix]. destruct (Z.ltb_spec u base) as [Hlt|Hge].
  - rewrite Z.div_small, Z.mod_small by lia. done.
  - destruct (Z.eqb_spec (u / base) 0); [nia|]. by rewrite rev_app_distr.
Qed.
End Radix.

Definition in_type (ty : int_type) (value : Z) : Prop :=
  if int_signed ty then - 2 ^ (int_bits ty - 1) ≤ value < 2 ^ (int_bits ty - 1)
  else 0 ≤ value < 2 ^ int_bits ty.

(** The text of a number in the base of the stream: it reads back, and has no leading zero. *)
Record number_text (ty : int_type) (format value : Z) (text : list Z) : Prop := {
  nt_length : (1 ≤ length text ≤ 11)%nat;
  nt_dec : Z.land format basefield = fmt_dec → parse_dec text = Some value;
  nt_hex : Z.land format basefield = fmt_hex → parse_nat 16 text = Some (value mod 2 ^ int_bits ty);
  nt_canonical : ∀ t, (text = char_0 :: t → t = []) ∧ text ≠ char_minus :: char_0 :: t;
  nt_zero : value = 0 → text = [char_0]
}.

(** ... namely this one. *)
Definition numeral_text (ty : int_type) (format value : Z) : list Z :=
  let bf := Z.land format basefield in
  (if (bf =? fmt_dec) && (value <? 0) then [char_minus] else []) ++
  radix digits_fuel (if bf =? fmt_hex then 16 else 10)
    (if bf =? fmt_hex then value mod 2 ^ int_bits ty else Z.abs value).

Lemma digit_char_minus d : 0 ≤ d < 16 → digit_char d ≠ char_minus ∧ (digit_char d = char_0 → d = 0).
Proof.
  intros Hd.
  assert (H : forallb (λ d, negb (digit_char d =? char_minus) && (negb (digit_char d =? char_0) || (d =? 0))) (seqZ 0 16)
    = true) by by vm_compute.
  rewrite forallb_forall in H. specialize (H d). rewrite <- list_elem_of_In, elem_of_seqZ in H.
  specialize (H ltac:(lia)). apply andb_true_iff in H as [H1 H2]. apply negb_true_iff, Z.eqb_neq in H1.
  split; [done|]. intros E. apply orb_true_iff in H2 as [H2|H2%Z.eqb_eq]; [|done].
  apply negb_true_iff, Z.eqb_neq in H2. done.
Qed.

(** The magnitude that is printed, and room for its digits. *)
Lemma magnitude_bound ty format value (bf := Z.land format basefield)
    (base := if bf =? fmt_hex then 16 else 10)
    (u := if bf =? fmt_hex then value mod 2 ^ int_bits ty else Z.abs value) :
  8 ≤ int_bits ty ≤ 32 → in_type ty value →
  2 ≤ base ≤ 16 ∧ 0 ≤ u < base ^ Z.of_nat 10 ∧ Z.abs value < 2 ^ int_bits ty.
Proof.
  intros Hbits Hin. set (w := int_bits ty) in *.
  assert (Hw : 2 ^ w ≤ 2 ^ 32) by (apply Z.pow_le_mono_r; lia).
  assert (Hw1 : 2 ^ w = 2 * 2 ^ (w - 1)) by (rewrite <- Z.pow_succ_r by lia; f_equal; lia).
  assert (Habs : Z.abs value < 2 ^ w).
  { unfold in_type in Hin. fold w in Hin. pose proof (pow2_pos (w - 1) ltac:(lia)). destruct (int_signed ty); lia. }
  pose proof (pow2_pos w ltac:(lia)). pose proof (Z.mod_pos_bound value (2 ^ w) ltac:(lia)).
  subst base u. destruct (bf =? fmt_hex); simpl; lia.
Qed.

(** What the code divides is that magnitude. *)
Lemma magnitude_eq ty value (w := int_bits ty) : Z.abs value < 2 ^ w → 0 ≤ w →
  (if 0 <=? value then value mod 2 ^ w else (0 - value) mod 2 ^ w) = Z.abs value.
Proof.
  intros Ha Hw. pose proof (pow2_pos w Hw). destruct (Z.leb_spec 0 value); rewrite Z.mod_small; lia.
Qed.

Lemma digit_buffer_numeral ty format value : 8 ≤ int_bits ty ≤ 32 → in_type ty value →
  ∃ buffer, digit_buffer ty format value = Done buffer ∧ rev buffer = numeral_text ty format value.
Proof.
  intros Hbits Hin. destruct (magnitude_bound ty format value Hbits Hin) as (Hbase & Hu & Habs).
  unfold digit_buffer, numeral_text. set (bf := Z.land format basefield) in *.
  set (base := if bf =? fmt_hex then 16 else 10) in *.
  rewrite (magnitude_eq ty value Habs ltac:(lia)). set (u := if bf =? fmt_hex then value mod 2 ^ int_bits ty else Z.abs value) in *.
  rewrite (digits_loop_done base Hbase digits_fuel 10 u []) by (done || (unfold digits_fuel; lia) || (simpl; lia)).
  rewrite (radix_fuel base Hbase 10 digits_fuel) by (done || (unfold digits_fuel; lia)). cbn [app].
  destruct (radix_head base Hbase 10 u Hu ltac:(lia)) as (d & t & Er & Hd & Hd0).
  pose proof (radix_length base 10 u) as Hlen.
  assert (E : match (if Z.of_nat (length (if u =? 0 then [] else rev (radix 10 base u))) =? 0
      then push_digit char_0 (if u =? 0 then [] else rev (radix 10 base u))
      else Done (if u =? 0 then [] else rev (radix 10 base u))) with
    Done buffer => buffer = rev (radix 10 base u) | _ => False end).
  { destruct (Z.eqb_spec u 0) as [->|Hne].
    - cbn [radix]. destruct (Z.ltb_spec 0 base); [done|lia].
    - rewrite length_rev, Er. cbn [length]. destruct (Z.eqb_spec (Z.of_nat (S (length t))) 0); [lia|done]. }
  destruct (if Z.of_nat _ =? 0 then _ else _) as [buffer| | |]; [subst buffer|done..].
  destruct ((bf =? fmt_dec) && (value <? 0)).
  - unfold push_digit, MAX_DEC_LENGTH. rewrite length_rev. destruct (Z.leb_spec (20 + 1) (Z.of_nat (length (radix 10 base u)))); [lia|].
    eexists. split; [done|]. rewrite rev_app_distr, rev_involutive. done.
  - eexists. split; [done|]. by rewrite rev_involutive.
Qed.

Lemma numeral_text_correct ty format value : 8 ≤ int_bits ty ≤ 32 → in_type ty value →
  number_text ty format value (numeral_text ty format value).
Proof.
  intros Hbits Hin. destruct (magnitude_bound ty format value Hbits Hin) as (Hbase & Hu & Habs).
  unfold numeral_text. set (bf := Z.land format basefield) in *.
  set (base := if bf =? fmt_hex then 16 else 10) in *. set (u := if bf =? fmt_hex then value mod 2 ^ int_bits ty else Z.abs value) in *.
  rewrite (radix_fuel base Hbase 10 digits_fuel) by (done || (unfold digits_fuel; lia)).
  pose proof (radix_length base 10 u) as Hlen. pose proof (radix_nat base Hbase 10 u Hu ltac:(lia)) as Hparse.
  destruct (radix_head base Hbase 10 u Hu ltac:(lia)) as (d & t & Er & Hd & Hd0).
  destruct (digit_char_minus d ltac:(lia)) as [Hm Hz]. rewrite Er in *. cbn [length] in Hlen.
  assert (Hneg : (bf =? fmt_dec) && (value <? 0) = true → bf = fmt_dec ∧ value < 0).
  { intros [Hb%Z.eqb_eq Hv%Z.ltb_lt]%andb_true_iff. done. }
  split.
  - rewrite length_app. destruct ((bf =? fmt_dec) && _); cbn [length]; lia.
  - fold bf. intros Hb. assert (base = 10 ∧ u = Z.abs value) as [Eb Eu] by (subst base u; by rewrite Hb).
    rewrite Eb, Eu in Hparse. rewrite Hb, Z.eqb_refl. cbn [andb]. destruct (Z.ltb_spec value 0).
    + cbn [app parse_dec]. rewrite Z.eqb_refl, Hparse. cbn. f_equal. lia.
    + cbn [app parse_dec]. rewrite (proj2 (Z.eqb_neq _ _) Hm), Hparse. f_equal. lia.
  - fold bf. intros Hb. assert (base = 16 ∧ u = value mod 2 ^ int_bits ty) as [Eb Eu]
      by (subst base u; by rewrite Hb, Z.eqb_refl).
    rewrite Eb, Eu in Hparse. by rewrite Hb.
  - intros t'. destruct ((bf =? fmt_dec) && (value <? 0)) eqn:En; cbn [app].
    + destruct (Hneg eq_refl) as [Hb Hv]. split; [done|]. intros [= Ec _].
      destruct (Hd0 (Hz Ec)) as [Hu0 _]. subst u. rewrite Hb in Hu0. change (fmt_dec =? fmt_hex) with false in Hu0. lia.
    + split; [|by intros [= ? _]]. intros [= Ec ->]. by destruct (Hd0 (Hz Ec)).
  - intros ->. assert (u = 0) as Hu0 by (subst u; by destruct (bf =? fmt_hex)).
    rewrite andb_false_r. cbn [app]. rewrite Hu0 in Er. cbn [radix] in Er.
    destruct (Z.ltb_spec 0 base); [|lia]. by rewrite <- Er.
Qed.

Lemma digit_buffer_done ty format value : 8 ≤ int_bits ty ≤ 32 → in_type ty value →
  ∃ buffer, digit_buffer ty format value = Done buffer ∧ number_text ty format value (rev buffer).
Proof.
  intros Hbits Hin. destruct (digit_buffer_numeral ty format value Hbits Hin) as (buffer & E & Et).
  exists buffer. split; [done|]. rewrite Et. by apply numeral_text_correct.
Qed.

(** ** Padding *)
Lemma put_all_app {B} `{StreamBuf B} l1 l2 (s : ostream * B) :
  put_all (l1 ++ l2) s = (put_all l1 ;; put_all l2) s.
Proof.
  revert s. induction l1 as [|c l1 IH]; intros s; simpl; [done|].
  rewrite bind_bind. unfold mbind, prog_bind in *. destruct (put c s) as [[[] s']| | |]; [|done..].
  apply IH.
Qed.

Lemma fill_loop_done {B} `{StreamBuf B} fillch already : ∀ fuel width (s : ostream * B),
  0 ≤ already → 0 ≤ width < 2 ^ 32 → width < Z.of_nat fuel →
  fill_loop fuel fillch width already s = put_all (repeat fillch (Z.to_nat (width - already))) s.
Proof.
  induction fuel as [|fuel IH]; intros width s Ha Hw Hf; [lia|]. cbn [fill_loop].
  destruct (Z.ltb_spec already width) as [Hlt|Hge].
  - replace (Z.to_nat (width - already)) with (S (Z.to_nat (width - 1 - already))) by lia. cbn [repeat put_all].
    unfold mbind, prog_bind. destruct (put fillch s) as [[[] s']| | |]; [|done..].
    rewrite u32_small by lia. apply IH; lia.
  - by replace (Z.to_nat (width - already)) with O by lia.
Qed.

Lemma fill_field_done {B} `{StreamBuf B} width already (s : ostream * B) :
  0 ≤ already → 0 ≤ width < 2 ^ 32 →
  fill_field width already s = put_all (repeat (fillch_ s.1) (Z.to_nat (width - already))) s.
Proof. intros Ha Hw. unfold fill_field. rewrite gets_bind. apply fill_loop_done; lia. Qed.

(** A C string is printed like the literal with the same characters. *)
Lemma show_string_literal {B} `{StreamBuf B} fuel m p l (s : ostream * B) : c_string m p l →
  (length l < fuel)%nat → show_string fuel m p s = show_literal l s.
Proof.
  intros Hs Hf. unfold show_string, show_literal. unfold mbind at 1, prog_bind at 1, lift_outcome.
  rewrite (strlen_done m p l) by done. rewrite !gets_bind.
  unfold mbind, prog_bind. destruct (fill_field _ _ s) as [[[] s']| | |]; [|done..].
  pose proof (cs_fit _ _ _ Hs) as Hfit.
  assert (Hgo : ∀ k i s', Z.of_nat (length l) - i < Z.of_nat k → 0 ≤ i ≤ Z.of_nat (length l) →
    show_string_loop k m (p + i) s' = put_all (drop (Z.to_nat i) l) s').
  { induction k as [|k IH]; intros i s'' Hk Hi; [lia|]. cbn [show_string_loop].
    destruct (decide (i = Z.of_nat (length l))) as [->|Hne].
    - rewrite (cs_end _ _ _ Hs), Z.eqb_refl, Nat2Z.id, drop_all. done.
    - rewrite (cs_at _ _ _ Hs) by lia. pose proof (is_chars_nth l i (cs_chars _ _ _ Hs) ltac:(lia)).
      destruct (Z.eqb_spec (nth (Z.to_nat i) l 0) 0); [lia|].
      assert (Hd : drop (Z.to_nat i) l = nth (Z.to_nat i) l 0 :: drop (Z.to_nat (i + 1)) l).
      { replace (Z.to_nat (i + 1)) with (S (Z.to_nat i)) by lia.
        apply drop_S. rewrite nth_lookup. destruct (lookup_lt_is_Some_2 l (Z.to_nat i)) as [x ->]; [lia|done]. }
      rewrite Hd. cbn [put_all]. rewrite u32_small by lia. rewrite <- Z.add_assoc.
      unfold mbind, prog_bind. destruct (put _ s'') as [[[] s3]| | |]; [|done..]. apply IH; lia. }
  rewrite <- (Z.add_0_r p). rewrite (Hgo fuel 0 s') by lia. done.
Qed.

(** ** [SnprintfStream] *)

(** The part of the text that fits in front of the terminator. *)
Definition kept (max_len : Z) (l : list Z) : list Z := take (Z.to_nat (max_len - 1)) l.

Record snp_open (m0 : mem) (buf max_len : Z) (l : list Z) (s : mem * Buf) : Prop := {
  snp_last : _last s.2 = buf + max_len - 1;
  snp_buf : _buf s.2 = buf + Z.of_nat (length (kept max_len l));
  snp_chars : ∀ i, 0 ≤ i < Z.of_nat (length (kept max_len l)) →
    load8 s.1 (buf + i) = u8 (nth (Z.to_nat i) (kept max_len l) 0);
  snp_outside : ∀ a, ¬ in_block a buf max_len → load8 s.1 a = load8 m0 a
}.

Lemma kept_length max_len l : 1 ≤ max_len →
  Z.of_nat (length (kept max_len l)) = Z.min (Z.of_nat (length l)) (max_len - 1).
Proof. intros. unfold kept. rewrite length_take. lia. Qed.

Section Snprintf.
Context (m0 : mem) (buf max_len : Z).
Context (Hmax : 1 ≤ max_len) (Hbuf : 0 ≤ buf) (Hfit : buf + max_len < 2 ^ 32).

Lemma snp_full l l' s : snp_open m0 buf max_len l s → _buf s.2 = _last s.2 → snp_open m0 buf max_len (l ++ l') s.
Proof.
  intros [H1 H2 H3 H4] Hf. assert (Hk : kept max_len (l ++ l') = kept max_len l).
  { pose proof (kept_length max_len l Hmax). unfold kept. rewrite take_app_le; [done|]. lia. }
  by split; rewrite ?Hk.
Qed.

Lemma snp_step l m b c : snp_open m0 buf max_len l (m, b) → _buf b ≠ _last b →
  snp_open m0 buf max_len (l ++ [c]) (store8 m (_buf b) c, mkBuf (u32 (_buf b + 1)) (_last b)).
Proof.
  intros [H1 H2 H3 H4] Hf. cbn [fst snd] in *.
  pose proof (kept_length max_len l Hmax) as Hl. pose proof (kept_length max_len (l ++ [c]) Hmax) as Hl'.
  rewrite length_app in Hl'. cbn [length] in Hl'.
  assert (Hlt : Z.of_nat (length l) < max_len - 1) by lia.
  assert (Hk0 : kept max_len l = l) by (unfold kept; apply take_ge; lia).
  assert (Hk : kept max_len (l ++ [c]) = l ++ [c]) by (unfold kept; apply take_ge; rewrite length_app; simpl; lia).
  rewrite Hk0 in *. split; cbn [fst snd _buf _last]; rewrite ?Hk, ?length_app; cbn [length].
  - done.
  - rewrite u32_small by lia. lia.
  - intros i Hi. destruct (decide (i = Z.of_nat (length l))) as [->|Hne].
    + rewrite H2, load8_store8_eq, Nat2Z.id, app_nth2, Nat.sub_diag by lia. done.
    + rewrite load8_store8_ne by lia. rewrite H3 by lia. by rewrite app_nth1 by lia.
  - intros a Ha. rewrite load8_store8_ne by lia. by apply H4.
Qed.

Lemma snp_close l m b : snp_open m0 buf max_len l (m, b) →
  snp_open m0 buf max_len l (store8 m (_buf b) 0, b) ∧ load8 (store8 m (_buf b) 0) (_buf b) = 0.
Proof.
  intros [H1 H2 H3 H4]. cbn [fst snd] in *. split; [|apply load8_store8_eq].
  pose proof (kept_length max_len l Hmax).
  split; cbn [fst snd]; [done|done| |].
  - intros i Hi. rewrite load8_store8_ne by lia. by apply H3.
  - intros a Ha. rewrite load8_store8_ne by lia. by apply H4.
Qed.

Definition snp_text (l : list Z) (s : mem * Buf) : Prop :=
  snp_open m0 buf max_len l s ∧ load8 s.1 (_buf s.2) = 0.

Lemma snp_overflow l s c : snp_text l s → ∃ s', Buf_overflow c s = Done (c, s') ∧ snp_text (l ++ [c]) s'.
Proof.
  intros [H Hz]. destruct s as [m b]. unfold Buf_overflow. destruct (Z.eqb_spec (_buf b) (_last b)) as [He|Hne].
  - exists (m, b). split; [done|]. split; [by apply snp_full|done].
  - eexists. split; [reflexivity|]. apply (snp_close (l ++ [c]) _ (mkBuf (u32 (_buf b + 1)) (_last b))).
    by apply snp_step.
Qed.

Lemma xsputn_loop_done : ∀ str l m b, snp_open m0 buf max_len l (m, b) →
  snp_open m0 buf max_len (l ++ str) (xsputn_loop str m b).
Proof.
  induction str as [|c str IH]; intros l m b H; simpl; [by rewrite app_nil_r|].
  destruct (Z.eqb_spec (_buf b) (_last b)) as [He|Hne]; [by apply snp_full|].
  change (c :: str) with ([c] ++ str). rewrite app_assoc. apply IH. by apply snp_step.
Qed.

Lemma snp_xsputn l s str : snp_text l s →
  ∃ s', Buf_xsputn str s = Done (Z.of_nat (length str), s') ∧ snp_text (l ++ str) s'.
Proof.
  intros [H Hz]. destruct s as [m b]. unfold Buf_xsputn. destruct (Z.eqb_spec (_buf b) (_last b)) as [He|Hne].
  - exists (m, b). split; [done|]. split; [by apply snp_full|done].
  - pose proof (xsputn_loop_done str l m b H) as Ho. destruct (xsputn_loop str m b) as [m' b'].
    eexists. split; [reflexivity|]. by apply (snp_close (l ++ str) m' b').
Qed.
End Snprintf.

(** A sequence of writes to the stream: single characters and blocks. *)
Fixpoint run_writes {B} `{StreamBuf B} (ws : list (Z + list Z)) : prog (ostream * B) unit :=
  match ws with
  | [] => mret tt
  | inl c :: ws => put c ;; run_writes ws
  | inr str :: ws => write str ;; run_writes ws
  end.

Definition written (ws : list (Z + list Z)) : list Z :=
  concat ((λ w, match w with inl c => [c] | inr str => str end) <$> ws).

Lemma run_writes_done m0 buf max_len o : 1 ≤ max_len → 0 ≤ buf → buf + max_len < 2 ^ 32 →
  streambuf_ o = true → ∀ ws l s, snp_text m0 buf max_len l s →
  ∃ s', run_writes ws (o, s) = Done (tt, (o, s')) ∧ snp_text m0 buf max_len (l ++ written ws) s'.
Proof.
  intros Hm Hb Hf Ho. induction ws as [|[c|str] ws IH]; intros l s H.
  - exists s. unfold written. simpl. by rewrite app_nil_r.
  - destruct (snp_overflow m0 buf max_len Hm Hb Hf l s c H) as (s1 & E1 & H1).
    destruct (IH _ _ H1) as (s2 & E2 & H2). exists s2. rewrite <- app_assoc in H2. split; [|exact H2].
    cbn [run_writes]. rewrite (bind_done _ _ _ tt (o, s1)); [done|].
    unfold put. rewrite gets_bind. cbn [fst]. rewrite Ho.
    rewrite (bind_done _ _ _ c (o, s1)); [done|]. unfold on_buf, zoom, sputc. cbn [snd overflow snprintf_buf].
    by rewrite E1.
  - destruct (snp_xsputn m0 buf max_len Hm Hb Hf l s str H) as (s1 & E1 & H1).
    destruct (IH _ _ H1) as (s2 & E2 & H2). exists s2. rewrite <- app_assoc in H2. split; [|exact H2].
    cbn [run_writes]. rewrite (bind_done _ _ _ tt (o, s1)); [done|].
    unfold write. rewrite gets_bind. cbn [fst]. rewrite Ho.
    rewrite (bind_done _ _ _ (Z.of_nat (length str)) (o, s1)); [done|].
    unfold on_buf, zoom, sputn. cbn [snd xsputn snprintf_buf]. by rewrite E1.
Qed.

(** * Properties *)

(** C33: a number is printed, in any width up to 32 bits, as the padding to the
    field width and a text without leading zeros that reads back as the number: the
    value itself in decimal, its two's complement pattern in hexadecimal.  The
    reader knows the digits 0 to 9 and, in base 16, a to f, and fails on any other
    character. *)
Theorem number_printing_correct {B} `{StreamBuf B} ty value (o : ostream) (b : B)
    (Hbits : 8 ≤ int_bits ty ≤ 32) (Hvalue : in_type ty value) (Hwidth : 0 ≤ width_ o < 2 ^ 32) :
  ∃ text, number_text ty (format_ o) value text ∧
    show_numerical_value ty value (o, b) =
      put_all (repeat (fillch_ o) (Z.to_nat (width_ o - Z.of_nat (length text))) ++ text) (o, b).
Proof.
  destruct (digit_buffer_done ty (format_ o) value Hbits Hvalue) as (buffer & E & Ht).
  exists (rev buffer). split; [done|]. unfold show_numerical_value. rewrite gets_bind. cbn [fst].
  rewrite (bind_done _ _ _ buffer (o, b)) by (unfold lift_outcome; by rewrite E).
  rewrite put_all_app, length_rev. unfold mbind, prog_bind. by rewrite fill_field_done by (cbn; lia).
Qed.

(** C34: whatever is written to an [SnprintfStream] over a buffer of [max_len] bytes,
    the buffer always holds the longest prefix that fits, terminated, and no byte
    outside the buffer changes. *)
Theorem snprintf_stream_bounded m0 buf max_len o ws
    (Hmax : 1 ≤ max_len) (Hbuf : 0 ≤ buf) (Hfit : buf + max_len < 2 ^ 32) (Ho : streambuf_ o = true) :
  ∃ m b, run_writes ws (o, Buf_new buf max_len m0) = Done (tt, (o, (m, b))) ∧
    let text := take (Z.to_nat (max_len - 1)) (written ws) in
    (∀ i, 0 ≤ i < Z.of_nat (length text) → load8 m (buf + i) = u8 (nth (Z.to_nat i) text 0)) ∧
    load8 m (buf + Z.of_nat (length text)) = 0 ∧
    (∀ a, ¬ in_block a buf max_len → load8 m a = load8 m0 a).
Proof.
  assert (H0 : snp_text m0 buf max_len [] (Buf_new buf max_len m0)).
  { unfold Buf_new. destruct (Z.eqb_spec max_len 0); [lia|]. rewrite (u32_small (buf + max_len)), u32_small by lia.
    assert (Hk : kept max_len [] = []) by (unfold kept; by rewrite take_nil).
    split; [split|]; cbn [fst snd _buf _last]; rewrite ?Hk; cbn [length].
    - lia.
    - lia.
    - intros i Hi. lia.
    - intros a Ha. rewrite load8_store8_ne by lia. done.
    - apply load8_store8_eq. }
  destruct (run_writes_done m0 buf max_len o Hmax Hbuf Hfit Ho ws [] _ H0) as ([m b] & E & [[H1 H2 H3 H4] Hz]).
  exists m, b. split; [done|]. cbn [fst snd app] in *. split_and!; [done| |done]. by rewrite H2 in Hz.
Qed.

(** ** Witnesses *)
Lemma number_printing_correct_witness :
  ∃ text, number_text int_type_ fmt_dec (-129) text ∧
    show_numerical_value int_type_ (-129) (mkOstream true fmt_dec 7 48, [33]) =
      put_all (repeat 48 (Z.to_nat (7 - Z.of_nat (length text))) ++ text) (mkOstream true fmt_dec 7 48, [33]).
Proof.
  apply (number_printing_correct int_type_ (-129) (mkOstream true fmt_dec 7 48) [33]); cbn; lia.
Defined.

Lemma snprintf_stream_bounded_witness :
  ∃ m b, run_writes [inl 65; inr [66; 67; 68]; inl 69] (ostream_over_buffer, Buf_new 4096 4 ∅)
      = Done (tt, (ostream_over_buffer, (m, b))) ∧
    let text := take 3 (written [inl 65; inr [66; 67; 68]; inl 69]) in
    (∀ i, 0 ≤ i < Z.of_nat (length text) → load8 m (4096 + i) = u8 (nth (Z.to_nat i) text 0)) ∧
    load8 m (4096 + Z.of_nat (length text)) = 0 ∧
    (∀ a, ¬ in_block a 4096 4 → load8 m a = load8 (∅ : mem) a).
Proof.
  apply (snprintf_stream_bounded ∅ 4096 4 ostream_over_buffer [inl 65; inr [66; 67; 68]; inl 69]);
    [lia|lia|lia|done].
Defined.

(** The padded text of the example. *)
Example show_example :
  show_numerical_value int_type_ (-129) (mkOstream true fmt_dec 7 48, [33]) =
    Done (tt, (mkOstream true fmt_dec 7 48, [33; 48; 48; 48; 45; 49; 50; 57])).
Proof. reflexivity. Qed.

(** With both base flags set a negative number loses its sign. *)
Example sign_lost :
  show_numerical_value int_type_ (-129) (mkOstream true basefield 0 32, []) =
    Done (tt, (mkOstream true basefield 0 32, [49; 50; 57])).
Proof. reflexivity. Qed.
