(* ===== verification/Emits.v ===== *)
(** * What a printing program sends to its buffer

    The output operators of [libkernelcxx/src/ostream.cpp] hand the characters to the buffer of the
    stream one by one; everything else they do is to the format.  So a program that prints is
    described by the text that it sends and the format that it leaves, whatever the buffer does with
    the text.  The trap handlers ([Traps.v]) and the operators of the kernel's own types
    ([Printers.v]) are verified with the rules of this file. *)
From stdpp Require Import base tactics numbers list gmap strings.
From S2P Require Import Prelude MemUtils CString OStream.

(** A text in a field of the given width. *)
Definition field (fillch width : Z) (text : list Z) : list Z :=
  repeat fillch (Z.to_nat (width - Z.of_nat (length text))) ++ text.

Lemma field_none fillch text : field fillch 0 text = text.
Proof. unfold field. by replace (Z.to_nat (0 - Z.of_nat (length text))) with O by lia. Qed.

(** A stream with a buffer, and one that does not pad, as the constructor makes it. *)
Record ready (o : ostream) : Prop := { ready_buffer : streambuf_ o = true; ready_width : 0 ≤ width_ o < 2 ^ 32 }.
Record plain (o : ostream) : Prop := { plain_buffer : streambuf_ o = true; plain_width : width_ o = 0 }.

Lemma plain_ready o : plain o → ready o.
Proof. intros [Hs Hw]. split; [done|lia]. Qed.

(** One of the two base flags is set, as the constructor, [dec] and [hex] leave it. *)
Definition base_of (format : Z) : Z := if Z.land format basefield =? fmt_hex then 16 else 10.
Definition has_base (format : Z) : Prop := Z.land format basefield = fmt_dec ∨ Z.land format basefield = fmt_hex.

(** [emits p o o' text]: on the format [o] the program hands exactly [text] to the buffer,
    whatever the buffer is, and leaves the format [o']. *)
Section Emits.
Context {B : Type} `{StreamBuf B}.
Abbreviation stream_prog := (prog (ostream * B)).

Fixpoint send (text : list Z) : prog B unit :=
  match text with [] => mret tt | c :: text => sputc c ;; send text end.

Definition sent (o : ostream) (text : list Z) (b : B) : outcome (unit * (ostream * B)) :=
  match send text b with
  | Done (_, b') => Done (tt, (o, b'))
  | Panic msg => Panic msg
  | Fault msg => Fault msg
  | Fuel => Fuel
  end.

Definition emits (p : stream_prog unit) (o o' : ostream) (text : list Z) : Prop :=
  ∀ b, p (o, b) = sent o' text b.

(** What comes behind the text. *)
Lemma sent_then {A} o t b (q : ostream * B → outcome A) :
  match sent o t b with
  | Done (_, s) => q s
  | Panic msg => Panic msg | Fault msg => Fault msg | Fuel => Fuel
  end = match send t b with
        | Done (_, b') => q (o, b')
        | Panic msg => Panic msg | Fault msg => Fault msg | Fuel => Fuel
        end.
Proof. unfold sent. by destruct (send t b) as [[[] b']| | |]. Qed.

Lemma sent_app o o' (q : stream_prog unit) t1 t2 b : emits q o o' t2 →
  match sent o t1 b with
  | Done (_, s) => q s
  | Panic msg => Panic msg | Fault msg => Fault msg | Fuel => Fuel
  end = sent o' (t1 ++ t2) b.
Proof.
  intros Hq. unfold sent. revert b. induction t1 as [|c t1 IH]; intros b; cbn [send app].
  - apply Hq.
  - unfold mbind, prog_bind in *. destruct (sputc c b) as [[v b1]| | |]; [|done..]. apply IH.
Qed.

Lemma emits_then p q o o1 o2 t1 t2 :
  emits p o o1 t1 → emits q o1 o2 t2 → emits (p ;; q) o o2 (t1 ++ t2).
Proof.
  intros Hp Hq b. unfold mbind, prog_bind. rewrite Hp. by apply sent_app.
Qed.

(** A step that sends nothing. *)
Lemma emits_after p q o o1 o2 t : emits p o o1 [] → emits q o1 o2 t → emits (p ;; q) o o2 t.
Proof. apply (emits_then p q o o1 o2 []). Qed.

Lemma emits_ret o : emits (mret tt) o o [].
Proof. by intros b. Qed.

Lemma emits_format f o : emits (on_format f) o (f o) [].
Proof. by intros b. Qed.

Lemma emits_put_all o text : streambuf_ o = true → emits (put_all text) o o text.
Proof.
  intros Hs. induction text as [|c text IH]; intros b; [done|]. cbn [put_all].
  unfold put, sent. cbn [send]. unfold mbind, prog_bind, gets, on_buf, zoom, mret, prog_ret. cbn [fst snd].
  rewrite Hs. cbn [fst snd]. destruct (sputc c b) as [[v b1]| | |]; [|done..]. cbn [fst]. apply IH.
Qed.

Lemma emits_put o c : streambuf_ o = true → emits (put c) o o [c].
Proof.
  intros Hs b. pose proof (emits_put_all o [c] Hs b) as E. cbn [put_all] in E. rewrite <- E.
  unfold mbind, prog_bind. destruct (put c (o, b)) as [[[] s]| | |]; done.
Qed.

Lemma emits_fill o already : ready o → 0 ≤ already →
  emits (fill_field (width_ o) already) o o (repeat (fillch_ o) (Z.to_nat (width_ o - already))).
Proof. intros [Hs Hw] Ha b. rewrite fill_field_done by done. by apply emits_put_all. Qed.

Lemma emits_text p o o' t t' : emits p o o' t → t = t' → emits p o o' t'.
Proof. by intros Hp <-. Qed.

(** A program that prints and then does something else. *)
Lemma emits_before {A} p o o' t (q : stream_prog A) b : emits p o o' t →
  (p ;; q) (o, b) = (on_buf (send t) ;; q) (o', b).
Proof.
  intros Hp. unfold mbind, prog_bind. rewrite Hp. unfold on_buf, zoom. cbn [fst snd].
  rewrite sent_then. by destruct (send t b) as [[[] b']| | |].
Qed.

Lemma emits_before_then {A} p (q r : stream_prog A) o o1 o2 t1 t2 : emits p o o1 t1 →
  (∀ b, q (o1, b) = (on_buf (send t2) ;; r) (o2, b)) →
  ∀ b, (p ;; q) (o, b) = (on_buf (send (t1 ++ t2)) ;; r) (o2, b).
Proof.
  intros Hp Hq b. unfold mbind at 1, prog_bind at 1. rewrite Hp, sent_then. clear Hp. revert b.
  induction t1 as [|c t1 IH]; intros b; cbn [send app]; [apply Hq|].
  unfold mbind, prog_bind, on_buf, zoom in *. cbn [fst snd] in *.
  destruct (sputc c b) as [[v b1]| | |]; [|done..]. by rewrite IH.
Qed.

(** The operators, with their padding. *)
Lemma emits_literal o l : ready o → emits (show_literal l) o o (field (fillch_ o) (width_ o) l).
Proof.
  intros Ho b. unfold show_literal. rewrite gets_bind. cbn [fst].
  apply (emits_then _ _ o o o); [apply emits_fill; [done|lia]|apply emits_put_all, Ho].
Qed.

Lemma emits_char_field o c : ready o → emits (show_char c) o o (field (fillch_ o) (width_ o) [c]).
Proof.
  intros Ho b. unfold show_char. rewrite gets_bind. cbn [fst].
  apply (emits_then _ _ o o o); [by apply emits_fill|apply emits_put, Ho].
Qed.

Lemma emits_number_field o ty v : ready o → 8 ≤ int_bits ty ≤ 32 → in_type ty v →
  emits (show_numerical_value ty v) o o (field (fillch_ o) (width_ o) (numeral_text ty (format_ o) v)).
Proof.
  intros Ho Hty Hv b. destruct (digit_buffer_numeral ty (format_ o) v Hty Hv) as (buffer & E & Et).
  unfold show_numerical_value. rewrite gets_bind. cbn [fst]. rewrite E.
  rewrite (bind_done _ _ _ buffer (o, b)) by done. rewrite <- Et. unfold field. rewrite length_rev.
  apply (emits_then _ _ o o o); [apply emits_fill; [done|lia]|apply emits_put_all, Ho].
Qed.

(** ... and without. *)
Lemma emits_lit o s : plain o → emits (show_literal (chars_of s)) o o (chars_of s).
Proof.
  intros Ho. rewrite <- (field_none (fillch_ o) (chars_of s)) at 2. rewrite <- (plain_width o Ho).
  by apply emits_literal, plain_ready.
Qed.

Lemma emits_char o c : plain o → emits (show_char c) o o [c].
Proof.
  intros Ho. rewrite <- (field_none (fillch_ o) [c]). rewrite <- (plain_width o Ho).
  by apply emits_char_field, plain_ready.
Qed.

Lemma emits_string o fuel m p l : plain o → c_string m p l → (length l < fuel)%nat →
  emits (show_string fuel m p) o o l.
Proof.
  intros Ho Hs Hf b. rewrite (show_string_literal fuel m p l (o, b) Hs Hf).
  rewrite <- (field_none (fillch_ o) l) at 2. rewrite <- (plain_width o Ho).
  by apply emits_literal, plain_ready.
Qed.

(** A guarded body: the format is the one from before. *)
Lemma emits_guard p o o' text : emits p o o' text → streambuf_ o' = streambuf_ o →
  emits (with_format_guard p) o o text.
Proof.
  intros Hp Hs b. unfold with_format_guard. rewrite gets_bind. cbn [fst].
  rewrite <- (app_nil_r text).
  pose (back := on_format (copyfmt (copyfmt o ostream_default)) : stream_prog unit).
  assert (Hback : emits back o' o []).
  { intros b'. unfold back, on_format, modify, sent, copyfmt. cbn. rewrite Hs. by destruct o. }
  rewrite <- (emits_then p back o o' o text [] Hp Hback b).
  unfold mbind, prog_bind. destruct (p (o, b)) as [[[] s]| | |]; done.
Qed.
End Emits.

(** A buffer that keeps what it gets. *)
Lemma send_collect text : ∀ b : list Z, send text b = Done (tt, b ++ text).
Proof.
  induction text as [|c text IH]; intros b; cbn [send]; [by rewrite app_nil_r|].
  unfold mbind, prog_bind, sputc, overflow, collecting_buf. by rewrite IH, <- app_assoc.
Qed.
