(* ===== verification/Types.v ===== *)
(** * Type traits

    The templates of [libkernelcxx/include/type_traits.hpp],
    [libkernelcxx/include/impl/type_traits/], [libkernelcxx/include/concepts.hpp]
    and the casts of [utility.hpp], as functions on the types of the language; a
    template that has no [type] member, or whose instantiation is an error, is a
    value.  The static assertions of [ost/src/type_traits.cpp] are evaluated. *)
From Stdlib Require List.
From stdpp Require Import base tactics numbers list strings.
From S2P Require Import Prelude OStream Atomics.

(** ** The types of the language *)
Inductive fundamental : Type :=
  | FVoid | FBool | FNullptr | FFloat | FDouble
  | FChar | FSChar | FUChar | FShort | FUShort | FInt | FUInt | FLong | FULong | FLongLong | FULongLong.

Inductive basic : Type :=
  | Fund (f : fundamental)
  | Class (name : string)
  | Enum (name : string) (underlying : fundamental).

(** The qualifiers [const] and [volatile]. *)
Record cv : Type := mkCv { const_ : bool; volatile_ : bool }.
Definition no_cv : cv := mkCv false false.
Definition cv_const : cv := mkCv true false.
Definition cv_volatile : cv := mkCv false true.
Definition cv_union (p q : cv) : cv := mkCv (const_ p || const_ q) (volatile_ p || volatile_ q).

(** An array carries the qualifiers of its elements; references and functions have none. *)
#[warnings="-register-all"]
Inductive type : Type :=
  | Basic (q : cv) (b : basic)
  | Ptr (q : cv) (t : type)
  | Arr (t : type) (len : option Z)
  | LRef (t : type)
  | RRef (t : type)
  | Fun (ret : type) (args : list type).

#[export] Instance fundamental_eq_dec : EqDecision fundamental.
Proof. solve_decision. Defined.
#[export] Instance basic_eq_dec : EqDecision basic.
Proof. solve_decision. Defined.
#[export] Instance cv_eq_dec : EqDecision cv.
Proof. solve_decision. Defined.
#[export] Instance type_eq_dec : EqDecision type.
Proof.
  unfold EqDecision, Decision. fix IH 1. intros x y.
  decide equality; try apply (decide (_ = _)). exact (List.list_eq_dec IH _ _).
Defined.

Definition void : type := Basic no_cv (Fund FVoid).
Definition fund (f : fundamental) : type := Basic no_cv (Fund f).

(** *** Rules of the language the templates rest on *)
Fixpoint cv_of (t : type) : cv :=
  match t with Basic q _ => q | Ptr q _ => q | Arr t _ => cv_of t | _ => no_cv end.

Fixpoint set_cv (q : cv) (t : type) : type :=
  match t with Basic _ b => Basic q b | Ptr _ t => Ptr q t | Arr t n => Arr (set_cv q t) n | _ => t end.

(** [cv T] *)
Definition qualify (q : cv) (t : type) : type := set_cv (cv_union q (cv_of t)) t.

Definition is_void_type (t : type) : bool := match t with Basic _ (Fund FVoid) => true | _ => false end.
Definition is_reference_type (t : type) : bool := match t with LRef _ | RRef _ => true | _ => false end.
Definition is_array_type (t : type) : bool := match t with Arr _ _ => true | _ => false end.
Definition is_function_type (t : type) : bool := match t with Fun _ _ => true | _ => false end.

(** The outcome of naming a member of a template: a type; no such member, which
    only removes a candidate during overload resolution; or an error inside the
    template's own definition. *)
Inductive meta (A : Type) : Type := Formed (a : A) | NoMember | IllFormed.
Arguments Formed {A} a.
Arguments NoMember {A}.
Arguments IllFormed {A}.

#[export] Instance meta_ret : MRet meta := λ A a, Formed a.
#[export] Instance meta_bind : MBind meta := λ A B k x,
  match x with Formed a => k a | NoMember => NoMember | IllFormed => IllFormed end.

(** A missing member named inside a class template's definition is an error of that definition. *)
Definition inside {A} (x : meta A) : meta A := match x with NoMember => IllFormed | _ => x end.

(** [T&] and [T&&], with the collapsing of references. *)
Definition lref (t : type) : meta type :=
  match t with
  | LRef u | RRef u => Formed (LRef u)
  | _ => if is_void_type t then NoMember else Formed (LRef t)
  end.
Definition rref (t : type) : meta type :=
  match t with
  | LRef _ | RRef _ => Formed t
  | _ => if is_void_type t then NoMember else Formed (RRef t)
  end.

(** The patterns of the partial specialisations: what [T] is deduced as. *)
Definition match_const (t : type) : option type :=
  if const_ (cv_of t) then Some (set_cv (mkCv false (volatile_ (cv_of t))) t) else None.
Definition match_volatile (t : type) : option type :=
  if volatile_ (cv_of t) then Some (set_cv (mkCv (const_ (cv_of t)) false) t) else None.
Definition match_lref (t : type) : option type := match t with LRef u => Some u | _ => None end.
Definition match_rref (t : type) : option type := match t with RRef u => Some u | _ => None end.
Definition match_ptr (t : type) : option type :=
  match t with Ptr q u => if decide (q = no_cv) then Some u else None | _ => None end.
Definition match_unbounded (t : type) : option type := match t with Arr u None => Some u | _ => None end.
Definition match_bounded (t : type) : option type := match t with Arr u (Some _) => Some u | _ => None end.

(** ** The traits *)

(** [integral_constant<T, Value>] *)
Record integral_constant : Type := mkIntegralConstant { value_type : type; value : Z }.
Definition ic_call (c : integral_constant) : Z := value c.
Definition ic_convert (c : integral_constant) : Z := value c.
Definition ic_type (c : integral_constant) : integral_constant := mkIntegralConstant (value_type c) (value c).
Definition true_type : integral_constant := mkIntegralConstant (fund FBool) 1.
Definition false_type : integral_constant := mkIntegralConstant (fund FBool) 0.
Definition bool_constant (b : bool) : integral_constant := if b then true_type else false_type.
Definition holds (c : integral_constant) : bool := negb (value c =? 0).

Definition enable_if (Cond : bool) (T : type) : meta type := if Cond then Formed T else NoMember.
Definition conditional (Cond : bool) (T F : type) : type := if Cond then T else F.
Definition void_t (Ts : list type) : type := void.

Definition add_const (T : type) : type := qualify cv_const T.
Definition add_lvalue_reference (T : type) : meta type :=
  inside (match match_rref T with Some U => lref U | None => lref T end).
Definition add_rvalue_reference (T : type) : meta type := inside (rref T).
Definition remove_reference (T : type) : type :=
  match match_lref T with Some U => U | None => match match_rref T with Some U => U | None => T end end.
Definition remove_const (T : type) : type := default T (match_const T).
Definition remove_volatile (T : type) : type := default T (match_volatile T).
Definition remove_cv (T : type) : type := remove_const (remove_volatile T).
Definition remove_extent (T : type) : type :=
  match match_unbounded T with Some U => U | None => default T (match_bounded T) end.

Definition is_same (T1 T2 : type) : integral_constant := bool_constant (bool_decide (T1 = T2)).
Definition is_void (T : type) : integral_constant := is_same void (remove_cv T).
Definition is_pointer_helper (T : type) : integral_constant :=
  match match_ptr T with Some _ => true_type | None => false_type end.
Definition is_pointer (T : type) : integral_constant := is_pointer_helper (remove_cv T).

(** The explicit specialisations name unqualified types. *)
Definition is_signed (T : type) : integral_constant :=
  bool_constant (bool_decide (T ∈ fund <$> [FLongLong; FLong; FInt; FShort; FChar])).
Definition is_unsigned (T : type) : integral_constant :=
  bool_constant (bool_decide (T ∈ fund <$> [FULongLong; FULong; FUInt; FUShort; FUChar])).
Definition make_unsigned (T : type) : meta type :=
  match T with
  | Basic (mkCv false false) (Fund FChar) => Formed (fund FUChar)
  | Basic (mkCv false false) (Fund FShort) => Formed (fund FUShort)
  | Basic (mkCv false false) (Fund FInt) => Formed (fund FUInt)
  | Basic (mkCv false false) (Fund FLong) => Formed (fund FULong)
  | Basic (mkCv false false) (Fund FLongLong) => Formed (fund FULongLong)
  | _ => inside (enable_if (holds (is_unsigned T)) T)
  end.

Definition is_enum (T : type) : integral_constant :=
  bool_constant (match T with Basic _ (Enum _ _) => true | _ => false end).
Definition underlying_type (T : type) : meta type :=
  match T with Basic _ (Enum _ u) => Formed (fund u) | _ => IllFormed end.

(** [declval<T>()], [forward<T>(t)] and [move(t)] by the type they return. *)
Definition declval (T : type) : meta type := add_rvalue_reference T.
Definition forward (T : type) : meta type := rref T.
Definition move (T : type) : meta type := rref (remove_reference T).

(** What a forwarding reference [T&&] deduces for [T] from an argument. *)
Inductive category : Type := Lvalue | Rvalue.
Definition deduced (c : category) (U : type) : type := match c with Lvalue => LRef U | Rvalue => U end.

(** ** Concepts *)
Definition same_as (T U : type) : bool := holds (is_same T U) && holds (is_same U T).
Definition Enum_ (T : type) : bool := holds (is_enum T).
Definition EnumFrom (U T : type) : bool :=
  holds (is_enum U) && match underlying_type U with Formed V => holds (is_same V T) | _ => false end.

(** Which implicit conversions exist, and which class is a base of which, depends
    on the classes of the whole program. *)
Section Conversions.
Context (implicit : type → type → bool) (base_of : type → type → bool).

Definition test_returnable (To : type) : bool := negb (is_array_type To) && negb (is_function_type To).
Definition test_implicitly_convertible (From To : type) : meta bool :=
  if is_void_type To then mret false else D ← declval From; mret (implicit D To).
Definition is_convertible (From To : type) : meta bool :=
  b ← test_implicitly_convertible From To;
  mret ((test_returnable To && b) || (holds (is_void From) && holds (is_void To))).

Definition const_volatile_ptr (T : type) : type := Ptr no_cv (qualify (mkCv true true) T).
Definition derived_from (Derived Base : type) : meta bool :=
  if base_of Base Derived then is_convertible (const_volatile_ptr Derived) (const_volatile_ptr Base)
  else mret false.

(** [IOPort] of [asm.hpp] *)
Definition IOPort (T : type) : meta bool :=
  if EnumFrom T (fund FUShort) then mret true else is_convertible T (fund FUShort).
End Conversions.

(** ** Sizes on i686 *)
Definition fundamental_size (f : fundamental) : option Z :=
  match f with
  | FVoid => None
  | FBool | FChar | FSChar | FUChar => Some 1
  | FShort | FUShort => Some 2
  | FInt | FUInt | FLong | FULong | FNullptr | FFloat => Some 4
  | FLongLong | FULongLong | FDouble => Some 8
  end.

Section Sizes.
Context (class_size : string → Z).

Fixpoint sizeof (t : type) : option Z :=
  match t with
  | Basic _ (Fund f) => fundamental_size f
  | Basic _ (Class n) => Some (class_size n)
  | Basic _ (Enum _ u) => fundamental_size u
  | Ptr _ _ => Some 4
  | Arr t (Some n) => s ← sizeof t; Some (n * s)
  | Arr t None => None
  | LRef t | RRef t => sizeof t
  | Fun _ _ => None
  end.

(** The overloads of [x86::load] and its siblings that [enable_if] leaves for [T]. *)
Definition bytes (w : width) : Z := bits w / 8.
Definition viable (T : type) (w : width) : bool :=
  match sizeof T with
  | Some s => match enable_if (s =? bytes w) void with Formed _ => true | _ => false end
  | None => false
  end.
Definition overloads (T : type) : list width := filter (λ w, viable T w) [Byte; Word; Long].
End Sizes.

(** The size of [aligned_storage<Len, Align>::type]: the alignment of its only
    member rounds it up. *)
Definition aligned_storage_size (Len Align : Z) : Z := (Len + Align - 1) / Align * Align.

(** ** The assertions of [ost/src/type_traits.cpp] *)
Definition int_ : type := fund FInt.
Definition ClassType : type := Basic no_cv (Class "ClassType").
Definition const_of (t : type) : type := qualify cv_const t.
Definition volatile_of (t : type) : type := qualify cv_volatile t.
Definition pointer_to (t : type) : type := Ptr no_cv t.
Definition asserts_same (a b : type) : bool := holds (is_same a b).

Definition t_add_const : list bool :=
  [asserts_same (add_const int_) (add_const int_);
   asserts_same (add_const (const_of (fund FLong))) (add_const (const_of (fund FLong)));
   asserts_same (add_const int_) (const_of int_);
   asserts_same (add_const (volatile_of int_)) (const_of (volatile_of int_));
   asserts_same (add_const (pointer_to int_)) (Ptr cv_const int_);
   asserts_same (add_const (LRef int_)) (LRef int_);
   asserts_same (add_const (Fun int_ [int_])) (Fun int_ [int_]);
   asserts_same (add_const (const_of int_)) (const_of int_);
   asserts_same (add_const ClassType) (const_of ClassType);
   asserts_same (add_const (volatile_of ClassType)) (const_of (volatile_of ClassType));
   asserts_same (add_const (pointer_to ClassType)) (Ptr cv_const ClassType);
   asserts_same (add_const (LRef ClassType)) (LRef ClassType);
   asserts_same (add_const (Fun ClassType [ClassType])) (Fun ClassType [ClassType]);
   asserts_same (add_const (const_of ClassType)) (const_of ClassType)].

Definition t_is_same : list bool :=
  [asserts_same int_ int_; asserts_same (const_of int_) (const_of int_);
   asserts_same (LRef int_) (LRef int_); asserts_same ClassType ClassType;
   negb (asserts_same void int_); negb (asserts_same int_ (const_of int_));
   negb (asserts_same int_ (LRef int_)); negb (asserts_same int_ ClassType)].

Definition t_integral_constant : list bool :=
  [ic_call (mkIntegralConstant int_ 1) =? 1; ic_call (mkIntegralConstant int_ 0) =? 0;
   ic_call (mkIntegralConstant int_ (-1)) =? -1;
   bool_decide (ic_call true_type = 1); bool_decide (ic_call false_type = 0);
   ic_convert (mkIntegralConstant int_ 1) =? 1; ic_convert (mkIntegralConstant int_ 0) =? 0;
   ic_convert (mkIntegralConstant int_ (-1)) =? -1;
   ic_convert true_type =? 1; ic_convert false_type =? 0;
   holds true_type; negb (holds false_type); holds (ic_type true_type); negb (holds (ic_type false_type))].

Definition t_remove_reference : list bool :=
  [asserts_same (remove_reference (LRef int_)) int_; asserts_same (remove_reference int_) int_;
   asserts_same (remove_reference (LRef (const_of int_))) (const_of int_);
   asserts_same (remove_reference (LRef (pointer_to int_))) (pointer_to int_);
   asserts_same (remove_reference (LRef ClassType)) ClassType;
   asserts_same (remove_reference ClassType) ClassType;
   asserts_same (remove_reference (LRef (Fun int_ [int_]))) (Fun int_ [int_]);
   asserts_same (remove_reference (RRef int_)) int_; asserts_same (remove_reference int_) int_;
   asserts_same (remove_reference (RRef (const_of int_))) (const_of int_);
   asserts_same (remove_reference (RRef (pointer_to int_))) (pointer_to int_);
   asserts_same (remove_reference (RRef ClassType)) ClassType;
   asserts_same (remove_reference ClassType) ClassType;
   asserts_same (remove_reference (RRef (Fun int_ [int_]))) (Fun int_ [int_])].

Definition static_asserts : list bool := t_add_const ++ t_is_same ++ t_integral_constant ++ t_remove_reference.

(** * Verification *)

(** ** Well-formed types: what the language lets a program form *)
Definition is_object_type (t : type) : bool :=
  negb (is_void_type t) && negb (is_reference_type t) && negb (is_function_type t) &&
  match t with Arr _ None => false | _ => true end.

Definition is_parameter_type (t : type) : bool :=
  negb (is_void_type t) && negb (is_array_type t) && negb (is_function_type t) && bool_decide (cv_of t = no_cv).

Fixpoint wf (t : type) : bool :=
  match t with
  | Basic _ _ => true
  | Ptr _ t => wf t && negb (is_reference_type t)
  | Arr t n => wf t && is_object_type t && match n with Some n => 0 <? n | None => true end
  | LRef t | RRef t => wf t && negb (is_reference_type t) && negb (is_void_type t)
  | Fun r args => wf r && negb (is_array_type r) && negb (is_function_type r) &&
                  forallb (λ a, wf a && is_parameter_type a) args
  end.

Lemma cv_union_comm p q : cv_union p q = cv_union q p.
Proof. unfold cv_union. by rewrite (orb_comm (const_ p)), (orb_comm (volatile_ p)). Qed.

Lemma cv_union_assoc p q r : cv_union p (cv_union q r) = cv_union (cv_union p q) r.
Proof. unfold cv_union. cbn. by rewrite !orb_assoc. Qed.

(** Whether a type can carry qualifiers at all. *)
Fixpoint has_cv (t : type) : bool :=
  match t with Basic _ _ | Ptr _ _ => true | Arr t _ => has_cv t | _ => false end.

Lemma cv_of_set_cv q t : cv_of (set_cv q t) = if has_cv t then q else no_cv.
Proof. induction t; cbn; done. Qed.

Lemma set_cv_set_cv p q t : set_cv p (set_cv q t) = set_cv p t.
Proof. induction t; cbn; congruence. Qed.

Lemma set_cv_of t : set_cv (cv_of t) t = t.
Proof. induction t; cbn; congruence. Qed.

Lemma cv_of_no_cv t : has_cv t = false → cv_of t = no_cv.
Proof. induction t; cbn; try done. Qed.

Lemma set_cv_no_cv q t : has_cv t = false → set_cv q t = t.
Proof. induction t; cbn; try done. intros H. by rewrite IHt. Qed.

Lemma is_object_type_set_cv q t : is_object_type (set_cv q t) = is_object_type t.
Proof. destruct t as [? []|? ?|? []| | |]; done. Qed.

Lemma is_reference_type_set_cv q t : is_reference_type (set_cv q t) = is_reference_type t.
Proof. by destruct t. Qed.

Lemma wf_set_cv q t : wf (set_cv q t) = wf t.
Proof. induction t; cbn; try done. by rewrite IHt, is_object_type_set_cv. Qed.

(** Removing a qualifier is setting what is left. *)
Lemma remove_const_set t : remove_const t = set_cv (mkCv false (volatile_ (cv_of t))) t.
Proof.
  unfold remove_const, match_const. destruct (const_ (cv_of t)) eqn:E; [done|]. cbn.
  rewrite <- E. replace (mkCv (const_ (cv_of t)) (volatile_ (cv_of t))) with (cv_of t) by by destruct (cv_of t).
  by rewrite set_cv_of.
Qed.

Lemma remove_volatile_set t : remove_volatile t = set_cv (mkCv (const_ (cv_of t)) false) t.
Proof.
  unfold remove_volatile, match_volatile. destruct (volatile_ (cv_of t)) eqn:E; [done|]. cbn.
  rewrite <- E. replace (mkCv (const_ (cv_of t)) (volatile_ (cv_of t))) with (cv_of t) by by destruct (cv_of t).
  by rewrite set_cv_of.
Qed.

Lemma remove_cv_set t : remove_cv t = set_cv no_cv t.
Proof.
  unfold remove_cv. rewrite remove_volatile_set, remove_const_set, cv_of_set_cv, set_cv_set_cv.
  by destruct (has_cv t).
Qed.

Lemma holds_bool b : holds (bool_constant b) = b.
Proof. by destruct b. Qed.
Create Rewrite HintDb types.
#[export] Hint Rewrite holds_bool remove_cv_set remove_const_set remove_volatile_set set_cv_set_cv cv_of_set_cv
  wf_set_cv is_object_type_set_cv is_reference_type_set_cv : types.

(** ** The laws of the traits *)
Lemma qualifier_laws q t :
  remove_cv (qualify q t) = remove_cv t ∧ remove_cv (remove_cv t) = remove_cv t ∧
  remove_const (add_const t) = remove_const t ∧ add_const (add_const t) = add_const t ∧
  add_const (remove_const t) = add_const t ∧ remove_const (remove_volatile t) = remove_volatile (remove_const t) ∧
  qualify (cv_of t) (remove_cv t) = t.
Proof.
  unfold add_const, qualify. autorewrite with types.
  destruct (has_cv t) eqn:E; [|rewrite !(set_cv_no_cv _ t) by done; done].
  cbn. split; [done|]. split; [done|]. unfold cv_union, no_cv; cbn. rewrite !orb_false_r.
  repeat split; try done. destruct (cv_of t) eqn:Ec. cbn. rewrite <- Ec. apply set_cv_of.
Qed.

(** *** References collapse, and only [void] has none *)
Lemma add_lvalue_reference_spec t : wf t = true →
  add_lvalue_reference t = if is_void_type t then IllFormed else Formed (LRef (remove_reference t)).
Proof.
  intros Hw. destruct t as [q [[]| |]|q t|t n|t|t|r args]; try done.
  cbn in Hw. apply andb_prop in Hw as [[_ Hr]%andb_prop Hv]. unfold add_lvalue_reference; cbn.
  destruct t; try discriminate Hr; cbn in *; try done. by apply negb_true_iff in Hv as ->.
Qed.

Lemma add_rvalue_reference_spec t : wf t = true →
  add_rvalue_reference t = if is_void_type t then IllFormed else
    Formed (match t with LRef u => LRef u | _ => RRef (remove_reference t) end).
Proof. intros _. destruct t as [q [[]| |]|q t|t n|t|t|r args]; done. Qed.

Lemma remove_reference_not_reference t : wf t = true → is_reference_type (remove_reference t) = false.
Proof.
  intros Hw. destruct t as [| | |t|t|]; try done; cbn in *;
    apply andb_prop in Hw as [[_ H%negb_true_iff]%andb_prop _]; done.
Qed.

Lemma forwarding c u : wf u = true → is_reference_type u = false → is_void_type u = false →
  forward (deduced c u) = Formed (match c with Lvalue => LRef u | Rvalue => RRef u end) ∧
  move (deduced c u) = Formed (RRef u).
Proof.
  intros _ Hr Hv. unfold forward, move. destruct c; cbn [deduced];
    destruct u as [q [[]| |]|q t|t n|t|t|r args]; try discriminate; done.
Qed.

(** *** Integers *)
Lemma make_unsigned_spec t :
  match make_unsigned t with
  | Formed u => (holds (is_signed t) || holds (is_unsigned t)) = true ∧ holds (is_unsigned u) = true ∧
      make_unsigned u = Formed u ∧ ∀ cs, sizeof cs u = sizeof cs t
  | NoMember => False
  | IllFormed => (holds (is_signed t) || holds (is_unsigned t)) = false
  end.
Proof.
  destruct t as [[c v] b| | | | |]; [|vm_compute; done..].
  destruct c, v, b as [f| |]; try (vm_compute; reflexivity); destruct f;
    first [vm_compute; reflexivity|split_and!; [vm_compute; reflexivity..|reflexivity]].
Qed.

(** The explicitly signed [char] is no signed integer for these traits. *)
Lemma signed_char_forgotten : holds (is_signed (fund FSChar)) = false ∧ make_unsigned (fund FSChar) = IllFormed.
Proof. by vm_compute. Qed.

(** A conversion from [void] is an error and not merely absent. *)
Lemma void_conversion_ill_formed implicit : is_convertible implicit void (fund FInt) = IllFormed ∧
  add_lvalue_reference void = IllFormed.
Proof. done. Qed.

(** The width of a value and its sign, as the stream operators need them. *)
Definition int_type_of (t : type) : option int_type :=
  s ← sizeof (λ _, 0) t;
  if holds (is_signed t) then Some (mkIntType (8 * s) true)
  else if holds (is_unsigned t) then Some (mkIntType (8 * s) false) else None.

Lemma make_unsigned_width t u : make_unsigned t = Formed u →
  ∃ ty, int_type_of t = Some ty ∧ int_type_of u = Some (mkIntType (int_bits ty) false).
Proof.
  destruct t as [[c v] b| | | | |]; try (intros [=]; fail).
  destruct c, v, b as [f| |]; try (intros [=]; fail); destruct f; intros [=]; subst; vm_compute; eauto.
Qed.

(** *** Overloads *)
Lemma overloads_spec cs t s : sizeof cs t = Some s →
  overloads cs t = if s =? 1 then [Byte] else if s =? 2 then [Word] else if s =? 4 then [Long] else [].
Proof.
  intros Hs. unfold overloads, viable. rewrite Hs. unfold bytes, bits, enable_if.
  destruct (Z.eqb_spec s 1) as [->|]; [done|]. destruct (Z.eqb_spec s 2) as [->|]; [done|].
  destruct (Z.eqb_spec s 4) as [->|]; [done|].
  rewrite !filter_cons. change (8 / 8) with 1. change (16 / 8) with 2. change (32 / 8) with 4.
  rewrite (proj2 (Z.eqb_neq s 1)), (proj2 (Z.eqb_neq s 2)), (proj2 (Z.eqb_neq s 4)) by done. done.
Qed.

(** *** Storage *)
Lemma aligned_storage_spec Len Align : 0 < Align →
  Len ≤ aligned_storage_size Len Align < Len + Align ∧ (Align | aligned_storage_size Len Align) ∧
  ((Align | Len) → aligned_storage_size Len Align = Len).
Proof.
  intros Ha. unfold aligned_storage_size. split; [|split].
  - Z.div_mod_to_equations. nia.
  - by eexists.
  - intros [k ->]. replace (k * Align + Align - 1) with (k * Align + (Align - 1)) by lia.
    rewrite Z.div_add_l, (Z.div_small (Align - 1)) by lia. lia.
Qed.

Lemma all_well_formed t : wf t = true →
  wf (add_const t) = true ∧ wf (remove_cv t) = true ∧ wf (remove_const t) = true ∧ wf (remove_volatile t) = true ∧
  wf (remove_reference t) = true ∧ wf (remove_extent t) = true.
Proof.
  intros Hw. unfold add_const, qualify. autorewrite with types. split_and!; try done.
  - destruct t; try done; cbn in *; by apply andb_prop in Hw as [[? _]%andb_prop _].
  - destruct t as [| |t [n|]| | |]; try done; cbn in *; by apply andb_prop in Hw as [[? _]%andb_prop _].
Qed.

Lemma is_convertible_spec implicit From To : wf From = true →
  is_convertible implicit From To =
  if is_void_type To then Formed (is_void_type From)
  else if is_void_type From then IllFormed
  else Formed (test_returnable To && implicit (match From with LRef u => LRef u | _ => RRef (remove_reference From) end) To).
Proof.
  intros Hw. assert (Hv : ∀ t, holds (is_void t) = is_void_type t).
  { intros t. unfold is_void, is_same. autorewrite with types. destruct t as [q [[]| |]|q t|t n|t|t|r args]; done. }
  unfold is_convertible, test_implicitly_convertible, declval. rewrite !Hv.
  destruct (is_void_type To) eqn:Et.
  - cbn. by rewrite andb_true_r, andb_false_r.
  - rewrite add_rvalue_reference_spec by done. destruct (is_void_type From); [done|].
    cbn. by rewrite orb_false_r.
Qed.

Lemma io_port_enum implicit name : IOPort implicit (Basic no_cv (Enum name FUShort)) = Formed true.
Proof. done. Qed.

(** C39: on every well-formed type the traits yield well-formed types or say that there is none:
    references collapse and only [void] has none, [forward] restores the category of the argument
    and [move] forgets it, the qualifier traits are mutual inverses, [make_unsigned] keeps the size
    and is defined on the integer types its two siblings name and on no other, exactly one overload
    of the memory wrappers is left for the sizes 1, 2 and 4 and none for the others, the storage of
    an optional has the size of its object, and the assertions the repository states hold. *)
Theorem type_traits_sound t (Hw : wf t = true) :
  (wf (add_const t) = true ∧ wf (remove_cv t) = true ∧ wf (remove_reference t) = true ∧ wf (remove_extent t) = true) ∧
  (add_lvalue_reference t = if is_void_type t then IllFormed else Formed (LRef (remove_reference t))) ∧
  (add_rvalue_reference t = if is_void_type t then IllFormed else
     Formed (match t with LRef u => LRef u | _ => RRef (remove_reference t) end)) ∧
  (is_reference_type t = false → is_void_type t = false → ∀ c,
     forward (deduced c t) = Formed (match c with Lvalue => LRef t | Rvalue => RRef t end) ∧
     move (deduced c t) = Formed (RRef t)) ∧
  (remove_const (add_const t) = remove_const t ∧ remove_cv (remove_cv t) = remove_cv t ∧
   qualify (cv_of t) (remove_cv t) = t) ∧
  (match make_unsigned t with
   | Formed u => (holds (is_signed t) || holds (is_unsigned t)) = true ∧ holds (is_unsigned u) = true ∧
       make_unsigned u = Formed u ∧ ∀ cs, sizeof cs u = sizeof cs t
   | NoMember => False
   | IllFormed => (holds (is_signed t) || holds (is_unsigned t)) = false
   end) ∧
  (∀ cs s, sizeof cs t = Some s →
     overloads cs t = if s =? 1 then [Byte] else if s =? 2 then [Word] else if s =? 4 then [Long] else []) ∧
  (∀ Len Align, 0 < Align → (Align | Len) → aligned_storage_size Len Align = Len) ∧
  Forall (eq true) static_asserts.
Proof.
  destruct (all_well_formed t Hw) as (? & ? & ? & ? & ? & ?).
  destruct (qualifier_laws no_cv t) as (_ & Hcv & Hc & _ & _ & _ & Hq).
  split_and!; try done.
  - by apply add_lvalue_reference_spec.
  - by apply add_rvalue_reference_spec.
  - intros Hr Hv c. by apply forwarding.
  - apply make_unsigned_spec.
  - intros cs s. apply overloads_spec.
  - intros Len Align Ha. by apply aligned_storage_spec.
  - by repeat constructor.
Qed.

(** A reference to an array of constant pointers to functions. *)
Lemma type_traits_sound_witness :
  let t := LRef (Arr (Ptr cv_const (Fun int_ [pointer_to ClassType])) (Some 4)) in
  wf t = true ∧ remove_cv (remove_extent (remove_reference t)) = pointer_to (Fun int_ [pointer_to ClassType]) ∧
  sizeof (λ _, 0) t = Some 16 ∧ add_rvalue_reference t = Formed t.
Proof.
  intros t. assert (H : wf t = true) by reflexivity.
  do 3 (split; [reflexivity|]). destruct (type_traits_sound t H) as (_ & _ & -> & _). reflexivity.
Defined.
