(* ===== verification/Timer.v ===== *)
(** * The timer and the clock

    [devices/src/frequency_divider.cpp] and [pit.cpp]: the two-stage divider of the
    timer interrupt and the set-up of the chip; [libkernelcxx/src/time.cpp]:
    [jiffies], the conversion of milliseconds and sleeping. *)
From stdpp Require Import base tactics numbers list gmap strings.
From S2P Require Import Prelude MemUtils Ports Irq.

(** ** [FrequencyDivider] *)
Record FrequencyDivider : Type := mkDivider { pit_ : Z; counter_ : Z; restart_ : Z }.

Definition FrequencyDivider_default : FrequencyDivider := mkDivider 0 0 0.

Definition pit_timeout (d : FrequencyDivider) : Z := pit_ d.
Definition is_low_frequency (d : FrequencyDivider) : bool := negb (restart_ d =? 0).

Definition set_frequency (hz hw_pit_freq hw_max_divider : Z) (d : FrequencyDivider)
    : outcome FrequencyDivider :=
  if hz =? 0 then Fault "division by zero"
  else
    let full_div := hw_pit_freq / hz in
    let full_div := if full_div =? 0 then 1 else full_div in
    let '(pit, restart) :=
      if hw_max_divider <? full_div then (100, full_div / 100)
      else (u16 (shiftmask full_div 0 65535), 0) in
    Done (mkDivider pit restart restart).

Definition do_tick (d : FrequencyDivider) : bool * FrequencyDivider :=
  if negb (counter_ d =? 0) then (false, mkDivider (pit_ d) (counter_ d - 1) (restart_ d))
  else (true, mkDivider (pit_ d) (restart_ d) (restart_ d)).

(** ** [pit.cpp] *)
Definition PIT_FREQUENCY : Z := 1193182.
Definition MAX_DIVIDER : Z := 65535.
Definition HZ : Z := 10.

Definition pit_port_timer : Z := 64.
Definition pit_port_cmd : Z := 67.
Definition num_mode_bin : Z := Z.shiftl 1 0.
Definition oper_mode_m2 : Z := Z.shiftl 2 1.
Definition acc_mode_latch : Z := Z.shiftl 0 4.
Definition pit_channel_ch0 : Z := Z.shiftl 0 6.

Definition pit_command : Z := Z.lor (Z.lor (Z.lor pit_channel_ch0 acc_mode_latch) oper_mode_m2) num_mode_bin.

(** [PitIRQHandler::handle_irq] on the divider and [jiffies]. *)
Definition pit_handle_irq (s : FrequencyDivider * Z) : status_t * (FrequencyDivider * Z) :=
  let '(tick, d) := do_tick s.1 in
  (HANDLED, (d, if tick then (atomic_pre_incr s.2).1 else s.2)).

(** [pit::init]: the divider the handler keeps, and what the chip is told. *)
Definition pit_init : io_prog FrequencyDivider :=
  freq_divider ← lift_outcome (set_frequency HZ PIT_FREQUENCY MAX_DIVIDER FrequencyDivider_default);
  outb pit_port_cmd pit_command ;;
  outb pit_port_timer (shiftmask (pit_timeout freq_divider) 0 255) ;;
  outb pit_port_timer (shiftmask (pit_timeout freq_divider) 8 255) ;;
  mret freq_divider.

(** ** [time.cpp] *)
Definition MS_IN_SEC : Z := 1000.
Definition low_part (val : Z) : Z := val mod MS_IN_SEC.
Definition high_part (val : Z) : Z := val / MS_IN_SEC.

Definition ms_to_ticks_at (hz ms : Z) : Z :=
  let ticks := 0 in
  let ticks := u32 (ticks + u32 (u32 (high_part ms * high_part hz) * 1000)) in
  let ticks := u32 (ticks + u32 (high_part ms * low_part hz)) in
  let ticks := u32 (ticks + u32 (low_part ms * high_part hz)) in
  let trunkated_part := u32 (low_part ms * low_part hz) in
  let ticks := u32 (ticks + trunkated_part / 1000) in
  if negb (trunkated_part mod 1000 =? 0) then u32 (ticks + 1) else ticks.

Definition ms_to_ticks (ms : Z) : Z := ms_to_ticks_at HZ ms.

(** [sched::yield] is a call through the pointer [instance] of [sched.cpp], which is null until
    [init_scheduling] has made the scheduler.  [clock n] is what the n-th load of [jiffies] returns;
    what the other tasks do while this one has yielded shows in the next load only (the scheduler
    itself is in [Scheduler.v], and [Tasks.v] has the same loop on it). *)
Definition null_scheduler : string := "yield of the null scheduler".

Definition sched_yield (instance : Z) : outcome unit :=
  if instance =? nullptr then Fault null_scheduler else Done tt.

(** [sleep_]: between two loads the task yields.  The result is the number of loads in the loop. *)
Fixpoint sleep_loop (fuel : nat) (instance : Z) (clock : nat → Z) (n : nat) (end_of_sleep : Z) : outcome nat :=
  match fuel with
  | O => Fuel
  | S k =>
      if clock n <? end_of_sleep then
        match sched_yield instance with
        | Done _ => sleep_loop k instance clock (S n) end_of_sleep
        | Panic msg => Panic msg | Fault msg => Fault msg | Fuel => Fuel
        end
      else Done n
  end.

Definition sleep (fuel : nat) (instance : Z) (clock : nat → Z) (ticks_timeout : Z) (i : irq_state) : outcome nat :=
  match is_enabled i with
  | Done (true, _) => sleep_loop fuel instance clock 1 (u32 (clock O + ticks_timeout))
  | Done (false, _) => Panic "sleep with disabled interrupts"
  | Panic msg => Panic msg | Fault msg => Fault msg | Fuel => Fuel
  end.

Definition sleep_ms (fuel : nat) (instance : Z) (clock : nat → Z) (ms : Z) (i : irq_state) : outcome nat :=
  sleep fuel instance clock (ms_to_ticks ms) i.

(** * Verification *)

(** The ticks of [n] hardware interrupts. *)
Fixpoint ticks (n : nat) (d : FrequencyDivider) : list bool :=
  match n with O => [] | S n => let '(b, d) := do_tick d in b :: ticks n d end.

Lemma ticks_nth r : 0 ≤ r → ∀ n k d, restart_ d = r → 0 ≤ counter_ d ≤ r → (k < n)%nat →
  ticks n d !! k = Some (bool_decide (counter_ d ≤ Z.of_nat k ∧ (Z.of_nat k - counter_ d) mod (r + 1) = 0)).
Proof.
  intros Hr. induction n as [|n IH]; intros k d Hd Hc Hk; [lia|]. cbn [ticks]. unfold do_tick.
  destruct (Z.eqb_spec (counter_ d) 0) as [H0|H0]; cbn [negb]; destruct k as [|k]; cbn [lookup list_lookup].
  - f_equal. symmetry. apply bool_decide_eq_true_2. rewrite H0. split; [lia|done].
  - change ((ticks n (mkDivider (pit_ d) (restart_ d) (restart_ d))) !! k = 
      Some (bool_decide (counter_ d ≤ Z.of_nat (S k) ∧ (Z.of_nat (S k) - counter_ d) mod (r + 1) = 0))).
    rewrite IH by (cbn; lia). cbn [counter_]. f_equal. apply bool_decide_ext. rewrite H0, Hd.
    replace (Z.of_nat (S k) - 0) with ((Z.of_nat k - r) + 1 * (r + 1)) by lia.
    rewrite Z_mod_plus_full. split; [lia|]. intros [_ Hm]. split; [|done].
    destruct (Z_lt_ge_dec (Z.of_nat k - r) 0); [|lia].
    exfalso. assert (Hk' : (Z.of_nat k - r) mod (r + 1) = Z.of_nat k + 1).
    { symmetry. apply (Z.mod_unique _ _ (-1)); lia. }
    lia.
  - f_equal. symmetry. apply bool_decide_eq_false_2. lia.
  - change ((ticks n (mkDivider (pit_ d) (counter_ d - 1) (restart_ d))) !! k = 
      Some (bool_decide (counter_ d ≤ Z.of_nat (S k) ∧ (Z.of_nat (S k) - counter_ d) mod (r + 1) = 0))).
    rewrite IH by (cbn; lia). cbn [counter_]. f_equal. apply bool_decide_ext.
    replace (Z.of_nat (S k) - counter_ d) with (Z.of_nat k - (counter_ d - 1)) by lia.
    split; intros [? ?]; (split; [lia|done]).
Qed.

Lemma sched_yield_made instance : instance ≠ nullptr → sched_yield instance = Done tt.
Proof. intros H. unfold sched_yield. by destruct (Z.eqb_spec instance nullptr). Qed.

Lemma sleep_loop_done instance clock : instance ≠ nullptr → ∀ fuel n e,
  (∃ m, (n ≤ m < n + fuel)%nat ∧ e ≤ clock m) →
  ∃ m, sleep_loop fuel instance clock n e = Done m ∧ (n ≤ m)%nat ∧ e ≤ clock m ∧
    ∀ k, (n ≤ k < m)%nat → clock k < e.
Proof.
  intros Hi. induction fuel as [|fuel IH]; intros n e (m & Hm & He); [lia|]. cbn [sleep_loop].
  rewrite (sched_yield_made _ Hi).
  destruct (Z.ltb_spec (clock n) e) as [Hlt|Hge].
  - destruct (IH (S n) e) as (m' & E & Hn & Hc & Hk).
    { exists m. split; [|done]. destruct (decide (m = n)) as [->|]; [lia|lia]. }
    exists m'. split_and!; [done|lia|done|]. intros k Hk'. destruct (decide (k = n)) as [->|]; [done|]. apply Hk. lia.
  - exists n. split_and!; [done|lia|lia|]. intros k Hk. lia.
Qed.

(** Without a scheduler the first load decides. *)
Lemma sleep_loop_null fuel clock n e : (1 ≤ fuel)%nat →
  sleep_loop fuel nullptr clock n e = if clock n <? e then Fault null_scheduler else Done n.
Proof. intros Hf. destruct fuel; [lia|]. cbn [sleep_loop]. by destruct (clock n <? e). Qed.

Lemma ms_to_ticks_at_done hz ms : 0 ≤ hz < 2 ^ 32 → 0 ≤ ms < 2 ^ 32 → (ms * hz + 999) / 1000 < 2 ^ 32 →
  ms_to_ticks_at hz ms = (ms * hz + 999) / 1000.
Proof.
  intros Hh Hm Hlt. unfold ms_to_ticks_at, high_part, low_part, MS_IN_SEC.
  pose proof (Z.div_mod ms 1000 ltac:(lia)) as Em. pose proof (Z.div_mod hz 1000 ltac:(lia)) as Eh.
  pose proof (Z.mod_pos_bound ms 1000 ltac:(lia)) as Bm. pose proof (Z.mod_pos_bound hz 1000 ltac:(lia)) as Bh.
  assert (Hmh : 0 ≤ ms / 1000) by (apply Z.div_pos; lia).
  assert (Hhh : 0 ≤ hz / 1000) by (apply Z.div_pos; lia).
  set (mh := ms / 1000) in *. set (ml := ms mod 1000) in *.
  set (hh := hz / 1000) in *. set (hl := hz mod 1000) in *.
  clearbody mh ml hh hl. subst ms hz.
  assert (Hll : 0 ≤ ml * hl < 1000 * 1000) by nia.
  assert (Htot : ((1000 * mh + ml) * (1000 * hh + hl) + 999) / 1000 =
    mh * hh * 1000 + mh * hl + ml * hh + (ml * hl + 999) / 1000).
  { replace ((1000 * mh + ml) * (1000 * hh + hl) + 999) with
      ((mh * hh * 1000 + mh * hl + ml * hh) * 1000 + (ml * hl + 999)) by lia.
    by rewrite Z.div_add_l by lia. }
  rewrite Htot in *.
  assert (Hc : (ml * hl + 999) / 1000 = ml * hl / 1000 + (if (ml * hl) mod 1000 =? 0 then 0 else 1)).
  { destruct (Z.eqb_spec ((ml * hl) mod 1000) 0); Z.div_mod_to_equations; lia. }
  rewrite Hc in *.
  assert (H1 : 0 ≤ mh * hh * 1000) by nia. assert (H2 : 0 ≤ mh * hl) by nia. assert (H3 : 0 ≤ ml * hh) by nia.
  assert (H4 : 0 ≤ ml * hl / 1000) by (apply Z.div_pos; lia).
  rewrite (u32_small (ml * hl)) by lia.
  destruct (Z.eqb_spec ((ml * hl) mod 1000) 0); cbn [negb].
  - rewrite (u32_small (mh * hh)), (u32_small (mh * hh * 1000)), (u32_small (mh * hl)), (u32_small (ml * hh)) by lia.
    rewrite (u32_small (0 + mh * hh * 1000)) by lia.
    rewrite (u32_small (0 + mh * hh * 1000 + mh * hl)) by lia.
    rewrite (u32_small (0 + mh * hh * 1000 + mh * hl + ml * hh)) by lia.
    rewrite u32_small by lia. lia.
  - rewrite (u32_small (mh * hh)), (u32_small (mh * hh * 1000)), (u32_small (mh * hl)), (u32_small (ml * hh)) by lia.
    rewrite (u32_small (0 + mh * hh * 1000)) by lia.
    rewrite (u32_small (0 + mh * hh * 1000 + mh * hl)) by lia.
    rewrite (u32_small (0 + mh * hh * 1000 + mh * hl + ml * hh)) by lia.
    rewrite (u32_small (0 + mh * hh * 1000 + mh * hl + ml * hh + ml * hl / 1000)) by lia.
    rewrite u32_small by lia. lia.
Qed.

(** * Properties *)

(** The divider ticks once every [restart_ + 1] hardware interrupts, the last
    of each group: with software division that is one more than the [restart_]
    interrupts its documentation speaks of, so the software clock is always slower
    than asked for. *)
Theorem frequency_divider_period hz freq max d0 n k
    (Hhz : 0 < hz) (Hfreq : 0 ≤ freq < 2 ^ 32) (Hmax : 0 ≤ max ≤ 65535) (Hk : (k < n)%nat) :
  ∃ d, set_frequency hz freq max d0 = Done d ∧
    ticks n d !! k = Some (bool_decide ((Z.of_nat k + 1) mod (restart_ d + 1) = 0)) ∧
    (is_low_frequency d = true → max < freq / hz → 100 ≤ max → freq / hz < pit_ d * (restart_ d + 1)) ∧
    (1 ≤ freq / hz ≤ max → pit_ d * (restart_ d + 1) = freq / hz).
Proof.
  unfold set_frequency. destruct (Z.eqb_spec hz 0); [lia|].
  assert (Hdiv : 0 ≤ freq / hz) by (apply Z.div_pos; lia).
  set (f := if freq / hz =? 0 then 1 else freq / hz).
  assert (Hf : 1 ≤ f ∧ (1 ≤ freq / hz → f = freq / hz)).
  { unfold f. destruct (Z.eqb_spec (freq / hz) 0); lia. }
  assert (Hticks : ∀ r p, 0 ≤ r → ticks n (mkDivider p r r) !! k =
    Some (bool_decide ((Z.of_nat k + 1) mod (r + 1) = 0))).
  { intros r p Hr. rewrite (ticks_nth r Hr) by (cbn; lia). cbn [counter_]. f_equal. apply bool_decide_ext.
    replace (Z.of_nat k - r) with ((Z.of_nat k + 1) + (-1) * (r + 1)) by lia. rewrite Z_mod_plus_full.
    split; [tauto|]. intros Hm. split; [|done].
    destruct (Z_lt_ge_dec (Z.of_nat k) r); [|lia]. rewrite Z.mod_small in Hm; lia. }
  destruct (Z.ltb_spec max f) as [Hlow|Hhigh].
  - eexists. split; [reflexivity|]. cbn [pit_ restart_ is_low_frequency].
    assert (0 ≤ f / 100) by (apply Z.div_pos; lia).
    split; [by apply Hticks|]. split; [|lia]. intros _ Hm H100.
    rewrite (proj2 Hf) by lia. pose proof (Z.div_mod (freq / hz) 100 ltac:(lia)).
    pose proof (Z.mod_pos_bound (freq / hz) 100 ltac:(lia)). lia.
  - eexists. split; [reflexivity|]. cbn [pit_ restart_ is_low_frequency].
    split; [by apply Hticks|]. split; [done|]. intros Hfr. rewrite (proj2 Hf) by lia.
    unfold shiftmask. rewrite Z.shiftr_0_r. change 65535 with (Z.ones 16). rewrite Z.land_ones by lia.
    rewrite u16_small; rewrite Z.mod_small by lia; lia.
Qed.

(** C40: [ms_to_ticks] is the exact ceiling of [ms * HZ / 1000], and a sleep whose end
    does not wrap returns as soon as a load of [jiffies] shows that that many
    ticks have passed, not before, provided that the scheduler exists: before
    that, a sleep whose first load is too early yields through a null pointer.  A
    sleep that crosses the wrap of [jiffies] can return at once, and a sleep with
    interrupts disabled panics. *)
Theorem sleep_ms_correct fuel clock ms m
    (Hms : 0 ≤ ms < 2 ^ 32) (Hclock : 0 ≤ clock O) (Hfuel : (1 ≤ m ≤ fuel)%nat)
    (Hlate : clock O + (ms * HZ + 999) / 1000 ≤ clock m) (Hnowrap : clock m < 2 ^ 32) :
  (∀ instance, instance ≠ nullptr → ∃ n, sleep_ms fuel instance clock ms (mkIrq true true) = Done n ∧
     clock O + (ms * HZ + 999) / 1000 ≤ clock n ∧
     ∀ k, (1 ≤ k < n)%nat → clock k < clock O + (ms * HZ + 999) / 1000) ∧
  sleep_ms fuel nullptr clock ms (mkIrq true true) =
    (if clock 1%nat <? clock O + (ms * HZ + 999) / 1000 then Fault null_scheduler else Done 1%nat) ∧
  (∀ instance, sleep_ms fuel instance (λ _, 2 ^ 32 - 1) 100 (mkIrq true true) = Done 1%nat) ∧
  (∀ instance, sleep_ms fuel instance clock ms (mkIrq false false) = Panic "sleep with disabled interrupts").
Proof.
  assert (Ht : ∀ x, 0 ≤ x < 2 ^ 32 → ms_to_ticks x = (x * HZ + 999) / 1000).
  { intros x Hx. unfold ms_to_ticks. apply ms_to_ticks_at_done; unfold HZ; [lia|done|].
    apply Z.div_lt_upper_bound; lia. }
  assert (0 ≤ (ms * HZ + 999) / 1000) by (apply Z.div_pos; unfold HZ; lia).
  split_and!; [| | |done].
  - intros instance Hi. unfold sleep_ms, sleep. cbn [is_enabled]. unfold is_enabled. cbn [if_flag interrupts_enabled eqb].
    rewrite (Ht ms Hms), u32_small by lia.
    destruct (sleep_loop_done instance clock Hi fuel 1 (clock O + (ms * HZ + 999) / 1000)) as (n & E & Hn & Hc & Hk).
    { exists m. split; [lia|done]. }
    exists n. by split_and!.
  - unfold sleep_ms, sleep, is_enabled. cbn [if_flag interrupts_enabled eqb].
    rewrite (Ht ms Hms), u32_small by lia. apply sleep_loop_null. lia.
  - intros instance. destruct fuel as [|fuel]; [lia|]. unfold sleep_ms. rewrite Ht by lia. done.
Qed.

(** ** Witnesses *)
Lemma frequency_divider_period_witness :
  ∃ d, set_frequency 10 1193182 65535 FrequencyDivider_default = Done d ∧
    ticks 2000 d !! 1193%nat = Some (bool_decide ((Z.of_nat 1193 + 1) mod (restart_ d + 1) = 0)) ∧
    (is_low_frequency d = true → 65535 < 1193182 / 10 → 100 ≤ 65535 →
       1193182 / 10 < pit_ d * (restart_ d + 1)) ∧
    (1 ≤ 1193182 / 10 ≤ 65535 → pit_ d * (restart_ d + 1) = 1193182 / 10).
Proof. apply frequency_divider_period; lia. Defined.

Lemma sleep_ms_correct_witness :
  (∀ instance, instance ≠ nullptr →
     ∃ n, sleep_ms 100 instance (λ n, Z.of_nat n + 5) 1500 (mkIrq true true) = Done n ∧
     5 + (1500 * HZ + 999) / 1000 ≤ Z.of_nat n + 5 ∧
     ∀ k, (1 ≤ k < n)%nat → Z.of_nat k + 5 < 5 + (1500 * HZ + 999) / 1000) ∧
  sleep_ms 100 nullptr (λ n, Z.of_nat n + 5) 1500 (mkIrq true true) =
    (if Z.of_nat 1 + 5 <? 5 + (1500 * HZ + 999) / 1000 then Fault null_scheduler else Done 1%nat) ∧
  (∀ instance, sleep_ms 100 instance (λ _, 2 ^ 32 - 1) 100 (mkIrq true true) = Done 1%nat) ∧
  (∀ instance, sleep_ms 100 instance (λ n, Z.of_nat n + 5) 1500 (mkIrq false false)
     = Panic "sleep with disabled interrupts").
Proof.
  apply (sleep_ms_correct 100 (λ n, Z.of_nat n + 5) 1500 15); try lia; by vm_compute.
Defined.

(** What the chip of the kernel is told: 100 in two bytes, behind a command whose
    access mode is the latch command. *)
Example pit_init_log :
  match pit_init (io_start (λ _, 0)) with
  | Done (d, s) => d = mkDivider 100 1193 1193 ∧ io_log s = [Out 67 5; Out 64 100; Out 64 0]
  | _ => False
  end.
Proof. by vm_compute. Qed.
