(* ===== verification/Tasks.v ===== *)
(** * The tasks of the kernel

    What [main.cpp] does once the scheduler runs: the main task creates eight test
    tasks and idles, the test tasks print and sleep, those with an even number
    finish after five turns.  The file composes the scheduler with the clock of
    [time.cpp]; timer interrupts come at any moment, and a task may lose the
    processor wherever its code gives it up. *)
From stdpp Require Import base functions tactics numbers list gmap strings relations.
From S2P Require Import Prelude MemUtils ForwardList CircularList Irq Ports Buddy PageProvider KernelHeap Scheduler Timer.

(** ** Where a task stands in its routine *)
Inductive code : Type :=
  | MainTop (i : Z)                      (** at the condition of the for loop *)
  | MainSleepCall (i : Z)                (** at [sleep_ms(sleep_interval/tasks_count)] *)
  | MainSleep (i end_of_sleep : Z)       (** at the condition of the loop of [sleep_] *)
  | MainIdle                             (** in the last loop of [multithreaded_init_stage] *)
  | TestEntry                            (** at the beginning of [test_task] *)
  | TestTop (task_number counter i : Z)  (** at the condition of its loop *)
  | TestSleepCall (task_number counter i : Z)
  | TestSleep (task_number counter i end_of_sleep : Z)
  | RoutineReturned.                     (** behind the call in [Task::run] *)

Definition in_main (c : code) : bool :=
  match c with MainTop _ | MainSleepCall _ | MainSleep _ _ | MainIdle => true | _ => false end.

Inductive message : Type := Started (task_number : Z) | Iteration (task_number counter : Z).

Definition sleep_interval : Z := 1000.
Definition tasks_count : Z := 8.
Definition test_iterations : Z := 5.
Definition int_size : Z := 4.

Section Tasks.
Context {W : Type} `{KH : KernelHeap W}.
Context (start_on_new_frame test_task test_task_name : Z).

Abbreviation st := (sched_state (W := W)).

(** [ints]: the objects of [new int]; [progress]: where the routine of each task
    stands; [now] counts the ticks since the start, [jiffies] is the variable. *)
Record system : Type := mkSystem {
  sched : st;
  jiffies : Z;
  now : Z;
  ints : gmap Z Z;
  progress : gmap Z code;
  output : list (Z * message)
}.

Abbreviation sys_prog := (prog system).

Definition put_sched (s : st) (y : system) : system :=
  mkSystem s (jiffies y) (now y) (ints y) (progress y) (output y).
Definition on_sched {A} : prog st A → sys_prog A := zoom sched put_sched.

Definition set_code (p : Z) (c : code) : sys_prog unit :=
  modify (λ y, mkSystem (sched y) (jiffies y) (now y) (ints y) (<[p := c]> (progress y)) (output y)).
Definition print (m : message) : sys_prog unit :=
  modify (λ y, mkSystem (sched y) (jiffies y) (now y) (ints y) (progress y) (output y ++ [(now y, m)])).

(** [new int{i}] *)
Definition new_int (i : Z) : sys_prog Z :=
  a ← on_sched (on_heap (new_object int_size));
  modify (λ y, mkSystem (sched y) (jiffies y) (now y) (<[a := i]> (ints y)) (progress y) (output y)) ;;
  mret a.
Definition read_int (a : Z) : sys_prog Z := λ y,
  match ints y !! a with Some n => Done (n, y) | None => Fault "read of an object that does not exist" end.

(** The first half of [sleep_]: the check and the end of the sleep. *)
Definition begin_sleep (ms : Z) : sys_prog Z :=
  enabled ← on_sched (on_irq is_enabled);
  if negb enabled then panic "sleep with disabled interrupts"
  else j ← gets jiffies; mret (u32 (j + ms_to_ticks ms)).

(** One turn of its loop: a yield, or the code behind the sleep. *)
Definition sleep_turn (p end_of_sleep : Z) (behind : code) : sys_prog unit :=
  j ← gets jiffies;
  if j <? end_of_sleep then on_sched (yield start_on_new_frame InRoutine) else set_code p behind.

(** [sched::create_task]; the new task will stand at the entry of its routine. *)
Definition create_test_task (flags i : Z) : sys_prog unit :=
  a ← new_int i;
  t ← on_sched (create_task start_on_new_frame flags test_task a test_task_name);
  set_code t TestEntry.

(** [multithreaded_init_stage], a stretch of it. *)
Definition main_turn (flags p : Z) (c : code) : sys_prog unit :=
  match c with
  | MainTop i =>
      if i <? tasks_count then create_test_task flags i ;; set_code p (MainSleepCall i) else set_code p MainIdle
  | MainSleepCall i => e ← begin_sleep (sleep_interval / tasks_count); set_code p (MainSleep i e)
  | MainSleep i e => sleep_turn p e (MainTop (i + 1))
  | _ => on_sched (yield start_on_new_frame InRoutine)
  end.

(** [test_task]: the loop of an odd task has no bound. *)
Definition is_odd (task_number : Z) : bool := negb (Z.rem task_number 2 =? 0).

Definition test_turn (p : Z) (c : code) : sys_prog unit :=
  match c with
  | TestEntry =>
      t ← on_sched (task_at p); task_number ← read_int (_arg t);
      print (Started task_number) ;; set_code p (TestTop task_number 0 0)
  | TestTop n counter i =>
      if is_odd n || (i <? test_iterations) then
        let counter := u32 (counter + 1) in
        print (Iteration n counter) ;; set_code p (TestSleepCall n counter i)
      else set_code p RoutineReturned
  | TestSleepCall n counter i => e ← begin_sleep sleep_interval; set_code p (TestSleep n counter i e)
  | TestSleep n counter i e => sleep_turn p e (TestTop n counter (if is_odd n then i else i + 1))
  | _ => on_sched (exit_task start_on_new_frame)
  end.

(** The running task goes on to its next point; [flags] are the other bits of the flags
    register. *)
Definition run_task (flags : Z) : sys_prog unit :=
  p ← gets (λ y, _current (sched y));
  c ← gets (λ y, progress y !! p);
  match c with
  | None => fault "a task without code"
  | Some c => if in_main c then main_turn flags p c else test_turn p c
  end.

(** The timer interrupt. *)
Definition tick (y : system) : system :=
  mkSystem (sched y) (fst (atomic_pre_incr (jiffies y))) (now y + 1) (ints y) (progress y) (output y).

(** Any other part of the kernel may use the heap as long as it leaves alone what the
    scheduler and the tasks own. *)
Definition ints_owned (y : system) (os : gmap Z Z) : Prop := ∀ a n, ints y !! a = Some n → os !! a = Some int_size.

Inductive sys_step : system → system → Prop :=
  | sys_tick y : sys_step y (tick y)
  | sys_memory y w al os :
      heap_rep w al os → owned (sched y) al os → ints_owned y os → frames_kept (sched y) w →
      sys_step y (put_sched (put_heap w (sched y)) y)
  | sys_schedule y fuel s' :
      _current (sched y) = _scheduler_task (sched y) → (size (task_objects (sched y)) < fuel)%nat →
      schedule_step start_on_new_frame fuel (sched y) = Done (tt, s') → sys_step y (put_sched s' y)
  | sys_run y flags y' :
      _current (sched y) ≠ _scheduler_task (sched y) → run_task flags y = Done (tt, y') → sys_step y y'.

(** * Verification *)

(** ** Programs of the scheduler leave the identity of the tasks alone *)
Definition same_task (T T' : Task) : Prop :=
  _routine T' = _routine T ∧ _arg T' = _arg T ∧ _exited T' = _exited T ∧ _stack T' = _stack T.

Definition keeps (s s' : st) : Prop :=
  ∀ u T', task_objects s' !! u = Some T' → ∃ T, task_objects s !! u = Some T ∧ same_task T T'.

Definition keeping {A} (p : prog st A) : Prop := ∀ s a s', p s = Done (a, s') → keeps s s'.

Lemma keeps_refl s : keeps s s.
Proof. intros u T HT. by exists T. Qed.

Lemma keeps_trans s1 s2 s3 : keeps s1 s2 → keeps s2 s3 → keeps s1 s3.
Proof.
  intros H1 H2 u T3 H3. destruct (H2 u T3 H3) as (T2 & HT2 & E2). destruct (H1 u T2 HT2) as (T1 & HT1 & E1).
  exists T1. split; [done|]. unfold same_task in *. destruct_and!. by split_and!; etrans.
Qed.

Lemma keeping_bind {A B} (p : prog st A) (k : A → prog st B) :
  keeping p → (∀ a, keeping (k a)) → keeping (p ≫= k).
Proof.
  intros Hp Hk s b s' E. unfold mbind, prog_bind in E. destruct (p s) as [[a s1]| | |] eqn:E1; try done.
  eapply keeps_trans; [by eapply Hp|by eapply Hk].
Qed.

(** What does not write the map of tasks. *)
Definition silent {A} (p : prog st A) : Prop :=
  ∀ s a s', p s = Done (a, s') → task_objects s' = task_objects s.

Lemma keeping_silent {A} (p : prog st A) : silent p → keeping p.
Proof. intros Hp s a s' E u T. rewrite (Hp s a s' E). intros HT. by exists T. Qed.

Lemma silent_ret {A} (a : A) : silent (mret a).
Proof. by intros s b s' [= _ <-]. Qed.
Lemma silent_gets {A} (f : st → A) : silent (gets f).
Proof. by intros s b s' [= _ <-]. Qed.
Lemma silent_modify f : (∀ s, task_objects (f s) = task_objects s) → silent (modify f).
Proof. intros Hf s b s' [= _ <-]. apply Hf. Qed.
Lemma silent_zoom {T A} (get : st → T) put (p : prog T A) :
  (∀ t s, task_objects (put t s) = task_objects s) → silent (zoom get put p).
Proof. intros Hp s a s' E. unfold zoom in E. destruct (p (get s)) as [[b t]| | |]; try done. by injection E as <- <-. Qed.
Lemma silent_task_at p : silent (task_at p).
Proof. intros s a s' E. unfold task_at in E. destruct (_ !! p); [by injection E as <- <-|done]. Qed.
Lemma silent_fault {A} msg : silent (A := A) (fault msg).
Proof. done. Qed.
Lemma silent_panic {A} msg : silent (A := A) (panic msg).
Proof. done. Qed.
Lemma silent_fuel {A} : silent (A := A) no_fuel.
Proof. done. Qed.

Lemma keeping_update p f : (∀ T, same_task T (f T)) → keeping (update_task p f).
Proof.
  intros Hf s a s' E. unfold update_task, task_at, mbind, prog_bind in E.
  destruct (task_objects s !! p) as [T|] eqn:HT; [|done]. injection E as _ <-.
  intros u T' Hu. cbn in Hu. apply lookup_insert_Some in Hu as [[<- <-]|[_ Hu]]; eauto. by exists T'.
Qed.

Lemma keeping_delete p : keeping (modify (λ s, put_objects (delete p (task_objects s)) s)).
Proof.
  intros s a s' [= _ <-] u T' Hu. cbn in Hu. apply lookup_delete_Some in Hu as [_ Hu]. by exists T'.
Qed.

Create HintDb keep.
Hint Resolve silent_ret silent_gets silent_task_at silent_fault silent_panic silent_fuel keeping_delete : keep.

(** Decompose a program of the scheduler. *)
Ltac keep_tac :=
  repeat first
    [ apply keeping_update; done
    | match goal with |- keeping (mbind _ _) => apply keeping_bind; [|intros ?] end
    | solve [auto with keep]
    | apply keeping_silent; solve [auto with keep | apply silent_zoom; done | apply silent_modify; done]
    | match goal with
      | |- keeping (if ?b then _ else _) => destruct b
      | |- keeping (match ?x with _ => _ end) => destruct x
      end ].

Lemma keeping_resume q : keeping (resume start_on_new_frame q).
Proof.
  unfold resume, run, popfl, on_irq. keep_tac.
Qed.
Hint Resolve keeping_resume : keep.

Lemma keeping_switch at_ q : keeping (switch_to start_on_new_frame at_ q).
Proof.
  unfold switch_to, switch_tasks_impl, on_irq. keep_tac.
Qed.
Hint Resolve keeping_switch : keep.

Lemma keeping_yield at_ : keeping (yield start_on_new_frame at_).
Proof. unfold yield. keep_tac. Qed.
Hint Resolve keeping_yield : keep.

Lemma keeping_delete_finished fuel : ∀ p, keeping (delete_finished fuel p).
Proof.
  induction fuel as [|fuel IH]; intros p; cbn [delete_finished]; [keep_tac|].
  unfold on_finished, on_tasks, Task_delete, on_heap, on_tasks. keep_tac.
Qed.
Hint Resolve keeping_delete_finished : keep.

Lemma keeping_clear_finished fuel : keeping (clear_finished fuel).
Proof.
  induction fuel as [|fuel IH]; cbn [clear_finished]; [keep_tac|].
  unfold on_finished, on_heap. keep_tac.
Qed.
Hint Resolve keeping_clear_finished : keep.

Lemma keeping_for_tasks fuel : ∀ it e, keeping (for_tasks start_on_new_frame fuel it e).
Proof.
  induction fuel as [|fuel IH]; intros it e; cbn [for_tasks]; [keep_tac|].
  unfold on_tasks, should_schedule, on_irq. keep_tac.
Qed.
Hint Resolve keeping_for_tasks : keep.

Lemma keeping_schedule fuel : keeping (schedule_step start_on_new_frame fuel).
Proof.
  assert (He : ∀ b, keeping (end_of_round fuel b)).
  { intros b. unfold end_of_round, handle_finished_tasks, on_irq, on_finished. keep_tac. }
  unfold schedule_step, on_irq, on_tasks. keep_tac.
Qed.

Lemma keeping_handle_exit p : keeping (handle_exit start_on_new_frame p).
Proof. unfold handle_exit, on_irq, on_finished, on_heap. keep_tac. Qed.

(** ** What a test task has printed

    The pairs of time and counter of its iterations. *)
Definition entry (n : Z) (l : Z * message) : option (Z * Z) :=
  match l.2 with Iteration k c => if k =? n then Some (l.1, c) else None | Started _ => None end.
Definition series (n : Z) (out : list (Z * message)) : list (Z * Z) := omap (entry n) out.
Definition count (l : list (Z * Z)) : Z := Z.of_nat (length l).

Lemma series_snoc n out t m : series n (out ++ [(t, m)]) =
  series n out ++ match m with Iteration k c => if k =? n then [(t, c)] else [] | Started _ => [] end.
Proof.
  unfold series. rewrite omap_app. f_equal. unfold entry; cbn. destruct m as [k|k c]; [done|]. by destruct (k =? n).
Qed.

(** Ten ticks of the clock make up the interval of the tasks. *)
Definition interval : Z := 10.
Definition in_time (now : Z) : Prop := now + interval < 2 ^ 32.

Definition spaced (l : list (Z * Z)) : Prop :=
  ∀ i a b, l !! i = Some a → l !! S i = Some b → a.1 + interval ≤ b.1.
Definition rested (l : list (Z * Z)) (t : Z) : Prop := ∀ e, last l = Some e → e.1 + interval ≤ t.

Record series_ok (l : list (Z * Z)) (now : Z) : Prop := {
  so_count : snd <$> l = u32 <$> seqZ 1 (count l);
  so_past : ∀ e, e ∈ l → e.1 ≤ now;
  so_spaced : in_time now → spaced l
}.

Lemma series_ok_nil now : series_ok [] now.
Proof. split; [done|by intros e ?%elem_of_nil|]. intros _ i a b Ha. by rewrite lookup_nil in Ha. Qed.

Lemma series_ok_mono l t t' : t ≤ t' → series_ok l t → series_ok l t'.
Proof.
  intros Ht [H1 H2 H3]. split; [done| |].
  - intros e He. specialize (H2 e He). lia.
  - intros Hi. apply H3. unfold in_time in *. lia.
Qed.

Lemma u32_succ z : u32 (u32 z + 1) = u32 (z + 1).
Proof. unfold u32. apply Zplus_mod_idemp_l. Qed.

Lemma spaced_snoc l e : spaced l → rested l e.1 → spaced (l ++ [e]).
Proof.
  intros Hs Hr i a b Ha Hb. destruct (decide (S i < length l)%nat) as [Hi|Hi].
  - rewrite lookup_app_l in Ha, Hb by lia. by apply (Hs i).
  - pose proof (lookup_lt_Some _ _ _ Hb) as Hlt. rewrite length_app in Hlt. cbn in Hlt.
    rewrite lookup_app_r in Hb by lia. replace (S i - length l)%nat with 0%nat in Hb by lia. injection Hb as <-.
    rewrite lookup_app_l in Ha by lia. apply Hr. rewrite last_lookup. replace (pred (length l)) with i by lia. done.
Qed.

Lemma series_grow l now : series_ok l now → (in_time now → rested l now) →
  series_ok (l ++ [(now, u32 (u32 (count l) + 1))]) now.
Proof.
  intros [H1 H2 H3] Hr. split.
  - unfold count in *. rewrite fmap_app, H1, length_app, Nat2Z.inj_add. cbn [length fmap list_fmap snd].
    rewrite u32_succ, seqZ_app by lia. rewrite fmap_app. f_equal. change (Z.of_nat 1) with 1.
    rewrite seqZ_cons by lia. cbn. by rewrite (Z.add_comm 1).
  - intros e [He|He]%elem_of_app; [by apply H2|]. apply list_elem_of_singleton in He as ->. done.
  - intros Hi. apply spaced_snoc; auto.
Qed.

(** ** Where a task may stand, given what it has printed *)
Definition code_ok (n : Z) (c : code) (l : list (Z * Z)) (now : Z) : Prop :=
  match c with
  | TestEntry => l = []
  | TestTop k counter i => k = n ∧ counter = u32 (count l) ∧ (in_time now → rested l now) ∧
      (is_odd n = false → i = count l ∧ count l ≤ test_iterations)
  | TestSleepCall k counter i => k = n ∧ counter = u32 (count l) ∧
      (is_odd n = false → i + 1 = count l ∧ count l ≤ test_iterations)
  | TestSleep k counter i e => k = n ∧ counter = u32 (count l) ∧ (in_time now → rested l e) ∧
      (is_odd n = false → i + 1 = count l ∧ count l ≤ test_iterations)
  | RoutineReturned => is_odd n = false ∧ count l = test_iterations
  | _ => False
  end.

Lemma code_ok_mono n c l t t' : t ≤ t' → code_ok n c l t → code_ok n c l t'.
Proof.
  intros Ht. assert (Hi : in_time t' → in_time t) by (unfold in_time; lia).
  destruct c; cbn; intros H; destruct_and?; split_and?; auto.
  intros Hi' e He. specialize (H1 (Hi Hi') e He). lia.
Qed.

Lemma code_ok_bound n c l now : code_ok n c l now → is_odd n = false → count l ≤ test_iterations.
Proof.
  destruct c; cbn; try done; [by intros ->|..]; [intros (_ & _ & _ & He) Ho|intros (_ & _ & He) Ho|
    intros (_ & _ & _ & He) Ho|intros [_ ->] _; done]; by apply He.
Qed.

(** The main task, and how many tasks it has created. *)
Definition main_ok (k : Z) (c : code) : Prop :=
  match c with
  | MainTop i => i = k ∧ 0 ≤ i ≤ tasks_count
  | MainSleepCall i | MainSleep i _ => i + 1 = k ∧ 0 ≤ i < tasks_count
  | MainIdle => k = tasks_count
  | _ => False
  end.

Lemma main_ok_in k c : main_ok k c → in_main c = true.
Proof. by destruct c. Qed.
Lemma code_ok_in n c l t : code_ok n c l t → in_main c = false.
Proof. by destruct c. Qed.

(** ** The invariant of the whole

    [m]: the main task, [k]: how many test tasks it has created. *)
Definition is_test (m : Z) (s : st) (p : Z) (T : Task) : Prop :=
  task_objects s !! p = Some T ∧ p ≠ _scheduler_task s ∧ p ≠ m.

Record tasks_inv (m k : Z) (y : system) : Prop := {
  ti_clock : jiffies y = u32 (now y) ∧ 0 ≤ now y;
  ti_main : m ≠ _scheduler_task (sched y) ∧ ∃ T c, task_objects (sched y) !! m = Some T ∧ _exited T = false ∧
    progress y !! m = Some c ∧ main_ok k c;
  ti_test : ∀ p T, is_test m (sched y) p T → ∃ n c, ints y !! _arg T = Some n ∧ progress y !! p = Some c ∧
    code_ok n c (series n (output y)) (now y) ∧ (_exited T = true → c = RoutineReturned);
  ti_ints : ∀ a n, ints y !! a = Some n → 0 ≤ n < k;
  ti_created : ∀ n, 0 ≤ n < k → ∃ a, ints y !! a = Some n;
  ti_inj : ∀ a b n, ints y !! a = Some n → ints y !! b = Some n → a = b;
  ti_args : ∀ p q T U, is_test m (sched y) p T → is_test m (sched y) q U → _arg T = _arg U → p = q;
  ti_all : ∀ n, 0 ≤ n < k → (∃ p T, is_test m (sched y) p T ∧ ints y !! _arg T = Some n) ∨
    (is_odd n = false ∧ count (series n (output y)) = test_iterations);
  ti_none : ∀ n, ¬ 0 ≤ n < k → series n (output y) = [];
  ti_series : ∀ n, series_ok (series n (output y)) (now y)
}.

(** A step of the scheduler's world: tasks keep their identity, and those that go
    away have exited. *)
Lemma inv_frame m k y s' : tasks_inv m k y → keeps (sched y) s' → _scheduler_task s' = _scheduler_task (sched y) →
  (∀ p T, task_objects (sched y) !! p = Some T → task_objects s' !! p = None → _exited T = true) →
  tasks_inv m k (put_sched s' y).
Proof.
  intros [] Hkeep Hsch Hgone.
  assert (Hback : ∀ p T', is_test m s' p T' → ∃ T, is_test m (sched y) p T ∧ same_task T T').
  { intros p T' (HT' & Hp & Hm). destruct (Hkeep p T' HT') as (T & HT & E). exists T. split; [|done].
    split_and!; [done|congruence|done]. }
  split; cbn [sched jiffies now ints progress output put_sched]; try done.
  - destruct ti_main0 as (Hm & T & c & HT & Hx & Hc & Hok). split; [congruence|].
    destruct (task_objects s' !! m) as [T'|] eqn:HT'; [|by rewrite (Hgone m T HT HT') in Hx].
    destruct (Hkeep m T' HT') as (T0 & HT0 & _ & _ & Ex & _). exists T', c. split_and!; try done. congruence.
  - intros p T' (T & HT & _ & Ea & Ex & _)%Hback. destruct (ti_test0 p T HT) as (n & c & Hn & Hc & Hok & Hr).
    exists n, c. rewrite Ea, Ex. done.
  - intros p q T' U' (T & HT & _ & Ea & _)%Hback (U & HU & _ & Eb & _)%Hback E. apply (ti_args0 p q T U); congruence.
  - intros n Hn. destruct (ti_all0 n Hn) as [(p & T & Ht & Ha)|]; [|by right].
    destruct (task_objects s' !! p) as [T'|] eqn:HT'.
    + left. exists p, T'. destruct (Hkeep p T' HT') as (T0 & HT0 & _ & Ea & _). destruct Ht as (HT & Hp & Hm).
      split; [split_and!; [done|congruence|done]|]. rewrite Ea. congruence.
    + right. pose proof Ht as (HT & _). destruct (ti_test0 p T Ht) as (n' & c & Hn' & _ & Hok & Hr).
      rewrite Ha in Hn'. injection Hn' as <-. by rewrite (Hr (Hgone p T HT HT')) in Hok.
Qed.

(** The main task goes to another point. *)
Lemma inv_main_code m k y c : tasks_inv m k y → main_ok k c →
  tasks_inv m k (mkSystem (sched y) (jiffies y) (now y) (ints y) (<[m := c]> (progress y)) (output y)).
Proof.
  intros [] Hok. split; cbn [sched jiffies now ints progress output]; try done.
  - destruct ti_main0 as (Hm & T & c0 & HT & Hx & _). split; [done|]. exists T, c.
    rewrite lookup_insert_eq. done.
  - intros p T Ht. destruct (ti_test0 p T Ht) as (n & c' & H). exists n, c'.
    rewrite lookup_insert_ne; [done|]. by destruct Ht as (_ & _ & ?).
Qed.

(** A test task goes to another point, and may print one of its own lines. *)
Definition own_lines (n t : Z) (ls : list (Z * message)) : Prop :=
  ls = [] ∨ (∃ j, ls = [(t, Started j)]) ∨ (∃ c, ls = [(t, Iteration n c)]).

Lemma own_series n j t ls out : own_lines n t ls → j ≠ n → series j (out ++ ls) = series j out.
Proof.
  intros [->|[(i & ->)|(c & ->)]] Hj; [by rewrite app_nil_r|by rewrite series_snoc, app_nil_r|].
  rewrite series_snoc. destruct (Z.eqb_spec n j); [congruence|]. by rewrite app_nil_r.
Qed.

Lemma inv_test_code m k y p T n c ls : tasks_inv m k y → is_test m (sched y) p T →
  ints y !! _arg T = Some n → _exited T = false → own_lines n (now y) ls →
  code_ok n c (series n (output y ++ ls)) (now y) → series_ok (series n (output y ++ ls)) (now y) →
  tasks_inv m k (mkSystem (sched y) (jiffies y) (now y) (ints y) (<[p := c]> (progress y)) (output y ++ ls)).
Proof.
  intros [] Ht Hn Hx Hown Hok Hser. pose proof Ht as (HT & Hps & Hpm).
  split; cbn [sched jiffies now ints progress output]; try done.
  - destruct ti_main0 as (Hm & U & c0 & HU & Hxu & Hc & Hk). split; [done|]. exists U, c0.
    by rewrite lookup_insert_ne by congruence.
  - intros q U Hq. destruct (decide (q = p)) as [->|Hne].
    + destruct Hq as (HU & _). rewrite HT in HU. injection HU as <-. exists n, c.
      rewrite lookup_insert_eq. split_and!; try done. by rewrite Hx.
    + destruct (ti_test0 q U Hq) as (j & d & Hj & Hd & Hjok & Hjx). exists j, d.
      rewrite lookup_insert_ne by done. rewrite (own_series n j (now y)); [done|done|]. intros ->.
      by apply Hne, (ti_args0 q p U T Hq Ht), (ti_inj0 _ _ n).
  - intros j Hj. destruct (ti_all0 j Hj) as [?|[Hodd Hc]]; [by left|]. destruct (decide (j = n)) as [->|Hne].
    + left. by exists p, T.
    + right. by rewrite (own_series n j (now y)).
  - intros j Hj. rewrite (own_series n j (now y)); [by apply ti_none0|done|]. intros ->. apply Hj. by eapply ti_ints0.
  - intros j. destruct (decide (j = n)) as [->|Hne]; [done|]. rewrite (own_series n j (now y)) by done. apply ti_series0.
Qed.

(** The routine of a task that has returned is marked as exited. *)
Lemma inv_exited m k y p T : tasks_inv m k y → is_test m (sched y) p T → progress y !! p = Some RoutineReturned →
  tasks_inv m k (put_sched (put_objects (<[p := set_exited T]> (task_objects (sched y))) (sched y)) y).
Proof.
  intros [] Ht Hret. pose proof Ht as (HT & Hps & Hpm).
  set (s' := put_objects _ _).
  assert (Hback : ∀ q U', is_test m s' q U' → ∃ U, is_test m (sched y) q U ∧ _arg U' = _arg U ∧
    (_exited U' = true → _exited U = true ∨ q = p)).
  { intros q U' (HU' & Hq & Hqm). cbn in HU', Hq. destruct (decide (q = p)) as [->|Hne].
    - rewrite lookup_insert_eq in HU'. injection HU' as <-. exists T. auto.
    - rewrite lookup_insert_ne in HU' by done. exists U'. split_and!; auto. split_and!; done. }
  split; cbn [sched jiffies now ints progress output put_sched]; try done.
  - destruct ti_main0 as (Hm & U & c0 & HU & H). split; [done|]. exists U, c0. cbn.
    by rewrite lookup_insert_ne by congruence.
  - intros q U' (U & HU & Ea & Ex)%Hback. destruct (ti_test0 q U HU) as (n & c & Hn & Hc & Hok & Hr).
    exists n, c. rewrite Ea. split_and!; try done. intros [Hx| ->]%Ex; [by apply Hr|congruence].
  - intros q r U' V' (U & HU & Ea & _)%Hback (V & HV & Eb & _)%Hback E. apply (ti_args0 q r U V); congruence.
  - intros n Hn. destruct (ti_all0 n Hn) as [(q & U & (HU & Hq & Hqm) & Ha)|]; [left|by right].
    destruct (decide (q = p)) as [->|Hne].
    + exists p, (set_exited T). rewrite HT in HU. injection HU as <-. split; [|done].
      split_and!; [cbn; by rewrite lookup_insert_eq|done..].
    + exists q, U. split; [|done]. split_and!; [cbn; by rewrite lookup_insert_ne|done..].
Qed.

(** The main task has created the next test task. *)
Lemma inv_created m k y s' ia new T : tasks_inv m k y → 0 ≤ k < tasks_count →
  task_objects s' = <[new := T]> (task_objects (sched y)) → _scheduler_task s' = _scheduler_task (sched y) →
  new ∉ dom (task_objects (sched y)) → ia ∉ dom (ints y) → new ≠ _scheduler_task (sched y) →
  _arg T = ia → _exited T = false →
  tasks_inv m (k + 1) (mkSystem s' (jiffies y) (now y) (<[ia := k]> (ints y))
    (<[m := MainSleepCall k]> (<[new := TestEntry]> (progress y))) (output y)).
Proof.
  intros [] Hk Hobj Hsch Hnew Hint Hns Harg Hx.
  assert (Hm : m ≠ new).
  { destruct ti_main0 as (_ & U & _ & HU & _). intros ->. apply Hnew. by apply elem_of_dom_2 in HU. }
  assert (Hback : ∀ q U, is_test m s' q U → q = new ∧ U = T ∨ q ≠ new ∧ is_test m (sched y) q U).
  { intros q U (HU & Hq & Hqm). rewrite Hobj in HU. rewrite Hsch in Hq.
    apply lookup_insert_Some in HU as [[<- <-]|[Hne HU]]; [by left|right]. split; [done|]. by split_and!. }
  assert (Hold : ∀ b n, ints y !! b = Some n → <[ia := k]> (ints y) !! b = Some n).
  { intros b n Hb. rewrite lookup_insert_ne; [done|]. intros <-. apply Hint. by apply elem_of_dom_2 in Hb. }
  split; cbn [sched jiffies now ints progress output]; try done.
  - destruct ti_main0 as (Hms & U & c & HU & Hxu & _). split; [congruence|]. exists U, (MainSleepCall k).
    rewrite Hobj, lookup_insert_ne, lookup_insert_eq by done. split_and!; try done.
  - intros q U [[-> ->]|[Hne Hq]]%Hback.
    + exists k, TestEntry. rewrite Harg, lookup_insert_eq, lookup_insert_ne, lookup_insert_eq by done.
      split_and!; try done; [|congruence]. cbn. apply ti_none0. lia.
    + destruct (ti_test0 q U Hq) as (n & c & Hn & Hc & H). exists n, c. destruct Hq as (_ & _ & Hqm).
      split; [by apply Hold|]. split; [by rewrite !lookup_insert_ne by done|done].
  - intros b n [[<- <-]|[_ Hb]]%lookup_insert_Some; [lia|]. specialize (ti_ints0 b n Hb). lia.
  - intros n Hn. destruct (decide (n = k)) as [->|Hne]; [exists ia; apply lookup_insert_eq|].
    destruct (ti_created0 n ltac:(lia)) as [b Hb]. exists b. by apply Hold.
  - intros b c n [[<- <-]|[_ Hb]]%lookup_insert_Some [[<- E]|[_ Hc]]%lookup_insert_Some; try done.
    + specialize (ti_ints0 c k Hc). lia.
    + subst n. specialize (ti_ints0 b k Hb). lia.
    + by apply (ti_inj0 b c n).
  - intros q r U V [[-> ->]|[Hne Hq]]%Hback [[-> ->]|[Hne' Hr]]%Hback E; try done.
    + destruct (ti_test0 r V Hr) as (n & c & Hn & _). exfalso. apply Hint, elem_of_dom. exists n. congruence.
    + destruct (ti_test0 q U Hq) as (n & c & Hn & _). exfalso. apply Hint, elem_of_dom. exists n. congruence.
    + by apply (ti_args0 q r U V).
  - intros n Hn. destruct (decide (n = k)) as [->|Hne].
    + left. exists (new), T. rewrite Harg, lookup_insert_eq. split; [|done].
      split_and!; [by rewrite Hobj, lookup_insert_eq|congruence|congruence].
    + destruct (ti_all0 n ltac:(lia)) as [(q & U & (HU & Hq & Hqm) & Ha)|]; [left|by right].
      exists q, U. split; [|by apply Hold]. split_and!; [|congruence|done].
      rewrite Hobj, lookup_insert_ne; [done|]. intros <-. apply Hnew. by apply elem_of_dom_2 in HU.
  - intros n Hn. apply ti_none0. lia.
Qed.

(** ** A turn of the running task *)
Definition sys_inv (m : Z) (y : system) : Prop := ∃ k ts fin al os, tasks_inv m k y ∧
  sched_inv start_on_new_frame (sched y) ts fin al os ∧ ints_owned y os.

Lemma on_sched_done {A} (q : prog st A) y a s' : q (sched y) = Done (a, s') → on_sched q y = Done (a, put_sched s' y).
Proof. intros E. unfold on_sched, zoom. by rewrite E. Qed.

Lemma put_sched_id y : put_sched (sched y) y = y.
Proof. by destruct y. Qed.

Lemma still_there s s' ts fin fin' al al' os os' p T : sched_inv start_on_new_frame s ts fin al os →
  sched_inv start_on_new_frame s' ts fin' al' os' → task_objects s !! p = Some T → task_objects s' !! p = None → False.
Proof.
  intros H H' HT HN. apply elem_of_dom_2 in HT. apply not_elem_of_dom in HN. apply HN.
  rewrite (st_objects _ _ _ _ _ (si_static _ _ _ _ _ _ H')). by rewrite <- (st_objects _ _ _ _ _ (si_static _ _ _ _ _ _ H)).
Qed.

Lemma turn_yield m y : sys_inv m y → _current (sched y) ≠ _scheduler_task (sched y) →
  ∃ s', on_sched (yield start_on_new_frame InRoutine) y = Done (tt, put_sched s' y) ∧ sys_inv m (put_sched s' y).
Proof.
  intros (k & ts & fin & al & os & Ht & H & Hi) Hne.
  destruct (inv_yield start_on_new_frame (sched y) ts fin al os H Hne) as (s' & E & H' & _ & Hs & _).
  exists s'. split; [by apply on_sched_done|]. exists k, ts, fin, al, os. split; [|done].
  apply inv_frame; try done; [by eapply keeping_yield|]. intros p T HT HN.
  by destruct (still_there _ _ _ _ _ _ _ _ _ p T H H' HT HN).
Qed.

Lemma begin_sleep_done m ms y : sys_inv m y →
  begin_sleep ms y = Done (u32 (jiffies y + ms_to_ticks ms), y).
Proof.
  intros (k & ts & fin & al & os & Ht & H & _). pose proof (si_irqs _ _ _ _ _ _ H) as Hi. unfold irqs_on in Hi.
  unfold begin_sleep. rewrite (bind_done _ _ y true y); [done|].
  rewrite (on_sched_done _ y true (sched y)); [by rewrite put_sched_id|].
  unfold on_irq, zoom. rewrite Hi. destruct (sched y); cbn in *. by subst.
Qed.

(** A turn ends well, or in a [new] without memory. *)
Definition turn_ok (m : Z) (o : outcome (unit * system)) : Prop :=
  match o with Done (_, y') => sys_inv m y' | Fault msg => out_of_memory msg | Panic _ | Fuel => False end.

(** The main task creates the next test task. *)
Definition created_system (m k : Z) (s' : st) (ia new : Z) (y : system) : system :=
  mkSystem s' (jiffies y) (now y) (<[ia := k]> (ints y))
    (<[m := MainSleepCall k]> (<[new := TestEntry]> (progress y))) (output y).

Lemma create_test_task_done m k y ts fin al os flags : 0 ≤ start_on_new_frame < 2 ^ 32 →
  sched_inv start_on_new_frame (sched y) ts fin al os → ints_owned y os →
  _current (sched y) ≠ _scheduler_task (sched y) →
  (∃ msg, (create_test_task flags k ;; set_code m (MainSleepCall k)) y = Fault msg ∧ out_of_memory msg) ∨
  ∃ ia w new s1 al' os' T, let s0 := put_heap w (sched y) in
    (create_test_task flags k ;; set_code m (MainSleepCall k)) y = Done (tt, created_system m k s1 ia new y) ∧
    sched_step start_on_new_frame (sched y) s0 ∧ sched_step start_on_new_frame s0 s1 ∧
    sched_inv start_on_new_frame s1 (insert_task new ts) fin al' os' ∧
    ints_owned (created_system m k s1 ia new y) os' ∧ same_rest s0 s1 ∧
    task_objects s1 = <[new := T]> (task_objects (sched y)) ∧ new ∉ dom (task_objects (sched y)) ∧
    ia ∉ dom (ints y) ∧ _arg T = ia ∧ _exited T = false.
Proof.
  intros Hstart H Hi Hne. unfold create_test_task, new_int. rewrite !bind_bind.
  pose proof (st_heap _ _ _ _ _ (si_static _ _ _ _ _ _ H)) as Hheap.
  destruct (new_object_done _ al os int_size Hheap) as [E|(ia & w & E & Hia & Hw & Hm)]; [unfold int_size; lia|left|].
  { exists null_object. split; [|by left]. unfold on_sched, on_heap, zoom, mbind, prog_bind. by rewrite E. }
  rewrite (bind_done _ _ y ia (put_sched (put_heap w (sched y)) y)).
  2:{ apply on_sched_done. unfold on_heap. by rewrite (zoom_done _ _ _ _ _ _ E). }
  assert (Hint : ia ∉ dom (ints y)).
  { intros [n Hn]%elem_of_dom. specialize (Hi ia n Hn). congruence. }
  set (s0 := put_heap w (sched y)).
  assert (Hown : owned (sched y) al (<[ia := int_size]> os)) by (apply owned_insert; [by eapply inv_owned|done]).
  assert (Hfr : frames_kept (sched y) w) by (eapply held_frames; [apply H|done]).
  assert (H1 : sched_inv start_on_new_frame s0 ts fin al (<[ia := int_size]> os)) by
    by apply (inv_memory start_on_new_frame (sched y) ts fin al os).
  rewrite !bind_bind, modify_bind, ret_bind. cbn [sched jiffies now ints progress output put_sched].
  set (y1 := mkSystem s0 (jiffies y) (now y) (<[ia := k]> (ints y)) (progress y) (output y)).
  destruct (inv_create start_on_new_frame s0 ts fin al _ flags test_task ia test_task_name Hstart H1) as
    [(msg & Ec & Hmsg)|(new & stack & s' & Ec & Hnos & Hnew & H' & Hrest & Ho)]; [done|left|right].
  { exists msg. split; [|done]. unfold on_sched, zoom, mbind, prog_bind. cbn [sched y1]. by rewrite Ec. }
  rewrite ?bind_bind, (bind_done _ _ _ _ _ (on_sched_done _ y1 _ _ Ec)).
  match type of Ho with _ = <[_ := ?x]> _ => set (T := x) in * end.
  eexists ia, w, new, s', _, _, T. split; [reflexivity|]. split; [by apply (step_memory _ _ w al (<[ia := int_size]> os))|].
  split; [by eapply step_create|]. split; [exact H'|]. split; [|by split_and!].
  intros a n Ha. cbn in Ha.
  assert (Hna : a ≠ new).
  { intros ->. apply lookup_insert_Some in Ha as [[-> _]|[Hne' Ha]]; [by rewrite lookup_insert_eq in Hnos|].
    rewrite lookup_insert_ne in Hnos by done. specialize (Hi _ _ Ha). congruence. }
  rewrite lookup_insert_ne by done.
  apply lookup_insert_Some in Ha as [[<- _]|[Hne' Ha]]; [by rewrite lookup_insert_eq|].
  rewrite lookup_insert_ne by done. by eapply Hi.
Qed.

Lemma create_test_task_inv m k y ts fin al os flags : 0 ≤ start_on_new_frame < 2 ^ 32 →
  tasks_inv m k y → sched_inv start_on_new_frame (sched y) ts fin al os → ints_owned y os →
  _current (sched y) = m → 0 ≤ k < tasks_count →
  turn_ok m ((create_test_task flags k ;; set_code m (MainSleepCall k)) y).
Proof.
  intros Hstart Ht H Hi Hcur Hk. pose proof (ti_main _ _ _ Ht) as (Hms & _).
  destruct (create_test_task_done m k y ts fin al os flags Hstart H Hi) as
    [(msg & -> & Hmsg)|(ia & w & new & s1 & al' & os' & T & -> & _ & _ & H' & Hi' & (_ & _ & Hs & _) & Ho & Hnew & Hint & Ha & Hx)];
    [congruence|done|]. exists (k + 1), (insert_task new ts), fin, al', os'. split; [|done].
  apply (inv_created m k y s1 ia new T); try done.
  intros Es. apply Hnew. destruct (si_remaining _ _ _ _ _ _ H) as (cs & U & HU & _). rewrite Es.
  by apply elem_of_dom_2 in HU.
Qed.

Lemma main_turn_inv m y flags c : 0 ≤ start_on_new_frame < 2 ^ 32 → sys_inv m y →
  _current (sched y) = m → progress y !! m = Some c → turn_ok m (main_turn flags m c y).
Proof.
  intros Hstart Hinv Hcur Hc. pose proof Hinv as (k & ts & fin & al & os & Ht & H & Hi).
  pose proof (ti_main _ _ _ Ht) as (Hms & T & c0 & HT & Hx & Hc0 & Hok).
  replace c0 with c in * by congruence. clear c0 Hc0.
  assert (Hgo : ∀ c', main_ok k c' → sys_inv m
    (mkSystem (sched y) (jiffies y) (now y) (ints y) (<[m := c']> (progress y)) (output y))).
  { intros c' Hc'. exists k, ts, fin, al, os. split; [by apply inv_main_code|done]. }
  destruct c as [i|i|i e| | | | | |]; try done; cbn [main_turn] in *.
  - destruct Hok as [-> Hk]. destruct (Z.ltb_spec k tasks_count) as [Hlt|Hge].
    + apply (create_test_task_inv m k y ts fin al os); (done || lia).
    + apply Hgo. cbn. lia.
  - rewrite (bind_done _ _ _ _ _ (begin_sleep_done m _ y Hinv)). by apply Hgo.
  - unfold sleep_turn. rewrite gets_bind. destruct (jiffies y <? e).
    + destruct (turn_yield m y Hinv) as (s' & E & H'); [congruence|]. by rewrite E.
    + apply Hgo. cbn in *. lia.
  - destruct (turn_yield m y Hinv) as (s' & E & H'); [congruence|]. by rewrite E.
Qed.

Lemma ticks_of_interval : ms_to_ticks sleep_interval = interval.
Proof. reflexivity. Qed.

(** The end of a sleep, and what is known behind it, as long as the clock does not wrap. *)
Lemma rested_end l j t : series_ok l t → 0 ≤ t → in_time t → j = u32 t → rested l (u32 (j + ms_to_ticks sleep_interval)).
Proof.
  intros Hs Ht Hi ->. unfold in_time in Hi. rewrite ticks_of_interval. unfold interval in *.
  rewrite (u32_small t), u32_small by lia. intros e He.
  pose proof (so_past _ _ Hs e (last_Some_elem_of _ _ He)). unfold interval. lia.
Qed.

Lemma rested_awake l e j t : 0 ≤ t → in_time t → j = u32 t → (j <? e) = false → rested l e → rested l t.
Proof.
  intros Ht Hi -> He Hr x Hx. unfold in_time, interval in Hi. rewrite u32_small in He by lia.
  specialize (Hr x Hx). lia.
Qed.

(** A test task leaves its routine for good. *)
Lemma exit_inv m y p : sys_inv m y → _current (sched y) = p → p ≠ _scheduler_task (sched y) → p ≠ m →
  progress y !! p = Some RoutineReturned → turn_ok m (on_sched (exit_task start_on_new_frame) y).
Proof.
  intros (k & ts & fin & al & os & Ht & H & Hi) Hcur Hps Hpm Hc.
  destruct (si_current _ _ _ _ _ _ H) as (T & HT & Hx). rewrite Hcur in HT.
  destruct (inv_exit start_on_new_frame (sched y) ts fin al os H ltac:(congruence))
    as [E|(s' & q & E & Hq & H' & _ & _ & Hs' & _)].
  { unfold on_sched, zoom. rewrite E. by left. }
  rewrite (on_sched_done _ _ _ _ E). eexists k, ts, _, al, _. split; [|split; [exact H'|]].
  - set (s1 := put_objects (<[p := set_exited T]> (task_objects (sched y))) (sched y)).
    assert (E1 : handle_exit start_on_new_frame p s1 = Done (tt, s')).
    { unfold exit_task in E. rewrite gets_bind, Hcur, (bind_done _ _ _ _ _ (update_task_done _ _ _ _ HT)) in E. exact E. }
    change (put_sched s' y) with (put_sched s' (put_sched s1 y)).
    apply inv_frame; [by apply inv_exited|by eapply keeping_handle_exit|done|].
    cbn. intros u U HU HN. destruct (decide (u = p)) as [->|Hne].
    + by destruct (still_there _ _ _ _ _ _ _ _ _ p T H H' HT HN).
    + rewrite lookup_insert_ne in HU by done. by destruct (still_there _ _ _ _ _ _ _ _ _ u U H H' HU HN).
  - intros a n Ha. cbn in Ha. specialize (Hi a n Ha). by rewrite lookup_insert_ne by congruence.
Qed.

Lemma test_turn_inv m y p c : sys_inv m y → _current (sched y) = p → p ≠ _scheduler_task (sched y) → p ≠ m →
  progress y !! p = Some c → in_main c = false ∧ turn_ok m (test_turn p c y).
Proof.
  intros Hinv Hcur Hps Hpm Hc. pose proof Hinv as (k & ts & fin & al & os & Ht & H & Hi).
  destruct (si_current _ _ _ _ _ _ H) as (T & HT & Hx). rewrite Hcur in HT.
  assert (Htest : is_test m (sched y) p T) by done.
  destruct (ti_test _ _ _ Ht p T Htest) as (n & c0 & Hn & Hc0 & Hok & _).
  replace c0 with c in * by congruence. clear c0 Hc0. split; [by eapply code_ok_in|].
  pose proof (ti_series _ _ _ Ht n) as Hser. destruct (ti_clock _ _ _ Ht) as [Hj Hnow].
  assert (Hgo : ∀ c' ls, own_lines n (now y) ls → code_ok n c' (series n (output y ++ ls)) (now y) →
    series_ok (series n (output y ++ ls)) (now y) → sys_inv m
      (mkSystem (sched y) (jiffies y) (now y) (ints y) (<[p := c']> (progress y)) (output y ++ ls))).
  { intros c' ls Hown Hc' Hs'. exists k, ts, fin, al, os. split; [|done]. by apply (inv_test_code m k y p T n). }
  assert (Hstay : ∀ c', code_ok n c' (series n (output y)) (now y) → sys_inv m
      (mkSystem (sched y) (jiffies y) (now y) (ints y) (<[p := c']> (progress y)) (output y))).
  { intros c' Hc'. specialize (Hgo c' []). rewrite app_nil_r in Hgo. apply Hgo; [by left|done|done]. }
  destruct c as [i|i|i e| | |j ctr i|j ctr i|j ctr i e|]; try done; cbn [test_turn code_ok] in *.
  - rewrite (bind_done _ _ y T y).
    2:{ rewrite (on_sched_done _ y T (sched y)) by by apply task_at_done. by rewrite put_sched_id. }
    rewrite (bind_done _ _ y n y) by (unfold read_int; by rewrite Hn).
    apply Hgo; [right; left; by eexists| |];
      rewrite series_snoc, app_nil_r, Hok; [|apply series_ok_nil]. cbn. split_and!; try done.
  - destruct Hok as (-> & -> & Hr & He). destruct (is_odd n || (i <? test_iterations)) eqn:Eb.
    + apply Hgo; [right; right; by eexists| |];
        rewrite series_snoc, Z.eqb_refl; [|by apply series_grow]. cbn.
      unfold count. rewrite length_app, Nat2Z.inj_add. cbn [length]. rewrite u32_succ. split_and!; try done.
      intros Ho. rewrite Ho in Eb. cbn in Eb. destruct (He Ho) as [-> ?]. unfold count in *. lia.
    + apply orb_false_elim in Eb as [Ho Ei]. apply Hstay. cbn.
      destruct (He Ho) as [-> ?]. split; [done|lia].
  - destruct Hok as (-> & -> & He). rewrite (bind_done _ _ _ _ _ (begin_sleep_done m _ y Hinv)).
    apply Hstay. cbn. split_and!; try done. intros Hin. by apply (rested_end _ _ (now y)).
  - destruct Hok as (-> & -> & Hr & He). unfold sleep_turn. rewrite gets_bind. destruct (jiffies y <? e) eqn:Ej.
    + destruct (turn_yield m y Hinv) as (s' & E & H'); [congruence|]. by rewrite E.
    + apply Hstay. cbn. split_and!; try done.
      * intros Hin. apply (rested_awake _ e (jiffies y)); auto.
      * intros Ho. rewrite Ho. by apply He.
  - by apply (exit_inv m y p).
Qed.

(** ** Every step of the system *)
Lemma run_task_inv m y flags : 0 ≤ start_on_new_frame < 2 ^ 32 → sys_inv m y →
  _current (sched y) ≠ _scheduler_task (sched y) → turn_ok m (run_task flags y).
Proof.
  intros Hstart Hinv Hne. pose proof Hinv as (k & ts & fin & al & os & Ht & H & _).
  unfold run_task. rewrite !gets_bind. destruct (decide (_current (sched y) = m)) as [Hm|Hm].
  - pose proof (ti_main _ _ _ Ht) as (_ & T & c & _ & _ & Hc & Hok). rewrite Hm, Hc, (main_ok_in k) by done.
    by apply main_turn_inv.
  - destruct (si_current _ _ _ _ _ _ H) as (T & HT & _).
    destruct (ti_test _ _ _ Ht (_current (sched y)) T) as (n & c & _ & Hc & _ & _); [done|]. rewrite Hc.
    destruct (test_turn_inv m y _ c Hinv eq_refl Hne Hm Hc) as [-> H']. done.
Qed.

Lemma tick_inv m y : sys_inv m y → sys_inv m (tick y).
Proof.
  intros (k & ts & fin & al & os & [] & H). exists k, ts, fin, al, os. split; [|done].
  split; unfold tick; cbn [sched jiffies now ints progress output]; try done.
  - destruct ti_clock0 as [-> ?]. split; [|lia]. apply u32_succ.
  - intros p T Ht. destruct (ti_test0 p T Ht) as (n & c & Hn & Hc & Hok & Hx). exists n, c. split_and!; try done.
    apply (code_ok_mono n c _ (now y)); [lia|done].
  - intros n. apply (series_ok_mono _ (now y)); [lia|done].
Qed.

(** Tasks that a stretch of the scheduler removes have exited. *)
Lemma schedule_removes s ts fin al os fuel s' p T : sched_inv start_on_new_frame s ts fin al os →
  _current s = _scheduler_task s → (size (task_objects s) < fuel)%nat →
  schedule_step start_on_new_frame fuel s = Done (tt, s') →
  _scheduler_task s' = _scheduler_task s ∧
  (task_objects s !! p = Some T → task_objects s' !! p = None → _exited T = true).
Proof.
  intros H Hcur Hf E. rewrite (static_size start_on_new_frame _ _ _ _ (si_static _ _ _ _ _ _ H)) in Hf.
  destruct (si_remaining _ _ _ _ _ _ H) as [cs Hcs].
  destruct (inv_schedule_step start_on_new_frame s ts fin al os cs fuel H Hcur Hcs Hf) as
    [(sk & c & l2 & s1 & _ & _ & _ & E1 & H1 & _ & _ & Hs)|
     (_ & s1 & al1 & os1 & E1 & H1 & _ & _ & Hs & _ & _ & _ & Hobj)];
    replace s1 with s' in * by congruence; (split; [done|]); intros HT HN.
  - by destruct (still_there _ _ _ _ _ _ _ _ _ p T H H1 HT HN).
  - apply Hobj in HN as [Hp|HN]; [|congruence]. destruct (si_fin _ _ _ _ _ _ H p Hp) as (U & HU & Hx). congruence.
Qed.

(** The objects of the others survive the end of a round. *)
Lemma round_keeps_ints s ts fin al os os' y : sched_inv start_on_new_frame s ts fin al os → round_freed s fin os os' →
  ints_owned y os → ints_owned y os'.
Proof.
  intros H Hr Hi a n Ha. specialize (Hi a n Ha). rewrite Hr, decide_False; [done|]. intros [Hin|Hin].
  - pose proof (st_memory _ _ _ _ _ (si_static _ _ _ _ _ _ H) a (fin_in_tasks _ _ _ _ _ _ _ H Hin)) as Hm.
    rewrite Hi in Hm. by injection Hm.
  - pose proof (si_nodes _ _ _ _ _ _ H _ Hin) as Hm. rewrite Z.add_simpl_r, Hi in Hm. by injection Hm.
Qed.

Lemma schedule_inv m y fuel s' : sys_inv m y → _current (sched y) = _scheduler_task (sched y) →
  (size (task_objects (sched y)) < fuel)%nat → schedule_step start_on_new_frame fuel (sched y) = Done (tt, s') →
  sys_inv m (put_sched s' y).
Proof.
  intros (k & ts & fin & al & os & Ht & H & Hi) Hcur Hf E.
  assert (Ht' : tasks_inv m k (put_sched s' y)).
  { apply inv_frame; [done|by eapply keeping_schedule| |].
    - by apply (schedule_removes (sched y) ts fin al os fuel s' 0 (mkTask 0 0 0 false 0 0 Fresh false)).
    - intros p T. by apply (schedule_removes (sched y) ts fin al os fuel s' p T). }
  rewrite (static_size start_on_new_frame _ _ _ _ (si_static _ _ _ _ _ _ H)) in Hf.
  destruct (si_remaining _ _ _ _ _ _ H) as [cs Hcs].
  destruct (inv_schedule_step start_on_new_frame (sched y) ts fin al os cs fuel H Hcur Hcs Hf) as
    [(sk & c & l2 & s1 & _ & _ & _ & E1 & H1 & _)|(_ & s1 & al1 & os1 & E1 & H1 & _ & _ & _ & _ & Hr & _)];
    replace s1 with s' in * by congruence.
  - by exists k, ts, fin, al, os.
  - exists k, (filter (λ u, u ∉ fin) ts), [], al1, os1. split; [done|]. split; [done|].
    by apply (round_keeps_ints (sched y) ts fin al os).
Qed.

Lemma sys_step_inv m y y' : 0 ≤ start_on_new_frame < 2 ^ 32 → sys_step y y' → sys_inv m y → sys_inv m y'.
Proof.
  intros Hstart Hs Hinv.
  destruct Hs as [y|y w al' os' Hw Hown Hints Hm|y fuel s' Hcur Hf E|y flags y' Hcur E].
  - by apply tick_inv.
  - pose proof Hinv as (k & ts & fin & al & os & Ht & H & _). exists k, ts, fin, al', os'.
    split; [|split; [by apply (inv_memory start_on_new_frame (sched y) ts fin al os)|done]].
    apply inv_frame; [done| |done|].
    + intros u T HT. by exists T.
    + intros p T HT HN. cbn in HN. congruence.
  - by eapply schedule_inv.
  - pose proof (run_task_inv m y flags Hstart Hinv Hcur) as H. by rewrite E in H.
Qed.

Lemma sys_reachable m y y' : 0 ≤ start_on_new_frame < 2 ^ 32 → rtc sys_step y y' → sys_inv m y → sys_inv m y'.
Proof. intros Hstart. induction 1 as [|x y z Hs _ IH]; [done|]. intros Hx. apply IH. by eapply sys_step_inv. Qed.

(** The system when the scheduler starts: the main task at its beginning. *)
Definition boot_system (s : st) (m j : Z) : system := mkSystem s (u32 j) j ∅ {[ m := MainTop 0 ]} [].

Lemma boot_inv s ts al os m j : sched_inv start_on_new_frame s ts [] al os → ts = [_scheduler_task s; m] → 0 ≤ j →
  (∀ T, task_objects s !! m = Some T → _exited T = false) → sys_inv m (boot_system s m j).
Proof.
  intros H -> Hj Hx. exists 0, [_scheduler_task s; m], [], al, os. split; [|split; [exact H|by intros a n Ha]].
  pose proof (si_static _ _ _ _ _ _ H) as Hst.
  assert (Hno : ∀ p T, ¬ is_test m s p T).
  { intros p T (HT & Hp & Hm). apply elem_of_dom_2 in HT. rewrite (st_objects _ _ _ _ _ Hst) in HT. set_solver. }
  split; cbn [sched jiffies now ints progress output boot_system]; try done; try (intros; exfalso; by eapply Hno).
  - split.
    + pose proof (st_nodup _ _ _ _ _ Hst) as Hnd. intros ->. apply NoDup_cons in Hnd as [Hnd _]. set_solver.
    + destruct (static_task start_on_new_frame s _ _ _ m Hst ltac:(set_solver)) as (T & HT). exists T, (MainTop 0).
      rewrite lookup_singleton_eq. split_and!; auto. cbn. unfold tasks_count. lia.
  - intros n Hn. lia.
  - intros n Hn. lia.
  - intros n. apply series_ok_nil.
Qed.

(** What the invariant says of the output and of the tasks. *)
Lemma even_bounded m y n : sys_inv m y → is_odd n = false → count (series n (output y)) ≤ test_iterations.
Proof.
  intros (k & ts & fin & al & os & Ht & _) Hodd. destruct (decide (0 ≤ n < k)) as [Hn|Hn].
  - destruct (ti_all _ _ _ Ht n Hn) as [(p & T & HT & Ha)|[_ ->]]; [|done].
    destruct (ti_test _ _ _ Ht p T HT) as (j & c & Hj & _ & Hok & _). rewrite Ha in Hj. injection Hj as <-.
    by eapply code_ok_bound.
  - by rewrite (ti_none _ _ _ Ht n Hn).
Qed.

Lemma test_numbers m y p T : sys_inv m y → is_test m (sched y) p T → ∃ n, ints y !! _arg T = Some n ∧
  0 ≤ n < tasks_count ∧ (_exited T = true → is_odd n = false ∧ count (series n (output y)) = test_iterations).
Proof.
  intros (k & ts & fin & al & os & Ht & _) HT. destruct (ti_test _ _ _ Ht p T HT) as (n & c & Hn & _ & Hok & Hx).
  pose proof (ti_ints _ _ _ Ht _ _ Hn). destruct (ti_main _ _ _ Ht) as (_ & U & c0 & _ & _ & _ & Hk).
  exists n. split; [done|]. split; [destruct c0; cbn in Hk; try done; lia|]. intros E. by rewrite (Hx E) in Hok.
Qed.

Lemma odd_alive m y a n : sys_inv m y → ints y !! a = Some n → is_odd n = true →
  ∃ p T, is_test m (sched y) p T ∧ _arg T = a ∧ _exited T = false.
Proof.
  intros (k & ts & fin & al & os & Ht & _) Ha Hodd.
  destruct (ti_all _ _ _ Ht n (ti_ints _ _ _ Ht _ _ Ha)) as [(p & T & HT & Hn)|[? _]]; [|congruence].
  exists p, T. split; [done|]. split; [by apply (ti_inj _ _ _ Ht _ _ n)|].
  destruct (_exited T) eqn:E; [|done]. destruct (ti_test _ _ _ Ht p T HT) as (j & c & Hj & _ & Hok & Hx).
  rewrite (Hx E) in Hok. destruct Hok as [? _]. congruence.
Qed.
End Tasks.

(** * Properties *)

(** What is promised of a running system, whose main task is [m]. *)
Record system_ok {W} `{KH : KernelHeap W} (start test_task name m : Z) (y : system) : Prop := {
  ok_irqs : irqs (sched y) = mkIrq true true;
  ok_scheduler : _current (sched y) = _scheduler_task (sched y) →
    ∀ fuel, (size (task_objects (sched y)) < fuel)%nat → ∃ s', schedule_step start fuel (sched y) = Done (tt, s');
  ok_task : _current (sched y) ≠ _scheduler_task (sched y) → ∀ flags,
    match run_task start test_task name flags y with
    | Done _ => True | Fault msg => out_of_memory msg | Panic _ | Fuel => False
    end;
  ok_output : ∀ n, let l := series n (output y) in
    snd <$> l = u32 <$> seqZ 1 (count l) ∧ (is_odd n = false → count l ≤ test_iterations) ∧
    (in_time (now y) → spaced l);
  ok_tests : ∀ p T, is_test m (sched y) p T → ∃ n, ints y !! _arg T = Some n ∧ 0 ≤ n < tasks_count ∧
    (_exited T = true → is_odd n = false ∧ count (series n (output y)) = test_iterations);
  ok_odd : ∀ a n, ints y !! a = Some n → is_odd n = true →
    ∃ p T, is_test m (sched y) p T ∧ _arg T = a ∧ _exited T = false
}.

Lemma inv_system_ok {W} `{KH : KernelHeap W} start test_task name m y : 0 ≤ start < 2 ^ 32 →
  sys_inv start m y → system_ok start test_task name m y.
Proof.
  intros Hstart H. pose proof H as (k & ts & fin & al & os & Ht & Hi & _). split.
  - apply (si_irqs _ _ _ _ _ _ Hi).
  - intros Hc fuel Hf. rewrite (static_size start _ _ _ _ (si_static _ _ _ _ _ _ Hi)) in Hf.
    destruct (si_remaining _ _ _ _ _ _ Hi) as [cs Hcs].
    destruct (inv_schedule_step start (sched y) ts fin al os cs fuel Hi Hc Hcs Hf) as
      [(? & ? & ? & s' & ? & ? & ? & E & _)|(? & s' & ? & ? & E & _)]; by exists s'.
  - intros Hc flags. pose proof (run_task_inv start test_task name m y flags Hstart H Hc) as Hr.
    by destruct (run_task start test_task name flags y).
  - intros n. pose proof (ti_series _ _ _ Ht n) as []. split; [done|]. split; [|done].
    intros Hodd. by apply (even_bounded start m y).
  - intros p T HT. by apply (test_numbers start m y p T).
  - intros a n Ha Ho. by apply (odd_alive start m y a n).
Qed.

(** C10: the tasks of the kernel run as [main.cpp] means them to: started on any heap, in every
    state the system reaches, whatever the timer does, wherever tasks lose the processor and
    whatever the rest of the kernel does with the heap, interrupts are on and the task that runs
    goes on, without a panic and without a fault but for a [new] without memory; every test task
    prints its iterations in order, those with an even number five at most, and as long as
    [jiffies] has not wrapped they are at least ten ticks apart; only even tasks that have printed
    all five finish, and every odd one stays alive. *)
Theorem tasks_run {W} `{KH : KernelHeap W} start test_task name routine object_size w al os flags main sched_name
    main_name j
    (Hstart : 0 ≤ start < 2 ^ 32) (Hsize : 1 ≤ object_size ≤ 2 ^ 31) (Hw : heap_rep w al os)
    (Hmain : main ≠ nullptr) (Hj : 0 ≤ j) :
  match init_scheduling start routine object_size flags main sched_name main_name (boot_state w) with
  | Done (_, s0) => ∃ m, dom (task_objects s0) = {[ _scheduler_task s0; m ]} ∧
      ∀ y, rtc (sys_step start test_task name) (boot_system s0 m j) y → system_ok start test_task name m y
  | Fault msg => out_of_memory msg
  | Panic _ | Fuel => False
  end.
Proof.
  destruct (init_done start routine object_size w al os flags main sched_name main_name Hstart Hsize Hw Hmain)
    as [(msg & -> & Hmsg)|(s0 & t1 & t2 & al0 & os0 & -> & H0 & _ & Hs & _ & Hx)]; [done|].
  exists t2. split.
  { apply set_eq. intros t. rewrite (st_objects _ _ _ _ _ (si_static _ _ _ _ _ _ H0)), Hs. set_solver. }
  intros y Hr. apply inv_system_ok; [done|].
  apply (sys_reachable start test_task name t2 _ _ Hstart Hr), (boot_inv start s0 [t1; t2] al0 os0); [done|by rewrite Hs|done|done].
Qed.

Lemma tasks_run_witness :
  match init_scheduling (KH := bump_heap) 77 66 32 0 55 0 0 (boot_state example_heap) with
  | Done (_, s0) => ∃ m, dom (task_objects s0) = {[ _scheduler_task s0; m ]} ∧
      ∀ y, rtc (sys_step (KH := bump_heap) 77 88 0) (boot_system s0 m 1000) y → system_ok (KH := bump_heap) 77 88 0 m y
  | Fault msg => out_of_memory msg
  | Panic _ | Fuel => False
  end.
Proof.
  apply (tasks_run (KH := bump_heap) 77 88 0 66 32 example_heap ∅ ∅ 0 55 0 0 1000);
    [lia|lia|apply example_heap_rep|done|lia].
Defined.
