(* ===== verification/Liveness.v ===== *)
(** * Every task gets its turn

    The scheduler goes round its ring and every round visits each task that has not
    finished ([sched/scheduler.cpp]); [sleep_ms] polls [jiffies] once in each round.  This
    file shows what that means for the tasks of [main.cpp]: in a run of the system that is
    cut into laps, each one over ten ticks and to the end of a round, the main task creates
    a test task in every second lap and every test task prints its next iteration, until
    it has finished. *)
From stdpp Require Import base functions tactics numbers list gmap strings relations.
From S2P Require Import Prelude MemUtils ForwardList CircularList Irq Ports Buddy PageProvider KernelHeap Scheduler Timer Tasks.

Section Liveness.
Context {W : Type} `{KH : KernelHeap W}.
Context (start_on_new_frame test_task test_task_name : Z).
Hypothesis start_range : 0 ≤ start_on_new_frame < 2 ^ 32.

Abbreviation st := (sched_state (W := W)).
Abbreviation sys := (system (W := W)).
Abbreviation steps := (rtc (sys_step start_on_new_frame test_task test_task_name)).

(** ** Tasks the round has still to visit *)
Definition waits (s : st) (p : Z) : Prop := ∃ ts fin al os cs,
  sched_inv start_on_new_frame s ts fin al os ∧ remaining s ts cs ∧ p ∈ cs.

(** A task that has not finished. *)
Definition alive (s : st) (p : Z) (T : Task) : Prop :=
  task_objects s !! p = Some T ∧ _exited T = false ∧ p ≠ _scheduler_task s.

(** The stretch of a task leaves the iterator of the scheduler where it is. *)
Lemma remaining_task (s s' : st) ts cs : remaining s ts cs → _current s ≠ _scheduler_task s →
  task_objects s' !! _scheduler_task s = task_objects s !! _scheduler_task s →
  _scheduler_task s' = _scheduler_task s → _current s' = _scheduler_task s ∨ _current s' = _current s →
  remaining s' ts cs.
Proof.
  intros (T & HT & Hc) Hne Ho Hs Hcur. exists T. rewrite Hs, Ho. split; [done|].
  destruct Hc as [(_ & _ & ?)|(pre & c & it & H1 & H2 & H3 & H4 & H5)]; [done|].
  right. exists pre, c, it. split_and!; [done|done| |done|].
  - exact H3.
  - destruct H5; [done|]. destruct Hcur as [->| ->]; auto.
Qed.

(** A new task goes behind the head of the ring, which the iterator has passed. *)
Lemma remaining_insert (s : st) ts cs new : head ts = Some (_scheduler_task s) → remaining s ts cs →
  _current s ≠ _scheduler_task s → remaining s (insert_task new ts) cs.
Proof.
  intros Hh (T & HT & Hc) Hne. exists T. split; [done|].
  destruct Hc as [(_ & _ & ?)|(pre & c & it & H1 & H2 & H3 & H4 & H5)]; [done|].
  destruct ts as [|h r]; [done|]. injection Hh as ->.
  destruct pre as [|h' pre]; simpl in H2; injection H2 as Eh Er; [by destruct H4|]. subst h' r.
  right. exists (_scheduler_task s :: new :: pre), c, it. split_and!; try done.
  unfold iterator_at in *. destruct H3 as (? & _ & Hs & ? & ?). split_and!; try done. intros _. by apply Hs.
Qed.

Lemma waits_step s s' p : sched_step start_on_new_frame s s' → _current s ≠ _scheduler_task s →
  waits s p → waits s' p.
Proof.
  intros Hstep Hne (ts & fin & al & os & cs & H & Hrem & Hp).
  assert (Hsch : ∃ U, task_objects s !! _scheduler_task s = Some U) by (destruct Hrem as (U & HU & _); eauto).
  destruct Hstep as [s flags routine arg name new s' _ E|s s' _ E|s s' _ E|s w al' os' Hw Hown Hm|s fuel s' Hcur Hf E].
  - destruct (inv_create start_on_new_frame s ts fin al os flags routine arg name start_range H Hne)
      as [(msg & E' & _)|(new' & k & s1 & E' & _ & Hnew & H' & (_ & _ & Hs & Hc) & Ho)]; [congruence|].
    assert (s1 = s' ∧ new' = new) as [-> ->] by (split; congruence).
    eexists (insert_task new ts), fin, _, _, cs. split; [exact H'|]. split; [|done].
    pose proof (remaining_insert s ts cs new (si_head _ _ _ _ _ _ H) Hrem Hne) as Hr.
    apply (remaining_task s); [done|done| |done|by right].
    rewrite Ho, lookup_insert_ne; [done|]. intros ->. apply Hnew. destruct Hsch as [U HU]. by apply elem_of_dom_2 in HU.
  - destruct (inv_yield start_on_new_frame s ts fin al os H Hne) as (s1 & E' & H' & Hc & Hs & t & _ & Ho).
    replace s1 with s' in * by congruence. exists ts, fin, al, os, cs. split; [done|]. split; [|done].
    apply (remaining_task s); [done|done| |done|by left]. by rewrite Ho, lookup_insert_ne.
  - destruct (inv_exit start_on_new_frame s ts fin al os H Hne)
      as [E'|(s1 & q & E' & _ & H' & _ & Hc & Hs & t & _ & Ho)]; [congruence|].
    replace s1 with s' in * by congruence. eexists ts, _, al, _, cs. split; [exact H'|]. split; [|done].
    apply (remaining_task s); [done|done| |done|by left]. by rewrite Ho, lookup_insert_ne.
  - exists ts, fin, al', os', cs. split; [by apply (inv_memory start_on_new_frame s ts fin al os)|]. done.
  - done.
Qed.

(** A stretch of the scheduler does not end the round while a task waits. *)
Lemma waits_schedule s fuel s' p T : _current s = _scheduler_task s → (size (task_objects s) < fuel)%nat →
  schedule_step start_on_new_frame fuel s = Done (tt, s') → alive s p T → waits s p →
  _current s' ≠ _scheduler_task s' ∧ (_current s' = p ∨ waits s' p).
Proof.
  intros Hcur Hf E (HT & Hx & Hp) (ts & fin & al & os & cs & H & Hrem & Hin).
  rewrite (static_size start_on_new_frame _ _ _ _ (si_static _ _ _ _ _ _ H)) in Hf.
  assert (Hno : ¬ skipped s p) by (intros [?|(t & Ht & ?)]; congruence).
  destruct (inv_schedule_step start_on_new_frame s ts fin al os cs fuel H Hcur Hrem Hf) as
    [(sk & c & l2 & s1 & -> & Hsk & [Hc _] & E1 & H1 & Hr1 & Hc1 & Hs1)|(Hsk & _)].
  - replace s1 with s' in * by congruence. split; [congruence|]. rewrite Hc1.
    apply elem_of_app in Hin as [Hin|Hin]; [by rewrite Forall_forall in Hsk; apply Hsk in Hin|].
    apply elem_of_cons in Hin as [->|Hin]; [by left|right]. by exists ts, fin, al, os, l2.
  - rewrite Forall_forall in Hsk. by apply Hsk in Hin.
Qed.

(** When it ends, all tasks wait for the next one. *)
Lemma waits_round s fuel s' p T : sched_ok start_on_new_frame s → _current s = _scheduler_task s →
  (size (task_objects s) < fuel)%nat → schedule_step start_on_new_frame fuel s = Done (tt, s') →
  _current s' = _scheduler_task s' → task_objects s' !! p = Some T → waits s' p.
Proof.
  intros (ts & fin & al & os & H) Hcur Hf E Hcur' HT. destruct (si_remaining _ _ _ _ _ _ H) as [cs Hrem].
  rewrite (static_size start_on_new_frame _ _ _ _ (si_static _ _ _ _ _ _ H)) in Hf.
  destruct (inv_schedule_step start_on_new_frame s ts fin al os cs fuel H Hcur Hrem Hf) as
    [(sk & c & l2 & s1 & _ & _ & [Hc _] & E1 & _ & _ & Hc1 & Hs1)|(_ & s1 & al1 & os1 & E1 & H1 & Hr1 & _)];
    replace s1 with s' in * by congruence; [congruence|].
  exists (filter (λ u, u ∉ fin) ts), [], al1, os1, (filter (λ u, u ∉ fin) ts). split; [done|]. split; [done|].
  apply (st_objects _ _ _ _ _ (si_static _ _ _ _ _ _ H1)). by apply elem_of_dom_2 in HT.
Qed.

(** ** What a step does to the tasks of the scheduler *)
Lemma step_forward s s' p T : sched_ok start_on_new_frame s → sched_step start_on_new_frame s s' → alive s p T →
  (p = _current s → _current s' = _current s) → ∃ T', alive s' p T' ∧ _arg T' = _arg T.
Proof.
  intros (ts & fin & al & os & H) Hstep (HT & Hx & Hp) Hcc. unfold alive.
  destruct Hstep as [s flags routine arg name new s' Hne E|s s' Hne E|s s' Hne E|s w al' os' Hw Hown Hm|s fuel s' Hcur Hf E].
  - destruct (inv_create start_on_new_frame s ts fin al os flags routine arg name start_range H Hne)
      as [(msg & E' & _)|(new' & k & s1 & E' & _ & Hnew & H' & (_ & _ & Hs & Hc) & Ho)]; [congruence|].
    assert (s1 = s' ∧ new' = new) as [-> ->] by (split; congruence). exists T. rewrite Ho, Hs, lookup_insert_ne; [done|].
    intros ->. apply Hnew. by apply elem_of_dom_2 in HT.
  - destruct (inv_yield start_on_new_frame s ts fin al os H Hne) as (s1 & E' & H' & Hc & Hs & t & _ & Ho).
    replace s1 with s' in * by congruence. exists T. rewrite Ho, Hs, lookup_insert_ne; [done|]. intros <-.
    rewrite Hcc in Hc by done. congruence.
  - destruct (inv_exit start_on_new_frame s ts fin al os H Hne)
      as [E'|(s1 & q & E' & _ & H' & _ & Hc & Hs & t & _ & Ho)]; [congruence|].
    replace s1 with s' in * by congruence. exists T. rewrite Ho, Hs, lookup_insert_ne; [done|]. intros <-.
    rewrite Hcc in Hc by done. congruence.
  - by exists T.
  - destruct (schedule_removes start_on_new_frame s ts fin al os fuel s' p T H Hcur Hf E) as [Hs Hgone].
    destruct (task_objects s' !! p) as [T'|] eqn:HT'; [|by rewrite Hgone in Hx].
    destruct (keeping_schedule start_on_new_frame fuel s tt s' E p T' HT') as (T0 & HT0 & _ & Ea & Ex & _).
    exists T'. rewrite Hs. split_and!; try done; congruence.
Qed.

Lemma step_back s s' p T' : sched_ok start_on_new_frame s → sched_step start_on_new_frame s s' →
  task_objects s' !! p = Some T' → p ∈ dom (task_objects s) →
  ∃ T, task_objects s !! p = Some T ∧ _arg T' = _arg T ∧ (_exited T = true → _exited T' = true).
Proof.
  intros (ts & fin & al & os & H) Hstep HT' [T HT]%elem_of_dom.
  assert (Hins : ∀ q U, task_objects s !! q = Some U → ∀ V, _arg V = _arg U → (_exited U = true → _exited V = true) →
    task_objects s' = <[q := V]> (task_objects s) →
    ∃ T, task_objects s !! p = Some T ∧ _arg T' = _arg T ∧ (_exited T = true → _exited T' = true)).
  { intros q U HU V Ha Hx Ho. rewrite Ho in HT'. apply lookup_insert_Some in HT' as [[<- <-]|[_ ?]]; [by exists U|by exists T']. }
  destruct Hstep as [s flags routine arg name new s' Hne E|s s' Hne E|s s' Hne E|s w al' os' Hw Hown Hm|s fuel s' Hcur Hf E].
  - destruct (inv_create start_on_new_frame s ts fin al os flags routine arg name start_range H Hne)
      as [(msg & E' & _)|(new' & k & s1 & E' & _ & Hnew & H' & _ & Ho)]; [congruence|].
    assert (s1 = s' ∧ new' = new) as [-> ->] by (split; congruence). exists T'. split; [|done].
    rewrite Ho, lookup_insert_ne in HT'; [done|]. intros ->. apply Hnew. by apply elem_of_dom_2 in HT.
  - destruct (inv_yield start_on_new_frame s ts fin al os H Hne) as (s1 & E' & _ & _ & _ & t & Ht & Ho).
    replace s1 with s' in * by congruence. by refine (Hins _ t Ht _ _ _ Ho).
  - destruct (inv_exit start_on_new_frame s ts fin al os H Hne)
      as [E'|(s1 & q & E' & _ & _ & _ & _ & _ & t & Ht & Ho)]; [congruence|].
    replace s1 with s' in * by congruence. by refine (Hins _ t Ht _ _ _ Ho).
  - by exists T'.
  - destruct (keeping_schedule start_on_new_frame fuel s tt s' E p T' HT') as (T0 & HT0 & _ & Ea & Ex & _).
    exists T0. split_and!; [done|done|by rewrite Ex].
Qed.

(** ** The turn of a task, by where it stands *)
Definition stand (y : sys) (p : Z) (c : code) (ls : list (Z * message)) : sys :=
  mkSystem (sched y) (jiffies y) (now y) (ints y) (<[p := c]> (progress y)) (output y ++ ls).

Definition yielded (y y' : sys) : Prop :=
  ∃ s', yield start_on_new_frame InRoutine (sched y) = Done (tt, s') ∧ y' = put_sched s' y.

Definition created (p k : Z) (y y' : sys) : Prop := ∃ ia new w s1 T, let s0 := put_heap w (sched y) in
  y' = created_system p k s1 ia new y ∧ sched_step start_on_new_frame (sched y) s0 ∧
  sched_step start_on_new_frame s0 s1 ∧ same_rest s0 s1 ∧ task_objects s1 = <[new := T]> (task_objects (sched y)) ∧
  new ∉ dom (task_objects (sched y)) ∧ ia ∉ dom (ints y) ∧ _arg T = ia.

(** The end of a sleep that begins now. *)
Definition sleep_end (y : sys) (ms : Z) : Z := u32 (jiffies y + ms_to_ticks ms).

Definition turn (p : Z) (c : code) (y y' : sys) : Prop :=
  match c with
  | MainTop i => if i <? tasks_count then created p i y y' else y' = stand y p MainIdle []
  | MainSleepCall i => y' = stand y p (MainSleep i (sleep_end y (sleep_interval / tasks_count))) []
  | MainSleep i e => if jiffies y <? e then yielded y y' else y' = stand y p (MainTop (i + 1)) []
  | MainIdle => yielded y y'
  | TestEntry => ∃ n, y' = stand y p (TestTop n 0 0) [(now y, Started n)]
  | TestTop n counter i =>
      if is_odd n || (i <? test_iterations)
      then y' = stand y p (TestSleepCall n (u32 (counter + 1)) i) [(now y, Iteration n (u32 (counter + 1)))]
      else y' = stand y p RoutineReturned []
  | TestSleepCall n counter i => y' = stand y p (TestSleep n counter i (sleep_end y sleep_interval)) []
  | TestSleep n counter i e =>
      if jiffies y <? e then yielded y y' else y' = stand y p (TestTop n counter (if is_odd n then i else i + 1)) []
  | RoutineReturned => ∃ s', exit_task start_on_new_frame (sched y) = Done (tt, s') ∧ y' = put_sched s' y
  end.

Lemma stand_nil y p c : stand y p c [] =
  mkSystem (sched y) (jiffies y) (now y) (ints y) (<[p := c]> (progress y)) (output y).
Proof. unfold stand. by rewrite app_nil_r. Qed.

Lemma on_sched_inv (q : prog st unit) y y' : on_sched q y = Done (tt, y') →
  ∃ s', q (sched y) = Done (tt, s') ∧ y' = put_sched s' y.
Proof.
  unfold on_sched, zoom. destruct (q (sched y)) as [[[] s']| | |]; try done. intros [= <-]. by exists s'.
Qed.

Lemma sleep_turn_inv p e c y y' : sleep_turn start_on_new_frame p e c y = Done (tt, y') →
  if jiffies y <? e then yielded y y' else y' = stand y p c [].
Proof.
  unfold sleep_turn. rewrite gets_bind. destruct (jiffies y <? e); [apply on_sched_inv|].
  intros [= <-]. by rewrite stand_nil.
Qed.

Lemma run_task_turn m y flags y' c : sys_inv start_on_new_frame m y → _current (sched y) ≠ _scheduler_task (sched y) →
  progress y !! _current (sched y) = Some c →
  run_task start_on_new_frame test_task test_task_name flags y = Done (tt, y') → turn (_current (sched y)) c y y'.
Proof.
  intros Hinv Hne Hc. pose proof Hinv as (k & ts & fin & al & os & Ht & H & Hi).
  unfold run_task. rewrite !gets_bind, Hc. set (p := _current (sched y)) in *.
  pose proof (begin_sleep_done start_on_new_frame m) as Hsleep.
  destruct c as [i|i|i e| | |n ctr i|n ctr i|n ctr i e|]; cbn [in_main main_turn test_turn turn].
  - destruct (i <? tasks_count); [|intros [= <-]; by rewrite stand_nil].
    destruct (create_test_task_done start_on_new_frame test_task test_task_name p i y ts fin al os flags start_range H Hi Hne)
      as [(msg & -> & _)|(ia & w & new & s1 & al' & os' & T & -> & H1 & H2 & _ & _ & Hr & Ho & Hnew & Hint & Ha & _)]; [done|].
    intros [= <-]. by exists ia, new, w, s1, T.
  - rewrite (bind_done _ _ _ _ _ (Hsleep _ y Hinv)). intros [= <-]. by rewrite stand_nil.
  - apply sleep_turn_inv.
  - apply on_sched_inv.
  - destruct (si_current _ _ _ _ _ _ H) as (T & HT & _).
    rewrite (bind_done _ _ y T y).
    2:{ rewrite (on_sched_done _ y T (sched y)) by by apply task_at_done. by rewrite put_sched_id. }
    unfold read_int, mbind, prog_bind. destruct (ints y !! _arg T) as [n|]; [|done].
    intros [= <-]. by exists n.
  - destruct (is_odd n || (i <? test_iterations)); intros [= <-]; [done|by rewrite stand_nil].
  - rewrite (bind_done _ _ _ _ _ (Hsleep _ y Hinv)). intros [= <-]. by rewrite stand_nil.
  - apply sleep_turn_inv.
  - apply on_sched_inv.
Qed.

(** ** What a turn does to the rest of the system *)
Definition moves (s s' : st) : Prop := s' = s ∨ sched_step start_on_new_frame s s' ∨
  ∃ w, sched_step start_on_new_frame s (put_heap w s) ∧ sched_step start_on_new_frame (put_heap w s) s'.

Record turn_effect (q : Z) (y y' : sys) : Prop := {
  te_sched : moves (sched y) (sched y');
  te_progress : ∀ p, p ≠ q → p ∈ dom (task_objects (sched y)) → progress y' !! p = progress y !! p;
  te_clock : now y' = now y;
  te_ints : ints y ⊆ ints y';
  te_output : output y `prefix_of` output y';
  te_new : ∀ r T', task_objects (sched y') !! r = Some T' → r ∉ dom (task_objects (sched y)) →
    ints y !! _arg T' = None ∧ progress y' !! r = Some TestEntry
}.

Lemma stand_effect q c y ls : turn_effect q y (stand y q c ls).
Proof.
  split; cbn; try done; [by left|intros p Hp _; by rewrite lookup_insert_ne|by exists ls|].
  intros r T' HT Hr. by apply elem_of_dom_2 in HT.
Qed.

Lemma sched_effect q y s' : sched_step start_on_new_frame (sched y) s' →
  (∀ r, r ∈ dom (task_objects s') → r ∈ dom (task_objects (sched y))) → turn_effect q y (put_sched s' y).
Proof.
  intros Hs Hd. split; cbn; try done; [by right; left|]. intros r T' HT Hr. apply elem_of_dom_2 in HT. by apply Hd in HT.
Qed.

Lemma turn_effects m y y' c : sys_inv start_on_new_frame m y → _current (sched y) ≠ _scheduler_task (sched y) →
  turn (_current (sched y)) c y y' → turn_effect (_current (sched y)) y y'.
Proof.
  intros (k & ts & fin & al & os & Ht & H & _) Hne.
  assert (Hy : yielded y y' → turn_effect (_current (sched y)) y y').
  { intros (s' & E & ->). apply sched_effect; [by apply step_yield|].
    destruct (inv_yield start_on_new_frame (sched y) ts fin al os H Hne) as (s1 & E1 & _ & _ & _ & t & Hc & Ho).
    replace s1 with s' in * by congruence. rewrite Ho, dom_insert_L. apply elem_of_dom_2 in Hc. set_solver. }
  destruct c as [i|i|i e| | |n ctr i|n ctr i|n ctr i e|]; cbn [turn]; try (intros ->; apply stand_effect); try done.
  - destruct (i <? tasks_count); [|intros ->; apply stand_effect].
    intros (ia & new & w & s1 & T & -> & H1 & H2 & (_ & _ & Hs & Hc) & Ho & Hnew & Hia & Ha).
    split; cbn [sched now ints progress created_system]; try done.
    + right; right. by exists w.
    + intros p Hp Hd. rewrite !lookup_insert_ne; [done| |done]. by intros ->.
    + apply insert_subseteq. by apply not_elem_of_dom.
    + intros r T' HT Hr. rewrite Ho in HT. apply lookup_insert_Some in HT as [[<- <-]|[_ HT]].
      * rewrite Ha. split; [by apply not_elem_of_dom|]. rewrite lookup_insert_ne, lookup_insert_eq; [done|].
        intros E. apply Hr. rewrite <- E. destruct (si_current _ _ _ _ _ _ H) as (U & HU & _). by apply elem_of_dom_2 in HU.
      * by apply elem_of_dom_2 in HT.
  - destruct (jiffies y <? e); [done|intros ->; apply stand_effect].
  - intros (n & ->). apply stand_effect.
  - destruct (is_odd n || (i <? test_iterations)); intros ->; apply stand_effect.
  - destruct (jiffies y <? e); [done|intros ->; apply stand_effect].
  - intros (s' & E & ->). apply sched_effect; [by apply step_exit|].
    destruct (inv_exit start_on_new_frame (sched y) ts fin al os H Hne)
      as [E'|(s1 & q & E' & _ & _ & _ & _ & _ & t & Hc & Ho)]; [congruence|].
    replace s1 with s' in * by congruence. rewrite Ho, dom_insert_L. apply elem_of_dom_2 in Hc. set_solver.
Qed.

Lemma moves_forward s s' p T : sched_ok start_on_new_frame s → moves s s' → alive s p T → p ≠ _current s →
  ∃ T', alive s' p T' ∧ _arg T' = _arg T.
Proof.
  intros Hok Hm Hp Hne. destruct Hm as [->|[Hs|(w & H1 & H2)]].
  - by exists T.
  - apply (step_forward s); [done..|]. by intros.
  - apply (step_forward (put_heap w s)); [by apply (inv_step start_on_new_frame s)|done|exact Hp|done].
Qed.

Lemma moves_waits s s' p : moves s s' → _current s ≠ _scheduler_task s → waits s p → waits s' p.
Proof.
  intros [->|[Hs|(w & H1 & H2)]] Hne Hw; [done|by apply (waits_step s)|].
  apply (waits_step (put_heap w s)); [done|done|]. by apply (waits_step s).
Qed.

Lemma sched_ok_of m y : sys_inv start_on_new_frame m y → sched_ok start_on_new_frame (sched y).
Proof. intros (k & ts & fin & al & os & _ & H & _). by exists ts, fin, al, os. Qed.

Lemma moves_back s s' p T' : sched_ok start_on_new_frame s → moves s s' →
  task_objects s' !! p = Some T' → p ∈ dom (task_objects s) →
  ∃ T, task_objects s !! p = Some T ∧ _arg T' = _arg T ∧ (_exited T = true → _exited T' = true).
Proof.
  intros Hok [->|[Hs|(w & H1 & H2)]] HT' Hp; [by exists T'|by apply (step_back s s')|].
  apply (step_back (put_heap w s) s'); [by apply (inv_step start_on_new_frame s)|done..].
Qed.

Lemma step_scheduler s s' : sched_ok start_on_new_frame s → sched_step start_on_new_frame s s' →
  _scheduler_task s' = _scheduler_task s.
Proof.
  intros (ts & fin & al & os & H) Hstep.
  destruct Hstep as [s flags routine arg name new s' Hne E|s s' Hne E|s s' Hne E|s w al' os' Hw Hown Hm|s fuel s' Hcur Hf E].
  - destruct (inv_create start_on_new_frame s ts fin al os flags routine arg name start_range H Hne)
      as [(msg & E' & _)|(new' & k & s1 & E' & _ & _ & _ & (_ & _ & Hs & _) & _)]; congruence.
  - destruct (inv_yield start_on_new_frame s ts fin al os H Hne) as (s1 & E' & _ & _ & Hs & _); congruence.
  - destruct (inv_exit start_on_new_frame s ts fin al os H Hne) as [E'|(s1 & q & E' & _ & _ & _ & _ & Hs & _)]; congruence.
  - done.
  - by apply (schedule_removes start_on_new_frame s ts fin al os fuel s' 0 (mkTask 0 0 0 false 0 0 Fresh false)).
Qed.

Lemma moves_scheduler s s' : sched_ok start_on_new_frame s → moves s s' → _scheduler_task s' = _scheduler_task s.
Proof.
  intros Hok [->|[Hs|(w & H1 & H2)]]; [done|by apply step_scheduler|].
  change (_scheduler_task s) with (_scheduler_task (put_heap w s)).
  apply step_scheduler; [by apply (inv_step start_on_new_frame s)|done].
Qed.

(** A step of the system is the turn of a task that runs, or leaves the task where it is. *)
Definition turns (s : st) (p : Z) : Prop := waits s p ∨ _current s = p.

Lemma running_code m y : sys_inv start_on_new_frame m y → _current (sched y) ≠ _scheduler_task (sched y) →
  ∃ d, progress y !! _current (sched y) = Some d.
Proof.
  intros (k & ts & fin & al & os & Ht & H & _) Hcur.
  destruct (si_current _ _ _ _ _ _ H) as (U & HU & _). destruct (decide (_current (sched y) = m)) as [->|Hm].
  - destruct (ti_main _ _ _ Ht) as (_ & _ & d & _ & _ & ? & _). by exists d.
  - destruct (ti_test _ _ _ Ht (_current (sched y)) U) as (n & d & _ & ? & _); [done|]. by exists d.
Qed.

Lemma step_other m y y' p T c : sys_inv start_on_new_frame m y →
  sys_step start_on_new_frame test_task test_task_name y y' → alive (sched y) p T → progress y !! p = Some c →
  (_current (sched y) = p ∧ turn p c y y') ∨
  (∃ T', alive (sched y') p T' ∧ _arg T' = _arg T ∧ progress y' !! p = Some c ∧
     (turns (sched y) p → turns (sched y') p) ∧ (_current (sched y) = p → _current (sched y') = p)).
Proof.
  intros Hinv Hstep Hp Hc. pose proof (sched_ok_of m y Hinv) as Hok.
  destruct Hstep as [y|y w al os Hw Hown Hints Hm|y fuel s' Hcur Hf E|y flags y' Hcur E].
  - right. exists T. split_and!; try done; apply Hp.
  - right. exists T. split; [exact Hp|]. split; [done|]. split; [done|]. split; [|done]. intros [Hwt|?]; [left|by right].
    destruct Hwt as (ts & fin & al0 & os0 & cs & H & Hr & Hin). exists ts, fin, al, os, cs. split; [|done].
    by apply (inv_memory start_on_new_frame (sched y) ts fin al0 os0).
  - right. destruct (step_forward (sched y) s' p T Hok) as (T' & Hp' & Ha); [by eapply step_schedule|done| |].
    { intros ->. by destruct Hp as (_ & _ & ?). }
    exists T'. split_and!; try done.
    + intros [Hwt|Hpc]; [|by destruct Hp as (_ & _ & []); congruence].
      destruct (waits_schedule (sched y) fuel s' p T Hcur Hf E Hp Hwt) as [_ [?|?]]; [by right|by left].
    + intros E1. by destruct Hp as (_ & _ & []); congruence.
  - pose proof Hinv as (k & ts & fin & al & os & Ht & H & _).
    destruct (running_code m y Hinv Hcur) as [d Hd]. pose proof (run_task_turn m y flags y' d Hinv Hcur Hd E) as Hturn.
    destruct (decide (_current (sched y) = p)) as [<-|Hne]; [left; replace c with d by congruence; done|right].
    pose proof (turn_effects m y y' d Hinv Hcur Hturn) as [].
    destruct (moves_forward _ _ p T Hok te_sched0 Hp) as (T' & Hp' & Ha); [done|]. exists T'. split_and!; try done.
    + rewrite te_progress0; [done|done|]. destruct Hp as [HT _]. by apply elem_of_dom_2 in HT.
    + intros [Hwt|?]; [left|done]. by apply (moves_waits (sched y)).
Qed.

(** ** What grows *)
Lemma step_grows m y y' : sys_inv start_on_new_frame m y → sys_step start_on_new_frame test_task test_task_name y y' →
  now y ≤ now y' ∧ ints y ⊆ ints y' ∧ output y `prefix_of` output y' ∧
  _scheduler_task (sched y') = _scheduler_task (sched y).
Proof.
  intros Hinv Hstep. pose proof (sched_ok_of m y Hinv) as Hok.
  destruct Hstep as [y|y w al os Hw Hown Hints Hm|y fuel s' Hcur Hf E|y flags y' Hcur E].
  - cbn. split_and!; try done. lia.
  - by split_and!.
  - split_and!; try done. by apply step_scheduler, (step_schedule _ _ fuel).
  - destruct (running_code m y Hinv Hcur) as [d Hd].
    pose proof (turn_effects m y y' d Hinv Hcur (run_task_turn m y flags y' d Hinv Hcur Hd E)) as [].
    split_and!; [lia|done|done|by apply moves_scheduler].
Qed.

(** Every task was there before, or is new and at its entry. *)
Lemma step_origin m y y' r T' : sys_inv start_on_new_frame m y →
  sys_step start_on_new_frame test_task test_task_name y y' → task_objects (sched y') !! r = Some T' →
  (ints y !! _arg T' = None ∧ progress y' !! r = Some TestEntry) ∨
  ∃ T, task_objects (sched y) !! r = Some T ∧ _arg T' = _arg T ∧ (_exited T = true → _exited T' = true).
Proof.
  intros Hinv Hstep HT. pose proof (sched_ok_of m y Hinv) as Hok.
  destruct Hstep as [y|y w al os Hw Hown Hints Hm|y fuel s' Hcur Hf E|y flags y' Hcur E].
  - right. by exists T'.
  - right. by exists T'.
  - right. destruct (keeping_schedule start_on_new_frame fuel _ tt s' E r T' HT) as (T0 & HT0 & _).
    apply (step_back _ s'); [done|by eapply step_schedule|done|]. by apply elem_of_dom_2 in HT0.
  - destruct (running_code m y Hinv Hcur) as [d Hd].
    pose proof (turn_effects m y y' d Hinv Hcur (run_task_turn m y flags y' d Hinv Hcur Hd E)) as [].
    destruct (decide (r ∈ dom (task_objects (sched y)))) as [Hr|Hr]; [right|left; by apply te_new0].
    by apply (moves_back (sched y) (sched y')).
Qed.

(** ** Where a task may be while another one runs *)
Definition sleeps_until (c : code) : option Z :=
  match c with MainSleep _ e | TestSleep _ _ _ e => Some e | _ => None end.
Definition off (c : code) : bool :=
  match c with
  | MainTop i => i =? 0
  | MainSleep _ _ | MainIdle | TestEntry | TestSleep _ _ _ _ => true
  | _ => false
  end.

Record live (m : Z) (y : sys) : Prop := {
  lv_inv : sys_inv start_on_new_frame m y;
  lv_off : ∀ p T c, alive (sched y) p T → progress y !! p = Some c → off c = true ∨ _current (sched y) = p;
  lv_sleep : ∀ p T c e, alive (sched y) p T → progress y !! p = Some c → sleeps_until c = Some e →
    in_time (now y) → e ≤ now y + interval
}.

Lemma lv_clock m y : live m y → in_time (now y) → jiffies y = now y.
Proof.
  intros [(k & ts & fin & al & os & Ht & _) _ _] Hi. destruct (ti_clock _ _ _ Ht) as [-> ?].
  unfold in_time, interval in Hi. apply u32_small. lia.
Qed.

Lemma alive_code m y p T : sys_inv start_on_new_frame m y → alive (sched y) p T → ∃ c, progress y !! p = Some c.
Proof.
  intros (k & ts & fin & al & os & Ht & H & _) (HT & _ & Hp). destruct (decide (p = m)) as [->|Hm].
  - destruct (ti_main _ _ _ Ht) as (_ & _ & d & _ & _ & ? & _). by exists d.
  - destruct (ti_test _ _ _ Ht p T) as (n & d & _ & ? & _); [done|]. by exists d.
Qed.

Lemma sleep_end_bound m y ms : live m y → in_time (now y) → 0 ≤ ms_to_ticks ms ≤ interval →
  sleep_end y ms ≤ now y + interval.
Proof.
  intros H Hi Hms. unfold sleep_end. rewrite (lv_clock m y H Hi). unfold in_time, interval in *.
  pose proof (lv_inv _ _ H) as (k & ts & fin & al & os & Ht & _). destruct (ti_clock _ _ _ Ht) as [_ ?].
  rewrite u32_small by lia. lia.
Qed.

Lemma exit_exits m y s' T' : sys_inv start_on_new_frame m y → _current (sched y) ≠ _scheduler_task (sched y) →
  exit_task start_on_new_frame (sched y) = Done (tt, s') → task_objects s' !! _current (sched y) = Some T' → _exited T' = true.
Proof.
  intros (k & ts & fin & al & os & Ht & H & _) Hne E HT.
  destruct (inv_exit start_on_new_frame (sched y) ts fin al os H Hne)
    as [E'|(s1 & q & E' & _ & _ & _ & _ & _ & t & _ & Ho)]; [congruence|].
  replace s1 with s' in * by congruence. rewrite Ho, lookup_insert_eq in HT. by injection HT as <-.
Qed.

(** The four kinds of turns: to another point of the code, a yield, the creation of a task, the exit. *)
Lemma turn_shape p c y y' : turn p c y y' →
  (∃ c1 ls, y' = stand y p c1 ls ∧ ∀ e, sleeps_until c1 = Some e → ∃ ms, e = sleep_end y ms ∧ 0 ≤ ms_to_ticks ms ≤ interval) ∨
  (yielded y y' ∧ off c = true) ∨ (∃ i, created p i y y') ∨
  (∃ s', exit_task start_on_new_frame (sched y) = Done (tt, s') ∧ y' = put_sched s' y).
Proof.
  destruct c as [i|i|i e| | |n ctr i|n ctr i|n ctr i e|]; cbn [turn off].
  - destruct (i <? tasks_count); [intros; right; right; left; by exists i|intros ->; left; by eexists _, _].
  - intros ->. left. eexists _, _. split; [done|]. intros e [= <-]. by eexists.
  - destruct (jiffies y <? e); [intros; right; by left|intros ->; left; by eexists _, _].
  - intros. right; by left.
  - intros (n & ->). left; by eexists _, _.
  - destruct (is_odd n || (i <? test_iterations)); intros ->; left; by eexists _, _.
  - intros ->. left. eexists _, _. split; [done|]. intros e [= <-]. by eexists.
  - destruct (jiffies y <? e); [intros; right; by left|intros ->; left; by eexists _, _].
  - intros. by do 3 right.
Qed.

Lemma own_turn_rests m y y' p c T T' c' : live m y → _current (sched y) = p → alive (sched y) p T →
  progress y !! p = Some c → turn p c y y' → task_objects (sched y') !! p = Some T' → _exited T' = false →
  progress y' !! p = Some c' →
  (off c' = true ∨ _current (sched y') = p) ∧
  ∀ e, sleeps_until c' = Some e → in_time (now y') → e ≤ now y' + interval.
Proof.
  intros H Hcur Hal Hc Hturn HT' Hx' Hc'.
  destruct (turn_shape p c y y' Hturn) as [(c1 & ls & -> & Hs)|[[(s' & E & ->) Hoff]|[(i & Hcr)|(s' & E & ->)]]].
  - cbn in *. rewrite lookup_insert_eq in Hc'. injection Hc' as <-. split; [by right|].
    intros e He Hi. destruct (Hs e He) as (ms & -> & Hms). by apply (sleep_end_bound m).
  - cbn in *. replace c' with c by congruence. split; [by left|].
    intros e. by apply (lv_sleep m y H p T).
  - destruct Hcr as (ia & new & w & s1 & U & -> & _ & _ & (_ & _ & _ & Hcu) & _). cbn in *.
    rewrite lookup_insert_eq in Hc'. injection Hc' as <-. split; [right; congruence|done].
  - cbn in HT'. rewrite (exit_exits m y s' T' (lv_inv m y H)) in Hx'; [done| |done|congruence].
    rewrite Hcur. apply Hal.
Qed.

Lemma yield_alive m y s' T : sys_inv start_on_new_frame m y → alive (sched y) (_current (sched y)) T →
  yield start_on_new_frame InRoutine (sched y) = Done (tt, s') →
  ∃ T', alive s' (_current (sched y)) T' ∧ _arg T' = _arg T.
Proof.
  intros (k & ts & fin & al & os & Ht & H & _) (HT & Hx & Hne) E.
  destruct (inv_yield start_on_new_frame (sched y) ts fin al os H Hne) as (s1 & E1 & _ & _ & Hs & t & Hc & Ho).
  replace s1 with s' in * by congruence. replace t with T in * by congruence.
  exists (suspend_at InRoutine false T). unfold alive. by rewrite Ho, lookup_insert_eq, Hs.
Qed.

Lemma live_step m y y' : live m y → sys_step start_on_new_frame test_task test_task_name y y' → live m y'.
Proof.
  intros H Hstep. pose proof (lv_inv m y H) as Hinv.
  destruct (step_grows m y y' Hinv Hstep) as (Hnow & _ & _ & Hsch).
  assert (Hall : ∀ p T' c', alive (sched y') p T' → progress y' !! p = Some c' →
    (off c' = true ∨ _current (sched y') = p) ∧
    ∀ e, sleeps_until c' = Some e → in_time (now y') → e ≤ now y' + interval).
  { intros p T' c' (HT' & Hx' & Hp') Hc'.
    destruct (step_origin m y y' p T' Hinv Hstep HT') as [[_ He]|(T & HT & _ & Hx)].
    { rewrite He in Hc'. injection Hc' as <-. split; [by left|done]. }
    assert (Hal : alive (sched y) p T).
    { split; [done|]. split; [|congruence]. destruct (_exited T); [|done]. by rewrite Hx in Hx'. }
    destruct (alive_code m y p T Hinv Hal) as [c Hc]. pose proof (lv_off m y H p T c Hal Hc) as Hoff.
    pose proof (lv_sleep m y H p T c) as Hsl.
    destruct (step_other m y y' p T c Hinv Hstep Hal Hc) as [[Hcur Hturn]|(T1 & _ & _ & Hc1 & _ & Hcc)].
    2:{ replace c' with c by congruence. split; [destruct Hoff; auto|]. intros e He Hi.
        assert (in_time (now y)) by (unfold in_time in *; lia). specialize (Hsl e Hal Hc He ltac:(done)). lia. }
    by apply (own_turn_rests m y y' p c T T' c'). }
  split.
  - by apply (sys_step_inv start_on_new_frame test_task test_task_name m y y').
  - intros p T c Hal Hc. by apply (Hall p T c).
  - intros p T c e Hal Hc. by apply (Hall p T c).
Qed.

Lemma live_steps m y y' : steps y y' → live m y → live m y' ∧ now y ≤ now y'.
Proof.
  induction 1 as [|y y1 y2 Hs _ IH]; [done|]. intros H. destruct (IH (live_step m y y1 H Hs)) as [? ?].
  destruct (step_grows m y y1 (lv_inv m y H) Hs) as (? & _). split; [done|lia].
Qed.

(** ** Laps *)

(** The stretch of the scheduler that ends a round. *)
Definition round_end (y y' : sys) : Prop := ∃ fuel s',
  _current (sched y) = _scheduler_task (sched y) ∧ (size (task_objects (sched y)) < fuel)%nat ∧
  schedule_step start_on_new_frame fuel (sched y) = Done (tt, s') ∧ _current s' = _scheduler_task s' ∧
  y' = put_sched s' y.

(** A lap goes over the ticks of an interval at least, to the end of a round. *)
Definition lap (y y' : sys) : Prop := ∃ y1, steps y y1 ∧ now y + interval ≤ now y1 ∧ round_end y1 y'.

Inductive laps : nat → sys → sys → Prop :=
  | laps_O y : laps 0 y y
  | laps_S k y y1 y2 : laps k y y1 → lap y1 y2 → laps (S k) y y2.

Lemma round_end_step y y' : round_end y y' → sys_step start_on_new_frame test_task test_task_name y y'.
Proof. intros (fuel & s' & Hcur & Hf & E & _ & ->). by eapply sys_schedule. Qed.

Lemma lap_later m y y' : live m y → lap y y' → live m y' ∧ now y + interval ≤ now y'.
Proof.
  intros H (y1 & H1 & Hn & Hend). destruct (live_steps m y y1 H1 H) as [Hl _].
  split; [by apply (live_step m y1); [|apply round_end_step]|]. by destruct Hend as (? & ? & _ & _ & _ & _ & ->).
Qed.

(** ** The pursuit of a task

    [M]: what the task [p] is going to do; until then it is in a state [G], at a point [C]
    of its code, where its sleeps end at [E] at the latest. *)
Section Pursuit.
Context (m p E : Z) (M : sys → Prop) (G : sys → Task → Prop) (C : code → Prop).
Hypothesis M_step : ∀ y y', live m y → sys_step start_on_new_frame test_task test_task_name y y' → M y → M y'.
Hypothesis G_step : ∀ y y' T T', live m y → sys_step start_on_new_frame test_task test_task_name y y' →
  alive (sched y) p T → alive (sched y') p T' → _arg T' = _arg T → G y T → G y' T'.
Hypothesis C_sleep : ∀ c e, C c → sleeps_until c = Some e → e ≤ E.
Hypothesis C_turn : ∀ y y' T c, live m y → _current (sched y) = p → alive (sched y) p T → G y T →
  progress y !! p = Some c → C c → turn p c y y' →
  M y' ∨ (∃ c' ls, C c' ∧ y' = stand y p c' ls) ∨ (∃ e, sleeps_until c = Some e ∧ jiffies y < e ∧ yielded y y').

Definition pursued (y : sys) : Prop := M y ∨ ∃ T c, alive (sched y) p T ∧ G y T ∧ progress y !! p = Some c ∧ C c.
Definition due (y : sys) : Prop := M y ∨
  ∃ T c, alive (sched y) p T ∧ G y T ∧ progress y !! p = Some c ∧ C c ∧ turns (sched y) p.

Lemma pursued_step y y' : live m y → sys_step start_on_new_frame test_task test_task_name y y' → pursued y → pursued y'.
Proof.
  intros H Hs [HM|(T & c & Hal & HG & Hc & HC)]; [left; by apply (M_step y)|].
  destruct (step_other m y y' p T c (lv_inv m y H) Hs Hal Hc) as [[Hcur Hturn]|(T' & Hal' & Ha & Hc' & _)].
  - destruct (C_turn y y' T c H Hcur Hal HG Hc HC Hturn) as [?|[(c' & ls & HC' & ->)|(e & _ & _ & s' & E' & ->)]];
      [by left|right..].
    + exists T, c'. cbn [stand progress sched]. rewrite lookup_insert_eq. split_and!; try done; try apply Hal.
      by apply (G_step y _ T T).
    + subst p. destruct (yield_alive m y s' T (lv_inv m y H) Hal E') as (T' & Hal' & Ha).
      exists T', c. split_and!; try done. by apply (G_step y _ T T').
  - right. exists T', c. split_and!; try done. by apply (G_step y y' T T').
Qed.

Lemma due_step y y' : E ≤ now y → in_time (now y) → live m y →
  sys_step start_on_new_frame test_task test_task_name y y' → due y → due y'.
Proof.
  intros HE Hi H Hs [HM|(T & c & Hal & HG & Hc & HC & Htu)]; [left; by apply (M_step y)|].
  destruct (step_other m y y' p T c (lv_inv m y H) Hs Hal Hc) as [[Hcur Hturn]|(T' & Hal' & Ha & Hc' & Hw & _)].
  - destruct (C_turn y y' T c H Hcur Hal HG Hc HC Hturn) as [?|[(c' & ls & HC' & ->)|(e & He & Hj & _)]].
    + by left.
    + right. exists T, c'. cbn [stand progress sched]. rewrite lookup_insert_eq. split_and!; try done; try apply Hal.
      by apply (G_step y _ T T).
    + specialize (C_sleep c e HC He). rewrite (lv_clock m y H Hi) in Hj. lia.
  - right. exists T', c. split_and!; try done; [by apply (G_step y y' T T')|by apply Hw].
Qed.

Lemma pursued_steps y y' : steps y y' → live m y → pursued y → pursued y'.
Proof.
  induction 1 as [|y y1 y2 Hs _ IH]; [done|]. intros H Hp. apply IH; [by apply (live_step m y)|].
  by apply (pursued_step y).
Qed.

Lemma due_steps y y' : steps y y' → live m y → E ≤ now y → in_time (now y') → due y → due y'.
Proof.
  induction 1 as [|y y1 y2 Hs Hr IH]; [done|]. intros H HE Hi Hd.
  pose proof (live_step m y y1 H Hs) as H1. destruct (live_steps m y1 y2 Hr H1) as [_ ?].
  destruct (step_grows m y y1 (lv_inv m y H) Hs) as (? & _).
  apply IH; [done|lia|done|]. apply (due_step y); try done. unfold in_time in *. lia.
Qed.

(** A task that is pursued when a round ends is due in the next one, *)
Lemma pursued_round y y' : live m y → round_end y y' → pursued y → due y'.
Proof.
  intros H Hend Hp. pose proof (round_end_step y y' Hend) as Hs. pose proof (live_step m y y' H Hs) as H'.
  destruct (pursued_step y y' H Hs Hp) as [?|(T & c & Hal & HG & Hc & HC)]; [by left|right].
  exists T, c. split_and!; try done. left.
  destruct Hend as (fuel & s' & Hcur & Hf & E1 & Hcur' & ->).
  cbn in Hcur'. apply (waits_round (sched y) fuel s' p T); try done.
  - by apply (sched_ok_of m), H.
  - apply Hal.
Qed.

(** and one that is due has done it at the end of that round. *)
Lemma due_round y y' : live m y → round_end y y' → due y → M y'.
Proof.
  intros H Hend [HM|(T & c & Hal & HG & Hc & HC & Htu)]; [by apply (M_step y); [|apply round_end_step|]|].
  destruct Hend as (fuel & s' & Hcur & Hf & E1 & Hcur' & ->). destruct Htu as [Hw|Hpc].
  - by destruct (waits_schedule (sched y) fuel s' p T Hcur Hf E1 Hal Hw).
  - destruct Hal as (_ & _ & Hne). congruence.
Qed.

Lemma two_laps y y1 y2 : live m y → E ≤ now y + interval → lap y y1 → lap y1 y2 → in_time (now y2) →
  pursued y → M y2.
Proof.
  intros H HE (ya & Ha & Hna & Hea) (yb & Hb & _ & Heb) Hi Hp.
  destruct (live_steps m y ya Ha H) as [Hla _]. pose proof (live_step m ya y1 Hla (round_end_step _ _ Hea)) as H1.
  destruct (live_steps m y1 yb Hb H1) as [Hlb _].
  assert (Hn : ∀ y y', round_end y y' → now y' = now y) by (by intros ? ? (? & ? & _ & _ & _ & _ & ->)).
  rewrite (Hn _ _ Heb) in Hi. specialize (Hn _ _ Hea).
  apply (due_round yb); [done|done|]. apply (due_steps y1); [done|done|lia|done|].
  apply (pursued_round ya); [done|done|]. by apply (pursued_steps y).
Qed.
End Pursuit.

(** ** The test tasks *)
Definition is_created (n : Z) (y : sys) : Prop := ∃ a, ints y !! a = Some n.
Definition finished (m n : Z) (y : sys) : Prop :=
  ∀ p T, is_test m (sched y) p T → ints y !! _arg T = Some n → _exited T = true.

Lemma finished_or_alive m n y : finished m n y ∨
  ∃ p T, alive (sched y) p T ∧ p ≠ m ∧ ints y !! _arg T = Some n.
Proof.
  set (P p T := p ≠ _scheduler_task (sched y) → p ≠ m → ints y !! _arg T = Some n → _exited T = true).
  destruct (decide (map_Forall P (task_objects (sched y)))) as [H|H].
  - left. intros p T (HT & Hp & Hm). by apply (H p T HT).
  - right. apply map_not_Forall in H as (p & T & HT & Hn); [|apply _].
    exists p, T. unfold P in Hn. unfold alive.
    destruct (_exited T); [by destruct Hn|]. destruct (decide (p = _scheduler_task (sched y))); [by destruct Hn|].
    destruct (decide (p = m)); [by destruct Hn|].
    destruct (decide (ints y !! _arg T = Some n)); [done|by destruct Hn].
Qed.

Lemma count_grows n out out' : out `prefix_of` out' → count (series n out) ≤ count (series n out').
Proof. intros [ls ->]. unfold series, count. rewrite omap_app, length_app. lia. Qed.

Lemma created_step m n y y' : live m y → sys_step start_on_new_frame test_task test_task_name y y' →
  is_created n y → is_created n y'.
Proof.
  intros H Hs [a Ha]. destruct (step_grows m y y' (lv_inv m y H) Hs) as (_ & Hi & _).
  exists a. by eapply lookup_weaken.
Qed.

Lemma finished_step m n y y' : live m y → sys_step start_on_new_frame test_task test_task_name y y' →
  is_created n y → finished m n y → finished m n y'.
Proof.
  intros H Hs [a Ha] Hf p T' (HT' & Hp & Hm) Hn. pose proof (live_step m y y' H Hs) as H'.
  destruct (step_grows m y y' (lv_inv m y H) Hs) as (_ & Hi & _ & Hsch).
  pose proof (lv_inv m y' H') as (k & ts & fin & al & os & Ht & _).
  assert (_arg T' = a) as Ea by (apply (ti_inj _ _ _ Ht _ _ n Hn); by eapply lookup_weaken).
  destruct (step_origin m y y' p T' (lv_inv m y H) Hs HT') as [[Hno _]|(T & HT & Et & Hx)]; [congruence|].
  apply Hx, (Hf p T); [split_and!; congruence|congruence].
Qed.

Section TestTask.
Context (m n p E c0 : Z).
Hypothesis p_test : p ≠ m.

Definition test_moved (y : sys) : Prop :=
  is_created n y ∧ (c0 < count (series n (output y)) ∨ finished m n y).
Definition test_state (y : sys) (T : Task) : Prop := ints y !! _arg T = Some n ∧ c0 ≤ count (series n (output y)).
Definition test_place (c : code) : Prop :=
  match c with TestEntry | TestTop _ _ _ | RoutineReturned => True | TestSleep _ _ _ e => e ≤ E | _ => False end.

Lemma test_moved_step y y' : live m y → sys_step start_on_new_frame test_task test_task_name y y' →
  test_moved y → test_moved y'.
Proof.
  intros H Hs [Hcr Hm]. split; [by apply (created_step m n y)|].
  destruct Hm as [Hm|Hm]; [left|right; by apply (finished_step m n y)].
  destruct (step_grows m y y' (lv_inv m y H) Hs) as (_ & _ & Ho & _). pose proof (count_grows n _ _ Ho). lia.
Qed.

Lemma test_state_step y y' T T' : live m y → sys_step start_on_new_frame test_task test_task_name y y' →
  alive (sched y) p T → alive (sched y') p T' → _arg T' = _arg T → test_state y T → test_state y' T'.
Proof.
  intros H Hs _ _ Ea [Hn Hc]. destruct (step_grows m y y' (lv_inv m y H) Hs) as (_ & Hi & Ho & _).
  pose proof (count_grows n _ _ Ho). split; [rewrite Ea; by eapply lookup_weaken|lia].
Qed.

Lemma exit_finishes y T s' : live m y → _current (sched y) = p → alive (sched y) p T → ints y !! _arg T = Some n →
  exit_task start_on_new_frame (sched y) = Done (tt, s') → finished m n (put_sched s' y).
Proof.
  intros H Hcur Hal Hn E' q T' (HT' & Hq & Hm) Hnq. cbn in *. pose proof (lv_inv m y H) as Hinv.
  pose proof Hinv as (k & ts & fin & al & os & Ht & _).
  assert (Hne : _current (sched y) ≠ _scheduler_task (sched y)) by (rewrite Hcur; apply Hal).
  pose proof (step_exit start_on_new_frame (sched y) s' Hne E') as Hs.
  pose proof (sched_ok_of m y Hinv) as Hok.
  assert (Hdom : q ∈ dom (task_objects (sched y))).
  { destruct (Hok) as (ts1 & fin1 & al1 & os1 & H1).
    destruct (inv_exit start_on_new_frame (sched y) ts1 fin1 al1 os1 H1 Hne)
      as [?|(s1 & r & E1 & _ & _ & _ & _ & _ & t & Hc & Ho)]; [congruence|].
    replace s1 with s' in * by congruence. rewrite Ho in HT'. apply elem_of_dom_2 in HT'. rewrite dom_insert_L in HT'.
    apply elem_of_dom_2 in Hc. set_solver. }
  destruct (step_back (sched y) s' q T' Hok Hs HT' Hdom) as (T1 & HT1 & Ea & _).
  rewrite (step_scheduler _ _ Hok Hs) in Hq.
  assert (q = p) as ->.
  { apply (ti_args _ _ _ Ht q p T1 T); [done|split_and!; [apply Hal|apply Hal|done]|].
    apply (ti_inj _ _ _ Ht _ _ n); congruence. }
  apply (exit_exits m y s' T' Hinv Hne E'). by rewrite Hcur.
Qed.

Lemma test_turns y y' T c : live m y → _current (sched y) = p → alive (sched y) p T → test_state y T →
  progress y !! p = Some c → test_place c → turn p c y y' →
  test_moved y' ∨ (∃ c' ls, test_place c' ∧ y' = stand y p c' ls) ∨
  (∃ e, sleeps_until c = Some e ∧ jiffies y < e ∧ yielded y y').
Proof.
  intros H Hcur Hal [Hn Hc0] Hc HC Hturn. pose proof (lv_inv m y H) as (k & ts & fin & al & os & Ht & _).
  destruct (ti_test _ _ _ Ht p T) as (n' & d & Hn' & Hd & Hok & _); [split_and!; [apply Hal|apply Hal|done]|].
  replace n' with n in * by congruence. replace d with c in * by congruence. clear n' d Hn' Hd.
  destruct c as [i|i|i e| | |j ctr i|j ctr i|j ctr i e|]; try done; cbn [turn] in Hturn.
  - destruct Hturn as (n' & ->). right; left. do 2 eexists. by split; [|reflexivity].
  - destruct (is_odd j || (i <? test_iterations)); subst y'; [left|right; left; do 2 eexists; by split; [|reflexivity]].
    destruct Hok as (-> & _). split; [by exists (_arg T)|left]. cbn [stand output].
    rewrite series_snoc, Z.eqb_refl. unfold count in *. rewrite length_app. cbn [length]. lia.
  - destruct (Z.ltb_spec (jiffies y) e); [right; right; by exists e|]. subst y'. right; left. do 2 eexists. by split; [|reflexivity].
  - destruct Hturn as (s' & E' & ->). left. split; [by exists (_arg T)|right]. by apply (exit_finishes y T).
Qed.
End TestTask.

Lemma test_two_laps m n y y1 y2 : live m y → _current (sched y) = _scheduler_task (sched y) → is_created n y →
  lap y y1 → lap y1 y2 → in_time (now y2) →
  finished m n y2 ∨ count (series n (output y)) + 1 ≤ count (series n (output y2)).
Proof.
  intros H Hcur Hcr H1 H2 Hi. set (E := now y + interval). set (c0 := count (series n (output y))).
  assert (Hle : in_time (now y)).
  { pose proof (lap_later m y y1 H H1) as [H1' ?]. pose proof (lap_later m y1 y2 H1' H2) as [_ ?].
    unfold in_time, interval in *. lia. }
  assert (test_moved m n c0 y2) as [_ [?|?]]; [|right; lia|by left].
  assert (HM : ∀ z z', live m z → sys_step start_on_new_frame test_task test_task_name z z' →
    test_moved m n c0 z → test_moved m n c0 z') by (intros; by eapply test_moved_step).
  destruct (finished_or_alive m n y) as [Hf|(p & T & Hal & Hm & Hn)].
  { apply (two_laps m (_scheduler_task (sched y)) E (test_moved m n c0) (λ _ _, False) (λ _, False)) with y y1;
      try done. left. split; [done|by right]. }
  apply (two_laps m p E (test_moved m n c0) (test_state n c0) (test_place E)) with y y1; try done.
  - intros z z' U U'. by apply (test_state_step m n p).
  - intros c e. destruct c; try done. by intros ? [= <-].
  - intros z z' U c. by apply (test_turns m n p E c0).
  - pose proof (lv_inv m y H) as (k & ts & fin & al & os & Ht & _).
    destruct (ti_test _ _ _ Ht p T) as (n' & c & _ & Hc & Hok & _); [split_and!; [apply Hal|apply Hal|done]|].
    right. exists T, c. split; [done|]. split; [split; [done|unfold c0; lia]|]. split; [done|].
    pose proof (lv_sleep m y H p T c) as Hs.
    destruct (lv_off m y H p T c Hal Hc) as [Ho|Hp]; [|by destruct Hal as (_ & _ & []); congruence].
    destruct c; try done. by apply Hs.
Qed.

(** ** The main task *)
Section MainTask.
Context (m i E : Z).
Hypothesis i_range : 0 ≤ i < tasks_count.

Definition main_place (c : code) : Prop :=
  match c with MainTop j => j = i | MainSleep j e => j + 1 = i ∧ e ≤ E | _ => False end.

Lemma main_turns y y' T c : live m y → _current (sched y) = m → alive (sched y) m T → True →
  progress y !! m = Some c → main_place c → turn m c y y' →
  is_created i y' ∨ (∃ c' ls, main_place c' ∧ y' = stand y m c' ls) ∨
  (∃ e, sleeps_until c = Some e ∧ jiffies y < e ∧ yielded y y').
Proof.
  intros H Hcur Hal _ Hc HC Hturn. destruct c as [j|j|j e| | |n ctr j|n ctr j|n ctr j e|]; try done; cbn in HC, Hturn.
  - subst j. destruct (Z.ltb_spec i tasks_count); [|lia].
    destruct Hturn as (ia & new & w & s1 & U & -> & _). left. exists ia. cbn. apply lookup_insert_eq.
  - destruct HC as [HC He]. destruct (Z.ltb_spec (jiffies y) e); [right; right; by exists e|]. subst y'.
    right; left. do 2 eexists. by split; [|reflexivity].
Qed.
End MainTask.

Lemma main_two_laps m i y y1 y2 : live m y → _current (sched y) = _scheduler_task (sched y) → 0 ≤ i < tasks_count →
  (∀ n, 0 ≤ n < i → is_created n y) → lap y y1 → lap y1 y2 → in_time (now y2) → is_created i y2.
Proof.
  intros H Hcur Hr Hbefore H1 H2 Hi. set (E := now y + interval).
  assert (Hle : in_time (now y)).
  { pose proof (lap_later m y y1 H H1) as [H1' ?]. pose proof (lap_later m y1 y2 H1' H2) as [_ ?].
    unfold in_time, interval in *. lia. }
  apply (two_laps m m E (is_created i) (λ _ _, True) (main_place i E)) with y y1; try done.
  - intros z z'. by apply created_step.
  - intros c e. destruct c; try done. by intros [_ ?] [= <-].
  - intros z z' U c. by apply main_turns.
  - pose proof (lv_inv m y H) as (k & ts & fin & al & os & Ht & _).
    pose proof (ti_main _ _ _ Ht) as (Hms & T & c & HT & Hx & Hc & Hok).
    destruct (decide (i < k)) as [Hik|Hik]; [left; apply (ti_created _ _ _ Ht); lia|right].
    assert (Hk : k = i).
    { assert (0 ≤ k) by (destruct c; cbn in Hok; try done; unfold tasks_count in *; lia).
      destruct (decide (k < i)); [|lia]. destruct (Hbefore k) as [a Ha]; [lia|]. pose proof (ti_ints _ _ _ Ht a k Ha). lia. }
    assert (Hal : alive (sched y) m T) by done. exists T, c. split_and!; try done.
    pose proof (lv_sleep m y H m T c) as Hs.
    destruct (lv_off m y H m T c Hal Hc) as [Ho|Hp]; [|congruence]. subst k.
    destruct c as [j|j|j e| | |n ctr j|n ctr j|n ctr j e|]; try done; cbn in *; [lia|split; [lia|by apply Hs]|lia].
Qed.

(** ** Any number of laps *)
Lemma lap_keeps m (P : sys → Prop) y y' :
  (∀ z z', live m z → sys_step start_on_new_frame test_task test_task_name z z' → P z → P z') →
  live m y → lap y y' → P y → P y'.
Proof.
  intros HP H (y1 & H1 & _ & Hend) HPy.
  assert (Hboth : live m y1 ∧ P y1).
  { clear Hend. induction H1 as [|y y1 y2 Hs _ IH]; [done|]. apply IH; [by apply (live_step m y)|by apply (HP y)]. }
  destruct Hboth as [Hl HP1]. by apply (HP y1); [|apply round_end_step|].
Qed.

Lemma lap_rests m y y' : live m y → lap y y' → _current (sched y') = _scheduler_task (sched y').
Proof. intros _ (y1 & _ & _ & fuel & s' & _ & _ & _ & Hc & ->). done. Qed.

Lemma laps_live m k y y' : live m y → _current (sched y) = _scheduler_task (sched y) → laps k y y' →
  live m y' ∧ _current (sched y') = _scheduler_task (sched y').
Proof.
  intros H Hcur. induction 1 as [|k y y1 y2 _ IH Hlap]; [done|]. destruct (IH H Hcur) as [H1 _].
  split; [by apply (lap_later m y1)|by apply (lap_rests m y1)].
Qed.

Lemma two_more k y y' : laps (2 * S k) y y' → ∃ y1 y2, laps (2 * k) y y1 ∧ lap y1 y2 ∧ lap y2 y'.
Proof.
  replace (2 * S k)%nat with (S (S (2 * k))) by lia. intros H. inversion H as [|? ? y2 ? H2 Hb]; subst.
  inversion H2 as [|? ? y1 ? H1 Ha]; subst. by exists y1, y2.
Qed.

Lemma laps_progress m k : ∀ y y', live m y → _current (sched y) = _scheduler_task (sched y) → laps (2 * k) y y' →
  in_time (now y') → ∀ n, 0 ≤ n < tasks_count →
  (n < Z.of_nat k → is_created n y') ∧
  (is_created n y → is_created n y' ∧ (finished m n y' ∨ count (series n (output y)) + Z.of_nat k ≤ count (series n (output y')))) ∧
  (n < Z.of_nat k → finished m n y' ∨ Z.of_nat k - 1 - n ≤ count (series n (output y'))).
Proof.
  induction k as [|k IH]; intros y y' H Hcur Hl Hi.
  { inversion Hl; subst. intros n Hn. split_and!; try lia. intros ?. split; [done|right; lia]. }
  destruct (two_more k y y' Hl) as (y1 & y2 & H1 & Ha & Hb). destruct (laps_live m _ y y1 H Hcur H1) as [Hl1 Hc1].
  destruct (lap_later m y1 y2 Hl1 Ha) as [Hl2 Hn2]. destruct (lap_later m y2 y' Hl2 Hb) as [Hl' Hn'].
  assert (Hi1 : in_time (now y1)) by (unfold in_time, interval in *; lia).
  specialize (IH y y1 H Hcur H1 Hi1).
  assert (Hcr : ∀ n, is_created n y1 → is_created n y').
  { intros n Hn. apply (lap_keeps m _ y2 y'); [intros z z'; by apply created_step|done|done|].
    apply (lap_keeps m _ y1 y2); [intros z z'; by apply created_step|done|done|done]. }
  assert (Hgo : ∀ n c, is_created n y1 → finished m n y1 ∨ c ≤ count (series n (output y1)) →
    finished m n y' ∨ c + 1 ≤ count (series n (output y'))).
  { intros n c Hn Hcase. destruct (test_two_laps m n y1 y2 y' Hl1 Hc1 Hn Ha Hb Hi) as [?|?]; [by left|].
    destruct Hcase as [Hf|?]; [left|right; lia].
    assert (HP : ∀ z z', live m z → sys_step start_on_new_frame test_task test_task_name z z' →
      is_created n z ∧ finished m n z → is_created n z' ∧ finished m n z').
    { intros z z' Hz Hs [? ?]. split; [by apply (created_step m n z)|by apply (finished_step m n z)]. }
    apply (lap_keeps m _ y2 y' HP Hl2 Hb), (lap_keeps m _ y1 y2 HP Hl1 Ha). done. }
  intros n Hn. destruct (IH n Hn) as (IH1 & IH2 & IH3).
  assert (Hnew : n < Z.of_nat (S k) → is_created n y').
  { intros Hk. destruct (decide (n = Z.of_nat k)) as [->|]; [|apply Hcr, IH1; lia].
    apply (main_two_laps m _ y1 y2); try done. intros i Hj. destruct (IH i) as [Hi0 _]; [lia|]. apply Hi0. lia. }
  split; [done|]. split.
  - intros Hy. destruct (IH2 Hy) as [Hy1 Hcase]. split; [by apply Hcr|].
    destruct (Hgo n _ Hy1 Hcase); [by left|right; lia].
  - intros Hk. destruct (decide (n = Z.of_nat k)) as [->|].
    + right. unfold count. lia.
    + destruct (Hgo n (Z.of_nat k - 1 - n)); [apply IH1; lia|apply IH3; lia|by left|right; lia].
Qed.

(** ** What has become of the tasks *)
Lemma odd_not_finished m n y : sys_inv start_on_new_frame m y → is_created n y → is_odd n = true → ¬ finished m n y.
Proof.
  intros H [a Ha] Ho Hf. destruct (odd_alive start_on_new_frame m y a n H Ha Ho) as (p & T & HT & Ea & Hx).
  rewrite (Hf p T HT) in Hx; [done|congruence].
Qed.

Lemma finished_count m n y : sys_inv start_on_new_frame m y → is_created n y → finished m n y →
  count (series n (output y)) = test_iterations.
Proof.
  intros H [a Ha] Hf. pose proof H as (k & ts & fin & al & os & Ht & _).
  destruct (ti_all _ _ _ Ht n (ti_ints _ _ _ Ht a n Ha)) as [(p & T & HT & Hn)|[_ ?]]; [|done].
  destruct (test_numbers start_on_new_frame m y p T H HT) as (j & Hj & _ & Hx).
  replace j with n in * by congruence. by apply Hx, (Hf p T).
Qed.

Lemma boot_live s ts al os m j : sched_inv start_on_new_frame s ts [] al os → ts = [_scheduler_task s; m] → 0 ≤ j →
  (∀ T, task_objects s !! m = Some T → _exited T = false) → live m (boot_system s m j).
Proof.
  intros H Hts Hj Hx.
  assert (Hall : ∀ p T c, alive s p T → progress (boot_system s m j) !! p = Some c → c = MainTop 0).
  { intros p T c _ Hc. cbn in Hc. by apply lookup_singleton_Some in Hc as [_ <-]. }
  split; [by apply (boot_inv start_on_new_frame s ts al os)| |].
  - intros p T c Hal Hc. left. by rewrite (Hall p T c Hal Hc).
  - intros p T c e Hal Hc. by rewrite (Hall p T c Hal Hc).
Qed.

(** ** Running laps

    The system without other users of the heap: ten ticks, then every task until the
    round ends. *)
Fixpoint drive (fuel : nat) (t : Z) (y : sys) : option sys :=
  match fuel with
  | O => None
  | S n =>
      if _current (sched y) =? _scheduler_task (sched y) then
        match schedule_step start_on_new_frame (S (size (task_objects (sched y)))) (sched y) with
        | Done (_, s') =>
            if (_current s' =? _scheduler_task s') && (t + interval <=? now y) then Some (put_sched s' y)
            else drive n t (put_sched s' y)
        | _ => None
        end
      else
        match run_task start_on_new_frame test_task test_task_name 0 y with Done (_, y') => drive n t y' | _ => None end
  end.

Definition run_lap (fuel : nat) (y : sys) : option sys := drive fuel (now y) (Nat.iter 10 tick y).
Fixpoint run_laps (fuel k : nat) (y : sys) : option sys :=
  match k with O => Some y | S k => y1 ← run_laps fuel k y; run_lap fuel y1 end.

Lemma drive_lap fuel t : ∀ y y', drive fuel t y = Some y' → ∃ y1, steps y y1 ∧ t + interval ≤ now y1 ∧ round_end y1 y'.
Proof.
  induction fuel as [|fuel IH]; intros y y' E; [done|]. cbn [drive] in E.
  destruct (Z.eqb_spec (_current (sched y)) (_scheduler_task (sched y))) as [Hcur|Hcur].
  - destruct (schedule_step _ _ _) as [[[] s']| | |] eqn:Es; try done.
    destruct (Z.eqb_spec (_current s') (_scheduler_task s')) as [Hc|Hc], (Z.leb_spec (t + interval) (now y)); cbn in E.
    { injection E as <-. exists y. split_and!; [done|done|]. by eexists _, s'; split_and!; [|apply Nat.lt_succ_diag_r|..]. }
    all: destruct (IH _ _ E) as (y1 & H1 & Hn & H2); exists y1; split_and!; [|done|done];
      (eapply rtc_l; [|exact H1]); by eapply sys_schedule; [|apply Nat.lt_succ_diag_r|].
  - destruct (run_task _ _ _ _ _) as [[[] y1]| | |] eqn:Er; try done.
    destruct (IH _ _ E) as (y2 & H1 & Hn & H2). exists y2. split_and!; [|done|done].
    eapply rtc_l; [by eapply sys_run|done].
Qed.

Lemma ticks_steps n y : steps y (Nat.iter n tick y).
Proof. induction n as [|n IH]; [done|]. eapply rtc_r; [exact IH|]. apply sys_tick. Qed.

Lemma run_laps_laps fuel k : ∀ y y', run_laps fuel k y = Some y' → laps k y y'.
Proof.
  induction k as [|k IH]; intros y y' E; [injection E as <-; constructor|]. cbn [run_laps] in E.
  apply bind_Some in E as (y1 & E1 & E2). apply (laps_S k y y1); [by apply IH|].
  destruct (drive_lap fuel _ _ _ E2) as (y2 & H1 & Hn & H2). exists y2. split_and!; [|done|done].
  etrans; [apply ticks_steps|done].
Qed.
End Liveness.

(** * Properties *)

(** C35: no task starves.  Cut the run of the kernel's tasks into laps, each one over the ticks
    of an interval at least and to the end of a round of the scheduler: from any state in which
    the scheduler has the processor, until [jiffies] wraps and as long as memory lasts, every
    two laps the main task creates a test task and every test task prints an iteration; the
    tasks with an even number have printed their five and have finished at last, those with
    an odd number go on. *)
Theorem tasks_live {W} `{KH : KernelHeap W} start test_task name routine object_size w al os flags main sched_name
    main_name j
    (Hstart : 0 ≤ start < 2 ^ 32) (Hsize : 1 ≤ object_size ≤ 2 ^ 31) (Hw : heap_rep w al os)
    (Hmain : main ≠ nullptr) (Hj : 0 ≤ j) :
  match init_scheduling start routine object_size flags main sched_name main_name (boot_state w) with
  | Done (_, s0) => ∃ m, dom (task_objects s0) = {[ _scheduler_task s0; m ]} ∧
      ∀ y k y', rtc (sys_step start test_task name) (boot_system s0 m j) y →
        _current (sched y) = _scheduler_task (sched y) → laps start test_task name (2 * k) y y' → in_time (now y') →
        ∀ n, 0 ≤ n < tasks_count →
          (is_created n y → finished m n y' ∨ count (series n (output y)) + Z.of_nat k ≤ count (series n (output y'))) ∧
          (n < Z.of_nat k → is_created n y') ∧
          (is_odd n = true → n < Z.of_nat k → Z.of_nat k - 1 - n ≤ count (series n (output y'))) ∧
          (is_odd n = false → n + 7 ≤ Z.of_nat k → finished m n y' ∧ count (series n (output y')) = test_iterations)
  | Fault msg => out_of_memory msg
  | Panic _ | Fuel => False
  end.
Proof.
  destruct (init_done start routine object_size w al os flags main sched_name main_name Hstart Hsize Hw Hmain)
    as [(msg & -> & Hmsg)|(s0 & t1 & t2 & al0 & os0 & -> & H0 & _ & Hs & _ & Hx)]; [done|].
  exists t2. split.
  { apply set_eq. intros t. rewrite (st_objects _ _ _ _ _ (si_static _ _ _ _ _ _ H0)), Hs. set_solver. }
  intros y k y' Hr Hcur Hl Hi n Hn.
  destruct (live_steps start test_task name Hstart t2 _ y Hr) as [Hly _].
  { apply (boot_live start s0 [t1; t2] al0 os0); [done|by rewrite Hs|done|done]. }
  destruct (laps_live start test_task name Hstart t2 _ y y' Hly Hcur Hl) as [Hl' _].
  pose proof (lv_inv start t2 y' Hl') as Hinv.
  destruct (laps_progress start test_task name Hstart t2 k y y' Hly Hcur Hl Hi n Hn) as (Ha & Hb & Hc).
  split_and!; [by intros [_ ?]%Hb|done| |].
  - intros Ho Hk. destruct (Hc Hk) as [Hf|]; [|done]. by destruct (odd_not_finished start t2 n y' Hinv (Ha Hk) Ho).
  - intros Ho Hk. assert (Hk' : n < Z.of_nat k) by lia.
    pose proof (even_bounded start t2 y' n Hinv Ho) as Hle. unfold test_iterations in Hle.
    destruct (Hc Hk') as [Hf|?]; [|lia]. split; [done|]. by apply (finished_count start t2 n y' Hinv); [apply Ha|].
Qed.

(** ** A run of 28 laps

    The main task has created all eight test tasks, and those with an even number have
    printed their lines and are gone. *)
Definition example_boot : sched_state :=
  match init_scheduling (KH := bump_heap) 77 66 32 0 55 0 0 (boot_state example_heap) with
  | Done (_, s0) => s0
  | _ => boot_state example_heap
  end.
Abbreviation example_run := (run_laps (KH := bump_heap) 77 88 0 100 28 (boot_system example_boot 77824 1000)).

Example example_boots :
  init_scheduling (KH := bump_heap) 77 66 32 0 55 0 0 (boot_state example_heap) = Done (tt, example_boot).
Proof. by vm_compute. Qed.

Example example_tasks : _scheduler_task example_boot = 8192 ∧ _current example_boot = 8192 ∧
  dom (task_objects example_boot) = {[ 8192; 77824 ]}.
Proof. by vm_compute. Qed.

(** The clock, the lines of each task, and how many tasks are left: the scheduler, the main
    task and the four odd ones. *)
Example example_run_result :
  (λ y, (now y, (λ n, count (series n (output y))) <$> seqZ 0 8, size (task_objects (sched y)))) <$> example_run =
  Some (1280, [5; 26; 5; 24; 5; 22; 5; 20], 6%nat).
Proof. by vm_compute. Qed.

Lemma second_task (a b m : Z) : a ≠ b → ({[ a; b ]} : gset Z) = {[ a; m ]} → b = m.
Proof.
  intros Hab H. assert (Hb : b ∈ ({[ a; m ]} : gset Z)) by (rewrite <- H; set_solver).
  rewrite elem_of_union, !elem_of_singleton in Hb. by destruct Hb.
Qed.

Lemma example_main m : dom (task_objects example_boot) = {[ _scheduler_task example_boot; m ]} → m = 77824.
Proof.
  destruct example_tasks as (-> & _ & ->). intros H. symmetry. by apply (second_task 8192).
Qed.

Lemma example_rests j : _current (sched (boot_system example_boot 77824 j)) =
  _scheduler_task (sched (boot_system example_boot 77824 j)).
Proof. cbn [sched boot_system]. destruct example_tasks as (-> & -> & _). reflexivity. Qed.

Lemma example_laps : ∃ y', in_time (now y') ∧
  laps (KH := bump_heap) 77 88 0 (2 * 14) (boot_system example_boot 77824 1000) y'.
Proof.
  destruct (proj1 (fmap_Some _ _ _) example_run_result) as (y' & E & Hr). injection Hr as Hnow _ _.
  exists y'. split; [rewrite <- Hnow; by vm_compute|].
  exact (run_laps_laps (KH := bump_heap) 77 88 0 100 28 _ y' E).
Qed.

Lemma tasks_live_witness : ∃ m y',
  laps (KH := bump_heap) 77 88 0 (2 * 14) (boot_system example_boot m 1000) y' ∧
  is_created 7 y' ∧ 6 ≤ count (series 7 (output y')) ∧ finished m 6 y' ∧ count (series 6 (output y')) = 5.
Proof.
  pose proof (tasks_live (KH := bump_heap) 77 88 0 66 32 example_heap ∅ ∅ 0 55 0 0 1000 ltac:(lia) ltac:(lia)
    example_heap_rep ltac:(done) ltac:(lia)) as H.
  rewrite example_boots in H. destruct H as (m & Hd & H). apply example_main in Hd as ->.
  destruct example_laps as (y' & Hi & Hl). exists 77824, y'. split; [exact Hl|].
  specialize (H _ 14%nat y' (rtc_refl _ _) (example_rests 1000) Hl Hi). clear Hl.
  destruct (H 7 ltac:(done)) as (_ & Ha & Hb & _). destruct (H 6 ltac:(done)) as (_ & _ & _ & Hc).
  split; [by apply Ha|]. split; [by apply Hb|]. by apply Hc.
Defined.
