(* ===== verification/Keyboard.v ===== *)
(** * The keyboard

    [devices/include/bolgenos-ng/keyboard.hpp] and [devices/src/keyboard.cpp]: keys
    and their characters; [devices/ps2/src/ps2_keyboard_sm.cpp]: the state machine
    that turns the bytes of the controller into pressed and released keys and
    into characters on the console. *)
From stdpp Require Import base functions tactics numbers list gmap strings.
From S2P Require Import Prelude.

(** ** Keys *)
Inductive kb_key : Type :=
  | kb_key_none | kb_key_f1 | kb_key_f2 | kb_key_f3 | kb_key_f4
  | kb_key_f5 | kb_key_f6 | kb_key_f7 | kb_key_f8 | kb_key_f9
  | kb_key_f10 | kb_key_f11 | kb_key_f12 | kb_key_tab | kb_key_backspace
  | kb_key_lalt | kb_key_lshift | kb_key_lctrl | kb_key_ralt | kb_key_rshift
  | kb_key_rctrl | kb_key_back_tick | kb_key_0 | kb_key_1 | kb_key_2
  | kb_key_3 | kb_key_4 | kb_key_5 | kb_key_6 | kb_key_7
  | kb_key_8 | kb_key_9 | kb_key_a | kb_key_b | kb_key_c
  | kb_key_d | kb_key_e | kb_key_f | kb_key_g | kb_key_h
  | kb_key_i | kb_key_j | kb_key_k | kb_key_l | kb_key_m
  | kb_key_n | kb_key_o | kb_key_p | kb_key_q | kb_key_r
  | kb_key_s | kb_key_t | kb_key_u | kb_key_v | kb_key_w
  | kb_key_x | kb_key_y | kb_key_z | kb_key_space | kb_key_comma
  | kb_key_dot | kb_key_slash | kb_key_semicolon | kb_key_minus | kb_key_apos
  | kb_key_sqbracketl | kb_key_equal | kb_key_enter | kb_key_sqbracketr | kb_key_backslash
  | kb_key_num_0 | kb_key_num_1 | kb_key_num_2 | kb_key_num_3 | kb_key_num_4
  | kb_key_num_5 | kb_key_num_6 | kb_key_num_7 | kb_key_num_8 | kb_key_num_9
  | kb_key_num_dot | kb_key_num_plus | kb_key_num_minus | kb_key_num_star | kb_key_num_slash
  | kb_key_num_enter | kb_key_escape | kb_key_capslock | kb_key_numlock | kb_key_scrolllock
  | kb_key_acpi_sleep | kb_key_acpi_power | kb_key_acpi_wake | kb_key_cursor_up | kb_key_cursor_down
  | kb_key_cursor_right | kb_key_cursor_left | kb_key_mm_www_search | kb_key_mm_prev_track | kb_key_mm_www_fav
  | kb_key_mm_www_refresh | kb_key_mm_voldown | kb_key_mm_mute | kb_key_mm_www_stop | kb_key_mm_calc
  | kb_key_mm_www_forward | kb_key_mm_vol_up | kb_key_mm_playpause | kb_key_mm_www_back | kb_key_mm_www_home
  | kb_key_mm_stop | kb_key_mm_mycomp | kb_key_mm_email | kb_key_mm_next_track | kb_key_mm_select
  | kb_key_end | kb_key_home | kb_key_page_down | kb_key_page_up | kb_key_lgui
  | kb_key_rgui | kb_key_apps | kb_key_insert | kb_key_delete | kb_key_print_screen
  | kb_key_pause | kb_key_max.

(** The value of the enumerator. *)
Definition kb_value (key : kb_key) : Z :=
  match key with
  | kb_key_none => 0 | kb_key_f1 => 1 | kb_key_f2 => 2 | kb_key_f3 => 3
  | kb_key_f4 => 4 | kb_key_f5 => 5 | kb_key_f6 => 6 | kb_key_f7 => 7
  | kb_key_f8 => 8 | kb_key_f9 => 9 | kb_key_f10 => 10 | kb_key_f11 => 11
  | kb_key_f12 => 12 | kb_key_tab => 13 | kb_key_backspace => 14 | kb_key_lalt => 15
  | kb_key_lshift => 16 | kb_key_lctrl => 17 | kb_key_ralt => 18 | kb_key_rshift => 19
  | kb_key_rctrl => 20 | kb_key_back_tick => 21 | kb_key_0 => 22 | kb_key_1 => 23
  | kb_key_2 => 24 | kb_key_3 => 25 | kb_key_4 => 26 | kb_key_5 => 27
  | kb_key_6 => 28 | kb_key_7 => 29 | kb_key_8 => 30 | kb_key_9 => 31
  | kb_key_a => 32 | kb_key_b => 33 | kb_key_c => 34 | kb_key_d => 35
  | kb_key_e => 36 | kb_key_f => 37 | kb_key_g => 38 | kb_key_h => 39
  | kb_key_i => 40 | kb_key_j => 41 | kb_key_k => 42 | kb_key_l => 43
  | kb_key_m => 44 | kb_key_n => 45 | kb_key_o => 46 | kb_key_p => 47
  | kb_key_q => 48 | kb_key_r => 49 | kb_key_s => 50 | kb_key_t => 51
  | kb_key_u => 52 | kb_key_v => 53 | kb_key_w => 54 | kb_key_x => 55
  | kb_key_y => 56 | kb_key_z => 57 | kb_key_space => 58 | kb_key_comma => 59
  | kb_key_dot => 60 | kb_key_slash => 61 | kb_key_semicolon => 62 | kb_key_minus => 63
  | kb_key_apos => 64 | kb_key_sqbracketl => 65 | kb_key_equal => 66 | kb_key_enter => 67
  | kb_key_sqbracketr => 68 | kb_key_backslash => 69 | kb_key_num_0 => 70 | kb_key_num_1 => 71
  | kb_key_num_2 => 72 | kb_key_num_3 => 73 | kb_key_num_4 => 74 | kb_key_num_5 => 75
  | kb_key_num_6 => 76 | kb_key_num_7 => 77 | kb_key_num_8 => 78 | kb_key_num_9 => 79
  | kb_key_num_dot => 80 | kb_key_num_plus => 81 | kb_key_num_minus => 82 | kb_key_num_star => 83
  | kb_key_num_slash => 84 | kb_key_num_enter => 85 | kb_key_escape => 86 | kb_key_capslock => 87
  | kb_key_numlock => 88 | kb_key_scrolllock => 89 | kb_key_acpi_sleep => 90 | kb_key_acpi_power => 91
  | kb_key_acpi_wake => 92 | kb_key_cursor_up => 93 | kb_key_cursor_down => 94 | kb_key_cursor_right => 95
  | kb_key_cursor_left => 96 | kb_key_mm_www_search => 97 | kb_key_mm_prev_track => 98 | kb_key_mm_www_fav => 99
  | kb_key_mm_www_refresh => 100 | kb_key_mm_voldown => 101 | kb_key_mm_mute => 102 | kb_key_mm_www_stop => 103
  | kb_key_mm_calc => 104 | kb_key_mm_www_forward => 105 | kb_key_mm_vol_up => 106 | kb_key_mm_playpause => 107
  | kb_key_mm_www_back => 108 | kb_key_mm_www_home => 109 | kb_key_mm_stop => 110 | kb_key_mm_mycomp => 111
  | kb_key_mm_email => 112 | kb_key_mm_next_track => 113 | kb_key_mm_select => 114 | kb_key_end => 115
  | kb_key_home => 116 | kb_key_page_down => 117 | kb_key_page_up => 118 | kb_key_lgui => 119
  | kb_key_rgui => 120 | kb_key_apps => 121 | kb_key_insert => 122 | kb_key_delete => 123
  | kb_key_print_screen => 124 | kb_key_pause => 125 | kb_key_max => 126
  end.

Definition kb_keys : list kb_key :=
  [ kb_key_none; kb_key_f1; kb_key_f2; kb_key_f3; kb_key_f4;
    kb_key_f5; kb_key_f6; kb_key_f7; kb_key_f8; kb_key_f9;
    kb_key_f10; kb_key_f11; kb_key_f12; kb_key_tab; kb_key_backspace;
    kb_key_lalt; kb_key_lshift; kb_key_lctrl; kb_key_ralt; kb_key_rshift;
    kb_key_rctrl; kb_key_back_tick; kb_key_0; kb_key_1; kb_key_2;
    kb_key_3; kb_key_4; kb_key_5; kb_key_6; kb_key_7;
    kb_key_8; kb_key_9; kb_key_a; kb_key_b; kb_key_c;
    kb_key_d; kb_key_e; kb_key_f; kb_key_g; kb_key_h;
    kb_key_i; kb_key_j; kb_key_k; kb_key_l; kb_key_m;
    kb_key_n; kb_key_o; kb_key_p; kb_key_q; kb_key_r;
    kb_key_s; kb_key_t; kb_key_u; kb_key_v; kb_key_w;
    kb_key_x; kb_key_y; kb_key_z; kb_key_space; kb_key_comma;
    kb_key_dot; kb_key_slash; kb_key_semicolon; kb_key_minus; kb_key_apos;
    kb_key_sqbracketl; kb_key_equal; kb_key_enter; kb_key_sqbracketr; kb_key_backslash;
    kb_key_num_0; kb_key_num_1; kb_key_num_2; kb_key_num_3; kb_key_num_4;
    kb_key_num_5; kb_key_num_6; kb_key_num_7; kb_key_num_8; kb_key_num_9;
    kb_key_num_dot; kb_key_num_plus; kb_key_num_minus; kb_key_num_star; kb_key_num_slash;
    kb_key_num_enter; kb_key_escape; kb_key_capslock; kb_key_numlock; kb_key_scrolllock;
    kb_key_acpi_sleep; kb_key_acpi_power; kb_key_acpi_wake; kb_key_cursor_up; kb_key_cursor_down;
    kb_key_cursor_right; kb_key_cursor_left; kb_key_mm_www_search; kb_key_mm_prev_track; kb_key_mm_www_fav;
    kb_key_mm_www_refresh; kb_key_mm_voldown; kb_key_mm_mute; kb_key_mm_www_stop; kb_key_mm_calc;
    kb_key_mm_www_forward; kb_key_mm_vol_up; kb_key_mm_playpause; kb_key_mm_www_back; kb_key_mm_www_home;
    kb_key_mm_stop; kb_key_mm_mycomp; kb_key_mm_email; kb_key_mm_next_track; kb_key_mm_select;
    kb_key_end; kb_key_home; kb_key_page_down; kb_key_page_up; kb_key_lgui;
    kb_key_rgui; kb_key_apps; kb_key_insert; kb_key_delete; kb_key_print_screen;
    kb_key_pause; kb_key_max ].

(** [static_cast<kb_key>] of a value of the enumeration. *)
Definition kb_of_value (v : Z) : kb_key := nth (Z.to_nat v) kb_keys kb_key_max.

(** [operator++] *)
Definition kb_next (key : kb_key) : kb_key := kb_of_value (kb_value key + 1).

Lemma kb_of_value_value key : kb_of_value (kb_value key) = key.
Proof. by destruct key. Qed.

#[export] Instance kb_key_eq_dec : EqDecision kb_key.
Proof.
  intros x y. destruct (decide (kb_value x = kb_value y)) as [H|H]; [left|right; congruence].
  by rewrite <- (kb_of_value_value x), H, kb_of_value_value.
Defined.

(** ** Characters *)
Definition is_letter (key : kb_key) : bool :=
  (kb_value kb_key_a <=? kb_value key) && (kb_value key <=? kb_value kb_key_z).
Definition is_digit (key : kb_key) : bool :=
  (kb_value kb_key_0 <=? kb_value key) && (kb_value key <=? kb_value kb_key_9).

Definition to_printable_key (key : kb_key) : Z :=
  if is_letter key then 97 + (kb_value key - kb_value kb_key_a)
  else if is_digit key then 48 + (kb_value key - kb_value kb_key_0)
  else match key with
       | kb_key_space => 32 | kb_key_back_tick => 96 | kb_key_comma => 44 | kb_key_dot => 46
       | kb_key_slash => 47 | kb_key_semicolon => 59 | kb_key_minus => 45 | kb_key_apos => 39
       | kb_key_sqbracketl => 91 | kb_key_equal => 61 | kb_key_enter => 10
       | kb_key_sqbracketr => 93 | kb_key_backslash => 92
       | _ => 0
       end.

Definition apply_lshift (sym : Z) : Z :=
  if (97 <=? sym) && (sym <=? 122) then 65 + (sym - 97)
  else match sym with
       | 48 => 41 | 49 => 33 | 50 => 64 | 51 => 35 | 52 => 36 | 53 => 37 | 54 => 94 | 55 => 38
       | 56 => 42 | 57 => 40 | 96 => 126 | 44 => 60 | 46 => 62 | 47 => 63 | 59 => 58 | 45 => 95
       | 39 => 34 | 91 => 123 | 93 => 125 | 61 => 43 | 92 => 124
       | _ => sym
       end.

(** ** The state machine *)
Definition codeset2_1b_translation_table : list kb_key :=
  [ kb_key_none; kb_key_f9; kb_key_none; kb_key_f5;
    kb_key_f3; kb_key_f1; kb_key_f2; kb_key_f12;
    kb_key_none; kb_key_f10; kb_key_f8; kb_key_f6;
    kb_key_none; kb_key_tab; kb_key_back_tick; kb_key_none;
    kb_key_none; kb_key_lalt; kb_key_lshift; kb_key_none;
    kb_key_lctrl; kb_key_q; kb_key_1; kb_key_none;
    kb_key_none; kb_key_none; kb_key_z; kb_key_s;
    kb_key_a; kb_key_w; kb_key_2; kb_key_none;
    kb_key_none; kb_key_c; kb_key_x; kb_key_d;
    kb_key_e; kb_key_4; kb_key_3; kb_key_none;
    kb_key_none; kb_key_space; kb_key_v; kb_key_f;
    kb_key_t; kb_key_r; kb_key_5; kb_key_none;
    kb_key_none; kb_key_n; kb_key_b; kb_key_h;
    kb_key_g; kb_key_y; kb_key_6; kb_key_none;
    kb_key_none; kb_key_none; kb_key_m; kb_key_j;
    kb_key_u; kb_key_7; kb_key_8; kb_key_none;
    kb_key_none; kb_key_comma; kb_key_k; kb_key_i;
    kb_key_o; kb_key_0; kb_key_9; kb_key_none;
    kb_key_none; kb_key_dot; kb_key_slash; kb_key_l;
    kb_key_semicolon; kb_key_p; kb_key_minus; kb_key_none;
    kb_key_none; kb_key_none; kb_key_apos; kb_key_none;
    kb_key_sqbracketl; kb_key_equal; kb_key_none; kb_key_none;
    kb_key_capslock; kb_key_rshift; kb_key_enter; kb_key_sqbracketr;
    kb_key_none; kb_key_backslash; kb_key_none; kb_key_none;
    kb_key_none; kb_key_none; kb_key_none; kb_key_none;
    kb_key_none; kb_key_none; kb_key_backspace; kb_key_none;
    kb_key_none; kb_key_num_1; kb_key_none; kb_key_num_4;
    kb_key_num_7; kb_key_none; kb_key_none; kb_key_none;
    kb_key_num_0; kb_key_num_dot; kb_key_num_2; kb_key_num_5;
    kb_key_num_6; kb_key_num_8; kb_key_escape; kb_key_numlock;
    kb_key_f11; kb_key_num_plus; kb_key_num_3; kb_key_num_minus;
    kb_key_num_star; kb_key_num_9; kb_key_scrolllock; kb_key_none;
    kb_key_none; kb_key_none; kb_key_none; kb_key_f7;
    kb_key_none; kb_key_none; kb_key_none; kb_key_none;
    kb_key_none; kb_key_none; kb_key_none; kb_key_none;
    kb_key_none; kb_key_none; kb_key_none; kb_key_none;
    kb_key_none; kb_key_none; kb_key_none; kb_key_none;
    kb_key_none; kb_key_none; kb_key_none; kb_key_none;
    kb_key_none; kb_key_none; kb_key_none; kb_key_none;
    kb_key_none; kb_key_none; kb_key_none; kb_key_none;
    kb_key_none; kb_key_none; kb_key_none; kb_key_none;
    kb_key_none; kb_key_none; kb_key_none; kb_key_none;
    kb_key_none; kb_key_none; kb_key_none; kb_key_none;
    kb_key_none; kb_key_none; kb_key_none; kb_key_none;
    kb_key_none; kb_key_none; kb_key_none; kb_key_none;
    kb_key_none; kb_key_none; kb_key_none; kb_key_none;
    kb_key_none; kb_key_none; kb_key_none; kb_key_none;
    kb_key_none; kb_key_none; kb_key_none; kb_key_none;
    kb_key_none; kb_key_none; kb_key_none; kb_key_none;
    kb_key_none; kb_key_none; kb_key_none; kb_key_none;
    kb_key_none; kb_key_none; kb_key_none; kb_key_none;
    kb_key_none; kb_key_none; kb_key_none; kb_key_none;
    kb_key_none; kb_key_none; kb_key_none; kb_key_none;
    kb_key_none; kb_key_none; kb_key_none; kb_key_none;
    kb_key_none; kb_key_none; kb_key_none; kb_key_none;
    kb_key_none; kb_key_none; kb_key_none; kb_key_none;
    kb_key_none; kb_key_none; kb_key_none; kb_key_none;
    kb_key_none; kb_key_none; kb_key_none; kb_key_none;
    kb_key_none; kb_key_none; kb_key_none; kb_key_none;
    kb_key_none; kb_key_none; kb_key_none; kb_key_none;
    kb_key_none; kb_key_none; kb_key_none; kb_key_none;
    kb_key_none; kb_key_none; kb_key_none; kb_key_none;
    kb_key_none; kb_key_none; kb_key_none; kb_key_none;
    kb_key_none; kb_key_none; kb_key_none; kb_key_none ].

Definition codeset2_1b_release_byte : Z := 240.

Definition translate (byte : Z) : kb_key := nth (Z.to_nat byte) codeset2_1b_translation_table kb_key_none.

Inductive handle_status_t : Type := done_ | cont.

Inductive sm_state : Type := WaitState | ErrorState | OneByteKeyPressedState | OneByteKeyReleasedState | PrintState.

(** The machine, the key statuses of its device (true: pressed) and the characters
    that went to the console. *)
Record keyboard : Type := mkKeyboard {
  state_ : sm_state;
  key_statuses : kb_key → bool;
  console : list Z
}.

Definition PS2DefaultKeyboard_new : keyboard := mkKeyboard WaitState (λ _, false) [].

Abbreviation kbd_prog := (prog keyboard).

Definition set_state (st : sm_state) : kbd_prog unit :=
  modify (λ s, mkKeyboard st (key_statuses s) (console s)).
Definition set_key (key : kb_key) (pressed : bool) : kbd_prog unit :=
  modify (λ s, mkKeyboard (state_ s) (<[key := pressed]> (key_statuses s)) (console s)).
Definition vga_putc (c : Z) : kbd_prog unit :=
  modify (λ s, mkKeyboard (state_ s) (key_statuses s) (console s ++ [c])).

Definition WaitState_handle_byte (byte : Z) : kbd_prog handle_status_t :=
  (if byte =? codeset2_1b_release_byte then set_state OneByteKeyReleasedState
   else if decide (translate byte = kb_key_none) then set_state ErrorState
   else set_state OneByteKeyPressedState) ;;
  mret cont.

Definition OneByteKeyPressedState_handle_byte (byte : Z) : kbd_prog handle_status_t :=
  let key := translate byte in
  (if decide (key = kb_key_none) then mret tt
   else
     pressed ← gets (λ s, key_statuses s key);
     if negb pressed then set_key key true ;; set_state PrintState
     else set_state WaitState) ;;
  mret cont.

Definition OneByteKeyReleasedState_handle_byte (byte : Z) : kbd_prog handle_status_t :=
  if byte =? codeset2_1b_release_byte then set_state OneByteKeyReleasedState ;; mret done_
  else
    let key := translate byte in
    if decide (key = kb_key_none) then set_state ErrorState ;; mret cont
    else set_key key false ;; set_state WaitState ;; mret done_.

(** The for loop of [PrintState]. *)
Fixpoint print_loop (fuel : nat) (lshift : bool) (key : kb_key) : kbd_prog unit :=
  match fuel with
  | O => no_fuel
  | S n =>
      if kb_value key <? kb_value kb_key_max then
        pressed ← gets (λ s, key_statuses s key);
        (if pressed : bool then
           let symbol := to_printable_key key in
           if negb (symbol =? 0) then
             vga_putc (if lshift then apply_lshift symbol else symbol) ;; set_key key false
           else mret tt
         else mret tt) ;;
        print_loop n lshift (kb_next key)
      else mret tt
  end.

(** The loop visits every value of the enumeration once. *)
Definition print_fuel : nat := 127.

Definition PrintState_handle_byte (byte : Z) : kbd_prog handle_status_t :=
  lshift ← gets (λ s, key_statuses s kb_key_lshift);
  print_loop print_fuel lshift kb_key_none ;;
  set_state WaitState ;; mret done_.

Definition ErrorState_handle_byte (byte : Z) : kbd_prog handle_status_t :=
  set_state WaitState ;; mret done_.

Definition state_handle_byte (byte : Z) : kbd_prog handle_status_t :=
  st ← gets state_;
  match st with
  | WaitState => WaitState_handle_byte byte
  | ErrorState => ErrorState_handle_byte byte
  | OneByteKeyPressedState => OneByteKeyPressedState_handle_byte byte
  | OneByteKeyReleasedState => OneByteKeyReleasedState_handle_byte byte
  | PrintState => PrintState_handle_byte byte
  end.

(** [while(state_->handle_byte(byte) != handle_status_t::done);] *)
Fixpoint handle_byte (fuel : nat) (byte : Z) : kbd_prog unit :=
  match fuel with
  | O => no_fuel
  | S n =>
      st ← state_handle_byte byte;
      match st with done_ => mret tt | cont => handle_byte n byte end
  end.

(** * Verification *)

(** The loop as a walk over the keys from [key] on. *)
Fixpoint print_keys (lshift : bool) (keys : list kb_key) (st : kb_key → bool) (out : list Z)
    : (kb_key → bool) * list Z :=
  match keys with
  | [] => (st, out)
  | key :: keys =>
      if st key && negb (to_printable_key key =? 0) then
        print_keys lshift keys (<[key := false]> st)
          (out ++ [if lshift then apply_lshift (to_printable_key key) else to_printable_key key])
      else print_keys lshift keys st out
  end.

Definition real_keys : list kb_key := take 126 kb_keys.

Lemma kb_value_range key : 0 ≤ kb_value key ≤ 126.
Proof. by destruct key. Qed.

Lemma real_keys_drop n : (n < 126)%nat →
  drop n real_keys = kb_of_value (Z.of_nat n) :: drop (S n) real_keys.
Proof. intros Hn. do 126 (destruct n as [|n]; [reflexivity|]). lia. Qed.

Lemma kb_value_of_value n : (n ≤ 126)%nat → kb_value (kb_of_value (Z.of_nat n)) = Z.of_nat n.
Proof. intros Hn. do 127 (destruct n as [|n]; [reflexivity|]). lia. Qed.

Lemma print_loop_S n lshift key : print_loop (S n) lshift key =
  if kb_value key <? kb_value kb_key_max then
    pressed ← gets (λ s, key_statuses s key);
    (if pressed : bool then
       let symbol := to_printable_key key in
       if negb (symbol =? 0) then
         vga_putc (if lshift then apply_lshift symbol else symbol) ;; set_key key false
       else mret tt
     else mret tt) ;;
    print_loop n lshift (kb_next key)
  else mret tt.
Proof. done. Qed.

Lemma print_loop_done lshift : ∀ k n s, (n + k = 126)%nat →
  print_loop (S k) lshift (kb_of_value (Z.of_nat n)) s =
    Done (tt, mkKeyboard (state_ s) (print_keys lshift (drop n real_keys) (key_statuses s) (console s)).1
                (print_keys lshift (drop n real_keys) (key_statuses s) (console s)).2).
Proof.
  induction k as [|k IH]; intros n s Hn; rewrite print_loop_S, (kb_value_of_value n) by lia;
    change (kb_value kb_key_max) with 126.
  - destruct (Z.ltb_spec (Z.of_nat n) 126); [lia|]. rewrite drop_ge by (change (length real_keys) with 126%nat; lia).
    by destruct s.
  - destruct (Z.ltb_spec (Z.of_nat n) 126); [|lia]. rewrite (real_keys_drop n) by lia. cbn [print_keys].
    set (key := kb_of_value (Z.of_nat n)).
    assert (Hnext : kb_next key = kb_of_value (Z.of_nat (S n))).
    { unfold kb_next, key. rewrite kb_value_of_value by lia. f_equal. lia. }
    rewrite gets_bind, Hnext. destruct (key_statuses s key) eqn:Ek; cbn [andb].
    + destruct (to_printable_key key =? 0) eqn:Es; cbn [negb].
      * rewrite ret_bind. apply IH. lia.
      * rewrite bind_bind. unfold vga_putc, set_key. rewrite modify_bind, modify_bind.
        rewrite IH by lia. done.
    + rewrite ret_bind. apply IH. lia.
Qed.

Definition printable (key : kb_key) : bool := negb (to_printable_key key =? 0).

(** Between two bytes no printable key is marked as pressed. *)
Definition no_printable_pressed (st : kb_key → bool) : Prop := ∀ key, printable key = true → st key = false.

Lemma print_keys_none lshift : ∀ keys st out, (∀ key, key ∈ keys → printable key = true → st key = false) →
  print_keys lshift keys st out = (st, out).
Proof.
  induction keys as [|key keys IH]; intros st out H; cbn [print_keys]; [done|].
  destruct (st key) eqn:E; cbn [andb].
  - fold (printable key). destruct (printable key) eqn:Ep; [|apply IH; intros; apply H; [by right|done]].
    rewrite H in E; [done|by left|done].
  - apply IH. intros. apply H; [by right|done].
Qed.

Lemma print_keys_one lshift key : ∀ keys st out, NoDup keys → key ∈ keys → printable key = true →
  st key = true → (∀ k, k ≠ key → printable k = true → st k = false) →
  print_keys lshift keys st out =
    (<[key := false]> st, out ++ [if lshift then apply_lshift (to_printable_key key) else to_printable_key key]).
Proof.
  induction keys as [|k keys IH]; intros st out Hnd Hin Hp Hst Hoth; [by apply elem_of_nil in Hin|].
  apply NoDup_cons in Hnd as [Hk Hnd]. cbn [print_keys]. fold (printable k).
  destruct (decide (k = key)) as [->|Hne].
  - rewrite Hst, Hp. cbn [andb]. apply print_keys_none. intros k Hk' Hpk.
    rewrite fn_lookup_insert_ne by congruence. apply Hoth; [congruence|done].
  - apply elem_of_cons in Hin as [?|Hin]; [congruence|].
    assert (Hc : st k && printable k = false).
    { destruct (printable k) eqn:Epk; [|by rewrite andb_false_r]. by rewrite Hoth. }
    rewrite Hc. by apply IH.
Qed.

Lemma real_keys_nodup : NoDup real_keys.
Proof. apply (bool_decide_unpack (NoDup real_keys)). by vm_compute. Qed.

Lemma elem_of_real_keys key : key ≠ kb_key_max → key ∈ real_keys.
Proof. intros Hk. apply (bool_decide_unpack (key ∈ real_keys)). destruct key; try done; by vm_compute. Qed.

Lemma translate_real byte : translate byte ≠ kb_key_max.
Proof.
  unfold translate. destruct (nth_in_or_default (Z.to_nat byte) codeset2_1b_translation_table kb_key_none) as [H| ->]; [|done].
  intros E. rewrite E in H. apply list_elem_of_In in H. revert H.
  apply (bool_decide_unpack (kb_key_max ∉ codeset2_1b_translation_table)). by vm_compute.
Qed.

(** The character a key prints. *)
Definition symbol_of (st : kb_key → bool) (key : kb_key) : Z :=
  if st kb_key_lshift then apply_lshift (to_printable_key key) else to_printable_key key.

Lemma print_state_done byte st out key : key ≠ kb_key_max → st key = false → no_printable_pressed st →
  PrintState_handle_byte byte (mkKeyboard PrintState (<[key := true]> st) out) =
    Done (done_, if printable key then mkKeyboard WaitState (<[key := false]> (<[key := true]> st)) (out ++ [symbol_of st key])
                 else mkKeyboard WaitState (<[key := true]> st) out).
Proof.
  intros Hkey Hst Hnp. unfold PrintState_handle_byte. rewrite gets_bind. cbn [key_statuses].
  rewrite (bind_done _ _ _ _ _ (print_loop_done _ 126 0 _ eq_refl)). cbn [state_ key_statuses console Z.of_nat].
  change (drop 0 real_keys) with real_keys. destruct (printable key) eqn:Ep.
  - rewrite (print_keys_one _ key); [|apply real_keys_nodup|by apply elem_of_real_keys|done|
      by rewrite fn_lookup_insert|].
    + cbn [fst snd]. unfold symbol_of. rewrite fn_lookup_insert_ne; [done|]. by intros ->.
    + intros k Hk Hp. rewrite fn_lookup_insert_ne by congruence. by apply Hnp.
  - rewrite print_keys_none; [done|]. intros k _ Hp. rewrite fn_lookup_insert_ne; [by apply Hnp|]. congruence.
Qed.

Lemma pressed_again_diverges byte out st : byte ≠ codeset2_1b_release_byte →
  translate byte ≠ kb_key_none → st (translate byte) = true →
  ∀ fuel, handle_byte fuel byte (mkKeyboard WaitState st out) = Fuel ∧
    handle_byte fuel byte (mkKeyboard OneByteKeyPressedState st out) = Fuel.
Proof.
  intros Hb Hk Hp. induction fuel as [|fuel [IH1 IH2]]; [done|]. cbn [handle_byte].
  unfold state_handle_byte. split.
  - unfold WaitState_handle_byte. rewrite bind_bind, gets_bind. cbn [state_].
    destruct (Z.eqb_spec byte codeset2_1b_release_byte); [done|].
    destruct (decide (translate byte = kb_key_none)); [done|]. exact IH2.
  - unfold OneByteKeyPressedState_handle_byte. rewrite bind_bind, gets_bind. cbn [state_].
    destruct (decide (translate byte = kb_key_none)); [done|].
    unfold mbind, prog_bind, gets. cbn [key_statuses]. rewrite Hp. exact IH1.
Qed.

(** One turn of the loop of [handle_byte]. *)
Lemma handle_byte_cont n byte s s' : state_handle_byte byte s = Done (cont, s') →
  handle_byte (S n) byte s = handle_byte n byte s'.
Proof. intros E. cbn [handle_byte]. by rewrite (bind_done _ _ _ _ _ E). Qed.

Lemma handle_byte_last n byte s s' : state_handle_byte byte s = Done (done_, s') →
  handle_byte (S n) byte s = Done (tt, s').
Proof. intros E. cbn [handle_byte]. by rewrite (bind_done _ _ _ _ _ E). Qed.

Lemma key_press n byte st out : byte ≠ codeset2_1b_release_byte → translate byte ≠ kb_key_none →
  st (translate byte) = false → no_printable_pressed st →
  handle_byte (S (S (S n))) byte (mkKeyboard WaitState st out) =
    Done (tt, if printable (translate byte)
              then mkKeyboard WaitState (<[translate byte := false]> (<[translate byte := true]> st))
                     (out ++ [symbol_of st (translate byte)])
              else mkKeyboard WaitState (<[translate byte := true]> st) out).
Proof.
  intros Hb Hk Hup Hnp.
  rewrite (handle_byte_cont _ _ _ (mkKeyboard OneByteKeyPressedState st out)).
  2:{ unfold state_handle_byte, WaitState_handle_byte. rewrite gets_bind. cbn [state_].
      destruct (Z.eqb_spec byte codeset2_1b_release_byte); [done|]. by rewrite decide_False. }
  rewrite (handle_byte_cont _ _ _ (mkKeyboard PrintState (<[translate byte := true]> st) out)).
  2:{ unfold state_handle_byte, OneByteKeyPressedState_handle_byte. rewrite gets_bind. cbn [state_].
      rewrite decide_False by done. rewrite bind_bind, gets_bind. cbn [key_statuses]. by rewrite Hup. }
  apply handle_byte_last. unfold state_handle_byte. rewrite gets_bind. cbn [state_].
  apply print_state_done; [apply translate_real|done|done].
Qed.

(** * Properties *)

(** C27: as long as no printable key is marked as pressed - which every byte
    preserves - a byte is handled as the code set says: the code of a key that is
    up prints its character, shifted when the left shift is down, or marks the
    key as down when it has no character; a release code marks its key as up;
    other bytes change nothing.  The exception is the code of a key that is
    already down, which a keyboard repeats while the key is held: on it the
    machine never returns. *)
Theorem keyboard_handle_byte_correct fuel byte st out
    (Hfuel : (4 ≤ fuel)%nat) (Hst : no_printable_pressed st) :
  let key := translate byte in
  let wait := mkKeyboard WaitState st out in
  let released := mkKeyboard OneByteKeyReleasedState st out in
  (byte = codeset2_1b_release_byte →
     handle_byte fuel byte wait = Done (tt, released) ∧ handle_byte fuel byte released = Done (tt, released)) ∧
  (byte ≠ codeset2_1b_release_byte → key = kb_key_none →
     handle_byte fuel byte wait = Done (tt, wait) ∧ handle_byte fuel byte released = Done (tt, wait)) ∧
  (byte ≠ codeset2_1b_release_byte → key ≠ kb_key_none →
     (st key = false → ∃ st', handle_byte fuel byte wait =
        Done (tt, mkKeyboard WaitState st' (if printable key then out ++ [symbol_of st key] else out)) ∧
        (∀ k, st' k = if decide (k = key) then negb (printable key) else st k) ∧ no_printable_pressed st') ∧
     (st key = true → handle_byte fuel byte wait = Fuel) ∧
     handle_byte fuel byte released = Done (tt, mkKeyboard WaitState (<[key := false]> st) out) ∧
     no_printable_pressed (<[key := false]> st)).
Proof.
  intros key wait released. do 3 (destruct fuel as [|fuel]; [lia|]).
  split_and!.
  - intros ->. done.
  - intros Hb Hk. unfold key in Hk. cbn [handle_byte]. unfold state_handle_byte, wait, released, WaitState_handle_byte,
      OneByteKeyReleasedState_handle_byte, ErrorState_handle_byte, mbind, prog_bind, gets, set_state, modify, mret, prog_ret.
    cbn [state_ key_statuses console]. destruct (Z.eqb_spec byte codeset2_1b_release_byte); [done|].
    rewrite !decide_True by done. split; [|done]. done.
  - intros Hb Hk. split_and!.
    + intros Hup. unfold wait. rewrite (key_press _ _ _ _ Hb Hk Hup Hst). fold key.
      exists (if printable key then <[key := false]> (<[key := true]> st) else <[key := true]> st).
      split; [by destruct (printable key)|]. split.
      * intros k. destruct (decide (k = key)) as [->|Hne]; destruct (printable key);
          rewrite ?fn_lookup_insert, ?fn_lookup_insert_ne by congruence; done.
      * intros k Hp. destruct (decide (k = key)) as [->|Hne].
        { by rewrite Hp, fn_lookup_insert. }
        destruct (printable key); rewrite !fn_lookup_insert_ne by congruence; by apply Hst.
    + intros Hdown. by apply pressed_again_diverges.
    + unfold released. cbn [handle_byte]. unfold state_handle_byte, OneByteKeyReleasedState_handle_byte. fold key.
      unfold mbind, prog_bind, gets. cbn [state_]. destruct (Z.eqb_spec byte codeset2_1b_release_byte); [done|].
      by rewrite decide_False by done.
    + intros k Hp. destruct (decide (k = key)) as [->|Hne]; [by rewrite fn_lookup_insert|].
      rewrite fn_lookup_insert_ne by congruence. by apply Hst.
Qed.

(** ** Witnesses *)
Lemma keyboard_handle_byte_correct_witness :
  let st := <[kb_key_lshift := true]> (λ _, false) in
  let wait := mkKeyboard WaitState st [] in
  let released := mkKeyboard OneByteKeyReleasedState st [] in
  (18 = codeset2_1b_release_byte →
     handle_byte 4 18 wait = Done (tt, released) ∧ handle_byte 4 18 released = Done (tt, released)) ∧
  (18 ≠ codeset2_1b_release_byte → translate 18 = kb_key_none →
     handle_byte 4 18 wait = Done (tt, wait) ∧ handle_byte 4 18 released = Done (tt, wait)) ∧
  (18 ≠ codeset2_1b_release_byte → translate 18 ≠ kb_key_none →
     (st (translate 18) = false → ∃ st', handle_byte 4 18 wait =
        Done (tt, mkKeyboard WaitState st'
                    (if printable (translate 18) then [] ++ [symbol_of st (translate 18)] else [])) ∧
        (∀ k, st' k = if decide (k = translate 18) then negb (printable (translate 18)) else st k) ∧
        no_printable_pressed st') ∧
     (st (translate 18) = true → handle_byte 4 18 wait = Fuel) ∧
     handle_byte 4 18 released = Done (tt, mkKeyboard WaitState (<[translate 18 := false]> st) []) ∧
     no_printable_pressed (<[translate 18 := false]> st)).
Proof.
  apply (keyboard_handle_byte_correct 4 18); [lia|]. intros key Hp. by destruct key.
Defined.

(** The byte of the left shift, twice: the key repeats while it is held. *)
Example held_shift_hangs fuel :
  handle_byte fuel 18 (mkKeyboard WaitState (<[kb_key_lshift := true]> (λ _, false)) []) = Fuel.
Proof. by apply pressed_again_diverges. Qed.
