(* ===== verification/Vga.v ===== *)
(** * The VGA console

    [devices/src/vga_console.cpp] on the text memory at 0xb8000, with the two
    algorithms of [libkernelcxx/include/algorithm.hpp] it uses.  A cell is a
    packed pair of bytes: the character, and the colours in the nibbles. *)
From stdpp Require Import base tactics numbers list gmap strings.
From S2P Require Import Prelude MemUtils.

(** ** Cells *)
Record cell_t : Type := mkCell { ch_ : Z; attr_ : Z }.

Definition make_cell (ch fg bg : Z) : cell_t :=
  mkCell (u8 ch) (Z.land fg 15 + Z.shiftl (Z.land bg 15) 4).

Definition iomem : Z := 753664.

Definition load_cell (m : mem) (p : Z) : cell_t := mkCell (load8 m (iomem + 2 * p)) (load8 m (iomem + 2 * p + 1)).
Definition store_cell (m : mem) (p : Z) (c : cell_t) : mem :=
  store8 (store8 m (iomem + 2 * p) (ch_ c)) (iomem + 2 * p + 1) (attr_ c).

(** ** [copy_n] and [fill_n] on cells *)
Fixpoint copy_n (n : nat) (first result : Z) (m : mem) : mem :=
  match n with
  | O => m
  | S n => copy_n n (first + 1) (result + 1) (store_cell m result (load_cell m first))
  end.

Fixpoint fill_n (n : nat) (first : Z) (value : cell_t) (m : mem) : mem :=
  match n with
  | O => m
  | S n => fill_n n (first + 1) value (store_cell m first value)
  end.

(** ** The console *)
Definition black : Z := 0.
Definition grey : Z := 7.
Definition screen_height : Z := 25.
Definition screen_width : Z := 80.
Definition LF : Z := 10.
Definition CR : Z := 13.

Record vga : Type := mkVga {
  vga_mem : mem;
  cursor_line : Z;
  cursor_column : Z;
  global_fg : Z;
  global_bg : Z
}.

Definition vga_start (m : mem) : vga := mkVga m 0 0 grey black.

Abbreviation vga_prog := (prog vga).

Definition set_fg (fg : Z) : vga_prog unit :=
  modify (λ s, mkVga (vga_mem s) (cursor_line s) (cursor_column s) fg (global_bg s)).
Definition set_bg (bg : Z) : vga_prog unit :=
  modify (λ s, mkVga (vga_mem s) (cursor_line s) (cursor_column s) (global_fg s) bg).
Definition get_fg : vga_prog Z := gets global_fg.
Definition get_bg : vga_prog Z := gets global_bg.

Definition set_line (l : Z) : vga_prog unit :=
  modify (λ s, mkVga (vga_mem s) l (cursor_column s) (global_fg s) (global_bg s)).
Definition set_column (c : Z) : vga_prog unit :=
  modify (λ s, mkVga (vga_mem s) (cursor_line s) c (global_fg s) (global_bg s)).
Definition on_vga_mem (f : mem → mem) : vga_prog unit :=
  modify (λ s, mkVga (f (vga_mem s)) (cursor_line s) (cursor_column s) (global_fg s) (global_bg s)).

Definition empty_cell : vga_prog cell_t := gets (λ s, make_cell 32 (global_fg s) (global_bg s)).

(** One turn of the for loop of [scroll]. *)
Definition copy_row (i : Z) (m : mem) : mem :=
  copy_n (Z.to_nat screen_width) ((i + 1) * screen_width) (i * screen_width) m.

(** [for (int i = ...; k turns; ++i) row(i);] *)
Fixpoint for_rows (row : Z → mem → mem) (k : nat) (i : Z) (m : mem) : mem :=
  match k with
  | O => m
  | S k => for_rows row k (i + 1) (row i m)
  end.

Definition blank_last_row (empty : cell_t) (m : mem) : mem :=
  fill_n (Z.to_nat screen_width) ((screen_height - 1) * screen_width) empty m.

Definition scroll : vga_prog unit :=
  on_vga_mem (for_rows copy_row (Z.to_nat (screen_height - 1)) 0) ;;
  empty ← empty_cell;
  on_vga_mem (blank_last_row empty).

Definition new_line : vga_prog unit :=
  l ← gets cursor_line;
  set_line (l + 1) ;;
  if l + 1 =? screen_height then set_line (screen_height - 1) ;; scroll else mret tt.

Definition carriage_return : vga_prog unit := set_column 0.

Definition line_break : vga_prog unit := new_line ;; carriage_return.

Definition cursor_next : vga_prog unit :=
  c ← gets cursor_column;
  set_column (c + 1) ;;
  if c + 1 =? screen_width then line_break else mret tt.

Definition cursor_address : vga_prog Z := gets (λ s, cursor_line s * screen_width + cursor_column s).

Definition putc_color (symbol fg bg : Z) : vga_prog unit :=
  if symbol =? LF then line_break
  else if symbol =? CR then carriage_return
  else
    p ← cursor_address;
    on_vga_mem (λ m, store_cell m p (make_cell symbol fg bg)) ;;
    cursor_next.

Definition putc (symbol : Z) : vga_prog unit :=
  fg ← get_fg; bg ← get_bg; putc_color symbol fg bg.

(** [puts_color] on the characters in front of the terminator. *)
Fixpoint puts_color (str : list Z) (fg bg : Z) : vga_prog unit :=
  match str with
  | [] => mret tt
  | c :: str => putc_color c fg bg ;; puts_color str fg bg
  end.

Definition puts (str : list Z) : vga_prog unit :=
  fg ← get_fg; bg ← get_bg; puts_color str fg bg.

Definition clear_screen : vga_prog unit :=
  empty ← empty_cell;
  on_vga_mem (fill_n (Z.to_nat (screen_height * screen_width)) 0 empty).

(** * Verification *)
Definition byte_cell (c : cell_t) : Prop := 0 ≤ ch_ c < 256 ∧ 0 ≤ attr_ c < 256.

Lemma make_cell_bytes ch fg bg : byte_cell (make_cell ch fg bg).
Proof.
  unfold byte_cell, make_cell. cbn [ch_ attr_]. split; [apply u8_range|].
  change 15 with (Z.ones 4). rewrite !Z.land_ones, Z.shiftl_mul_pow2 by lia.
  pose proof (Z.mod_pos_bound fg (2 ^ 4) ltac:(lia)). pose proof (Z.mod_pos_bound bg (2 ^ 4) ltac:(lia)). lia.
Qed.

(** The colours are the nibbles of the second byte. *)
Lemma make_cell_colours ch fg bg : 0 ≤ fg < 16 → 0 ≤ bg < 16 →
  Z.land (attr_ (make_cell ch fg bg)) 15 = fg ∧ Z.shiftr (attr_ (make_cell ch fg bg)) 4 = bg.
Proof.
  intros Hf Hb. unfold make_cell. cbn [attr_]. change 15 with (Z.ones 4).
  rewrite !Z.land_ones, Z.shiftl_mul_pow2, Z.shiftr_div_pow2 by lia.
  rewrite (Z.mod_small fg), (Z.mod_small bg) by lia.
  split; Z.div_mod_to_equations; lia.
Qed.

Lemma load_cell_bytes m p : byte_cell (load_cell m p).
Proof. split; apply load8_range. Qed.

Lemma load_store_cell m p q c : byte_cell c →
  load_cell (store_cell m q c) p = if decide (p = q) then c else load_cell m p.
Proof.
  intros [H1 H2]. unfold load_cell, store_cell. destruct (decide (p = q)) as [->|Hne].
  - rewrite (load8_store8_ne _ (iomem + 2 * q + 1)) by lia. rewrite !load8_store8_eq, !u8_small by lia. by destruct c.
  - rewrite !load8_store8_ne by lia. done.
Qed.

(** The bytes of the screen. *)
Definition screen_bytes (a : Z) : Prop := in_block a iomem (2 * (screen_height * screen_width)).

Lemma store_cell_outside m p c a : 0 ≤ p < screen_height * screen_width → ¬ screen_bytes a →
  load8 (store_cell m p c) a = load8 m a.
Proof.
  unfold screen_bytes, screen_height, screen_width. intros Hp Ha. unfold store_cell.
  rewrite !load8_store8_ne by lia. done.
Qed.

Lemma copy_n_done : ∀ n first result m, result + Z.of_nat n ≤ first → 0 ≤ result →
  first + Z.of_nat n ≤ screen_height * screen_width →
  (∀ p, load_cell (copy_n n first result m) p =
     if decide (result ≤ p < result + Z.of_nat n) then load_cell m (p + (first - result)) else load_cell m p) ∧
  (∀ a, ¬ screen_bytes a → load8 (copy_n n first result m) a = load8 m a).
Proof.
  induction n as [|n IH]; intros first result m H1 H2 H3; simpl.
  - split; [|done]. intros p. destruct (decide _); [lia|done].
  - destruct (IH (first + 1) (result + 1) (store_cell m result (load_cell m first))) as [Hc Ho]; [lia..|].
    split.
    + intros p. rewrite Hc. replace (first + 1 - (result + 1)) with (first - result) by lia.
      rewrite !load_store_cell by apply load_cell_bytes.
      repeat (destruct (decide _)); try lia; try done. subst p. f_equal. lia.
    + intros a Ha. rewrite Ho by done. apply store_cell_outside; [lia|done].
Qed.

Lemma fill_n_done : ∀ n first value m, byte_cell value → 0 ≤ first →
  first + Z.of_nat n ≤ screen_height * screen_width →
  (∀ p, load_cell (fill_n n first value m) p =
     if decide (first ≤ p < first + Z.of_nat n) then value else load_cell m p) ∧
  (∀ a, ¬ screen_bytes a → load8 (fill_n n first value m) a = load8 m a).
Proof.
  induction n as [|n IH]; intros first value m Hv H1 H2; simpl.
  - split; [|done]. intros p. destruct (decide _); [lia|done].
  - destruct (IH (first + 1) value (store_cell m first value)) as [Hc Ho]; [done|lia..|]. split.
    + intros p. rewrite Hc, load_store_cell by done. repeat (destruct (decide _)); try lia; done.
    + intros a Ha. rewrite Ho by done. apply store_cell_outside; [lia|done].
Qed.

Lemma copy_row_done i m : 0 ≤ i < screen_height - 1 →
  (∀ p, load_cell (copy_row i m) p =
     if decide (i * screen_width ≤ p < (i + 1) * screen_width) then load_cell m (p + screen_width)
     else load_cell m p) ∧
  (∀ a, ¬ screen_bytes a → load8 (copy_row i m) a = load8 m a).
Proof.
  intros Hi. assert (Hw : Z.of_nat (Z.to_nat screen_width) = screen_width) by done.
  destruct (copy_n_done (Z.to_nat screen_width) ((i + 1) * screen_width) (i * screen_width) m) as [Hc Ho];
    [rewrite ?Hw; unfold screen_height, screen_width in *; lia..|].
  split; [|exact Ho]. intros p. unfold copy_row. rewrite Hc, Hw.
  replace (i * screen_width + screen_width) with ((i + 1) * screen_width) by lia.
  by replace ((i + 1) * screen_width - i * screen_width) with screen_width by lia.
Qed.

Lemma for_rows_S row k i m : for_rows row (S k) i m = for_rows row k (i + 1) (row i m).
Proof. done. Qed.

Lemma scroll_loop_done : ∀ k i m, 0 ≤ i → i + Z.of_nat k = screen_height - 1 →
  (∀ p, load_cell (for_rows copy_row k i m) p =
     if decide (i * screen_width ≤ p < (screen_height - 1) * screen_width) then load_cell m (p + screen_width)
     else load_cell m p) ∧
  (∀ a, ¬ screen_bytes a → load8 (for_rows copy_row k i m) a = load8 m a).
Proof.
  induction k as [|k IH]; intros i m Hi Hk; [|rewrite for_rows_S].
  - split; [|done]. intros p. destruct (decide _); [lia|done].
  - destruct (copy_row_done i m) as [Hc1 Ho1]; [lia|].
    destruct (IH (i + 1) (copy_row i m)) as [Hc Ho]; [lia..|]. split.
    + intros p. rewrite Hc, !Hc1. unfold screen_height, screen_width in *.
      repeat (destruct (decide _)); try lia; done.
    + intros a Ha. rewrite Ho by done. by apply Ho1.
Qed.

(** The cursor is on the screen. *)
Definition vga_inv (s : vga) : Prop :=
  0 ≤ cursor_line s < screen_height ∧ 0 ≤ cursor_column s < screen_width.

(** What one character does to the cells of the screen and to the cursor. *)
Definition breaks_line (s : vga) (c : Z) : bool :=
  (c =? LF) || (negb (c =? CR) && (cursor_column s =? screen_width - 1)).

Definition written_cell (s : vga) (c fg bg p : Z) : cell_t :=
  if (c =? LF) || (c =? CR) then load_cell (vga_mem s) p
  else if decide (p = cursor_line s * screen_width + cursor_column s) then make_cell c fg bg
  else load_cell (vga_mem s) p.

Definition shown_cell (s : vga) (c fg bg p : Z) : cell_t :=
  if breaks_line s c && (cursor_line s =? screen_height - 1) then
    if p <? (screen_height - 1) * screen_width then written_cell s c fg bg (p + screen_width)
    else make_cell 32 (global_fg s) (global_bg s)
  else written_cell s c fg bg p.

Lemma line_break_done s : 0 ≤ cursor_line s < screen_height →
  ∃ m, line_break s = Done (tt, mkVga m (Z.min (cursor_line s + 1) (screen_height - 1)) 0 (global_fg s) (global_bg s)) ∧
    (∀ a, ¬ screen_bytes a → load8 m a = load8 (vga_mem s) a) ∧
    (∀ p, 0 ≤ p < screen_height * screen_width → load_cell m p =
       if cursor_line s =? screen_height - 1 then
         if p <? (screen_height - 1) * screen_width then load_cell (vga_mem s) (p + screen_width)
         else make_cell 32 (global_fg s) (global_bg s)
       else load_cell (vga_mem s) p).
Proof.
  intros Hl. unfold line_break, new_line. rewrite bind_bind, gets_bind.
  unfold set_line. rewrite bind_bind, modify_bind.
  destruct (Z.eqb_spec (cursor_line s + 1) screen_height) as [He|Hne].
  - unfold scroll. rewrite bind_bind, modify_bind. unfold on_vga_mem, empty_cell.
    rewrite bind_bind, modify_bind, bind_bind, gets_bind, modify_bind.
    cbn [vga_mem cursor_line cursor_column global_fg global_bg].
    set (m1 := for_rows copy_row (Z.to_nat (screen_height - 1)) 0 (vga_mem s)).
    destruct (scroll_loop_done (Z.to_nat (screen_height - 1)) 0 (vga_mem s)) as [Hc1 Ho1];
      [lia|unfold screen_height; lia|]. fold m1 in Hc1, Ho1.
    set (blank := make_cell 32 (global_fg s) (global_bg s)).
    destruct (fill_n_done (Z.to_nat screen_width) ((screen_height - 1) * screen_width) blank m1) as [Hc2 Ho2];
      [apply make_cell_bytes|unfold screen_height, screen_width; lia..|].
    eexists. split.
    { unfold carriage_return, set_column, modify. cbn [vga_mem cursor_line cursor_column global_fg global_bg].
      rewrite Z.min_r by lia. reflexivity. }
    split; [intros a Ha; rewrite Ho2 by done; by apply Ho1|].
    intros p Hp. replace (cursor_line s) with (screen_height - 1) by lia. rewrite Z.eqb_refl.
    rewrite Hc2, Hc1. unfold screen_height, screen_width in *.
    destruct (Z.ltb_spec p ((25 - 1) * 80)); repeat (destruct (decide _)); try lia; done.
  - eexists. split.
    { unfold carriage_return, set_column, modify, mbind, prog_bind, mret, prog_ret.
      cbn [vga_mem cursor_line cursor_column global_fg global_bg]. rewrite Z.min_l by lia. reflexivity. }
    split; [done|]. intros p Hp. destruct (Z.eqb_spec (cursor_line s) (screen_height - 1)); [lia|done].
Qed.

(** ** One character *)

(** Putting a character writes at the cursor, wraps at the right edge, scrolls at
    the bottom with a blank last line, keeps the cursor on the screen, and changes
    no byte of memory outside the screen. *)
Lemma vga_putc_correct s c fg bg (Hinv : vga_inv s) :
  ∃ s', putc_color c fg bg s = Done (tt, s') ∧ vga_inv s' ∧
    global_fg s' = global_fg s ∧ global_bg s' = global_bg s ∧
    (cursor_line s', cursor_column s') =
      (if breaks_line s c then (Z.min (cursor_line s + 1) (screen_height - 1), 0)
       else (cursor_line s, if c =? CR then 0 else cursor_column s + 1)) ∧
    (∀ p, 0 ≤ p < screen_height * screen_width → load_cell (vga_mem s') p = shown_cell s c fg bg p) ∧
    (∀ a, ¬ screen_bytes a → load8 (vga_mem s') a = load8 (vga_mem s) a).
Proof.
  pose proof Hinv as [Hl Hc]. unfold putc_color, shown_cell, breaks_line, written_cell.
  destruct (Z.eqb_spec c LF) as [->|Hlf]; cbn [orb andb].
  - destruct (line_break_done s Hl) as (m & E & Ho & Hm). eexists. split; [exact E|].
    cbn [vga_mem cursor_line cursor_column global_fg global_bg]. split_and!; try done.
    unfold vga_inv. cbn [cursor_line cursor_column]. unfold screen_height, screen_width in *. lia.
  - destruct (Z.eqb_spec c CR) as [->|Hcr]; cbn [orb andb negb].
    + eexists. split; [reflexivity|]. cbn [vga_mem cursor_line cursor_column global_fg global_bg].
      split_and!; done.
    + unfold cursor_address, on_vga_mem. rewrite gets_bind, modify_bind.
      set (pos := cursor_line s * screen_width + cursor_column s).
      set (m1 := store_cell (vga_mem s) pos (make_cell c fg bg)).
      set (s1 := mkVga m1 (cursor_line s) (cursor_column s) (global_fg s) (global_bg s)).
      assert (Hpos : 0 ≤ pos < screen_height * screen_width) by (unfold pos, screen_height, screen_width in *; lia).
      assert (Hm1 : ∀ p, load_cell m1 p = if decide (p = pos) then make_cell c fg bg else load_cell (vga_mem s) p).
      { intros p. apply load_store_cell, make_cell_bytes. }
      unfold cursor_next, set_column. rewrite gets_bind, modify_bind. cbn [s1 cursor_column vga_mem cursor_line global_fg global_bg].
      destruct (Z.eqb_spec (cursor_column s + 1) screen_width) as [He|Hne].
      * replace (cursor_column s =? screen_width - 1) with true by (symmetry; apply Z.eqb_eq; lia). cbn [andb].
        set (s2 := mkVga m1 (cursor_line s) (cursor_column s + 1) (global_fg s) (global_bg s)).
        destruct (line_break_done s2 Hl) as (m & E & Ho & Hm). eexists. split; [exact E|].
        cbn [s2 vga_mem cursor_line cursor_column global_fg global_bg] in *. split_and!; try done.
        -- unfold vga_inv. cbn [cursor_line cursor_column]. unfold screen_height, screen_width in *. lia.
        -- intros p Hp. rewrite Hm by done. rewrite !Hm1. done.
        -- intros a Ha. rewrite Ho by done. by apply store_cell_outside.
      * replace (cursor_column s =? screen_width - 1) with false by (symmetry; apply Z.eqb_neq; lia). cbn [andb].
        eexists. split; [reflexivity|]. cbn [vga_mem cursor_line cursor_column global_fg global_bg].
        split_and!; try done.
        -- unfold vga_inv. cbn [cursor_line cursor_column]. unfold screen_height, screen_width in *. lia.
        -- intros a Ha. by apply store_cell_outside.
Qed.

(** [clear_screen] blanks the screen. *)
Lemma clear_screen_done s : ∃ m, clear_screen s = Done (tt, mkVga m (cursor_line s) (cursor_column s) (global_fg s) (global_bg s)) ∧
  (∀ p, 0 ≤ p < screen_height * screen_width → load_cell m p = make_cell 32 (global_fg s) (global_bg s)) ∧
  (∀ a, ¬ screen_bytes a → load8 m a = load8 (vga_mem s) a).
Proof.
  destruct (fill_n_done (Z.to_nat (screen_height * screen_width)) 0 (make_cell 32 (global_fg s) (global_bg s)) (vga_mem s))
    as [Hc Ho]; [apply make_cell_bytes|lia|unfold screen_height, screen_width; lia|].
  eexists. split; [reflexivity|]. split; [|exact Ho]. intros p Hp. rewrite Hc.
  rewrite decide_True; [done|]. unfold screen_height, screen_width in *. lia.
Qed.

(** ** The console as a terminal

    The abstract machine: a list of cells, the cursor and the two colours. *)
Record terminal : Type := mkTerminal { t_cells : list cell_t; t_line : Z; t_column : Z; t_fg : Z; t_bg : Z }.

Definition t_width : nat := 80.
Definition t_last : Z := 24.
Definition t_blank (t : terminal) : cell_t := make_cell 32 (t_fg t) (t_bg t).

(** A line feed at the bottom pushes the first row out and a blank row in. *)
Definition term_break (t : terminal) : terminal :=
  if t_line t =? t_last then
    mkTerminal (drop t_width (t_cells t) ++ replicate t_width (t_blank t)) (t_line t) 0 (t_fg t) (t_bg t)
  else mkTerminal (t_cells t) (t_line t + 1) 0 (t_fg t) (t_bg t).

Definition term_put (c fg bg : Z) (t : terminal) : terminal :=
  if c =? LF then term_break t
  else if c =? CR then mkTerminal (t_cells t) (t_line t) 0 (t_fg t) (t_bg t)
  else
    let cells := <[Z.to_nat (t_line t * Z.of_nat t_width + t_column t) := make_cell c fg bg]> (t_cells t) in
    if t_column t =? Z.of_nat t_width - 1 then term_break (mkTerminal cells (t_line t) (t_column t) (t_fg t) (t_bg t))
    else mkTerminal cells (t_line t) (t_column t + 1) (t_fg t) (t_bg t).

(** What is on the screen. *)
Definition cells_of (m : mem) : list cell_t := load_cell m <$> seqZ 0 (screen_height * screen_width).
Definition view (s : vga) : terminal :=
  mkTerminal (cells_of (vga_mem s)) (cursor_line s) (cursor_column s) (global_fg s) (global_bg s).

Lemma cells_of_lookup m i : cells_of m !! i = if decide (Z.of_nat i < screen_height * screen_width)
  then Some (load_cell m (Z.of_nat i)) else None.
Proof.
  unfold cells_of. rewrite list_lookup_fmap. case_decide.
  - by rewrite lookup_seqZ_lt by lia.
  - by rewrite lookup_seqZ_ge by lia.
Qed.

Lemma cells_of_length m : length (cells_of m) = 2000%nat.
Proof. unfold cells_of. by rewrite length_fmap, length_seqZ. Qed.

Lemma cells_of_scrolled m m' blank :
  (∀ p, 0 ≤ p < screen_height * screen_width → load_cell m' p =
     if p <? (screen_height - 1) * screen_width then load_cell m (p + screen_width) else blank) →
  cells_of m' = drop t_width (cells_of m) ++ replicate t_width blank.
Proof.
  intros H. apply list_eq. intros i. rewrite cells_of_lookup. unfold screen_height, screen_width, t_width in *.
  destruct (decide (i < 1920)%nat) as [Hi|Hi].
  - rewrite decide_True, H, lookup_app_l by (rewrite ?length_drop, ?cells_of_length; lia).
    rewrite (proj2 (Z.ltb_lt _ _)) by lia. rewrite lookup_drop, cells_of_lookup.
    rewrite decide_True by (unfold screen_height, screen_width; lia). do 2 f_equal. lia.
  - rewrite lookup_app_r, length_drop, cells_of_length by (rewrite ?length_drop, ?cells_of_length; lia).
    case_decide as Hd.
    + rewrite H, (proj2 (Z.ltb_ge _ _)) by lia. symmetry. apply lookup_replicate. split; [done|lia].
    + symmetry. apply lookup_replicate_None. lia.
Qed.

Lemma cells_of_written m m' pos c : 0 ≤ pos →
  (∀ p, 0 ≤ p < screen_height * screen_width → load_cell m' p = if decide (p = pos) then c else load_cell m p) →
  cells_of m' = <[Z.to_nat pos := c]> (cells_of m).
Proof.
  intros Hpos H. apply list_eq. intros i. rewrite list_lookup_insert, !cells_of_lookup, cells_of_length.
  unfold screen_height, screen_width in *. case_decide as Hd; [rewrite H by lia|]; repeat case_decide; try done; lia.
Qed.

Definition written_mem (s : vga) (c fg bg : Z) : mem :=
  if (c =? LF) || (c =? CR) then vga_mem s
  else store_cell (vga_mem s) (cursor_line s * screen_width + cursor_column s) (make_cell c fg bg).

Lemma written_mem_cell s c fg bg p : load_cell (written_mem s c fg bg) p = written_cell s c fg bg p.
Proof.
  unfold written_mem, written_cell. destruct (_ || _); [done|]. apply load_store_cell, make_cell_bytes.
Qed.

Lemma written_mem_cells s c fg bg : vga_inv s → cells_of (written_mem s c fg bg) =
  if (c =? LF) || (c =? CR) then cells_of (vga_mem s)
  else <[Z.to_nat (cursor_line s * Z.of_nat t_width + cursor_column s) := make_cell c fg bg]> (cells_of (vga_mem s)).
Proof.
  intros [Hl Hc]. unfold written_mem. destruct (_ || _); [done|]. apply cells_of_written.
  - unfold t_width. lia.
  - intros p _. rewrite load_store_cell by apply make_cell_bytes. done.
Qed.

Lemma cells_of_ext m m' : (∀ p, 0 ≤ p < screen_height * screen_width → load_cell m' p = load_cell m p) →
  cells_of m' = cells_of m.
Proof.
  intros H. apply list_eq. intros i. rewrite !cells_of_lookup. case_decide; [|done]. by rewrite H by lia.
Qed.

Lemma term_put_view s c fg bg : vga_inv s →
  let t := mkTerminal (cells_of (written_mem s c fg bg)) (cursor_line s) (cursor_column s) (global_fg s) (global_bg s) in
  term_put c fg bg (view s) =
    if breaks_line s c then term_break t
    else mkTerminal (t_cells t) (t_line t) (if c =? CR then 0 else t_column t + 1) (t_fg t) (t_bg t).
Proof.
  intros Hi t. unfold t. rewrite (written_mem_cells s c fg bg Hi). unfold term_put, breaks_line, view.
  cbn [t_cells t_line t_column t_fg t_bg]. change (Z.of_nat t_width - 1) with (screen_width - 1).
  destruct (c =? LF); [done|]. destruct (c =? CR); [done|]. cbn [orb andb negb].
  by destruct (cursor_column s =? screen_width - 1).
Qed.

Lemma putc_refines s c fg bg : vga_inv s →
  ∃ s', putc_color c fg bg s = Done (tt, s') ∧ vga_inv s' ∧ view s' = term_put c fg bg (view s) ∧
    ∀ a, ¬ screen_bytes a → load8 (vga_mem s') a = load8 (vga_mem s) a.
Proof.
  intros Hi. destruct (vga_putc_correct s c fg bg Hi) as (s' & E & Hi' & Hf & Hb & Hcur & Hcells & Hout).
  exists s'. split; [done|]. split; [done|]. split; [|done]. rewrite term_put_view by done.
  unfold view at 1. rewrite Hf, Hb. unfold shown_cell in Hcells. unfold term_break.
  cbn [t_cells t_line t_column t_fg t_bg]. unfold t_blank; cbn [t_fg t_bg].
  destruct (breaks_line s c); cbn [andb] in Hcells; injection Hcur as -> ->.
  - change t_last with (screen_height - 1). destruct (Z.eqb_spec (cursor_line s) (screen_height - 1)) as [El|El].
    + f_equal; [|rewrite El; done]. apply cells_of_scrolled. intros p Hp. rewrite Hcells by done.
      by rewrite written_mem_cell.
    + f_equal; [|destruct Hi; lia]. apply cells_of_ext. intros p Hp. by rewrite Hcells, written_mem_cell by done.
  - f_equal. apply cells_of_ext. intros p Hp. by rewrite Hcells, written_mem_cell by done.
Qed.

Lemma puts_color_refines str fg bg : ∀ s, vga_inv s →
  ∃ s', puts_color str fg bg s = Done (tt, s') ∧ vga_inv s' ∧
    view s' = foldl (λ t c, term_put c fg bg t) (view s) str ∧
    ∀ a, ¬ screen_bytes a → load8 (vga_mem s') a = load8 (vga_mem s) a.
Proof.
  induction str as [|c str IH]; intros s Hi; [by exists s|]. cbn [puts_color foldl].
  destruct (putc_refines s c fg bg Hi) as (s1 & E1 & H1 & V1 & O1). rewrite (bind_done _ _ _ _ _ E1).
  destruct (IH s1 H1) as (s2 & E2 & H2 & V2 & O2). exists s2. rewrite V2, V1. split_and!; try done.
  intros a Ha. by rewrite O2, O1.
Qed.

(** [puts] on the terminal: the text in the current colours. *)
Definition term_puts (str : list Z) (t : terminal) : terminal :=
  foldl (λ t' c, term_put c (t_fg t) (t_bg t) t') t str.

Lemma puts_refines str s : vga_inv s →
  ∃ s', puts str s = Done (tt, s') ∧ vga_inv s' ∧ view s' = term_puts str (view s) ∧
    ∀ a, ¬ screen_bytes a → load8 (vga_mem s') a = load8 (vga_mem s) a.
Proof.
  intros Hi. unfold puts, get_fg, get_bg. rewrite !gets_bind. by apply puts_color_refines.
Qed.

(** * Properties *)

(** C30: the console implements a terminal of 25 rows of 80 cells: from every state with the cursor
    on the screen, printing a text in any colours ends with the screen, the cursor and the colours
    of the abstract machine that read the same text, the cursor is on the screen again, and no
    other byte of memory has changed; clearing blanks every cell. *)
Theorem vga_console_refines s (Hinv : vga_inv s) :
  (∀ str fg bg, ∃ s', puts_color str fg bg s = Done (tt, s') ∧ vga_inv s' ∧
     view s' = foldl (λ t c, term_put c fg bg t) (view s) str ∧
     ∀ a, ¬ screen_bytes a → load8 (vga_mem s') a = load8 (vga_mem s) a) ∧
  (∀ str, ∃ s', puts str s = Done (tt, s') ∧ vga_inv s' ∧ view s' = term_puts str (view s) ∧
     ∀ a, ¬ screen_bytes a → load8 (vga_mem s') a = load8 (vga_mem s) a) ∧
  (∃ s', clear_screen s = Done (tt, s') ∧ vga_inv s' ∧
     view s' = mkTerminal (replicate 2000 (t_blank (view s))) (cursor_line s) (cursor_column s) (global_fg s) (global_bg s) ∧
     ∀ a, ¬ screen_bytes a → load8 (vga_mem s') a = load8 (vga_mem s) a).
Proof.
  split; [|split].
  - intros str fg bg. by apply puts_color_refines.
  - intros str. by apply puts_refines.
  - destruct (clear_screen_done s) as (m & E & Hm & Ho). eexists. split; [exact E|]. split; [exact Hinv|].
    split; [|exact Ho]. unfold view; cbn [vga_mem cursor_line cursor_column global_fg global_bg]. f_equal.
    apply list_eq. intros i. rewrite cells_of_lookup. unfold t_blank; cbn [t_fg t_bg].
    unfold screen_height, screen_width in *. case_decide.
    + rewrite Hm by lia. symmetry. apply lookup_replicate. split; [done|lia].
    + symmetry. apply lookup_replicate_None. lia.
Qed.

(** The last cell of the screen is written and the screen scrolls. *)
Lemma vga_console_refines_witness :
  let s := mkVga ∅ 24 79 7 0 in
  ∃ s', puts [65; 66] s = Done (tt, s') ∧ view s' = term_puts [65; 66] (view s).
Proof.
  intros s. assert (Hi : vga_inv s) by (split; cbn; unfold screen_height, screen_width; lia).
  destruct (vga_console_refines s Hi) as (_ & H & _). destruct (H [65; 66]) as (s' & E & _ & V & _).
  by exists s'.
Defined.
