(* ===== verification/Panic.v ===== *)
(** * Kernel panic

    [libkernelcxx/src/error.cpp] and [libkernelcxx/src/printk.cpp]: the three
    functions that never return.  The other files model a call of [panic] by the
    outcome [Panic]; here is what the machine does from then on: it prints on the
    console and halts with interrupts disabled, for good. *)
From stdpp Require Import base tactics numbers list gmap strings relations.
From S2P Require Import Prelude MemUtils Irq OStream Vga.

(** The part of the machine a panic works on: the two interrupt flags and the console. *)
Record machine : Type := mkMachine { m_irq : irq_state; m_console : vga }.

Definition on_m_irq {A} : irq_prog A → prog machine A := zoom m_irq (λ i m, mkMachine i (m_console m)).
Definition on_console {A} : vga_prog A → prog machine A := zoom m_console (λ v m, mkMachine (m_irq m) v).

Definition printk (str : list Z) : prog machine unit := on_console (puts str).

(** [panic] up to its endless loop; no message is the null pointer. *)
Definition panic_banner : list Z := chars_of "Kernel Panic:" ++ [LF].
Definition printk_opt (msg : option (list Z)) : prog machine unit :=
  match msg with Some str => printk str | None => mret tt end.
Definition panic_entry (msg : option (list Z)) : prog machine unit :=
  on_m_irq disable ;; printk panic_banner ;; printk_opt msg.

Definition bug_banner : list Z := chars_of "Kernel Bug! Escalating to Kernel Panic..." ++ [LF].
Definition bug (msg : option (list Z)) : prog machine unit := printk bug_banner ;; panic_entry msg.

Definition not_implemented_text : list Z := chars_of "not implemented error".
Definition raise_not_implemented (msg : option (list Z)) : prog machine unit :=
  printk_opt msg ;; panic_entry (Some not_implemented_text).

(** The loop [while (true) halt_cpu();]: the processor executes [hlt] and stops
    until an interrupt.  A device interrupt is taken only when the flag is set, and
    its handlers may do anything; a non-maskable one is always taken, has no handler
    in this kernel, and at most prints. *)
Inductive cpu : Type := Spinning | Halted.

Inductive loop_step (nmi : bool) : cpu * machine → cpu * machine → Prop :=
  | step_hlt m : loop_step nmi (Spinning, m) (Halted, m)
  | step_device m m' : if_flag (m_irq m) = true → loop_step nmi (Halted, m) (Spinning, m')
  | step_nmi m v : nmi = true → loop_step nmi (Halted, m) (Spinning, mkMachine (m_irq m) v).

(** * Verification *)

(** Colours survive printing, so texts compose. *)
Lemma term_put_colours c fg bg t : t_fg (term_put c fg bg t) = t_fg t ∧ t_bg (term_put c fg bg t) = t_bg t.
Proof.
  unfold term_put, term_break. destruct (c =? LF), (c =? CR); repeat (case_match; cbn [t_fg t_bg t_line]); done.
Qed.

Lemma term_foldl_colours str fg bg : ∀ t, t_fg (foldl (λ t c, term_put c fg bg t) t str) = t_fg t ∧
  t_bg (foldl (λ t c, term_put c fg bg t) t str) = t_bg t.
Proof.
  induction str as [|c str IH]; intros t; cbn [foldl]; [done|].
  destruct (IH (term_put c fg bg t)) as [-> ->]. apply term_put_colours.
Qed.

Lemma term_puts_app a b t : term_puts (a ++ b) t = term_puts b (term_puts a t).
Proof.
  destruct (term_foldl_colours a (t_fg t) (t_bg t) t) as [Hf Hb]. unfold term_puts. by rewrite foldl_app, Hf, Hb.
Qed.

(** [p] prints [str] on the console and leaves the flags as [f] makes them. *)
Definition shows (p : prog machine unit) (f : irq_state → irq_state) (str : list Z) : Prop :=
  ∀ m, vga_inv (m_console m) → ∃ m', p m = Done (tt, m') ∧ m_irq m' = f (m_irq m) ∧
    vga_inv (m_console m') ∧ view (m_console m') = term_puts str (view (m_console m)) ∧
    ∀ a, ¬ screen_bytes a → load8 (vga_mem (m_console m')) a = load8 (vga_mem (m_console m)) a.

Lemma shows_ret : shows (mret tt) id [].
Proof. intros m Hi. by exists m. Qed.

Lemma shows_then p q f g a b : shows p f a → shows q g b → shows (p ;; q) (g ∘ f) (a ++ b).
Proof.
  intros Hp Hq m Hi. destruct (Hp m Hi) as (m1 & E1 & I1 & H1 & V1 & O1).
  destruct (Hq m1 H1) as (m2 & E2 & I2 & H2 & V2 & O2). rewrite (bind_done _ _ _ _ _ E1).
  exists m2. rewrite term_puts_app, <- V1. split_and!; try done.
  - by rewrite I2, I1.
  - intros x Hx. by rewrite O2, O1.
Qed.

Lemma shows_printk str : shows (printk str) id str.
Proof.
  intros [i v] Hi. destruct (puts_refines str v Hi) as (v' & E & Hi' & Hv & Ho).
  exists (mkMachine i v'). unfold printk, on_console, zoom. cbn [m_console]. by rewrite E.
Qed.

Lemma shows_disable : shows (on_m_irq disable ;; mret tt) (λ _, mkIrq false false) [].
Proof. intros m Hi. by eexists. Qed.

Lemma shows_opt msg : shows (printk_opt msg) id (default [] msg).
Proof. destruct msg; [apply shows_printk|apply shows_ret]. Qed.

Lemma shows_panic msg : shows (panic_entry msg) (λ _, mkIrq false false) (panic_banner ++ default [] msg).
Proof.
  exact (shows_then _ _ _ _ _ _ shows_disable (shows_then _ _ _ _ _ _ (shows_printk panic_banner) (shows_opt msg))).
Qed.

Lemma shows_bug msg : shows (bug msg) (λ _, mkIrq false false) (bug_banner ++ panic_banner ++ default [] msg).
Proof. exact (shows_then _ _ _ _ _ _ (shows_printk bug_banner) (shows_panic msg)). Qed.

Lemma shows_not_implemented msg : shows (raise_not_implemented msg) (λ _, mkIrq false false)
  (default [] msg ++ panic_banner ++ not_implemented_text).
Proof. exact (shows_then _ _ _ _ _ _ (shows_opt msg) (shows_panic (Some not_implemented_text))). Qed.

(** The invariant of the loop: with the flag off no device interrupt gets in. *)
Lemma loop_invariant nmi m st : if_flag (m_irq m) = false → rtc (loop_step nmi) (Spinning, m) st →
  m_irq st.2 = m_irq m ∧ (nmi = false → m_console st.2 = m_console m).
Proof.
  change (if_flag (m_irq (Spinning, m).2) = false → rtc (loop_step nmi) (Spinning, m) st →
    m_irq st.2 = m_irq (Spinning, m).2 ∧ (nmi = false → m_console st.2 = m_console (Spinning, m).2)).
  generalize (Spinning, m). intros s0 Hf Hr. revert Hf.
  induction Hr as [x|x y z Hs _ IH]; intros Hf; [done|].
  assert (E : m_irq y.2 = m_irq x.2 ∧ (nmi = false → m_console y.2 = m_console x.2)).
  { destruct Hs as [n|n n' Hd|n v ->]; cbn in *; [done|congruence|done]. }
  destruct E as [E1 E2]. destruct IH as [I1 I2]; [congruence|]. split; [congruence|].
  intros Hn. rewrite I2, E2; done.
Qed.

Lemma loop_goes_on nmi st : (∃ m, st = (Spinning, m)) → ∃ st', loop_step nmi st st'.
Proof. intros [m ->]. exists (Halted, m). constructor. Qed.

(** C21: panic, bug and raise_not_implemented return from their printing on every console state with
    exactly their banner and the message behind what was on the screen, with both interrupt flags
    off; from then on, whatever interrupts devices raise, no handler runs, the flags stay off, a
    processor that is not halted can only halt, and without a non-maskable interrupt the screen
    never changes again. *)
Theorem panic_is_final p str m
    (Hp : (∃ msg, p = panic_entry msg ∧ str = panic_banner ++ default [] msg) ∨
          (∃ msg, p = bug msg ∧ str = bug_banner ++ panic_banner ++ default [] msg) ∨
          (∃ msg, p = raise_not_implemented msg ∧ str = default [] msg ++ panic_banner ++ not_implemented_text))
    (Hinv : vga_inv (m_console m)) :
  ∃ m', p m = Done (tt, m') ∧ m_irq m' = mkIrq false false ∧
    view (m_console m') = term_puts str (view (m_console m)) ∧
    (∀ a, ¬ screen_bytes a → load8 (vga_mem (m_console m')) a = load8 (vga_mem (m_console m)) a) ∧
    ∀ nmi c n, rtc (loop_step nmi) (Spinning, m') (c, n) →
      m_irq n = mkIrq false false ∧ (nmi = false → m_console n = m_console m') ∧
      (c = Spinning → ∀ st, loop_step nmi (c, n) st → st = (Halted, n)) ∧
      (c = Halted → nmi = false → ¬ ∃ st, loop_step nmi (c, n) st).
Proof.
  assert (Hs : shows p (λ _, mkIrq false false) str).
  { destruct Hp as [(msg & -> & ->)|[(msg & -> & ->)|(msg & -> & ->)]];
      [apply shows_panic|apply shows_bug|apply shows_not_implemented]. }
  destruct (Hs m Hinv) as (m' & E & I & Hi & V & O). exists m'. split_and!; try done.
  intros nmi c n Hr. destruct (loop_invariant nmi m' (c, n)) as [Hf Hc]; [by rewrite I|done|]. cbn in Hf, Hc.
  rewrite I in Hf. split_and!; try done.
  - intros -> st Hst. by inversion Hst.
  - intros -> -> [st Hst]. inversion Hst as [|? ? Hd|]; subst; [|done]. by rewrite Hf in Hd.
Qed.

(** A bug reported on a screen whose cursor is in the last row. *)
Lemma panic_is_final_witness :
  let m := mkMachine (mkIrq true true) (mkVga ∅ 24 0 7 0) in
  ∃ m', bug (Some (chars_of "double free")) m = Done (tt, m') ∧ m_irq m' = mkIrq false false ∧
    view (m_console m') = term_puts (bug_banner ++ panic_banner ++ chars_of "double free") (view (m_console m)).
Proof.
  intros m. assert (Hi : vga_inv (m_console m)) by (split; cbn; unfold screen_height, screen_width; lia).
  destruct (panic_is_final (bug (Some (chars_of "double free"))) _ m
    (or_intror (or_introl (ex_intro _ (Some (chars_of "double free")) (conj eq_refl eq_refl)))) Hi) as (m' & E & I & V & _).
  exists m'. exact (conj E (conj I V)).
Defined.
