(* ===== verification/Containers.v ===== *)
(** * Algorithms, containers and owning pointers

    [libkernelcxx/include/algorithm.hpp], [utility.hpp], [array.hpp],
    [ext/fixed_size_vector.hpp], [optional.hpp] and [memory.hpp].  The algorithms
    are templates over iterators; the class [Iterator] is what they use of one.
    Objects that are built, moved and destroyed are identified by numbers, so that
    the lifetime theorems can count them. *)
From stdpp Require Import base tactics numbers list gmap strings sets fin_sets.
From S2P Require Import Prelude.

(** ** [utility.hpp] *)
Definition swap {T} (ab : T * T) : T * T :=
  let '(a, b) := ab in
  let tmp := b in
  let b := a in
  let a := tmp in
  (a, b).

(** The array overload swaps index by index. *)
Fixpoint swap_arrays {T} (a b : list T) : list T * list T :=
  match a, b with
  | x :: a', y :: b' =>
      let '(x', y') := swap (x, y) in
      let '(a'', b'') := swap_arrays a' b' in (x' :: a'', y' :: b'')
  | _, _ => (a, b)
  end.

(** [exchange] returns the old value and leaves the new one. *)
Definition exchange {T} (new_value obj : T) : T * T :=
  let old_value := obj in (old_value, new_value).

(** ** [algorithm.hpp] *)
Class Iterator (W It T : Type) : Type := {
  it_next : It → It;
  it_neq : It → It → bool;
  it_read : It → prog W T;
  it_write : It → T → prog W unit
}.

Section Algorithms.
Context {W It T : Type} `{Iterator W It T}.

Fixpoint copy (fuel : nat) (first last result : It) : prog W It :=
  match fuel with
  | O => no_fuel
  | S k =>
      if it_neq first last then
        v ← it_read first;
        it_write result v ;;
        copy k (it_next first) last (it_next result)
      else mret result
  end.

Fixpoint copy_n (n : nat) (first result : It) : prog W It :=
  match n with
  | O => mret result
  | S k =>
      v ← it_read first;
      it_write result v ;;
      copy_n k (it_next first) (it_next result)
  end.

Fixpoint for_each (fuel : nat) (first last : It) (func : T → prog W unit) : prog W unit :=
  match fuel with
  | O => no_fuel
  | S k =>
      if it_neq first last then
        v ← it_read first; func v ;; for_each k (it_next first) last func
      else mret tt
  end.

Fixpoint fill (fuel : nat) (first last : It) (value : T) : prog W unit :=
  match fuel with
  | O => no_fuel
  | S k =>
      if it_neq first last then
        it_write first value ;; fill k (it_next first) last value
      else mret tt
  end.

Fixpoint fill_n (n : nat) (first : It) (value : T) : prog W unit :=
  match n with
  | O => mret tt
  | S k => it_write first value ;; fill_n k (it_next first) value
  end.

Fixpoint find_if (fuel : nat) (first last : It) (pred : T → prog W bool) : prog W It :=
  match fuel with
  | O => no_fuel
  | S k =>
      if it_neq first last then
        v ← it_read first;
        b ← pred v;
        if (b : bool) then mret first else find_if k (it_next first) last pred
      else mret first
  end.
End Algorithms.

Definition max (a b : Z) : Z := if a <? b then b else a.

(** Pointers into an array, as indices. *)
#[export] Instance index_iterator {T} : Iterator (list T) nat T := {|
  it_next := S;
  it_neq i j := negb (i =? j)%nat;
  it_read i := λ s, match s !! i with Some v => Done (v, s) | None => Fault "read out of range" end;
  it_write i v := λ s, if (i <? length s)%nat then Done (tt, <[i := v]> s) else Fault "write out of range"
|}.

(** ** [array] and [FixedSizeVector] *)
Definition array_at {T} (pos : nat) : prog (list T) T := λ s,
  match s !! pos with Some v => Done (v, s) | None => Panic "index out of bounds" end.
Definition array_index {T} (pos : nat) : prog (list T) T := it_read pos.
Definition array_index_set {T} (pos : nat) (v : T) : prog (list T) unit := it_write pos v.

Record FixedSizeVector (T : Type) : Type := mkVector { vec_data : list T; vec_size : Z }.
Arguments mkVector {T}. Arguments vec_data {T}. Arguments vec_size {T}.

Section Vector.
Context {T : Type}.
Abbreviation vec_prog := (prog (FixedSizeVector T)).

(** The template parameter [Size] is the length of the array. *)
Definition capacity (v : FixedSizeVector T) : Z := Z.of_nat (length (vec_data v)).

Definition on_data {A} : prog (list T) A → vec_prog A :=
  zoom vec_data (λ d v, mkVector d (vec_size v)).

Definition expand_up_to (new_size : Z) : vec_prog unit :=
  cap ← gets capacity;
  if cap <? new_size then panic "fault"
  else modify (λ v, mkVector (vec_data v) (max (vec_size v) new_size)).

Definition expand_by (additional_elems : Z) : vec_prog unit :=
  size ← gets vec_size; expand_up_to (u32 (size + additional_elems)).

Definition push_back (value : T) : vec_prog unit :=
  expand_by 1 ;;
  size ← gets vec_size;
  on_data (array_index_set (Z.to_nat (u32 (size - 1))) value).

Definition vector_index (pos : nat) : vec_prog T := on_data (array_index pos).

Definition vector_at (pos : nat) : vec_prog T :=
  size ← gets vec_size;
  if size <=? Z.of_nat pos then panic "fault" else on_data (array_at pos).
End Vector.

(** ** [optional]

    [storage] is the object alive in [_storage], if any; [_has_value] is what the
    optional believes.  [destroyed] are the objects whose destructor ran. *)
Record optional : Type := mkOptional { opt_storage : option Z; opt_has_value : bool }.

Record lifetime : Type := mkLifetime { destroyed : list Z }.

Definition destroy (v : Z) : prog lifetime unit :=
  modify (λ w, mkLifetime (destroyed w ++ [v])).

Definition optional_default : optional := mkOptional None false.

(** Construction from a value; [v] is the object built in the storage. *)
Definition optional_of (v : Z) : optional := mkOptional (Some v) true.

Definition opt_value (o : optional) : prog lifetime Z :=
  if opt_has_value o then
    match opt_storage o with Some v => mret v | None => fault "no object in storage" end
  else panic "bad_optional_access".

(** The move constructor; [moved] is the object that move construction makes of
    another.  The new optional starts from its default member initializers. *)
Definition optional_move (moved : Z → Z) (other : optional) : prog lifetime optional :=
  if opt_has_value other then
    v ← opt_value other; mret (mkOptional (Some (moved v)) false)
  else mret optional_default.

Definition destroy_value (o : optional) : prog lifetime unit :=
  if opt_has_value o then v ← opt_value o; destroy v else mret tt.

Definition optional_move_assign (moved : Z → Z) (o other : optional) : prog lifetime optional :=
  destroy_value o ;;
  v ← opt_value other;
  mret (mkOptional (Some (moved v)) true).

Definition optional_assign (v : Z) (o : optional) : prog lifetime optional :=
  destroy_value o ;;
  mret (mkOptional (Some v) true).

(** The destructor. *)
Definition optional_delete (o : optional) : prog lifetime unit := destroy_value o.

(** ** [unique_ptr]

    [objects] are the objects [new] has made and [delete] has not taken back, single
    ones and arrays; [owners] maps the address of a [unique_ptr] to its [_object]. *)
Inductive form : Type := Single | Array.

#[export] Instance form_eq_dec : EqDecision form.
Proof. solve_decision. Defined.

Record ptr_state : Type := mkPtrs { objects : gmap Z form; owners : gmap Z Z }.

Abbreviation ptr_prog := (prog ptr_state).

(** [delete] of a single object, [delete[]] of an array. *)
Definition delete_form (f : form) (p : Z) : ptr_prog unit := λ s,
  match objects s !! p with
  | Some f' =>
      if decide (f' = f) then Done (tt, mkPtrs (delete p (objects s)) (owners s))
      else Fault "the other form of delete"
  | None => Fault "delete of an object that is not alive"
  end.

(** The deleters. *)
Definition delete_object : Z → ptr_prog unit := delete_form Single.
Definition delete_elements : Z → ptr_prog unit := delete_form Array.

Definition get_ptr (x : Z) : ptr_prog Z := λ s,
  match owners s !! x with Some p => Done (p, s) | None => Fault "not a unique_ptr" end.
Definition set_ptr (x p : Z) : ptr_prog unit := modify (λ s, mkPtrs (objects s) (<[x := p]> (owners s))).

Definition unique_null (x : Z) : ptr_prog unit := set_ptr x nullptr.
Definition unique_of (x p : Z) : ptr_prog unit := set_ptr x p.

(** The move constructor: the new pointer is null, then the two are swapped. *)
Definition unique_move (x other : Z) : ptr_prog unit :=
  set_ptr x nullptr ;;
  a ← get_ptr x; b ← get_ptr other;
  let '(a, b) := swap (a, b) in
  set_ptr x a ;; set_ptr other b.

Definition unique_release (x : Z) : ptr_prog Z :=
  old_ptr ← get_ptr x;
  set_ptr x nullptr ;;
  mret old_ptr.

(** What calls the deleter, the template parameter of the class. *)
Section Deleter.
Context (deleter : Z → ptr_prog unit).

Definition unique_reset (x ptr : Z) : ptr_prog unit :=
  old_ptr ← get_ptr x;
  set_ptr x ptr ;;
  if old_ptr =? nullptr then mret tt else deleter old_ptr.

Definition unique_assign (x other : Z) : ptr_prog unit :=
  p ← unique_release other;
  unique_reset x p.

(** The destructor; the variable is gone behind it. *)
Definition unique_delete (x : Z) : ptr_prog unit :=
  p ← get_ptr x;
  (if p =? nullptr then mret tt else deleter p) ;;
  modify (λ s, mkPtrs (objects s) (delete x (owners s))).
End Deleter.

(** [make_unique]; [p] is the address [new] returns. *)
Definition new_form (f : form) (p : Z) : ptr_prog unit :=
  modify (λ s, mkPtrs (<[p := f]> (objects s)) (owners s)).
Definition make_unique (x p : Z) : ptr_prog unit := new_form Single p ;; unique_of x p.

(** The specialisation [unique_ptr<T[]>] has the same text, with the deleter of arrays. *)
Definition array_get (x : Z) : ptr_prog Z := get_ptr x.
Definition array_null (x : Z) : ptr_prog unit := unique_null x.
Definition array_of (x p : Z) : ptr_prog unit := unique_of x p.
Definition array_move (x other : Z) : ptr_prog unit := unique_move x other.
Definition array_release (x : Z) : ptr_prog Z := unique_release x.
Definition array_reset (x ptr : Z) : ptr_prog unit := unique_reset delete_elements x ptr.
Definition array_assign (x other : Z) : ptr_prog unit := unique_assign delete_elements x other.
Definition array_delete (x : Z) : ptr_prog unit := unique_delete delete_elements x.

(** [make_unique<T>(size)] *)
Definition make_unique_array (x p : Z) : ptr_prog unit := new_form Array p ;; unique_of x p.

(** * Verification *)

(** ** Ranges *)
Definition reaches {W It T} `{Iterator W It T} (n : nat) (first last : It) : Prop :=
  (∀ k, (k < n)%nat → it_neq (Nat.iter k it_next first) last = true) ∧
  it_neq (Nat.iter n it_next first) last = false.

Lemma reaches_S {W It T} `{Iterator W It T} n first last :
  reaches (S n) first last → it_neq first last = true ∧ reaches n (it_next first) last.
Proof.
  intros [Hk Hn]. split; [apply (Hk O); lia|]. split.
  - intros k Hlt. rewrite <- Nat.iter_succ_r. apply Hk. lia.
  - by rewrite <- Nat.iter_succ_r.
Qed.

Lemma bind_ext {St A B} (p : prog St A) (f g : A → prog St B) s :
  (∀ a s', f a s' = g a s') → (p ≫= f) s = (p ≫= g) s.
Proof. intros Hfg. unfold mbind, prog_bind. by destruct (p s) as [[a s']| | |]. Qed.

Lemma reaches_index {T} i n : reaches (W := list T) n i (i + n)%nat.
Proof.
  assert (Hiter : ∀ k, Nat.iter k S i = (k + i)%nat).
  { induction k as [|k IH]; [done|]. rewrite Nat.iter_succ, IH. lia. }
  split; [intros k Hk|]; cbn [it_neq it_next index_iterator]; rewrite Hiter.
  - destruct (Nat.eqb_spec (k + i) (i + n)); [lia|done].
  - destruct (Nat.eqb_spec (n + i) (i + n)); [done|lia].
Qed.

Lemma index_read_done {T} (l : list T) i v : l !! i = Some v → it_read i l = Done (v, l).
Proof. intros Hv. unfold it_read, index_iterator. by rewrite Hv. Qed.

Lemma index_write_done {T} (l : list T) i v :
  (i < length l)%nat → it_write i v l = Done (tt, <[i := v]> l).
Proof.
  intros Hi. unfold it_write, index_iterator. by destruct (Nat.ltb_spec i (length l)); [|lia].
Qed.

(** [copy_n] within one array, when the target does not start inside the source. *)
Lemma copy_n_list {T} : ∀ n (l : list T) i j,
  (i + n ≤ length l)%nat → (j + n ≤ length l)%nat → (j ≤ i ∨ i + n ≤ j)%nat →
  copy_n n i j l = Done ((j + n)%nat, take j l ++ take n (drop i l) ++ drop (j + n) l).
Proof.
  induction n as [|n IH]; intros l i j Hi Hj Hij; cbn [copy_n].
  { rewrite take_0, Nat.add_0_r. unfold mret, prog_ret. simpl. by rewrite take_drop. }
  destruct (lookup_lt_is_Some_2 l i) as [v Hv]; [lia|].
  rewrite (bind_done _ _ l v l) by (by apply index_read_done).
  rewrite (bind_done _ _ l tt (<[j := v]> l)) by (apply index_write_done; lia).
  cbn [it_next index_iterator].
  rewrite IH by (rewrite ?length_insert; lia). do 2 f_equal; [lia|].
  rewrite (drop_S l v i) by done. cbn [take].
  rewrite (drop_insert_lt l (S j + n)) by lia.
  rewrite (take_S_r (<[j := v]> l) j v) by (apply list_lookup_insert_eq; lia).
  rewrite take_insert_ge, <- app_assoc by lia. cbn [app]. do 2 f_equal.
  f_equal; [|f_equal; lia].
  destruct Hij as [Hij|Hij]; [by rewrite drop_insert_lt by lia|].
  rewrite !take_drop_commute. by rewrite take_insert_ge by lia.
Qed.

(** [find_if] with a pure predicate. *)
Lemma find_if_list {T} (f : T → bool) : ∀ n (l : list T) i, (i + n ≤ length l)%nat →
  ∃ k, (k ≤ n)%nat ∧
    find_if (S n) i (i + n)%nat (λ v, mret (f v)) l = Done ((i + k)%nat, l) ∧
    (∀ j v, (j < k)%nat → l !! (i + j)%nat = Some v → f v = false) ∧
    ((k < n)%nat → ∃ v, l !! (i + k)%nat = Some v ∧ f v = true).
Proof.
  induction n as [|n IH]; intros l i Hlen.
  - exists O. split; [done|]. cbn [find_if it_neq index_iterator]. rewrite Nat.add_0_r, Nat.eqb_refl.
    cbn. split_and!; [done|intros; lia|lia].
  - remember (S n) as n' eqn:En'. cbn [find_if it_neq index_iterator]. destruct (Nat.eqb_spec i (i + n')); [lia|].
    cbn [negb]. destruct (lookup_lt_is_Some_2 l i) as [v Hv]; [lia|].
    rewrite (bind_done _ _ l v l) by (by apply index_read_done). rewrite ret_bind.
    destruct (f v) eqn:Ef.
    + exists O. rewrite Nat.add_0_r. split_and!; [lia|done|intros; lia|]. intros _. by exists v.
    + subst n'. destruct (IH l (S i) ltac:(lia)) as (k & Hk & E & Hbefore & Hat).
      exists (S k). cbn [it_next index_iterator]. replace (i + S n)%nat with (S i + n)%nat by lia.
      split_and!; [lia| |intros j u Hj Hu|].
      * rewrite E. do 2 f_equal. lia.
      * destruct j as [|j]; [rewrite Nat.add_0_r in Hu; congruence|].
        apply (Hbefore j u); [lia|]. by replace (S i + j)%nat with (i + S j)%nat by lia.
      * intros Hlt. replace (i + S k)%nat with (S i + k)%nat by lia. apply Hat. lia.
Qed.

(** ** The vector *)
Definition vec_elements {T} (v : FixedSizeVector T) : list T := take (Z.to_nat (vec_size v)) (vec_data v).

Definition vec_ok {T} (v : FixedSizeVector T) : Prop :=
  0 ≤ vec_size v ≤ capacity v ∧ capacity v < 2 ^ 32 - 1.

Lemma max_spec a b : max a b = Z.max a b.
Proof. unfold max. destruct (Z.ltb_spec a b); lia. Qed.

Lemma vec_elements_length {T} (v : FixedSizeVector T) :
  vec_ok v → Z.of_nat (length (vec_elements v)) = vec_size v.
Proof.
  intros [Hs _]. unfold vec_elements, capacity in *. rewrite length_take. lia.
Qed.

Lemma push_back_done {T} (v : FixedSizeVector T) x : vec_ok v → vec_size v < capacity v →
  let v' := mkVector (<[Z.to_nat (vec_size v) := x]> (vec_data v)) (vec_size v + 1) in
  push_back x v = Done (tt, v') ∧ vec_ok v' ∧ vec_elements v' = vec_elements v ++ [x].
Proof.
  intros [Hs Hc] Hlt v'. unfold capacity in *. split_and!.
  - unfold push_back, expand_by, expand_up_to. rewrite !bind_bind, gets_bind, bind_bind, gets_bind.
    rewrite u32_small by lia. unfold capacity. destruct (Z.ltb_spec (Z.of_nat (length (vec_data v))) (vec_size v + 1)); [lia|].
    rewrite modify_bind, gets_bind, max_spec. cbn [vec_data vec_size].
    unfold on_data, zoom, array_index_set. cbn [vec_data vec_size].
    rewrite Z.max_r, u32_small by lia.
    replace (Z.to_nat (vec_size v + 1 - 1)) with (Z.to_nat (vec_size v)) by lia.
    by rewrite index_write_done by lia.
  - split; unfold capacity; cbn [vec_data vec_size v']; rewrite length_insert; lia.
  - unfold vec_elements, v'. cbn [vec_data vec_size].
    replace (Z.to_nat (vec_size v + 1)) with (S (Z.to_nat (vec_size v))) by lia.
    rewrite (take_S_r _ _ x) by (apply list_lookup_insert_eq; lia). by rewrite take_insert_ge by lia.
Qed.

Lemma vector_at_done {T} (v : FixedSizeVector T) pos x :
  vec_ok v → vec_elements v !! pos = Some x → vector_at pos v = Done (x, v).
Proof.
  intros Hok Hx. unfold vec_elements in Hx. apply lookup_take_Some in Hx as [Hx Hlt].
  destruct Hok as [Hs Hc]. unfold vector_at. rewrite gets_bind.
  destruct (Z.leb_spec (vec_size v) (Z.of_nat pos)); [lia|].
  unfold on_data, zoom, array_at. rewrite Hx. by destruct v.
Qed.

Lemma push_back_full {T} (v : FixedSizeVector T) x :
  vec_ok v → vec_size v = capacity v → push_back x v = Panic "fault".
Proof.
  intros [Hs Hc] Hfull. unfold push_back, expand_by, expand_up_to.
  rewrite !bind_bind, gets_bind, bind_bind, gets_bind, u32_small by lia.
  by destruct (Z.ltb_spec (capacity v) (vec_size v + 1)); [|lia].
Qed.

(** ** Ownership

    [type_of x] is the form of pointer the variable at [x] was declared with. *)
Section Ownership.
Context (type_of : Z → form).

Record owned (s : ptr_state) : Prop := {
  own_alive : ∀ x p, owners s !! x = Some p → p ≠ nullptr → objects s !! p = Some (type_of x);
  own_unique : ∀ x y p, owners s !! x = Some p → owners s !! y = Some p → p ≠ nullptr → x = y;
  own_objects : objects s !! nullptr = None
}.

(** Objects that nobody owns. *)
Definition raw (s : ptr_state) (p : Z) (f : form) : Prop := objects s !! p = Some f ∧ ∀ x, owners s !! x ≠ Some p.

Inductive ptr_op : Type :=
  | OpMake (x p : Z)
  | OpNull (x : Z)
  | OpMove (x other : Z)
  | OpAssign (x other : Z)
  | OpReset (x ptr : Z)
  | OpRelease (x : Z)
  | OpDelete (x : Z).

(** The operation of the class of the variable. *)
Definition exec (op : ptr_op) : ptr_prog unit :=
  match op with
  | OpMake x p => match type_of x with Single => make_unique x p | Array => make_unique_array x p end
  | OpNull x => match type_of x with Single => unique_null x | Array => array_null x end
  | OpMove x other => match type_of x with Single => unique_move x other | Array => array_move x other end
  | OpAssign x other =>
      match type_of x with Single => unique_assign delete_object x other | Array => array_assign x other end
  | OpReset x ptr =>
      match type_of x with Single => unique_reset delete_object x ptr | Array => array_reset x ptr end
  | OpRelease x =>
      match type_of x with Single => unique_release x ;; mret tt | Array => array_release x ;; mret tt end
  | OpDelete x => match type_of x with Single => unique_delete delete_object x | Array => array_delete x end
  end.

(** What the language and the caller see to: variables are constructed once and
    used while they live, pointers are assigned to pointers of their form, [new] returns a
    new object, and a pointer handed to [reset] is null or an object of nobody else and of
    that form. *)
Definition op_ok (s : ptr_state) (op : ptr_op) : Prop :=
  match op with
  | OpMake x p => owners s !! x = None ∧ objects s !! p = None ∧ p ≠ nullptr
  | OpNull x => owners s !! x = None
  | OpMove x other => owners s !! x = None ∧ is_Some (owners s !! other) ∧ type_of x = type_of other
  | OpAssign x other => is_Some (owners s !! x) ∧ is_Some (owners s !! other) ∧ type_of x = type_of other
  | OpReset x ptr => is_Some (owners s !! x) ∧ (ptr = nullptr ∨ raw s ptr (type_of x))
  | OpRelease x | OpDelete x => is_Some (owners s !! x)
  end.

(** Both classes are one, up to the deleter. *)
Lemma exec_form op : exec op =
  match op with
  | OpMake x p => new_form (type_of x) p ;; unique_of x p
  | OpNull x => unique_null x
  | OpMove x other => unique_move x other
  | OpAssign x other => unique_assign (delete_form (type_of x)) x other
  | OpReset x ptr => unique_reset (delete_form (type_of x)) x ptr
  | OpRelease x => unique_release x ;; mret tt
  | OpDelete x => unique_delete (delete_form (type_of x)) x
  end.
Proof. destruct op as [x p|x|x y|x y|x p|x|x]; cbn [exec]; by destruct (type_of x). Qed.

Lemma get_ptr_done s x p : owners s !! x = Some p → get_ptr x s = Done (p, s).
Proof. intros Hx. unfold get_ptr. by rewrite Hx. Qed.

Lemma delete_form_done s f p : objects s !! p = Some f →
  delete_form f p s = Done (tt, mkPtrs (delete p (objects s)) (owners s)).
Proof. intros Hp. unfold delete_form. rewrite Hp. by rewrite decide_True. Qed.

Lemma unique_release_done s x p : owners s !! x = Some p →
  unique_release x s = Done (p, mkPtrs (objects s) (<[x := nullptr]> (owners s))).
Proof.
  intros Hx. unfold unique_release. rewrite (bind_done _ _ s p s) by (by apply get_ptr_done).
  unfold set_ptr. by rewrite modify_bind.
Qed.

(** The object a pointer had is deleted, when there was one. *)
Definition without (p : Z) (o : gmap Z form) : gmap Z form := if p =? nullptr then o else delete p o.

Lemma delete_old_done (s : ptr_state) f p : (p ≠ nullptr → objects s !! p = Some f) →
  (if p =? nullptr then mret tt else delete_form f p) s =
    Done (tt, mkPtrs (without p (objects s)) (owners s)).
Proof.
  intros Hp. unfold without. destruct (Z.eqb_spec p nullptr); [by destruct s|].
  by apply delete_form_done, Hp.
Qed.

Lemma unique_reset_done s f x p old : owners s !! x = Some old → (old ≠ nullptr → objects s !! old = Some f) →
  unique_reset (delete_form f) x p s = Done (tt, mkPtrs (without old (objects s)) (<[x := p]> (owners s))).
Proof.
  intros Hx Hold. unfold unique_reset. rewrite (bind_done _ _ s old s) by (by apply get_ptr_done).
  unfold set_ptr. rewrite modify_bind. by rewrite delete_old_done.
Qed.

Lemma unique_delete_done s f x p : owners s !! x = Some p → (p ≠ nullptr → objects s !! p = Some f) →
  unique_delete (delete_form f) x s = Done (tt, mkPtrs (without p (objects s)) (delete x (owners s))).
Proof.
  intros Hx Hp. unfold unique_delete. rewrite (bind_done _ _ s p s) by (by apply get_ptr_done).
  by rewrite (bind_done _ _ s tt _ (delete_old_done s f p Hp)).
Qed.

Lemma unique_move_done s x y p : owners s !! x = None → owners s !! y = Some p →
  unique_move x y s = Done (tt, mkPtrs (objects s) (<[y := nullptr]> (<[x := p]> (owners s)))).
Proof.
  intros Hx Hy. assert (x ≠ y) by congruence. unfold unique_move, set_ptr. rewrite modify_bind.
  set (s1 := mkPtrs _ _).
  rewrite (bind_done _ _ s1 nullptr s1) by (apply get_ptr_done, lookup_insert_eq).
  rewrite (bind_done _ _ s1 p s1) by (apply get_ptr_done; by simplify_map_eq).
  cbn [swap]. rewrite modify_bind. unfold modify, s1. cbn [objects owners].
  by rewrite insert_insert_eq.
Qed.

Lemma unique_assign_done s x y px py :
  owned s → owners s !! x = Some px → owners s !! y = Some py →
  unique_assign (delete_form (type_of x)) x y s = Done (tt,
    mkPtrs (if decide (x = y) then objects s else without px (objects s))
      (<[x := py]> (<[y := nullptr]> (owners s)))).
Proof.
  intros Hs Hx Hy. unfold unique_assign.
  rewrite (bind_done _ _ s py _ (unique_release_done s y py Hy)).
  rewrite (unique_reset_done _ (type_of x) x py (if decide (x = y) then nullptr else px));
    cbn [objects owners].
  - destruct (decide (x = y)); [|done]. done.
  - destruct (decide (x = y)) as [->|]; [by rewrite lookup_insert_eq|by simplify_map_eq].
  - destruct (decide (x = y)); [done|]. by apply (own_alive s Hs x).
Qed.

(** Which pointers own what behind an operation. *)
Definition owners_after (s : ptr_state) (op : ptr_op) : gmap Z Z :=
  match op with
  | OpMake x p => <[x := p]> (owners s)
  | OpNull x => <[x := nullptr]> (owners s)
  | OpMove x y => <[y := nullptr]> (<[x := default nullptr (owners s !! y)]> (owners s))
  | OpAssign x y => <[x := default nullptr (owners s !! y)]> (<[y := nullptr]> (owners s))
  | OpReset x p => <[x := p]> (owners s)
  | OpRelease x => <[x := nullptr]> (owners s)
  | OpDelete x => delete x (owners s)
  end.

(** The object an operation deletes. *)
Definition deletes (s : ptr_state) (op : ptr_op) : Z :=
  match op with
  | OpAssign x y => if decide (x = y) then nullptr else default nullptr (owners s !! x)
  | OpReset x _ | OpDelete x => default nullptr (owners s !! x)
  | _ => nullptr
  end.

Definition makes (op : ptr_op) (o : gmap Z form) : gmap Z form :=
  match op with OpMake x p => <[p := type_of x]> o | _ => o end.

Definition objects_after (s : ptr_state) (op : ptr_op) : gmap Z form := makes op (without (deletes s op) (objects s)).

Lemma exec_done s op : owned s → op_ok s op →
  exec op s = Done (tt, mkPtrs (objects_after s op) (owners_after s op)).
Proof.
  intros Hs Hop. rewrite exec_form. unfold objects_after. destruct op as [x p|x|x y|x y|x p|x|x]; simpl in *.
  - unfold new_form, unique_of, set_ptr. by rewrite modify_bind.
  - done.
  - destruct Hop as (Hx & [p Hy] & _). by rewrite (unique_move_done s x y p), Hy by done.
  - destruct Hop as ([px Hx] & [py Hy] & _). rewrite (unique_assign_done s x y px py), Hx, Hy by done.
    by destruct (decide (x = y)).
  - destruct Hop as [[px Hx] _]. rewrite (unique_reset_done s _ x p px), Hx; [done|done|].
    by apply (own_alive s Hs x).
  - destruct Hop as [px Hx]. by rewrite (bind_done _ _ s px _ (unique_release_done s x px Hx)).
  - destruct Hop as [px Hx]. rewrite (unique_delete_done s (type_of x) x px), Hx; [done|done|].
    by apply (own_alive s Hs x).
Qed.

Lemma without_lookup p q o : without p o !! q = if decide (p = nullptr ∨ q ≠ p) then o !! q else None.
Proof.
  unfold without. destruct (Z.eqb_spec p nullptr) as [->|Hp]; [by rewrite decide_True by auto|].
  destruct (decide (q = p)) as [->|Hq].
  - rewrite lookup_delete_eq, decide_False; [done|tauto].
  - by rewrite lookup_delete_ne, decide_True by auto.
Qed.

(** What an operation leaves alone. *)
Lemma object_after s op q f : objects s !! q = Some f → op_ok s op → deletes s op = nullptr ∨ q ≠ deletes s op →
  objects_after s op !! q = Some f.
Proof.
  intros Hq Hop Hd. unfold objects_after.
  assert (Hw : without (deletes s op) (objects s) !! q = Some f) by (by rewrite without_lookup, decide_True).
  destruct op; simpl in *; try done. rewrite lookup_insert_ne; [done|]. destruct Hop as (_ & Hn & _). congruence.
Qed.

Lemma object_before s op q f : objects_after s op !! q = Some f →
  (∃ x, op = OpMake x q ∧ f = type_of x) ∨ objects s !! q = Some f ∧ (deletes s op = nullptr ∨ q ≠ deletes s op).
Proof.
  unfold objects_after. intros Hq.
  assert (Hw : ∀ g, without (deletes s op) (objects s) !! q = Some g →
    objects s !! q = Some g ∧ (deletes s op = nullptr ∨ q ≠ deletes s op)).
  { intros g. rewrite without_lookup. by case_decide. }
  destruct op as [x p|x|x y|x y|x p|x|x]; try (right; by apply Hw).
  cbn [makes] in Hq. apply lookup_insert_Some in Hq as [[-> <-]|[_ Hq]]; [left; by exists x|right; by apply Hw].
Qed.

Lemma owned_or_made s op z q : owned s → op_ok s op → owners_after s op !! z = Some q → q ≠ nullptr →
  (∃ x, op = OpMake x q ∧ z = x) ∨
  objects s !! q = Some (type_of z) ∧ (deletes s op = nullptr ∨ q ≠ deletes s op).
Proof.
  intros [Ha Hu Hn] Hop Hz Hq.
  assert (Hold : ∀ x, owners s !! z = Some q → z ≠ x →
    objects s !! q = Some (type_of z) ∧
    (default nullptr (owners s !! x) = nullptr ∨ q ≠ default nullptr (owners s !! x))).
  { intros x Hzq Hzx. split; [by apply Ha|]. destruct (owners s !! x) as [px|] eqn:Hx; [|by left]. simpl. right.
    intros <-. by apply Hzx, (Hu z x q). }
  destruct op as [x p|x|x y|x y|x p|x|x]; simpl in *.
  - apply lookup_insert_Some in Hz as [[<- <-]|[_ Hz]]; [left; by exists x|right; auto].
  - apply lookup_insert_Some in Hz as [[_ <-]|[_ Hz]]; [done|right; auto].
  - destruct Hop as (_ & [py Hy] & Ht). rewrite Hy in Hz. simpl in Hz.
    apply lookup_insert_Some in Hz as [[_ <-]|[_ [[<- <-]|[_ Hz]]%lookup_insert_Some]]; [done|right..]; [|by auto].
    rewrite Ht. auto.
  - destruct Hop as (_ & [py Hy] & Ht). rewrite Hy in Hz. simpl in Hz.
    apply lookup_insert_Some in Hz as [[<- <-]|[Hx [[_ <-]|[_ Hz]]%lookup_insert_Some]]; [|done|]; right.
    + split; [rewrite Ht; auto|]. destruct (decide (x = y)) as [->|Hxy]; [by left|].
      destruct (owners s !! x) as [px|] eqn:Ex; [|by left]. right. simpl. intros <-. by apply Hxy, (Hu x y py).
    + destruct (decide (x = y)); [auto|]. by apply Hold.
  - destruct Hop as [[px Hx] Hr].
    apply lookup_insert_Some in Hz as [[<- <-]|[Hne Hz]]; right; [|by apply Hold].
    destruct Hr as [->|[Hp Hno]]; [done|]. split; [done|]. rewrite Hx. simpl. right. intros ->. by apply (Hno x).
  - apply lookup_insert_Some in Hz as [[_ <-]|[_ Hz]]; [done|right; auto].
  - apply lookup_delete_Some in Hz as [Hne Hz]. right. by apply Hold.
Qed.

Lemma owned_after s op : owned s → op_ok s op → owned (mkPtrs (objects_after s op) (owners_after s op)).
Proof.
  intros Hs Hop. pose proof Hs as [Ha Hu Hn]. split; cbn [objects owners].
  - intros z q Hz Hq. destruct (owned_or_made s op z q Hs Hop Hz Hq) as [(x & -> & ->)|[Hobj Hd]]; [|by apply object_after].
    unfold objects_after. cbn [makes]. apply lookup_insert_eq.
  - intros z1 z2 q Hz1 Hz2 Hq. destruct op as [x p|x|x y|x y|x p|x|x]; simpl in *; unfold raw in *;
      rewrite ?lookup_insert_Some, ?lookup_delete_Some in Hz1, Hz2; destruct_and?;
      repeat match goal with H : is_Some _ |- _ => destruct H as [? H] end; simplify_option_eq; naive_solver.
  - destruct (objects_after s op !! nullptr) as [f|] eqn:E; [|done].
    apply object_before in E as [(x & -> & _)|[? _]]; [|congruence]. by destruct Hop as (_ & _ & ?).
Qed.

(** An owner stays one, passes its object on, or has it deleted or released. *)
Lemma owner_after s op z q : owned s → op_ok s op → owners s !! z = Some q → q ≠ nullptr →
  (∃ z', owners_after s op !! z' = Some q) ∨ deletes s op = q ∨ op = OpRelease z.
Proof.
  intros [Ha Hu Hn] Hop Hz Hq.
  destruct op as [x p|x|x y|x y|x p|x|x]; simpl in *; destruct_and?.
  - left. exists z. rewrite lookup_insert_ne by congruence. done.
  - left. exists z. rewrite lookup_insert_ne by congruence. done.
  - left. destruct (decide (z = y)) as [->|Hzy].
    + exists x. rewrite Hz. simpl. rewrite lookup_insert_ne by congruence. by rewrite lookup_insert_eq.
    + exists z. by rewrite !lookup_insert_ne by congruence.
  - destruct (decide (z = y)) as [->|Hzy].
    { left. exists x. rewrite Hz. simpl. by rewrite lookup_insert_eq. }
    destruct (decide (z = x)) as [->|Hzx].
    + right; left. rewrite decide_False by done. by rewrite Hz.
    + left. exists z. by rewrite !lookup_insert_ne by done.
  - destruct (decide (z = x)) as [->|Hzx]; [right; left; by rewrite Hz|].
    left. exists z. by rewrite lookup_insert_ne by done.
  - destruct (decide (z = x)) as [->|Hzx]; [by right; right|].
    left. exists z. by rewrite lookup_insert_ne by done.
  - destruct (decide (z = x)) as [->|Hzx]; [right; left; by rewrite Hz|].
    left. exists z. by rewrite lookup_delete_ne by done.
Qed.

Lemma no_leak s op q f : owned s → op_ok s op → raw (mkPtrs (objects_after s op) (owners_after s op)) q f →
  ¬ (∃ x, op = OpRelease x ∧ owners s !! x = Some q) → raw s q f.
Proof.
  intros Hs Hop [Hin Hno] Hrel. cbn [objects owners] in *.
  apply object_before in Hin as [(x & -> & _)|[Hin Hd]]; [by destruct (Hno x); apply lookup_insert_eq|].
  assert (Hq : q ≠ nullptr) by (intros ->; by rewrite (own_objects s Hs) in Hin).
  split; [done|]. intros z Hz. destruct (owner_after s op z q Hs Hop Hz Hq) as [[z' Hz']|[Hdel| ->]].
  - by apply (Hno z').
  - destruct Hd; congruence.
  - apply Hrel. by exists z.
Qed.

Lemma released_or_not s op q :
  (∃ x, op = OpRelease x ∧ owners s !! x = Some q) ∨
  ¬ (∃ x, op = OpRelease x ∧ owners s !! x = Some q).
Proof.
  destruct op as [x p|x|x y|x y|x p|x|x]; try (right; by intros (z & ? & _)).
  destruct (decide (owners s !! x = Some q)) as [|Hne]; [left; by exists x|right].
  intros (z & [= ->] & Hz). by apply Hne.
Qed.
End Ownership.
(** * Properties *)

(** C29: owning pointers own: as long as the variables are used as the language
    has it, every operation of [unique_ptr], of single objects and of arrays, runs
    without deleting an object twice or by the other form of [delete], keeps every owned
    object alive and owned by one pointer only, of its form, and no object loses its owner
    without being deleted, except by [release]. *)
Theorem unique_ptr_owns (type_of : Z → form) s op (Hs : owned type_of s) (Hop : op_ok type_of s op) :
  ∃ s', exec type_of op s = Done (tt, s') ∧ owned type_of s' ∧
    (∀ q f, objects s' !! q = Some f ↔
       (∃ x, op = OpMake x q ∧ f = type_of x) ∨ objects s !! q = Some f ∧ q ≠ deletes s op) ∧
    (∀ q f, raw s' q f → raw s q f ∨ ∃ x, op = OpRelease x ∧ owners s !! x = Some q).
Proof.
  eexists. split; [by apply exec_done|]. split; [by apply owned_after|]. split; intros q f.
  - cbn [objects]. split.
    + intros [?|[Hq Hd]]%object_before; [by left|right]. split; [done|]. destruct Hd as [->|]; [|done].
      intros ->. by rewrite (own_objects _ s Hs) in Hq.
    + intros [(x & -> & ->)|[Hq Hd]]; [apply lookup_insert_eq|]. apply object_after; auto.
  - intros Hraw. destruct (released_or_not s op q) as [|Hno]; [by right|left].
    by apply (no_leak type_of s op).
Qed.

(** [make_unique] with one argument of type [size_t] chooses the form that makes an array, also for
    a type that is none; the pointer then deletes the array as a single object. *)
Theorem make_unique_size_mismatch x p s (Hx : owners s !! x = None) (Hp : p ≠ nullptr) :
  (make_unique_array x p ;; unique_delete delete_object x) s = Fault "the other form of delete".
Proof.
  unfold make_unique_array, new_form, unique_of, set_ptr. rewrite bind_bind, !modify_bind.
  unfold unique_delete. rewrite (bind_done _ _ _ p _) by (apply get_ptr_done; cbn; apply lookup_insert_eq).
  destruct (Z.eqb_spec p nullptr); [done|]. unfold delete_object, delete_form, mbind, prog_bind.
  cbn [objects]. by rewrite lookup_insert_eq.
Qed.

(** A vector of fixed size is the sequence of what was pushed: [push_back]
    appends until the array is full and panics from then on, [at] returns the
    elements that are in and panics behind them, and [expand_up_to] panics exactly
    above the capacity and otherwise keeps the elements. *)
Theorem vector_correct {T} (v : FixedSizeVector T) (x : T) (pos : nat) (n : Z)
    (Hv : vec_ok v) (Hn : 0 ≤ n < 2 ^ 32) :
  (if vec_size v =? capacity v then push_back x v = Panic "fault"
   else ∃ v', push_back x v = Done (tt, v') ∧ vec_ok v' ∧ capacity v' = capacity v ∧
     vec_elements v' = vec_elements v ++ [x]) ∧
  vector_at pos v =
    match vec_elements v !! pos with Some y => Done (y, v) | None => Panic "fault" end ∧
  (if capacity v <? n then expand_up_to n v = Panic "fault"
   else ∃ v', expand_up_to n v = Done (tt, v') ∧ vec_ok v' ∧ vec_size v' = Z.max (vec_size v) n ∧
     vec_elements v `prefix_of` vec_elements v').
Proof.
  split_and!.
  - destruct (Z.eqb_spec (vec_size v) (capacity v)); [by apply push_back_full|].
    destruct (push_back_done v x Hv) as (E & Hok & Hel); [destruct Hv; lia|].
    eexists. split_and!; [done..| |done]. unfold capacity. simpl. by rewrite length_insert.
  - destruct (vec_elements v !! pos) as [y|] eqn:E; [by apply vector_at_done|].
    apply lookup_ge_None in E. pose proof (vec_elements_length v Hv). unfold vector_at.
    rewrite gets_bind. by destruct (Z.leb_spec (vec_size v) (Z.of_nat pos)); [|lia].
  - unfold expand_up_to. rewrite gets_bind. destruct (Z.ltb_spec (capacity v) n); [done|].
    destruct Hv as [Hs Hc]. eexists. split; [done|]. rewrite max_spec. split_and!.
    + split; unfold capacity in *; cbn [vec_data vec_size]; lia.
    + done.
    + unfold vec_elements. cbn [vec_data vec_size].
      replace (Z.to_nat (Z.max (vec_size v) n))
        with (Z.to_nat (vec_size v) + (Z.to_nat (Z.max (vec_size v) n) - Z.to_nat (vec_size v)))%nat by lia.
      rewrite <- take_take_drop. by eexists.
Qed.

(** The algorithms over ranges and the counted ones agree: on a range of [n]
    elements [copy] is [copy_n] and [fill] is [fill_n], for iterators of any kind,
    and within one array [copy] moves the source as it was when the target does
    not start inside of it. *)
Theorem range_algorithms {W It T} `{Iterator W It T} n (first last : It)
    (Hlast : reaches n first last) :
  (∀ result w, copy (S n) first last result w = copy_n n first result w) ∧
  (∀ value w, fill (S n) first last value w = fill_n n first value w) ∧
  (∀ (l : list T) i j, (i + n ≤ length l)%nat → (j + n ≤ length l)%nat → (j ≤ i ∨ i + n ≤ j)%nat →
     copy (S n) i (i + n)%nat j l =
       Done ((j + n)%nat, take j l ++ take n (drop i l) ++ drop (j + n) l)).
Proof.
  assert (Hcopy : ∀ {W' It' T'} `{Iterator W' It' T'} m (f l r : It') (w : W'), reaches m f l →
    copy (S m) f l r w = copy_n m f r w).
  { intros W' It' T' HI m. induction m as [|m IH]; intros f l r w Hr.
    - cbn [copy copy_n]. destruct Hr as [_ Hr]. cbn in Hr. by rewrite Hr.
    - apply reaches_S in Hr as [Hne Hr]. remember (S m) as k. cbn [copy]. rewrite Hne. subst k.
      cbn [copy_n]. apply bind_ext. intros v w1. apply bind_ext. intros [] w2. by apply IH. }
  split_and!.
  - intros result w. by apply Hcopy.
  - clear Hcopy. intros value. revert first Hlast. induction n as [|n IH]; intros first Hr w.
    + cbn [fill fill_n]. destruct Hr as [_ Hr]. cbn in Hr. by rewrite Hr.
    + apply reaches_S in Hr as [Hne Hr]. remember (S n) as k. cbn [fill]. rewrite Hne. subst k.
      cbn [fill_n]. apply bind_ext. intros [] w1. by apply IH.
  - intros l i j Hi Hj Hij. rewrite Hcopy by apply reaches_index. by apply copy_n_list.
Qed.

(** The lifetime of an [optional]'s object: constructed from a value it
    returns it and its destructor runs once; but an optional that is moved out of
    a full one believes to be empty, so its object is never destroyed and reading
    it panics, and move assignment from an empty optional panics. *)
Theorem optional_lifetime (moved : Z → Z) (v u : Z) (w : lifetime) :
  opt_value (optional_of v) w = Done (v, w) ∧
  optional_delete (optional_of v) w = Done (tt, mkLifetime (destroyed w ++ [v])) ∧
  optional_assign u (optional_of v) w = Done (optional_of u, mkLifetime (destroyed w ++ [v])) ∧
  optional_move_assign moved (optional_of u) (optional_of v) w =
    Done (optional_of (moved v), mkLifetime (destroyed w ++ [u])) ∧
  (∃ o, optional_move moved (optional_of v) w = Done (o, w) ∧
     opt_storage o = Some (moved v) ∧ opt_value o w = Panic "bad_optional_access" ∧
     optional_delete o w = Done (tt, w)) ∧
  optional_move_assign moved (optional_of u) optional_default w = Panic "bad_optional_access".
Proof. split_and!; [done..| |done]. by exists (mkOptional (Some (moved v)) false). Qed.

(** ** Witnesses *)
Definition example_owners : ptr_state := mkPtrs {[100 := Single; 200 := Array]} {[1 := 100; 2 := 0]}.

Definition example_types (x : Z) : form := if x =? 1 then Single else Array.

Lemma example_owned : owned example_types example_owners.
Proof.
  assert (Hone : ∀ z p, ({[1 := 100; 2 := 0]} : gmap Z Z) !! z = Some p → p ≠ nullptr → z = 1 ∧ p = 100).
  { intros z p Hz Hp. rewrite lookup_insert_Some, lookup_singleton_Some in Hz. unfold nullptr in Hp. lia. }
  split; cbn [owners objects example_owners]; [| |done].
  - intros x p Hx Hp. by destruct (Hone x p Hx Hp) as [-> ->].
  - intros x y p Hx Hy Hp. destruct (Hone x p Hx Hp) as [-> _], (Hone y p Hy Hp) as [-> _]. done.
Qed.

(** The array at 200 gets the second pointer. *)
Lemma unique_ptr_owns_witness :
  ∃ s', exec example_types (OpReset 2 200) example_owners = Done (tt, s') ∧ owned example_types s' ∧
    (∀ q f, objects s' !! q = Some f ↔
       (∃ x, OpReset 2 200 = OpMake x q ∧ f = example_types x) ∨
       objects example_owners !! q = Some f ∧ q ≠ deletes example_owners (OpReset 2 200)) ∧
    (∀ q f, raw s' q f → raw example_owners q f ∨
       ∃ x, OpReset 2 200 = OpRelease x ∧ owners example_owners !! x = Some q).
Proof.
  apply (unique_ptr_owns example_types example_owners (OpReset 2 200)); [exact example_owned|].
  split; [by exists 0|]. right. split; [done|]. intros x Hx.
  cbn [owners example_owners] in Hx. by rewrite lookup_insert_Some, lookup_singleton_Some in Hx; destruct Hx as [[_ ?]|[_ [_ ?]]].
Defined.

Definition example_vector : FixedSizeVector Z := mkVector [7; 0; 0] 1.

Lemma vector_correct_witness :
  (∃ v', push_back 8 example_vector = Done (tt, v') ∧ vec_ok v' ∧ capacity v' = 3 ∧
     vec_elements v' = [7] ++ [8]) ∧
  vector_at 1 example_vector = Panic "fault" ∧
  expand_up_to 4 example_vector = Panic "fault".
Proof.
  assert (Hok : vec_ok example_vector) by (unfold vec_ok, capacity; simpl; lia).
  exact (vector_correct example_vector 8 1 4 Hok ltac:(lia)).
Defined.

Lemma range_algorithms_witness :
  copy 4 1%nat 4%nat 0%nat [5; 6; 7; 8] = Done (3%nat, [6; 7; 8; 8]).
Proof.
  destruct (range_algorithms (W := list Z) 3 1%nat 4%nat (reaches_index 1 3)) as (_ & _ & Hl).
  exact (Hl [5; 6; 7; 8] 1%nat 0%nat ltac:(simpl; lia) ltac:(simpl; lia) ltac:(lia)).
Defined.
