(* ===== verification/Segments.v ===== *)
(** * Descriptors and the processor's tables

    [x86/include/x86]: [segment_flags.hpp], [memory_segment_d.hpp], [tssd.hpp],
    [gate.hpp], [gdt.hpp], [idt.hpp], [tss.hpp], [cpu.hpp] with their sources in
    [x86/src].  The structures are packed bit fields: a structure is the list of
    its fields, from the lowest bit, and its pattern is what the compiler lays
    out.  What the processor reads in a pattern is specified by the [hw_] functions,
    after the processor's manual. *)
From stdpp Require Import base tactics numbers list gmap strings.
From S2P Require Import Prelude MemUtils Irq Containers.

(** ** Bit fields *)

(** Fields as (width, value), the lowest first. *)
Fixpoint pack (fields : list (Z * Z)) : Z :=
  match fields with
  | [] => 0
  | (w, v) :: rest => v mod 2 ^ w + 2 ^ w * pack rest
  end.

Fixpoint width_of (fields : list (Z * Z)) : Z :=
  match fields with [] => 0 | (w, _) :: rest => w + width_of rest end.

(** [n] bits from bit [lo]. *)
Definition bits (d lo n : Z) : Z := (d / 2 ^ lo) mod 2 ^ n.

(** ** The flags *)
Inductive System : Type := System_null | System_system | System_code_or_data.
Definition System_value (s : System) : Z :=
  match s with System_null => 0 | System_system => 0 | System_code_or_data => 1 end.

Inductive Present : Type := Present_null | Present_not_present | Present_present.
Definition Present_value (p : Present) : Z :=
  match p with Present_null => 0 | Present_not_present => 0 | Present_present => 1 end.

Inductive Long : Type := Long_null | Long_long_64 | Long_other.
Definition Long_value (l : Long) : Z :=
  match l with Long_null => 0 | Long_long_64 => 1 | Long_other => 0 end.

Inductive OperationSize : Type := OperationSize_null | db32_bit | db16_bit.
Definition OperationSize_value (o : OperationSize) : Z :=
  match o with OperationSize_null => 0 | db32_bit => 1 | db16_bit => 0 end.

Inductive Granularity : Type := Granularity_null | four_k_pages | granularity_bytes.
Definition Granularity_value (g : Granularity) : Z :=
  match g with Granularity_null => 0 | four_k_pages => 1 | granularity_bytes => 0 end.

Definition Avl_null : Z := 0.

(** [SegmentType] is a set of flags. *)
Definition SegmentType_null : Z := Z.shiftl 0 0.
Definition SegmentType_data : Z := Z.shiftl 0 3.
Definition SegmentType_data_write : Z := Z.shiftl 1 1.
Definition SegmentType_code : Z := Z.shiftl 1 3.
Definition SegmentType_code_read : Z := Z.shiftl 1 1.
Definition enum_or (lhs rhs : Z) : Z := Z.lor lhs rhs.

Inductive ProtectionRing : Type := ring_null | ring_kernel | ring_1 | ring_2 | ring_user.
Definition ProtectionRing_value (r : ProtectionRing) : Z :=
  match r with ring_null => 0 | ring_kernel => 0 | ring_1 => 1 | ring_2 => 2 | ring_user => 3 end.

Inductive TableIndicator : Type := GLOBAL | LOCAL.
Definition TableIndicator_value (t : TableIndicator) : Z := match t with GLOBAL => 0 | LOCAL => 1 end.

Definition segment_selector (segment_idx : Z) (ti : TableIndicator) (rpl : ProtectionRing) : Z :=
  u16 (Z.lor (Z.lor (Z.shiftl segment_idx 3) (Z.shiftl (TableIndicator_value ti) 2))
         (ProtectionRing_value rpl)).

(** ** [MemorySegmentDescriptor] *)
Record MemorySegmentDescriptor : Type := mkMsd {
  limit_00_15_ : Z; base_00_15_ : Z; base_16_23_ : Z; tag_ : Z; system_flag_ : System;
  dpl_ : ProtectionRing; present_ : Present; limit_16_19_ : Z; avl_ : Z; long_ : Long;
  db_ : OperationSize; granularity_ : Granularity; base_24_31_ : Z
}.

Definition MemorySegmentDescriptor_new (base limit tag : Z) (ssf : System) (dpl : ProtectionRing)
    (present : Present) (lng : Long) (db : OperationSize) (granularity : Granularity)
    : MemorySegmentDescriptor :=
  mkMsd (shiftmask limit 0 0xffff) (shiftmask base 0 0xffff) (shiftmask base 16 0xff) tag ssf dpl
    present (shiftmask limit 16 0xf) Avl_null lng db granularity (shiftmask base 24 0xff).

Definition msd_pattern (d : MemorySegmentDescriptor) : Z :=
  pack [(16, limit_00_15_ d); (16, base_00_15_ d); (8, base_16_23_ d); (4, tag_ d);
        (1, System_value (system_flag_ d)); (2, ProtectionRing_value (dpl_ d));
        (1, Present_value (present_ d)); (4, limit_16_19_ d); (1, avl_ d);
        (1, Long_value (long_ d)); (1, OperationSize_value (db_ d));
        (1, Granularity_value (granularity_ d)); (8, base_24_31_ d)].

(** ** [TaskStateSegmentDescriptor] *)
Record TaskStateSegmentDescriptor : Type := mkTssd {
  t_limit_00_15_ : Z; t_base_00_15_ : Z; t_base_16_23_ : Z; t_type : Z; t_const_4_12 : Z;
  t_dpl_ : ProtectionRing; t_present_ : Present; t_limit_16_19_ : Z; t_avl_ : Z;
  t_const_4_21 : Z; t_const_4_22 : Z; t_granularity_ : Granularity; t_base_24_31_ : Z
}.

Definition TaskStateSegmentDescriptor_new (base limit : Z) (busy : bool) (dpl : ProtectionRing)
    (present : Present) (granularity : Granularity) : TaskStateSegmentDescriptor :=
  mkTssd (shiftmask limit 0 0xffff) (shiftmask base 0 0xffff) (shiftmask base 16 0xff)
    (Z.lor 9 (if busy then 2 else 0)) 0 dpl present (shiftmask limit 16 0xf) Avl_null 0 0
    granularity (shiftmask base 24 0xff).

Definition tssd_pattern (d : TaskStateSegmentDescriptor) : Z :=
  pack [(16, t_limit_00_15_ d); (16, t_base_00_15_ d); (8, t_base_16_23_ d); (4, t_type d);
        (1, t_const_4_12 d); (2, ProtectionRing_value (t_dpl_ d)); (1, Present_value (t_present_ d));
        (4, t_limit_16_19_ d); (1, t_avl_ d); (1, t_const_4_21 d); (1, t_const_4_22 d);
        (1, Granularity_value (t_granularity_ d)); (8, t_base_24_31_ d)].

(** ** The selectors of the kernel *)
Inductive SegmentIndex : Type := idx_null | idx_kernel_code | idx_kernel_data | idx_single_task.
Definition SegmentIndex_value (i : SegmentIndex) : Z :=
  match i with idx_null => 0 | idx_kernel_code => 1 | idx_kernel_data => 2 | idx_single_task => 3 end.

Definition index_selector (i : SegmentIndex) (ti : TableIndicator) (rpl : ProtectionRing) : Z :=
  segment_selector (SegmentIndex_value i) ti rpl.

Definition KERNEL_CODE_SELECTOR : Z := index_selector idx_kernel_code GLOBAL ring_kernel.
Definition KERNEL_DATA_SELECTOR : Z := index_selector idx_kernel_data GLOBAL ring_kernel.

(** ** [Gate] *)
Inductive GateType : Type := Gate_task | Gate_interrupt | Gate_trap.
Definition GateType_value (t : GateType) : Z :=
  match t with Gate_task => 5 | Gate_interrupt => 6 | Gate_trap => 7 end.

Record Gate : Type := mkGate {
  offset_00_15_ : Z; g_segment_selector : Z; reserved_5 : Z; reserved_3 : Z; gate_kind : GateType;
  g_db : OperationSize; zero_bit : Z; g_dpl : ProtectionRing; g_present : Present; offset_16_31_ : Z
}.

Definition Gate_new (func : Z) (kind : GateType) : Gate :=
  mkGate (shiftmask func 0 0xffff) KERNEL_CODE_SELECTOR 0 0 kind db32_bit 0 ring_kernel
    Present_present (shiftmask func 16 0xffff).

Definition interrupt_gate (func : Z) : Gate := Gate_new func Gate_interrupt.

Definition gate_pattern (g : Gate) : Z :=
  pack [(16, offset_00_15_ g); (16, g_segment_selector g); (5, reserved_5 g); (3, reserved_3 g);
        (3, GateType_value (gate_kind g)); (1, OperationSize_value (g_db g)); (1, zero_bit g);
        (2, ProtectionRing_value (g_dpl g)); (1, Present_value (g_present g)); (16, offset_16_31_ g)].

(** ** The task state segment *)
Record SegmentRegister : Type := mkSegReg { seg_segment : Z; seg_reserved : Z }.
Definition SegmentRegister_new (segment : Z) : SegmentRegister := mkSegReg segment 0.

Record ProtectionRingStack : Type := mkRingStack { ring_pointer : Z; ring_segment : SegmentRegister }.
Definition ProtectionRingStack_default : ProtectionRingStack := mkRingStack nullptr (SegmentRegister_new 0).
Definition ProtectionRingStack_new (segment stack_ptr : Z) : ProtectionRingStack :=
  mkRingStack stack_ptr (SegmentRegister_new segment).

Record GPRegistersPack : Type := mkGp {
  gp_eax : Z; gp_ecx : Z; gp_edx : Z; gp_ebx : Z; gp_esp : Z; gp_ebp : Z; gp_esi : Z; gp_edi : Z
}.
Definition GPRegistersPack_default : GPRegistersPack := mkGp 0 0 0 0 nullptr nullptr 0 0.
Definition zero_on_stack (stack_ptr : Z) : GPRegistersPack := mkGp 0 0 0 0 stack_ptr stack_ptr 0 0.

Record SegmentRegistersPack : Type := mkSegPack {
  sp_es : SegmentRegister; sp_cs : SegmentRegister; sp_ss : SegmentRegister; sp_ds : SegmentRegister;
  sp_fs : SegmentRegister; sp_gs : SegmentRegister; sp_ldt : SegmentRegister
}.
Definition SegmentRegistersPack_new (code_segment data_segment : Z) : SegmentRegistersPack :=
  let r := SegmentRegister_new in
  mkSegPack (r data_segment) (r code_segment) (r data_segment) (r data_segment) (r data_segment)
    (r data_segment) (r 0).
Definition SegmentRegistersPack_default : SegmentRegistersPack :=
  let r := SegmentRegister_new in mkSegPack (r 0) (r 0) (r 0) (r 0) (r 0) (r 0) (r 0).
Definition SegmentRegistersPack_kernel : SegmentRegistersPack :=
  SegmentRegistersPack_new KERNEL_CODE_SELECTOR KERNEL_DATA_SELECTOR.

Record TaskStateSegment : Type := mkTss {
  previous_task_link : Z; tss_reserved_01 : Z; tss_stack : list ProtectionRingStack;
  page_directory : Z; instruction_ptr : Z; tss_eflags : Z; tss_gp : GPRegistersPack;
  tss_segments : SegmentRegistersPack; debug_trap : bool; tss_reserved_02 : Z; io_map_base_address : Z
}.

(** The initializer list gives the first of the three stacks. *)
Definition TaskStateSegment_new (prev_task_link stack_segment stack_ptr instruction eflags : Z)
    (gp : GPRegistersPack) (segments : SegmentRegistersPack) : TaskStateSegment :=
  mkTss prev_task_link 0
    [ProtectionRingStack_new stack_segment stack_ptr; ProtectionRingStack_default;
     ProtectionRingStack_default]
    nullptr instruction eflags gp segments false 0 0.

Definition TaskStateSegment_default : TaskStateSegment :=
  TaskStateSegment_new 0 0 nullptr nullptr 0 GPRegistersPack_default SegmentRegistersPack_default.

Definition segreg_fields (r : SegmentRegister) : list (Z * Z) := [(16, seg_segment r); (16, seg_reserved r)].
Definition ring_fields (r : ProtectionRingStack) : list (Z * Z) :=
  (32, ring_pointer r) :: segreg_fields (ring_segment r).
Definition gp_fields (g : GPRegistersPack) : list (Z * Z) :=
  [(32, gp_eax g); (32, gp_ecx g); (32, gp_edx g); (32, gp_ebx g); (32, gp_esp g); (32, gp_ebp g);
   (32, gp_esi g); (32, gp_edi g)].
Definition segpack_fields (s : SegmentRegistersPack) : list (Z * Z) :=
  concat (segreg_fields <$> [sp_es s; sp_cs s; sp_ss s; sp_ds s; sp_fs s; sp_gs s; sp_ldt s]).

Definition tss_fields (t : TaskStateSegment) : list (Z * Z) :=
  [(16, previous_task_link t); (16, tss_reserved_01 t)] ++ concat (ring_fields <$> tss_stack t) ++
  [(32, page_directory t); (32, instruction_ptr t); (32, tss_eflags t)] ++ gp_fields (tss_gp t) ++
  segpack_fields (tss_segments t) ++
  [(1, if debug_trap t then 1 else 0); (15, tss_reserved_02 t); (16, io_map_base_address t)].

Definition tss_pattern (t : TaskStateSegment) : Z := pack (tss_fields t).
Definition TSS_size : Z := 104.

(** ** The segments of the kernel ([segments.cpp]) *)
Definition segments_null : MemorySegmentDescriptor :=
  MemorySegmentDescriptor_new 0 0 SegmentType_null System_null ring_null Present_null Long_null
    OperationSize_null Granularity_null.
Definition segments_kernel_code : MemorySegmentDescriptor :=
  MemorySegmentDescriptor_new 0 0xfffff (enum_or SegmentType_code SegmentType_code_read)
    System_code_or_data ring_kernel Present_present Long_other db32_bit four_k_pages.
Definition segments_kernel_data : MemorySegmentDescriptor :=
  MemorySegmentDescriptor_new 0 0xfffff (enum_or SegmentType_data SegmentType_data_write)
    System_code_or_data ring_kernel Present_present Long_other db32_bit four_k_pages.

(** [single_task] is the address of the task state segment. *)
Definition single_task_descriptor (single_task : Z) : TaskStateSegmentDescriptor :=
  TaskStateSegmentDescriptor_new single_task (TSS_size - 1) false ring_kernel Present_present
    granularity_bytes.

(** [tssd.cpp]: a descriptor over a task object, of which nothing is called. *)
Definition sizeof_Task : Z := 56.
Definition kernel_task_descriptor (task : Z) : TaskStateSegmentDescriptor :=
  TaskStateSegmentDescriptor_new task (sizeof_Task - 1) false ring_kernel Present_present granularity_bytes.

(** ** The processor

    [gdt] is the table in memory, an array of patterns; [lgdt] gives the processor
    its address and the limit in [gdtr].  A selector register holds what was loaded. *)
Record cpu : Type := mkCpu {
  cpu_gdt : FixedSizeVector Z;
  cpu_gdtr : option Z;
  cpu_data : Z;   (* ds, es, ss, fs and gs *)
  cpu_cs : Z;
  cpu_tr : Z;
  cpu_irq : irq_state
}.

Abbreviation cpu_prog := (prog cpu).

Definition on_gdt {A} : prog (FixedSizeVector Z) A → cpu_prog A :=
  zoom cpu_gdt (λ g s, mkCpu g (cpu_gdtr s) (cpu_data s) (cpu_cs s) (cpu_tr s) (cpu_irq s)).
Definition on_cpu_irq {A} : irq_prog A → cpu_prog A :=
  zoom cpu_irq (λ i s, mkCpu (cpu_gdt s) (cpu_gdtr s) (cpu_data s) (cpu_cs s) (cpu_tr s) i).

(** [GDT::push_back] for both members of [Entry]. *)
Definition push_entry (pattern : Z) : cpu_prog Z :=
  idx ← gets (λ s, u16 (vec_size (cpu_gdt s)));
  on_gdt (push_back pattern) ;;
  mret idx.
Definition push_memory_segment (msd : MemorySegmentDescriptor) : cpu_prog Z := push_entry (msd_pattern msd).
Definition push_task (tssd : TaskStateSegmentDescriptor) : cpu_prog Z := push_entry (tssd_pattern tssd).

Definition reload_table : cpu_prog unit :=
  modify (λ s, mkCpu (cpu_gdt s) (Some (u16 (u32 (vec_size (cpu_gdt s) * 8 - 1)))) (cpu_data s)
                 (cpu_cs s) (cpu_tr s) (cpu_irq s)).

(** ** What the processor reads *)
Definition hw_base (d : Z) : Z := bits d 16 24 + 2 ^ 24 * bits d 56 8.
Definition hw_limit (d : Z) : Z := bits d 0 16 + 2 ^ 16 * bits d 48 4.
Definition hw_type (d : Z) : Z := bits d 40 4.
Definition hw_system (d : Z) : Z := bits d 44 1.
Definition hw_dpl (d : Z) : Z := bits d 45 2.
Definition hw_present (d : Z) : Z := bits d 47 1.
Definition hw_long (d : Z) : Z := bits d 53 1.
Definition hw_db (d : Z) : Z := bits d 54 1.
Definition hw_granularity (d : Z) : Z := bits d 55 1.

(** The last byte of a segment. *)
Definition hw_last_byte (d : Z) : Z :=
  if hw_granularity d =? 1 then hw_limit d * 4096 + 4095 else hw_limit d.

(** The descriptor a selector of the global table names, within the limit. *)
Definition hw_descriptor (s : cpu) (selector : Z) : option Z :=
  limit ← cpu_gdtr s;
  if selector / 8 * 8 + 7 <=? limit then vec_data (cpu_gdt s) !! Z.to_nat (selector / 8) else None.

(** Loading a data register and the code register, and [ltr]: each faults unless
    the descriptor is one of the kind it wants. *)
Definition load_data_segments (selector : Z) : cpu_prog unit := λ s,
  match hw_descriptor s selector with
  | Some d =>
      if (hw_system d =? 1) && (hw_present d =? 1) && negb (Z.testbit (hw_type d) 3)
         && Z.testbit (hw_type d) 1
      then Done (tt, mkCpu (cpu_gdt s) (cpu_gdtr s) selector (cpu_cs s) (cpu_tr s) (cpu_irq s))
      else Fault "general protection"
  | None => Fault "general protection"
  end.

Definition far_jump (selector : Z) : cpu_prog unit := λ s,
  match hw_descriptor s selector with
  | Some d =>
      if (hw_system d =? 1) && (hw_present d =? 1) && Z.testbit (hw_type d) 3
      then Done (tt, mkCpu (cpu_gdt s) (cpu_gdtr s) (cpu_data s) selector (cpu_tr s) (cpu_irq s))
      else Fault "general protection"
  | None => Fault "general protection"
  end.

Definition load_task_register (selector : Z) : cpu_prog unit := λ s,
  match hw_descriptor s selector with
  | Some d =>
      if (hw_system d =? 0) && (hw_present d =? 1) && (hw_type d =? 9)
      then
        (* the processor marks the segment as busy *)
        let g := cpu_gdt s in
        Done (tt, mkCpu (mkVector (<[Z.to_nat (selector / 8) := d + 2 ^ 41]> (vec_data g)) (vec_size g))
                    (cpu_gdtr s) (cpu_data s) (cpu_cs s) selector (cpu_irq s))
      else Fault "general protection"
  | None => Fault "general protection"
  end.

(** ** [cpu.cpp] *)
Definition reload_segment_registers : cpu_prog unit :=
  load_data_segments (index_selector idx_kernel_data GLOBAL ring_kernel) ;;
  far_jump (index_selector idx_kernel_code GLOBAL ring_kernel).

Definition init_task_register : cpu_prog unit :=
  load_task_register (index_selector idx_single_task GLOBAL ring_kernel).

Definition load_kernel_segments (single_task : Z) : cpu_prog unit :=
  e ← on_cpu_irq irq_lock;
  push_memory_segment segments_null ;;
  push_memory_segment segments_kernel_code ;;
  push_memory_segment segments_kernel_data ;;
  push_task (single_task_descriptor single_task) ;;
  reload_table ;;
  reload_segment_registers ;;
  init_task_register ;;
  on_cpu_irq (irq_unlock e).

(** ** The interrupt table ([idt.cpp]); [asm_irq_handler n] is the address of the
    stub for vector [n] *)
Record IDT : Type := mkIdt { idt_gates : list Gate; idt_limit : Z }.

Definition make_gates (asm_irq_handler : Z → Z) (n : nat) : list Gate :=
  (λ i, interrupt_gate (asm_irq_handler (Z.of_nat i))) <$> seq 0 n.

Definition IDT_new (asm_irq_handler : Z → Z) : IDT :=
  let gates := make_gates asm_irq_handler (Z.to_nat NUMBER_OF_LINES) in
  mkIdt gates (u16 (Z.of_nat (length gates) * 8 - 1)).

(** The gate the processor takes for a vector, and where it enters. *)
Definition hw_gate (idt : IDT) (vector : Z) : option Z :=
  if vector * 8 + 7 <=? idt_limit idt then gate_pattern <$> idt_gates idt !! Z.to_nat vector else None.

Definition hw_gate_offset (g : Z) : Z := bits g 0 16 + 2 ^ 16 * bits g 48 16.
Definition hw_gate_selector (g : Z) : Z := bits g 16 16.

(** * Verification *)

(** ** Fields of a pattern *)
Fixpoint field_at (fields : list (Z * Z)) (lo : Z) : option (Z * Z) :=
  match fields with
  | [] => None
  | (w, v) :: rest => if lo =? 0 then Some (w, v) else field_at rest (lo - w)
  end.

Definition widths_ok (fields : list (Z * Z)) : bool := forallb (λ f, 0 <=? f.1) fields.

Lemma field_at_nonneg fields lo f : widths_ok fields = true → field_at fields lo = Some f → 0 ≤ lo.
Proof.
  revert lo. induction fields as [|[w v] rest IH]; intros lo; simpl; [done|].
  intros [Hw Hr]%andb_true_iff. apply Z.leb_le in Hw. destruct (Z.eqb_spec lo 0); [lia|].
  intros H. specialize (IH _ Hr H). lia.
Qed.

(** A field is read back where the widths of those below it put it. *)
Lemma bits_field fields lo w v :
  widths_ok fields = true → field_at fields lo = Some (w, v) → bits (pack fields) lo w = v mod 2 ^ w.
Proof.
  revert lo. induction fields as [|[w' v'] rest IH]; intros lo; simpl; [done|].
  intros [Hw Hr]%andb_true_iff. apply Z.leb_le in Hw. pose proof (pow2_pos w' Hw).
  destruct (Z.eqb_spec lo 0) as [->|Hlo]; unfold bits.
  - intros [= -> ->]. rewrite Z.pow_0_r, Z.div_1_r, Z.mul_comm, Z.mod_add, Z.mod_mod by lia. done.
  - intros Hf. pose proof (field_at_nonneg _ _ _ Hr Hf) as Hge. specialize (IH _ Hr Hf). unfold bits in IH.
    rewrite <- IH. f_equal. replace lo with (w' + (lo - w')) at 1 by lia.
    rewrite Z.pow_add_r, <- Z.div_div by (try apply pow2_pos; lia). f_equal.
    rewrite Z.mul_comm, Z.div_add, Z.div_small by (try apply Z.mod_pos_bound; lia). lia.
Qed.

Lemma bits_split d lo n m : 0 ≤ lo → 0 ≤ n → 0 ≤ m →
  bits d lo (n + m) = bits d lo n + 2 ^ n * bits d (lo + n) m.
Proof.
  intros Hlo Hn Hm. unfold bits. pose proof (pow2_pos n Hn). pose proof (pow2_pos m Hm).
  pose proof (pow2_pos lo Hlo).
  rewrite !Z.pow_add_r, <- Z.div_div by lia. rewrite Z.rem_mul_r by lia. lia.
Qed.

Lemma pack_range fields : widths_ok fields = true → 0 ≤ pack fields < 2 ^ width_of fields.
Proof.
  induction fields as [|[w v] rest IH]; simpl; [lia|].
  intros [Hw Hr]%andb_true_iff. apply Z.leb_le in Hw. specialize (IH Hr).
  assert (0 ≤ width_of rest).
  { clear IH. induction rest as [|[w' v'] rest IH]; simpl in *; [lia|].
    apply andb_true_iff in Hr as [Hw' Hr]. apply Z.leb_le in Hw'. specialize (IH Hr). lia. }
  rewrite Z.pow_add_r by lia. pose proof (Z.mod_pos_bound v (2 ^ w) (pow2_pos w Hw)). nia.
Qed.

Lemma shiftmask_mod v o k : 0 ≤ o → 0 ≤ k → shiftmask v o (2 ^ k - 1) = (v / 2 ^ o) mod 2 ^ k.
Proof. intros Ho Hk. unfold shiftmask. by rewrite Z.shiftr_div_pow2, land_ones_mod. Qed.

(** Read the field of a pattern that is in the goal. *)
Ltac read_field :=
  match goal with
  | |- context [bits (pack ?fs) ?lo ?w] =>
      erewrite (bits_field fs lo w) by reflexivity
  end.

Lemma byte_parts b : 0 ≤ b < 2 ^ 32 →
  b mod 2 ^ 16 + 2 ^ 16 * ((b / 2 ^ 16) mod 2 ^ 8) + 2 ^ 24 * ((b / 2 ^ 24) mod 2 ^ 8) = b.
Proof. intros Hb. Z.div_mod_to_equations. lia. Qed.

Lemma limit_parts l : l mod 2 ^ 16 + 2 ^ 16 * ((l / 2 ^ 16) mod 2 ^ 4) = l mod 2 ^ 20.
Proof. Z.div_mod_to_equations. lia. Qed.

Lemma shiftmask_parts v :
  shiftmask v 0 0xffff = v mod 2 ^ 16 ∧ shiftmask v 16 0xff = (v / 2 ^ 16) mod 2 ^ 8 ∧
  shiftmask v 24 0xff = (v / 2 ^ 24) mod 2 ^ 8 ∧ shiftmask v 16 0xf = (v / 2 ^ 16) mod 2 ^ 4 ∧
  shiftmask v 16 0xffff = (v / 2 ^ 16) mod 2 ^ 16.
Proof.
  split_and!.
  - change 0xffff with (2 ^ 16 - 1). rewrite (shiftmask_mod v 0 16), Z.pow_0_r, Z.div_1_r by lia. done.
  - by apply (shiftmask_mod v 16 8).
  - by apply (shiftmask_mod v 24 8).
  - by apply (shiftmask_mod v 16 4).
  - by apply (shiftmask_mod v 16 16).
Qed.

Lemma hw_base_split d : hw_base d = bits d 16 16 + 2 ^ 16 * bits d 32 8 + 2 ^ 24 * bits d 56 8.
Proof. unfold hw_base. change 24 with (16 + 8) at 1. by rewrite (bits_split d 16 16 8). Qed.

Lemma value_bit z : z = 0 ∨ z = 1 → z mod 2 ^ 1 = z.
Proof. by intros [-> | ->]. Qed.

Lemma msd_base base limit tag ssf dpl p l db g : 0 ≤ base < 2 ^ 32 →
  hw_base (msd_pattern (MemorySegmentDescriptor_new base limit tag ssf dpl p l db g)) = base.
Proof.
  intros Hb. rewrite hw_base_split. unfold msd_pattern, MemorySegmentDescriptor_new.
  cbn [limit_00_15_ base_00_15_ base_16_23_ tag_ system_flag_ dpl_ present_ limit_16_19_ avl_ long_ db_
       granularity_ base_24_31_].
  do 3 read_field. destruct (shiftmask_parts base) as (-> & -> & -> & _ & _).
  rewrite !Z.mod_mod by lia. by apply byte_parts.
Qed.

Lemma msd_limit base limit tag ssf dpl p l db g :
  hw_limit (msd_pattern (MemorySegmentDescriptor_new base limit tag ssf dpl p l db g)) = limit mod 2 ^ 20.
Proof.
  unfold hw_limit, msd_pattern, MemorySegmentDescriptor_new.
  cbn [limit_00_15_ base_00_15_ base_16_23_ tag_ system_flag_ dpl_ present_ limit_16_19_ avl_ long_ db_
       granularity_ base_24_31_].
  do 2 read_field. destruct (shiftmask_parts limit) as (-> & _ & _ & -> & _).
  rewrite !Z.mod_mod by lia. apply limit_parts.
Qed.

Lemma msd_flags base limit tag ssf dpl p l db g : 0 ≤ tag < 2 ^ 4 →
  let d := msd_pattern (MemorySegmentDescriptor_new base limit tag ssf dpl p l db g) in
  hw_type d = tag ∧ hw_system d = System_value ssf ∧ hw_dpl d = ProtectionRing_value dpl ∧
  hw_present d = Present_value p ∧ hw_long d = Long_value l ∧ hw_db d = OperationSize_value db ∧
  hw_granularity d = Granularity_value g.
Proof.
  intros Ht d. unfold d, hw_type, hw_system, hw_dpl, hw_present, hw_long, hw_db, hw_granularity, msd_pattern.
  cbn [limit_00_15_ base_00_15_ base_16_23_ tag_ system_flag_ dpl_ present_ limit_16_19_ avl_ long_ db_
       granularity_ base_24_31_ MemorySegmentDescriptor_new].
  do 7 read_field. split_and!; [by apply Z.mod_small|by destruct ssf|by destruct dpl|by destruct p|
    by destruct l|by destruct db|by destruct g].
Qed.

Lemma tssd_fields_read base limit busy dpl p g : 0 ≤ base < 2 ^ 32 →
  let d := tssd_pattern (TaskStateSegmentDescriptor_new base limit busy dpl p g) in
  hw_base d = base ∧ hw_limit d = limit mod 2 ^ 20 ∧ hw_type d = (if busy : bool then 11 else 9) ∧
  hw_system d = 0 ∧ hw_dpl d = ProtectionRing_value dpl ∧ hw_present d = Present_value p ∧
  hw_granularity d = Granularity_value g.
Proof.
  intros Hb d. unfold d. rewrite hw_base_split.
  unfold hw_limit, hw_type, hw_system, hw_dpl, hw_present, hw_granularity, tssd_pattern.
  cbn [t_limit_00_15_ t_base_00_15_ t_base_16_23_ t_type t_const_4_12 t_dpl_ t_present_ t_limit_16_19_
       t_avl_ t_const_4_21 t_const_4_22 t_granularity_ t_base_24_31_ TaskStateSegmentDescriptor_new].
  do 10 read_field. destruct (shiftmask_parts base) as (-> & -> & -> & _ & _).
  destruct (shiftmask_parts limit) as (-> & _ & _ & -> & _). rewrite !Z.mod_mod by lia.
  split_and!; [by apply byte_parts|apply limit_parts|by destruct busy|done|by destruct dpl|
    by destruct p|by destruct g].
Qed.

Lemma gate_fields_read func : 0 ≤ func < 2 ^ 32 →
  let g := gate_pattern (interrupt_gate func) in
  hw_gate_offset g = func ∧ hw_gate_selector g = KERNEL_CODE_SELECTOR ∧
  (* a present 32-bit interrupt gate of ring 0 *)
  bits g 40 4 = 14 ∧ hw_system g = 0 ∧ hw_dpl g = 0 ∧ hw_present g = 1.
Proof.
  intros Hf g. unfold g, hw_gate_offset, hw_gate_selector, hw_system, hw_dpl, hw_present, gate_pattern.
  rewrite (bits_split _ 40 3 1) by lia.
  cbn [offset_00_15_ g_segment_selector reserved_5 reserved_3 gate_kind g_db zero_bit g_dpl g_present
       offset_16_31_ interrupt_gate Gate_new].
  do 8 read_field. destruct (shiftmask_parts func) as (-> & _ & _ & _ & ->).
  rewrite !Z.mod_mod by lia. split_and!; [|done..]. Z.div_mod_to_equations; lia.
Qed.

(** ** The tables *)
Lemma push_entry_done pattern s : vec_ok (cpu_gdt s) → vec_size (cpu_gdt s) < capacity (cpu_gdt s) →
  let g := cpu_gdt s in
  push_entry pattern s = Done (u16 (vec_size g),
    mkCpu (mkVector (<[Z.to_nat (vec_size g) := pattern]> (vec_data g)) (vec_size g + 1))
      (cpu_gdtr s) (cpu_data s) (cpu_cs s) (cpu_tr s) (cpu_irq s)) ∧
  vec_ok (mkVector (<[Z.to_nat (vec_size g) := pattern]> (vec_data g)) (vec_size g + 1)) ∧
  capacity (mkVector (<[Z.to_nat (vec_size g) := pattern]> (vec_data g)) (vec_size g + 1)) = capacity g.
Proof.
  intros Hok Hlt g. destruct (push_back_done g pattern Hok Hlt) as (E & Hok' & _). split_and!; [|done|].
  - unfold push_entry. rewrite gets_bind. unfold on_gdt, zoom, mbind at 1, prog_bind. fold g. by rewrite E.
  - unfold capacity. simpl. by rewrite length_insert.
Qed.

(** The table behind the four pushes. *)
Definition kernel_table (single_task : Z) (data : list Z) : list Z :=
  <[3%nat := tssd_pattern (single_task_descriptor single_task)]>
    (<[2%nat := msd_pattern segments_kernel_data]>
      (<[1%nat := msd_pattern segments_kernel_code]> (<[0%nat := msd_pattern segments_null]> data))).

Lemma kernel_table_lookup single_task data : (4 ≤ length data)%nat →
  kernel_table single_task data !! 1%nat = Some (msd_pattern segments_kernel_code) ∧
  kernel_table single_task data !! 2%nat = Some (msd_pattern segments_kernel_data) ∧
  kernel_table single_task data !! 3%nat = Some (tssd_pattern (single_task_descriptor single_task)).
Proof.
  intros Hlen. unfold kernel_table. split_and!.
  - rewrite !(list_lookup_insert_ne _ _ 1) by done. apply list_lookup_insert_eq. rewrite !length_insert. lia.
  - rewrite (list_lookup_insert_ne _ _ 2) by done. apply list_lookup_insert_eq. rewrite !length_insert. lia.
  - apply list_lookup_insert_eq. rewrite !length_insert. lia.
Qed.

Lemma busy_pattern base limit dpl p g :
  tssd_pattern (TaskStateSegmentDescriptor_new base limit false dpl p g) + 2 ^ 41 =
  tssd_pattern (TaskStateSegmentDescriptor_new base limit true dpl p g).
Proof.
  unfold tssd_pattern, TaskStateSegmentDescriptor_new.
  cbn [t_limit_00_15_ t_base_00_15_ t_base_16_23_ t_type t_const_4_12 t_dpl_ t_present_ t_limit_16_19_
       t_avl_ t_const_4_21 t_const_4_22 t_granularity_ t_base_24_31_ pack].
  change (Z.lor 9 0 mod 2 ^ 4) with 9. change (Z.lor 9 2 mod 2 ^ 4) with 11. lia.
Qed.

Definition flat_segment (d : Z) : Prop :=
  hw_base d = 0 ∧ hw_last_byte d = 2 ^ 32 - 1 ∧ hw_system d = 1 ∧ hw_dpl d = 0 ∧ hw_present d = 1 ∧
  hw_long d = 0 ∧ hw_db d = 1.

Lemma selectors : index_selector idx_kernel_code GLOBAL ring_kernel = 8 ∧
  index_selector idx_kernel_data GLOBAL ring_kernel = 16 ∧
  index_selector idx_single_task GLOBAL ring_kernel = 24.
Proof. by vm_compute. Qed.

Lemma kernel_data_loads (d := msd_pattern segments_kernel_data) :
  (hw_system d =? 1) && (hw_present d =? 1) && negb (Z.testbit (hw_type d) 3) && Z.testbit (hw_type d) 1 = true.
Proof. by vm_compute. Qed.

Lemma kernel_code_loads (d := msd_pattern segments_kernel_code) :
  (hw_system d =? 1) && (hw_present d =? 1) && Z.testbit (hw_type d) 3 = true.
Proof. by vm_compute. Qed.

(** Loading the registers from a table that holds the kernel's descriptors. *)
Lemma load_registers_done single_task g d c t i limit : 0 ≤ single_task < 2 ^ 32 → 31 ≤ limit →
  (4 ≤ length (vec_data g))%nat →
  let data := kernel_table single_task (vec_data g) in
  (reload_segment_registers ;; init_task_register)
      (mkCpu (mkVector data (vec_size g)) (Some limit) d c t i) =
    Done (tt, mkCpu (mkVector (<[3%nat := tssd_pattern (single_task_descriptor single_task) + 2 ^ 41]> data)
                       (vec_size g)) (Some limit) 16 8 24 i).
Proof.
  intros Ht Hl Hlen data. destruct (kernel_table_lookup single_task _ Hlen) as (H1 & H2 & H3). fold data in H1, H2, H3.
  unfold reload_segment_registers, init_task_register. destruct selectors as (-> & -> & ->).
  assert (Hd : ∀ d c t k p, 8 * k + 7 <= limit → 0 ≤ k → data !! Z.to_nat k = Some p →
    hw_descriptor (mkCpu (mkVector data (vec_size g)) (Some limit) d c t i) (8 * k) = Some p).
  { intros d' c' t' k p Hk Hk0 Hp. unfold hw_descriptor. cbn [cpu_gdtr cpu_gdt vec_data mbind option_bind].
    rewrite (Z.mul_comm 8 k), Z.div_mul by lia. by destruct (Z.leb_spec (k * 8 + 7) limit); [|lia]. }
  rewrite bind_bind.
  rewrite (bind_done _ _ _ tt (mkCpu (mkVector data (vec_size g)) (Some limit) 16 c t i)).
  2: { unfold load_data_segments. change 16 with (8 * 2). rewrite (Hd _ _ _ 2 _ ltac:(lia) ltac:(lia) H2).
       by rewrite kernel_data_loads. }
  rewrite (bind_done _ _ _ tt (mkCpu (mkVector data (vec_size g)) (Some limit) 16 8 t i)).
  2: { unfold far_jump. change 8 with (8 * 1) at 1. rewrite (Hd _ _ _ 1 _ ltac:(lia) ltac:(lia) H1).
       by rewrite kernel_code_loads. }
  unfold load_task_register. change 24 with (8 * 3) at 1. rewrite (Hd _ _ _ 3 _ ltac:(lia) ltac:(lia) H3).
  destruct (tssd_fields_read single_task (TSS_size - 1) false ring_kernel Present_present granularity_bytes Ht)
    as (_ & _ & Ety & Esys & _ & Ep & _).
  fold (single_task_descriptor single_task) in Ety, Esys, Ep. by rewrite Ety, Esys, Ep.
Qed.

(** One push on the table at the head of the goal. *)
Ltac push_step Hok Hc :=
  match goal with
  | |- context [mbind ?k (push_entry ?p) ?s] =>
      let E := fresh in let Hok' := fresh in let Hc' := fresh in
      destruct (push_entry_done p s Hok ltac:(cbn [cpu_gdt vec_size]; lia)) as (E & Hok' & Hc');
      rewrite (bind_done _ k s _ _ E); clear E; cbn [cpu_gdt vec_size vec_data cpu_gdtr cpu_data cpu_cs cpu_tr cpu_irq] in Hok', Hc' |- *;
      rewrite <- Hc' in Hc; clear Hok Hc'; rename Hok' into Hok
  end.

Lemma pushes_done single_task s : vec_ok (cpu_gdt s) → vec_size (cpu_gdt s) = 0 → 4 ≤ capacity (cpu_gdt s) →
  (push_memory_segment segments_null ;; push_memory_segment segments_kernel_code ;;
   push_memory_segment segments_kernel_data ;; push_task (single_task_descriptor single_task) ;;
   reload_table) s =
  Done (tt, mkCpu (mkVector (kernel_table single_task (vec_data (cpu_gdt s))) 4) (Some 31)
    (cpu_data s) (cpu_cs s) (cpu_tr s) (cpu_irq s)).
Proof.
  intros Hok H0 Hc. destruct s as [[data size] r d c t i].
  cbn [cpu_gdt vec_size vec_data cpu_data cpu_cs cpu_tr cpu_irq] in *.
  subst size. unfold push_memory_segment, push_task. do 4 push_step Hok Hc. done.
Qed.

(** What the processor stands on behind [load_kernel_segments]. *)
Definition segments_loaded (single_task : Z) (s' : cpu) : Prop :=
  (∃ code, hw_descriptor s' (cpu_cs s') = Some code ∧ flat_segment code ∧ hw_type code = 10) ∧
  (∃ data, hw_descriptor s' (cpu_data s') = Some data ∧ flat_segment data ∧ hw_type data = 2) ∧
  (∃ task, hw_descriptor s' (cpu_tr s') = Some task ∧ hw_base task = single_task ∧
     hw_last_byte task = TSS_size - 1 ∧ hw_type task = 11 ∧ hw_present task = 1).

Lemma load_kernel_segments_done single_task s : 0 ≤ single_task < 2 ^ 32 →
  vec_size (cpu_gdt s) = 0 → 4 ≤ capacity (cpu_gdt s) < 2 ^ 32 - 1 → synced (cpu_irq s) →
  ∃ s', load_kernel_segments single_task s = Done (tt, s') ∧ cpu_irq s' = cpu_irq s ∧
    segments_loaded single_task s'.
Proof.
  intros Htask Hfresh Hcap Hirq.
  assert (Hok : vec_ok (cpu_gdt s)) by (unfold vec_ok; lia).
  assert (Hlen : (4 ≤ length (vec_data (cpu_gdt s)))%nat) by (unfold capacity in *; lia).
  set (table := kernel_table single_task (vec_data (cpu_gdt s))).
  set (table' := <[3%nat := tssd_pattern (single_task_descriptor single_task) + 2 ^ 41]> table).
  exists (mkCpu (mkVector table' 4) (Some 31) 16 8 24 (cpu_irq s)).
  destruct (kernel_table_lookup single_task _ Hlen) as (H1 & H2 & H3). fold table in H1, H2, H3.
  split; [|split; [done|]].
  - unfold load_kernel_segments. set (off := mkCpu (cpu_gdt s) (cpu_gdtr s) (cpu_data s) (cpu_cs s) (cpu_tr s) (mkIrq false false)).
    pose proof (pushes_done single_task off Hok Hfresh (proj1 Hcap)) as Epush.
    pose proof (load_registers_done single_task (mkVector (vec_data (cpu_gdt s)) 4) (cpu_data s) (cpu_cs s) (cpu_tr s)
      (mkIrq false false) 31 Htask ltac:(lia) Hlen) as Eload.
    unfold load_kernel_segments.
    rewrite (bind_done _ _ s (interrupts_enabled (cpu_irq s)) off) by done.
    transitivity (((push_memory_segment segments_null ;; push_memory_segment segments_kernel_code ;;
       push_memory_segment segments_kernel_data ;; push_task (single_task_descriptor single_task) ;;
       reload_table) ;; ((reload_segment_registers ;; init_task_register) ;;
       on_cpu_irq (irq_unlock (interrupts_enabled (cpu_irq s))))) off).
    { symmetry. do 4 (rewrite bind_bind; apply bind_ext; intros ? ?).
      apply bind_ext. intros ? ?. rewrite bind_bind. by apply bind_ext. }
    rewrite (bind_done _ _ _ _ _ Epush), (bind_done _ _ _ _ _ Eload).
    destruct s as [g r d c t [f e]]. unfold synced in Hirq. cbn in Hirq. subst f. by destruct e.
  - unfold segments_loaded, hw_descriptor. cbn [cpu_cs cpu_data cpu_tr cpu_gdtr cpu_gdt vec_data mbind option_bind].
    cbn. fold table'.
    split_and!.
    + exists (msd_pattern segments_kernel_code). split; [|by vm_compute].
      unfold table'. by rewrite list_lookup_insert_ne.
    + exists (msd_pattern segments_kernel_data). split; [|by vm_compute].
      unfold table'. by rewrite list_lookup_insert_ne.
    + eexists. split; [unfold table'; apply list_lookup_insert_eq, lookup_lt_is_Some_1; by eexists|].
      unfold single_task_descriptor. rewrite busy_pattern.
      destruct (tssd_fields_read single_task (TSS_size - 1) true ring_kernel Present_present granularity_bytes Htask)
        as (Eb & El & Ety & _ & _ & Ep & Eg).
      split_and!; [done| |done..]. unfold hw_last_byte. rewrite Eg, El. done.
Qed.

(** Every vector has a gate to its stub, and no gate is read behind the table. *)
Lemma idt_gate_done h vector : 0 ≤ vector →
  hw_gate (IDT_new h) vector =
    if vector <? NUMBER_OF_LINES then Some (gate_pattern (interrupt_gate (h vector))) else None.
Proof.
  intros Hv. unfold hw_gate, IDT_new, make_gates, NUMBER_OF_LINES. cbn [idt_limit idt_gates].
  rewrite length_fmap, length_seq. change (u16 (Z.of_nat (Z.to_nat 256) * 8 - 1)) with 2047.
  destruct (Z.leb_spec (vector * 8 + 7) 2047), (Z.ltb_spec vector 256); try lia; [|done].
  rewrite list_lookup_fmap, lookup_seq_lt by lia. cbn [fmap option_fmap option_map]. by rewrite Nat.add_0_l, Z2Nat.id by lia.
Qed.

(** * Properties *)

(** C32: descriptors read back: what the processor finds in the pattern of a
    memory segment, of a task state segment and of an interrupt gate is what they
    were made of, of a limit the low 20 bits. *)
Theorem descriptor_roundtrip base limit tag ssf dpl p l db g busy func
    (Hbase : 0 ≤ base < 2 ^ 32) (Htag : 0 ≤ tag < 2 ^ 4) (Hfunc : 0 ≤ func < 2 ^ 32) :
  let m := msd_pattern (MemorySegmentDescriptor_new base limit tag ssf dpl p l db g) in
  let t := tssd_pattern (TaskStateSegmentDescriptor_new base limit busy dpl p g) in
  let i := gate_pattern (interrupt_gate func) in
  (hw_base m = base ∧ hw_limit m = limit mod 2 ^ 20 ∧ hw_type m = tag ∧
   hw_system m = System_value ssf ∧ hw_dpl m = ProtectionRing_value dpl ∧
   hw_present m = Present_value p ∧ hw_long m = Long_value l ∧ hw_db m = OperationSize_value db ∧
   hw_granularity m = Granularity_value g) ∧
  (hw_base t = base ∧ hw_limit t = limit mod 2 ^ 20 ∧ hw_type t = (if busy then 11 else 9) ∧
   hw_system t = 0 ∧ hw_dpl t = ProtectionRing_value dpl ∧ hw_present t = Present_value p ∧
   hw_granularity t = Granularity_value g) ∧
  (hw_gate_offset i = func ∧ hw_gate_selector i = KERNEL_CODE_SELECTOR ∧ bits i 40 4 = 14 ∧
   hw_system i = 0 ∧ hw_dpl i = 0 ∧ hw_present i = 1) ∧
  0 ≤ m < 2 ^ 64 ∧ 0 ≤ t < 2 ^ 64 ∧ 0 ≤ i < 2 ^ 64.
Proof.
  intros m t i. split; [|split; [|split; [|split; [|split]]]].
  - split; [exact (msd_base base limit tag ssf dpl p l db g Hbase)|].
    split; [exact (msd_limit base limit tag ssf dpl p l db g)|].
    exact (msd_flags base limit tag ssf dpl p l db g Htag).
  - exact (tssd_fields_read base limit busy dpl p g Hbase).
  - exact (gate_fields_read func Hfunc).
  - unfold m, msd_pattern. by match goal with |- context [pack ?fs] => apply (pack_range fs) end.
  - unfold t, tssd_pattern. by match goal with |- context [pack ?fs] => apply (pack_range fs) end.
  - unfold i, gate_pattern. by match goal with |- context [pack ?fs] => apply (pack_range fs) end.
Qed.

(** C16: [load_kernel_segments] on a fresh table puts the processor on flat
    segments: no load faults, code and data selectors name present ring 0
    segments of all 4 GiB, the task register names the (now busy) task state
    segment, and the interrupt state is as before. *)
Theorem kernel_segments_loaded single_task (s : cpu) (Htask : 0 ≤ single_task < 2 ^ 32)
    (Hfresh : vec_size (cpu_gdt s) = 0) (Hcap : 4 ≤ capacity (cpu_gdt s) < 2 ^ 32 - 1)
    (Hirq : synced (cpu_irq s)) :
  ∃ s', load_kernel_segments single_task s = Done (tt, s') ∧ cpu_irq s' = cpu_irq s ∧
    (∃ code, hw_descriptor s' (cpu_cs s') = Some code ∧ flat_segment code ∧ hw_type code = 10) ∧
    (∃ data, hw_descriptor s' (cpu_data s') = Some data ∧ flat_segment data ∧ hw_type data = 2) ∧
    (∃ task, hw_descriptor s' (cpu_tr s') = Some task ∧ hw_base task = single_task ∧
       hw_last_byte task = TSS_size - 1 ∧ hw_type task = 11 ∧ hw_present task = 1).
Proof. exact (load_kernel_segments_done single_task s Htask Hfresh Hcap Hirq). Qed.

(** ** Witnesses *)
Lemma descriptor_roundtrip_witness :
  let m := msd_pattern (MemorySegmentDescriptor_new 0x1234567 0xabcde 10 System_code_or_data ring_user
             Present_present Long_other db32_bit four_k_pages) in
  hw_base m = 0x1234567 ∧ hw_limit m = 0xabcde mod 2 ^ 20.
Proof.
  destruct (descriptor_roundtrip 0x1234567 0xabcde 10 System_code_or_data ring_user
    Present_present Long_other db32_bit four_k_pages false 0x1234567 ltac:(lia) ltac:(lia) ltac:(lia))
    as ((Hb & Hl & _) & _).
  exact (conj Hb Hl).
Defined.

Definition example_cpu : cpu :=
  mkCpu (mkVector (repeat 0 8) 0) None 0 0 0 (mkIrq true true).

Lemma kernel_segments_loaded_witness :
  ∃ s', load_kernel_segments 0x123450 example_cpu = Done (tt, s') ∧ cpu_irq s' = mkIrq true true ∧
    (∃ code, hw_descriptor s' (cpu_cs s') = Some code ∧ flat_segment code ∧ hw_type code = 10) ∧
    (∃ data, hw_descriptor s' (cpu_data s') = Some data ∧ flat_segment data ∧ hw_type data = 2) ∧
    (∃ task, hw_descriptor s' (cpu_tr s') = Some task ∧ hw_base task = 0x123450 ∧
       hw_last_byte task = TSS_size - 1 ∧ hw_type task = 11 ∧ hw_present task = 1).
Proof.
  apply (kernel_segments_loaded 0x123450 example_cpu); [lia|reflexivity| |reflexivity].
  unfold capacity. simpl. lia.
Defined.

(** The segment has the size the structure is asserted to have. *)
Example tss_size : width_of (tss_fields TaskStateSegment_default) = 8 * TSS_size.
Proof. by vm_compute. Qed.
