(* ===== verification/Ps2.v ===== *)
(** * The PS/2 subsystem

    [devices/ps2]: the controller ([controller.cpp]), its two lines ([line.cpp]),
    the configuration byte ([common.hpp]) and the probing and interrupt of the
    keyboard driver ([ps2_keyboard.cpp]).  The 8042 and what hangs on it is the
    interface [PS2Device]: what a port read returns, what a write and a sleep do to
    it, and what the clock shows during a sleep.  The sleeps are those of [Timer.v],
    on the scheduler of the moment. *)
From stdpp Require Import base functions tactics numbers list gmap strings.
From S2P Require Import Prelude MemUtils Ports Irq OStream Keyboard Timer.

Class PS2Device (D : Type) : Type := {
  dev_read : Z → D → Z * D;
  dev_write : Z → Z → D → D;
  dev_wait : D → D;
  dev_clock : D → nat → Z
}.

(** What a sleep needs: the scheduler's [instance] of [sched.cpp], null while there is none, and
    a bound for the loop of [sleep_]. *)
Class Sleeping : Type := mkSleeping { sched_instance : Z; sleep_fuel : nat }.

(** ** [common.hpp], [common.cpp] *)
Inductive ErrorCode : Type := ErrorCode_ok | wrong_ack | timeout | unknown.

Definition show_error_code {B} `{StreamBuf B} (code : ErrorCode) : prog (ostream * B) unit :=
  match code with
  | ErrorCode_ok => show_literal (chars_of "No error")
  | wrong_ack => show_literal (chars_of "Wrong ack")
  | timeout => show_literal (chars_of "Timeout")
  | unknown => show_literal (chars_of "Unknown error")
  end.

(** [Conf] is its byte. *)
Definition int_first : Z := Z.shiftl 1 0.
Definition int_second : Z := Z.shiftl 1 1.
Definition clock_second : Z := Z.shiftl 1 5.
Definition translation : Z := Z.shiftl 1 6.

Definition conf_is_set (field conf : Z) : bool := negb (Z.land conf field =? 0).
Definition conf_set (field conf : Z) : Z := u8 (Z.lor conf field).
Definition conf_unset (field conf : Z) : Z := u8 (Z.land conf (Z.lnot field)).
Definition conf_reset (value conf : Z) : Z := u8 value.
Definition conf_get (conf : Z) : Z := conf.

Definition get_ps2_lines (conf : Z) : Z := if conf_is_set clock_second conf then 2 else 1.

(** ** [controller.hpp] *)
Definition SELFTEST_TIMEOUT : Z := 5.
Definition dev_1 : Z := 0.
Definition dev_2 : Z := 1.
Definition port_test_ok : Z := 0.
Definition self_test_ok : Z := 0x55.

Inductive cmd_t : Type :=
  | read_cb | write_cb | self_test | port_test_1 | port_test_2
  | disable_1 | enable_1 | disable_2 | enable_2 | redirect_2nd | no_cmd.
Definition cmd_value (c : cmd_t) : Z :=
  match c with
  | read_cb => 0x20 | write_cb => 0x60 | self_test => 0xaa | port_test_1 => 0xab
  | port_test_2 => 0xa9 | disable_1 => 0xad | enable_1 => 0xae | disable_2 => 0xa7
  | enable_2 => 0xa8 | redirect_2nd => 0xd4 | no_cmd => 0
  end.

Definition out_buf_status : Z := Z.shiftl 1 0.
Definition in_buf_status : Z := Z.shiftl 1 1.

Definition PS2_PORT_DATA : Z := 0x60.
Definition PS2_PORT_STATUS : Z := 0x64.
Definition PS2_PORT_COMMAND : Z := 0x64.

Definition MAX_REGISTERED_DEVICES : nat := 10.

(** ** [PS2LineConfiguration] and [get_line] *)
Record IPS2Line : Type := mkLine {
  cmd_enable : cmd_t; cmd_disable : cmd_t; cmd_test : cmd_t;
  need_redirection : bool; cmd_redirect : cmd_t; enable_interrups_mask : Z; line_id : Z
}.

Definition first_line : IPS2Line := mkLine enable_1 disable_1 port_test_1 false no_cmd int_first 0.
Definition second_line : IPS2Line := mkLine enable_2 disable_2 port_test_2 true redirect_2nd int_second 1.

Definition get_line (line : Z) : option IPS2Line :=
  [first_line; second_line] !! Z.to_nat line.

(** ** The state of the subsystem

    [sent] logs the writes to the ports.  Drivers are identified by numbers; the
    interrupt state is what [sleep_ms] tests. *)
Record ps2 (D : Type) : Type := mkPs2 {
  device : D;
  sent : list (Z * Z);
  known_devices : list Z;
  active_devices : Z → option Z;
  ps2_manager : InterruptsManager;
  ps2_irq : irq_state;
  ps2_keyboard : keyboard
}.
Arguments mkPs2 {D}. Arguments device {D}. Arguments sent {D}. Arguments known_devices {D}.
Arguments active_devices {D}. Arguments ps2_manager {D}. Arguments ps2_irq {D}. Arguments ps2_keyboard {D}.

Definition keyboard_driver : Z := 1.

Section Controller.
Context {D : Type} `{PS2Device D} `{SC : Sleeping}.
Abbreviation ps2_prog := (prog (ps2 D)).

Definition port_in (port : Z) : ps2_prog Z := λ s,
  let '(v, d) := dev_read port (device s) in
  Done (u8 v, mkPs2 d (sent s) (known_devices s) (active_devices s) (ps2_manager s) (ps2_irq s) (ps2_keyboard s)).

Definition port_out (port byte : Z) : ps2_prog unit := modify (λ s,
  mkPs2 (dev_write port (u8 byte) (device s)) (sent s ++ [(port, u8 byte)]) (known_devices s)
    (active_devices s) (ps2_manager s) (ps2_irq s) (ps2_keyboard s)).

(** [sleep_ms(1)]: the device sees the time pass. *)
Definition sleep_1ms : ps2_prog unit := λ s,
  match Timer.sleep_ms sleep_fuel sched_instance (dev_clock (device s)) 1 (ps2_irq s) with
  | Done _ => Done (tt, mkPs2 (dev_wait (device s)) (sent s) (known_devices s) (active_devices s)
                          (ps2_manager s) (ps2_irq s) (ps2_keyboard s))
  | Panic msg => Panic msg | Fault msg => Fault msg | Fuel => Fuel
  end.

Definition set_active (line : Z) (dev : option Z) : ps2_prog unit := modify (λ s,
  mkPs2 (device s) (sent s) (known_devices s) (<[line := dev]> (active_devices s)) (ps2_manager s)
    (ps2_irq s) (ps2_keyboard s)).

Definition register_driver (dev : Z) : ps2_prog unit := modify (λ s,
  if (length (known_devices s) <? MAX_REGISTERED_DEVICES)%nat then
    mkPs2 (device s) (sent s) (known_devices s ++ [dev]) (active_devices s) (ps2_manager s)
      (ps2_irq s) (ps2_keyboard s)
  else s).

Definition status : ps2_prog Z := port_in PS2_PORT_STATUS.
Definition receive_byte : ps2_prog Z := port_in PS2_PORT_DATA.
Definition send_byte (byte : Z) : ps2_prog unit := port_out PS2_PORT_DATA byte.
Definition send_command (cmd : cmd_t) : ps2_prog unit := port_out PS2_PORT_COMMAND (cmd_value cmd).

(** [wait_for_flag]: the two loops differ in the sense of the flag. *)
Fixpoint wait_loop (fuel : nat) (flag : Z) (val : bool) (wait ms : Z) : ps2_prog bool :=
  match fuel with
  | O => no_fuel
  | S n =>
      st ← status;
      let is_set := negb (Z.land st flag =? 0) in
      if (if val then negb is_set else is_set) && (wait <? ms) then
        sleep_1ms ;; wait_loop n flag val (wait + 1) ms
      else mret is_set
  end.

Definition wait_for_flag (flag : Z) (val : bool) (ms : Z) : ps2_prog bool :=
  wait_loop (S (Z.to_nat ms)) flag val 0 ms.

Definition wait_for_input (ms : Z) : ps2_prog bool := wait_for_flag out_buf_status true ms.
Definition wait_for_output (ms : Z) : ps2_prog bool :=
  f ← wait_for_flag in_buf_status false ms; mret (negb f).
Definition can_read : ps2_prog bool := wait_for_input 0.

(** [receive(ms_timeout, &data)]; [None] is the result false. *)
Definition receive (ms_timeout : Z) : ps2_prog (option Z) :=
  ready ← wait_for_input ms_timeout;
  if (ready : bool) then b ← receive_byte; mret (Some b) else mret None.

Fixpoint clean_loop (fuel : nat) (status_register : Z) : ps2_prog unit :=
  match fuel with
  | O => no_fuel
  | S n =>
      if negb (Z.land status_register out_buf_status =? 0) then
        receive_byte ;; status_register ← status; clean_loop n status_register
      else mret tt
  end.
Definition clean_buffer (fuel : nat) : ps2_prog unit :=
  status_register ← status; clean_loop fuel status_register.

Definition read_conf : ps2_prog Z := send_command read_cb ;; receive_byte.
Definition write_conf (conf : Z) : ps2_prog unit := send_command write_cb ;; send_byte conf.

Definition do_selftest : ps2_prog bool :=
  send_command self_test ;;
  r ← receive SELFTEST_TIMEOUT;
  match r with None => mret false | Some test_result => mret (test_result =? self_test_ok) end.

(** ** [line.cpp] *)
Definition OUTPUT_TIMEOUT : Z := 1.

Definition line_send (line : IPS2Line) (byte : Z) : ps2_prog ErrorCode :=
  (if need_redirection line then send_command (cmd_redirect line) else mret tt) ;;
  can_write ← wait_for_output OUTPUT_TIMEOUT;
  if negb can_write then mret timeout
  else send_byte byte ;; mret ErrorCode_ok.

Definition line_send_ack (line : IPS2Line) (byte expected_ack : Z) : ps2_prog ErrorCode :=
  ret ← line_send line byte;
  match ret with
  | ErrorCode_ok =>
      ack ← receive OUTPUT_TIMEOUT;
      match ack with
      | Some ack => if ack =? expected_ack then mret ErrorCode_ok else mret wrong_ack
      | None => mret timeout
      end
  | _ => mret ret
  end.

Definition line_disable (line : IPS2Line) : ps2_prog unit := send_command (cmd_disable line).
Definition line_enable (line : IPS2Line) : ps2_prog unit := send_command (cmd_enable line).

Definition line_test (line : IPS2Line) : ps2_prog bool :=
  send_command (cmd_test line) ;;
  reply ← receive SELFTEST_TIMEOUT;
  match reply with None => mret false | Some reply => mret (reply =? port_test_ok) end.

(** ** [ps2_keyboard.cpp] *)
Definition ps2_dcmd_enable_scan : Z := 0xf4.
Definition ps2_dcmd_disable_scan : Z := 0xf5.
Definition ps2_dcmd_identify : Z := 0xf2.
Definition ps2_keyboard_ack : Z := 0xfa.
Definition this_dev_id : list Z := [0xab; 0x83].

(** The loop over the bytes of the identification; [ids] are those not compared yet. *)
Fixpoint read_id (ids : list Z) : ps2_prog bool :=
  match ids with
  | [] => mret true
  | id :: rest =>
      reply ← receive 5;
      match reply with
      | None => mret false
      | Some reply => if reply =? id then read_id rest else mret false
      end
  end.

(** [true] is [probe_ok]. *)
Definition keyboard_probe (fuel : nat) (line : IPS2Line) : ps2_prog bool :=
  clean_buffer fuel ;;
  ret ← line_send_ack line ps2_dcmd_disable_scan ps2_keyboard_ack;
  match ret with
  | ErrorCode_ok =>
      ret ← line_send_ack line ps2_dcmd_identify ps2_keyboard_ack;
      match ret with
      | ErrorCode_ok =>
          ok ← read_id this_dev_id;
          if (ok : bool) then
            line_send_ack line ps2_dcmd_enable_scan ps2_keyboard_ack ;; mret true
          else mret false
      | _ => mret false
      end
  | _ => mret false
  end.

Definition keyboard_handle_irq (fuel : nat) : ps2_prog status_t :=
  byte ← receive_byte;
  zoom ps2_keyboard (λ k s, mkPs2 (device s) (sent s) (known_devices s) (active_devices s)
                       (ps2_manager s) (ps2_irq s) k) (handle_byte fuel byte) ;;
  mret HANDLED.

Definition keyboard_init : ps2_prog unit := register_driver keyboard_driver.
Definition init_subsystems : ps2_prog unit := keyboard_init.

(** The virtual functions of the registered drivers. *)
Definition device_probe (fuel : nat) (dev : Z) (line : IPS2Line) : ps2_prog bool :=
  if dev =? keyboard_driver then keyboard_probe fuel line else fault "no such driver".
Definition device_handle_irq (fuel : nat) (dev : Z) : ps2_prog status_t :=
  if dev =? keyboard_driver then keyboard_handle_irq fuel else fault "no such driver".

(** ** [PS2Controller] *)
Fixpoint for_each_line (fuel : nat) (line_id : Z) (f : IPS2Line → ps2_prog unit) : ps2_prog unit :=
  match fuel with
  | O => no_fuel
  | S n =>
      match get_line line_id with
      | Some line => f line ;; for_each_line n (line_id + 1) f
      | None => mret tt
      end
  end.
Definition each_line (f : IPS2Line → ps2_prog unit) : ps2_prog unit := for_each_line 3 0 f.

(** The device found last and how many there were. *)
Fixpoint probe_known (fuel : nat) (line : IPS2Line) (devs : list Z) (active_dev : option Z)
    (active_dev_count : Z) : ps2_prog (option Z * Z) :=
  match devs with
  | [] => mret (active_dev, active_dev_count)
  | dev :: rest =>
      ret ← device_probe fuel dev line;
      if (ret : bool) then probe_known fuel line rest (Some dev) (active_dev_count + 1)
      else probe_known fuel line rest active_dev active_dev_count
  end.

Definition probe_line (fuel : nat) (line : IPS2Line) : ps2_prog unit :=
  devs ← gets known_devices;
  found ← probe_known fuel line devs None 0;
  if 1 <? found.2 then panic ""
  else set_active (line_id line) found.1.

Definition probe_devices (fuel : nat) : ps2_prog unit := each_line (probe_line fuel).

Definition FIRST_LINE_IRQ : Z := min_irq_vector + 1.
Definition SECOND_LINE_IRQ : Z := min_irq_vector + 12.

Definition add_ps2_handler (push : bool) (vector handler : Z) : ps2_prog unit := λ s,
  match add_irq_handler push vector handler (ps2_manager s) with
  | Done m => Done (tt, mkPs2 (device s) (sent s) (known_devices s) (active_devices s) m (ps2_irq s) (ps2_keyboard s))
  | Panic msg => Panic msg | Fault msg => Fault msg | Fuel => Fuel
  end.

(** Before the self test: everything off. *)
Definition silence (fuel : nat) : ps2_prog unit :=
  each_line line_disable ;;
  clean_buffer fuel ;;
  conf ← read_conf;
  let conf := conf_unset (enable_interrups_mask first_line) conf in
  let conf := conf_unset (enable_interrups_mask second_line) conf in
  let conf := conf_unset translation conf in
  write_conf conf.

(** The last steps: interrupts of the lines with a device, the others off. *)
Definition switch_line (line : IPS2Line) (conf : Z) : ps2_prog Z :=
  active ← gets active_devices;
  match active (line_id line) with
  | Some _ => mret (conf_set (enable_interrups_mask line) conf)
  | None => line_disable line ;; mret conf
  end.

(** [initialize_controller] in front of the registration of the handler and behind it. *)
Definition prepare_controller (fuel : nat) : ps2_prog unit :=
  init_subsystems ;;
  silence fuel ;;
  ok ← do_selftest;
  if negb ok then panic "PS/2: controller self-test failed!"
  else
    line_enable second_line ;;
    read_conf ;;
    line_disable second_line ;;
    each_line (λ line, line_test line ;; mret tt).

Definition finish_controller (fuel : nat) : ps2_prog unit :=
  each_line line_enable ;;
  probe_devices fuel ;;
  conf ← read_conf;
  conf ← switch_line first_line conf;
  conf ← switch_line second_line conf;
  write_conf conf.

(** [handler] is the new handler, [push1] and [push2] the outcomes of registering it. *)
Definition initialize_controller (fuel : nat) (push1 push2 : bool) (handler : Z) : ps2_prog unit :=
  prepare_controller fuel ;;
  add_ps2_handler push1 FIRST_LINE_IRQ handler ;;
  add_ps2_handler push2 SECOND_LINE_IRQ handler ;;
  finish_controller fuel.

Definition ps2_irq_handler (fuel : nat) (line : Z) : ps2_prog status_t :=
  active ← gets active_devices;
  match active line with
  | Some dev => device_handle_irq fuel dev
  | None => mret NONE
  end.

Definition PS2IRQHandler_handle_irq (fuel : nat) (vector : Z) : ps2_prog status_t :=
  if vector =? FIRST_LINE_IRQ then ps2_irq_handler fuel dev_1
  else if vector =? SECOND_LINE_IRQ then ps2_irq_handler fuel dev_2
  else mret NONE.
End Controller.

(** * Verification *)

(** Sleeps come to an end: with a scheduler the clock of the device advances while the others run. *)
Definition naps (D : Type) `{PS2Device D} `{SC : Sleeping} : Prop :=
  (1 ≤ sleep_fuel)%nat ∧
  (sched_instance ≠ nullptr → ∀ d : D, ∃ m, (1 ≤ m ≤ sleep_fuel)%nat ∧ u32 (dev_clock d 0 + 1) ≤ dev_clock d m).

Section Quiet.
Context {D : Type} `{PS2Device D} `{SC : Sleeping} (Hnaps : naps D).
Abbreviation ps2_prog := (prog (ps2 D)).

(** The device after [n] rounds of polling, and the status the next poll reads. *)
Fixpoint polled (n : nat) (d : D) : D :=
  match n with O => d | S n => polled n (dev_wait (dev_read PS2_PORT_STATUS d).2) end.
Definition poll (flag : Z) (n : nat) (d : D) : bool :=
  negb (Z.land (u8 (dev_read PS2_PORT_STATUS (polled n d)).1) flag =? 0).

(** A wait finds the flag other than it wants, and the first look at the clock behind that shows the
    tick it began in. *)
Definition stalled (flag : Z) (val : bool) (d : D) : Prop :=
  poll flag 0 d = negb val ∧
  let d' := (dev_read PS2_PORT_STATUS d).2 in dev_clock d' 1 < u32 (dev_clock d' 0 + 1).

(** The kernel yields through the null pointer of a scheduler that is not made yet, in such a wait. *)
Definition wait_crashed {A} (flag : Z) (val : bool) (r : outcome A) : Prop :=
  sched_instance = nullptr ∧ r = Fault null_scheduler ∧ ∃ d, stalled flag val d.

(** The two waits: for a byte of the controller, and for room for a byte. *)
Definition crashed {A} (r : outcome A) : Prop :=
  wait_crashed out_buf_status true r ∨ wait_crashed in_buf_status false r.

Lemma wait_crashed_bind {A B} flag val (p : ps2_prog A) (k : A → ps2_prog B) s :
  wait_crashed flag val (p s) → wait_crashed flag val ((p ≫= k) s).
Proof. intros (Hi & E & Hd). split_and!; [done| |done]. unfold mbind, prog_bind. by rewrite E. Qed.

Lemma crashed_bind {A B} (p : ps2_prog A) (k : A → ps2_prog B) s : crashed (p s) → crashed ((p ≫= k) s).
Proof. intros [?|?]; [left|right]; by apply wait_crashed_bind. Qed.

(** Interrupts are on: [sleep_ms] may be called. *)
Definition ready (s : ps2 D) : Prop := ps2_irq s = mkIrq true true.

(** The state with another device and more on the wire. *)
Definition with_dev (s : ps2 D) (d : D) (l : list (Z * Z)) : ps2 D :=
  mkPs2 d (sent s ++ l) (known_devices s) (active_devices s) (ps2_manager s) (ps2_irq s) (ps2_keyboard s).

Lemma with_dev_twice s d l d' l' : with_dev (with_dev s d l) d' l' = with_dev s d' (l ++ l').
Proof. unfold with_dev. cbn. by rewrite app_assoc. Qed.

Lemma with_dev_none s d : with_dev s d [] =
  mkPs2 d (sent s) (known_devices s) (active_devices s) (ps2_manager s) (ps2_irq s) (ps2_keyboard s).
Proof. unfold with_dev. by rewrite app_nil_r. Qed.

Lemma sent_with_dev s d l : sent (with_dev s d l) = sent s ++ l.
Proof. done. Qed.

(** Programs that only talk to the device, and return unless a sleep crashes; [Q] relates the
    result and what was written. *)
Definition quiet {A} (p : ps2_prog A) (Q : A → list (Z * Z) → Prop) : Prop :=
  ∀ s, ready s → crashed (p s) ∨ ∃ a d l, p s = Done (a, with_dev s d l) ∧ Q a l.

Lemma quiet_mono {A} (p : ps2_prog A) (Q Q' : A → list (Z * Z) → Prop) :
  quiet p Q → (∀ a l, Q a l → Q' a l) → quiet p Q'.
Proof. intros Hp HQ s Hs. destruct (Hp s Hs) as [?|(a & d & l & E & Hl)]; [by left|right]. exists a, d, l. auto. Qed.

Lemma quiet_ret {A} (a : A) (Q : A → list (Z * Z) → Prop) : Q a [] → quiet (mret a) Q.
Proof.
  intros HQ s Hs. right. exists a, (device s), []. split; [|done]. rewrite with_dev_none. by destruct s.
Qed.

Lemma quiet_bind {A B} (p : ps2_prog A) (k : A → ps2_prog B) Q R :
  quiet p Q → (∀ a l, Q a l → quiet (k a) (λ b l', R b (l ++ l'))) → quiet (p ≫= k) R.
Proof.
  intros Hp Hk s Hs. destruct (Hp s Hs) as [?|(a & d & l & E & Hl)]; [left; by apply crashed_bind|].
  rewrite (bind_done _ _ _ _ _ E).
  destruct (Hk a l Hl (with_dev s d l) Hs) as [?|(b & d' & l' & E' & Hl')]; [by left|right].
  exists b, d', (l ++ l'). rewrite E'. by rewrite with_dev_twice.
Qed.

(** Nothing written, or only these. *)
Abbreviation silent := (λ _ l, l = []).
Abbreviation writes w := (λ _ l, l = w).

Lemma quiet_silent {A B} (p : ps2_prog A) (k : A → ps2_prog B) R :
  quiet p silent → (∀ a, quiet (k a) R) → quiet (p ≫= k) R.
Proof. intros Hp Hk. eapply quiet_bind; [exact Hp|]. intros a l ->. apply Hk. Qed.

Lemma quiet_writes {A B} (p : ps2_prog A) (k : A → ps2_prog B) w R :
  quiet p (writes w) → (∀ a, quiet (k a) (λ b l, R b (w ++ l))) → quiet (p ≫= k) R.
Proof. intros Hp Hk. eapply quiet_bind; [exact Hp|]. intros a l ->. apply Hk. Qed.

Lemma quiet_in port : quiet (port_in port) silent.
Proof.
  intros s _. right. unfold port_in. destruct (dev_read port (device s)) as [v d].
  exists (u8 v), d, []. by rewrite with_dev_none.
Qed.

Lemma quiet_out port byte : quiet (port_out port byte) (writes [(port, u8 byte)]).
Proof. intros s _. right. by eexists tt, _, _. Qed.

Lemma quiet_command cmd : quiet (send_command cmd) (writes [(PS2_PORT_COMMAND, cmd_value cmd)]).
Proof.
  eapply quiet_mono; [apply quiet_out|]. intros a l ->. do 2 f_equal. apply u8_small. by destruct cmd.
Qed.

Lemma sleep_1ms_done s : ready s →
  (sched_instance = nullptr ∧ sleep_1ms s = Fault null_scheduler ∧
   dev_clock (device s) 1 < u32 (dev_clock (device s) 0 + 1)) ∨
  sleep_1ms s = Done (tt, with_dev s (dev_wait (device s)) []).
Proof.
  intros Hs. rewrite with_dev_none. unfold sleep_1ms, sleep_ms, sleep. rewrite Hs.
  unfold is_enabled. cbn [if_flag interrupts_enabled eqb]. change (ms_to_ticks 1) with 1.
  destruct Hnaps as [Hf Hn]. destruct (decide (sched_instance = nullptr)) as [Ei|Ei].
  - rewrite Ei, sleep_loop_null by done. destruct (Z.ltb_spec (dev_clock (device s) 1) (u32 (dev_clock (device s) 0 + 1)));
      [by left|by right].
  - destruct (sleep_loop_done sched_instance (dev_clock (device s)) Ei sleep_fuel 1 (u32 (dev_clock (device s) 0 + 1)))
      as (n & E & _); [destruct (Hn Ei (device s)) as (m & Hm & He); exists m; split; [lia|done]|].
    right. by rewrite E.
Qed.

Lemma status_done s : status s = Done (u8 (dev_read PS2_PORT_STATUS (device s)).1,
  with_dev s (dev_read PS2_PORT_STATUS (device s)).2 []).
Proof.
  unfold status, port_in. destruct (dev_read PS2_PORT_STATUS (device s)). by rewrite with_dev_none.
Qed.

(** Polling stops at the first poll that shows the flag as wanted, or behind [ms] of them. *)
Lemma wait_loop_done flag val ms : ∀ fuel wait s, ready s → 0 ≤ wait ≤ ms → ms - wait < Z.of_nat fuel →
  wait_crashed flag val (wait_loop fuel flag val wait ms s) ∨
  ∃ k, (k ≤ Z.to_nat (ms - wait))%nat ∧
    (∀ j, (j < k)%nat → poll flag j (device s) = negb val) ∧
    (poll flag k (device s) = val ∨ k = Z.to_nat (ms - wait)) ∧
    wait_loop fuel flag val wait ms s = Done (poll flag k (device s),
      with_dev s (dev_read PS2_PORT_STATUS (polled k (device s))).2 []).
Proof.
  induction fuel as [|fuel IH]; intros wait s Hs Hw Hf; [lia|]. cbn [wait_loop].
  rewrite (bind_done _ _ _ _ _ (status_done s)).
  set (b := negb (Z.land (u8 (dev_read PS2_PORT_STATUS (device s)).1) flag =? 0)).
  assert (Hb : poll flag 0 (device s) = b) by done.
  assert (Hgo : (if val then negb b else b) = negb (eqb b val)) by (by destruct val, b).
  rewrite Hgo. destruct (eqb b val) eqn:Eb; cbn [negb andb].
  { right. exists O. apply eqb_prop in Eb. split_and!; [lia|intros; lia|left; congruence|].
    by rewrite Hb. }
  destruct (Z.ltb_spec wait ms) as [Hlt|Hge].
  - destruct (sleep_1ms_done (with_dev s (dev_read PS2_PORT_STATUS (device s)).2 []) Hs) as [(Hi & Esl & Hc)|Esl].
    { left. apply wait_crashed_bind. split_and!; [done..|]. exists (device s). split; [|exact Hc].
      rewrite Hb. by destruct b, val. }
    rewrite (bind_done _ _ _ tt _ Esl), with_dev_twice. cbn [app device with_dev].
    set (s1 := with_dev s (dev_wait _) []).
    destruct (IH (wait + 1) s1 Hs) as [?|(k & Hk & Hbefore & Hat & E)]; [lia..|by left|right].
    exists (S k). split_and!; [lia| | |].
    + intros [|j] Hj; [|apply Hbefore; lia]. rewrite Hb. by destruct b, val.
    + destruct Hat as [Hat|Hat]; [by left|right; lia].
    + rewrite E. unfold s1. rewrite with_dev_twice. done.
  - right. exists O. split_and!; [lia|intros; lia|right; lia|]. by rewrite Hb.
Qed.

Lemma quiet_wait flag val ms : (flag, val) ∈ [(out_buf_status, true); (in_buf_status, false)] → 0 ≤ ms →
  quiet (wait_for_flag flag val ms) silent.
Proof.
  intros Hf Hms s Hs. unfold wait_for_flag.
  destruct (wait_loop_done flag val ms (S (Z.to_nat ms)) 0 s Hs) as [Hc|(k & _ & _ & _ & E)]; [lia..| |right].
  { left. unfold crashed. rewrite !elem_of_cons in Hf. destruct Hf as [[= -> ->]|[[= -> ->]|[]%elem_of_nil]]; tauto. }
  rewrite E. by eexists _, _, [].
Qed.

Lemma quiet_receive ms : 0 ≤ ms → quiet (receive ms) silent.
Proof.
  intros Hms. unfold receive, wait_for_input. apply quiet_silent; [apply quiet_wait; [set_solver|done]|]. intros [].
  - apply quiet_silent; [apply quiet_in|]. intros b. by apply quiet_ret.
  - by apply quiet_ret.
Qed.

Lemma quiet_output ms : 0 ≤ ms → quiet (wait_for_output ms) silent.
Proof.
  intros Hms. unfold wait_for_output. apply quiet_silent; [apply quiet_wait; [set_solver|done]|]. intros b. by apply quiet_ret.
Qed.

(** The output buffer is empty behind some reads. *)
Fixpoint drained (fuel : nat) (d : D) : bool :=
  match fuel with
  | O => false
  | S n =>
      let '(v, d1) := dev_read PS2_PORT_STATUS d in
      if Z.land (u8 v) out_buf_status =? 0 then true else drained n (dev_read PS2_PORT_DATA d1).2
  end.

Lemma quiet_clean fuel : (∀ d, drained fuel d = true) → quiet (clean_buffer fuel) silent.
Proof.
  intros Hall. assert (Hd : ∀ n s, drained n (device s) = true →
    ∃ d, clean_buffer n s = Done (tt, with_dev s d [])).
  { induction n as [|n IH]; intros s Hd; [done|]. unfold clean_buffer.
    rewrite (bind_done _ _ _ _ _ (status_done s)). cbn [clean_loop]. cbn [drained] in Hd.
    destruct (dev_read PS2_PORT_STATUS (device s)) as [v d1] eqn:E1. cbn [fst snd] in *.
    destruct (Z.land (u8 v) out_buf_status =? 0); cbn [negb]; [by exists d1|].
    destruct (dev_read PS2_PORT_DATA d1) as [b d2] eqn:E2. cbn [fst snd] in Hd.
    rewrite (bind_done _ _ _ (u8 b) (with_dev s d2 [])).
    2:{ unfold receive_byte, port_in. cbn [device with_dev]. by rewrite E2. }
    destruct (IH (with_dev s d2 []) Hd) as (d & E). unfold clean_buffer in E. rewrite E.
    exists d. by rewrite with_dev_twice. }
  intros s _. right. destruct (Hd fuel s (Hall _)) as (d & E). by exists tt, d, [].
Qed.

Lemma quiet_read_conf : quiet read_conf (writes [(PS2_PORT_COMMAND, cmd_value read_cb)]).
Proof.
  unfold read_conf. eapply quiet_writes; [apply quiet_command|]. intros _.
  eapply quiet_mono; [apply quiet_in|]. by intros a l ->.
Qed.

Lemma quiet_write_conf conf :
  quiet (write_conf conf) (writes [(PS2_PORT_COMMAND, cmd_value write_cb); (PS2_PORT_DATA, u8 conf)]).
Proof.
  unfold write_conf. eapply quiet_writes; [apply quiet_command|]. intros _.
  eapply quiet_mono; [apply quiet_out|]. by intros a l ->.
Qed.

Lemma quiet_selftest : quiet do_selftest (writes [(PS2_PORT_COMMAND, cmd_value self_test)]).
Proof.
  unfold do_selftest. eapply quiet_writes; [apply quiet_command|]. intros _.
  eapply quiet_silent; [by apply quiet_receive|]. intros [b|]; by apply quiet_ret.
Qed.

(** Everything but a new configuration byte. *)
Definition no_conf (l : list (Z * Z)) : Prop := (PS2_PORT_COMMAND, cmd_value write_cb) ∉ l.
Abbreviation harmless := (λ _ l, no_conf l).

Lemma no_conf_nil : no_conf [].
Proof. by apply not_elem_of_nil. Qed.
Lemma no_conf_app l l' : no_conf l → no_conf l' → no_conf (l ++ l').
Proof. unfold no_conf. rewrite elem_of_app. tauto. Qed.
Lemma no_conf_data b : no_conf [(PS2_PORT_DATA, b)].
Proof. by intros [=]%list_elem_of_singleton. Qed.
Lemma no_conf_command c : c ≠ write_cb → no_conf [(PS2_PORT_COMMAND, cmd_value c)].
Proof. intros Hc [= Hv]%list_elem_of_singleton. by destruct c. Qed.

Lemma quiet_harmless {A B} (p : ps2_prog A) (k : A → ps2_prog B) :
  quiet p harmless → (∀ a, quiet (k a) harmless) → quiet (p ≫= k) harmless.
Proof.
  intros Hp Hk. eapply quiet_bind; [exact Hp|]. intros a l Hl.
  eapply quiet_mono; [apply Hk|]. intros b l' Hl'. by apply no_conf_app.
Qed.

Lemma silent_harmless {A} (p : ps2_prog A) : quiet p silent → quiet p harmless.
Proof. intros Hp. eapply quiet_mono; [exact Hp|]. intros a l ->. apply no_conf_nil. Qed.

Lemma harmless_ret {A} (a : A) : quiet (mret a) harmless.
Proof. apply quiet_ret, no_conf_nil. Qed.

Lemma harmless_command cmd : cmd ≠ write_cb → quiet (send_command cmd) harmless.
Proof. intros Hc. eapply quiet_mono; [apply quiet_command|]. intros a l ->. by apply no_conf_command. Qed.

Lemma harmless_byte byte : quiet (send_byte byte) harmless.
Proof. eapply quiet_mono; [apply quiet_out|]. intros a l ->. apply no_conf_data. Qed.

Lemma harmless_read_conf : quiet read_conf harmless.
Proof. eapply quiet_mono; [apply quiet_read_conf|]. intros a l ->. by apply no_conf_command. Qed.

Lemma harmless_receive ms : 0 ≤ ms → quiet (receive ms) harmless.
Proof. intros. by apply silent_harmless, quiet_receive. Qed.

(** A line whose commands are not [write_cb]. *)
Definition line_ok (line : IPS2Line) : Prop :=
  cmd_enable line ≠ write_cb ∧ cmd_disable line ≠ write_cb ∧ cmd_test line ≠ write_cb ∧
  cmd_redirect line ≠ write_cb.

Lemma lines_ok : line_ok first_line ∧ line_ok second_line.
Proof. by repeat split. Qed.

(** Resolve a sequence of calls that write no configuration byte. *)
Ltac harmless :=
  repeat first
    [ apply harmless_ret
    | by apply harmless_command
    | apply harmless_byte
    | apply harmless_read_conf
    | apply harmless_receive; lia
    | apply silent_harmless, quiet_output; lia
    | match goal with |- quiet (match ?x with _ => _ end) _ => destruct x end
    | apply quiet_harmless; [|intros ?] ].

Lemma harmless_send line byte : line_ok line → quiet (line_send line byte) harmless.
Proof.
  intros (He & Hd & Ht & Hr). unfold line_send, OUTPUT_TIMEOUT. harmless.
Qed.

Lemma harmless_send_ack line byte ack : line_ok line → quiet (line_send_ack line byte ack) harmless.
Proof.
  intros Hl. unfold line_send_ack, OUTPUT_TIMEOUT. apply quiet_harmless; [by apply harmless_send|].
  intros []; harmless.
Qed.

Lemma harmless_read_id ids : quiet (read_id ids) harmless.
Proof.
  induction ids as [|id ids IH]; cbn [read_id]; harmless. done.
Qed.

Lemma harmless_probe fuel line : (∀ d, drained fuel d = true) → line_ok line →
  quiet (keyboard_probe fuel line) harmless.
Proof.
  intros Hd Hl. unfold keyboard_probe. apply quiet_harmless; [by apply silent_harmless, quiet_clean|].
  intros _. apply quiet_harmless; [by apply harmless_send_ack|]. intros []; try apply harmless_ret.
  apply quiet_harmless; [by apply harmless_send_ack|]. intros []; try apply harmless_ret.
  apply quiet_harmless; [by apply harmless_read_id|]. intros []; [|apply harmless_ret].
  apply quiet_harmless; [by apply harmless_send_ack|]. intros _. apply harmless_ret.
Qed.

Lemma harmless_test line : line_ok line → quiet (line_test line) harmless.
Proof.
  intros (He & Hd & Ht & Hr). unfold line_test, SELFTEST_TIMEOUT. harmless.
Qed.

Lemma harmless_enable line : line_ok line → quiet (line_enable line) harmless.
Proof. intros (He & _). by apply harmless_command. Qed.
Lemma harmless_disable line : line_ok line → quiet (line_disable line) harmless.
Proof. intros (_ & Hd & _). by apply harmless_command. Qed.

(** The two lines in turn. *)
Lemma each_line_eq (f : IPS2Line → ps2_prog unit) s :
  each_line f s = (f first_line ;; f second_line ;; mret tt) s.
Proof. done. Qed.

Lemma harmless_lines (f : IPS2Line → ps2_prog unit) :
  (∀ line, line_ok line → quiet (f line) harmless) → quiet (each_line f) harmless.
Proof.
  intros Hf s Hs. rewrite each_line_eq. destruct lines_ok. revert s Hs.
  change (quiet (f first_line ;; f second_line ;; mret tt) harmless).
  apply quiet_harmless; [by apply Hf|]. intros _. apply quiet_harmless; [by apply Hf|]. intros _. apply harmless_ret.
Qed.

(** ** The configuration byte *)
Lemma u8_bit z k : 0 ≤ k < 8 → Z.testbit (u8 z) k = Z.testbit z k.
Proof. intros Hk. unfold u8. by rewrite Z.mod_pow2_bits_low by lia. Qed.

Lemma conf_is_set_bit c k : 0 ≤ k → conf_is_set (Z.shiftl 1 k) c = Z.testbit c k.
Proof. intros Hk. unfold conf_is_set. rewrite shiftl_1, land_pow2_eqb by done. by destruct (Z.testbit c k). Qed.

Lemma conf_unset_bit c k j : 0 ≤ k → 0 ≤ j < 8 →
  Z.testbit (conf_unset (Z.shiftl 1 k) c) j = Z.testbit c j && negb (j =? k).
Proof.
  intros Hk Hj. unfold conf_unset. rewrite u8_bit, Z.land_spec, Z.lnot_spec, shiftl_1 by lia.
  by rewrite Z.pow2_bits_eqb, (Z.eqb_sym k j) by lia.
Qed.

Lemma conf_set_bit c k j : 0 ≤ k → 0 ≤ j < 8 →
  Z.testbit (conf_set (Z.shiftl 1 k) c) j = Z.testbit c j || (j =? k).
Proof.
  intros Hk Hj. unfold conf_set. rewrite u8_bit, Z.lor_spec, shiftl_1 by lia.
  by rewrite Z.pow2_bits_eqb, (Z.eqb_sym k j) by lia.
Qed.

(** Neither line interrupts and scan codes are not translated. *)
Definition masked (c : Z) : Prop :=
  conf_is_set int_first c = false ∧ conf_is_set int_second c = false ∧ conf_is_set translation c = false.

Lemma masked_unset c :
  masked (conf_unset translation (conf_unset int_second (conf_unset int_first c))).
Proof.
  unfold masked, int_first, int_second, translation. rewrite !conf_is_set_bit by lia.
  rewrite !conf_unset_bit by lia. simpl. by rewrite ?andb_false_r.
Qed.

Lemma u8_conf_unset f c : u8 (conf_unset f c) = conf_unset f c.
Proof. unfold conf_unset. by rewrite u8_u8. Qed.
Lemma u8_conf_set f c : u8 (conf_set f c) = conf_set f c.
Proof. unfold conf_set. by rewrite u8_u8. Qed.

(** A command on the wire. *)
Definition command (c : cmd_t) : Z * Z := (PS2_PORT_COMMAND, cmd_value c).

Lemma quiet_silence fuel : (∀ d, drained fuel d = true) →
  quiet (silence fuel) (λ _ l, ∃ c, masked c ∧
    l = [command disable_1; command disable_2; command read_cb; command write_cb; (PS2_PORT_DATA, c)]).
Proof.
  intros Hd s Hs. unfold silence. revert s Hs.
  change (quiet (each_line line_disable ;; clean_buffer fuel ;; conf ← read_conf;
    write_conf (conf_unset translation (conf_unset int_second (conf_unset int_first conf))))
    (λ _ l, ∃ c, masked c ∧
    l = [command disable_1; command disable_2; command read_cb; command write_cb; (PS2_PORT_DATA, c)])).
  eapply (quiet_writes _ _ [command disable_1; command disable_2]).
  { change (quiet (line_disable first_line ;; line_disable second_line ;; mret tt)
      (λ _ l, l = [command disable_1; command disable_2])).
    eapply quiet_writes; [apply quiet_command|]. intros _.
    eapply quiet_writes; [apply quiet_command|]. intros _. by apply quiet_ret. }
  intros _. eapply quiet_silent; [by apply quiet_clean|]. intros _.
  eapply quiet_writes; [apply quiet_read_conf|]. intros conf.
  eapply quiet_mono; [apply quiet_write_conf|]. intros _ l ->. eexists. split; [apply (masked_unset conf)|].
  by rewrite u8_conf_unset.
Qed.

(** ** Probing *)
Definition with_active (s : ps2 D) (line : Z) (dev : option Z) : ps2 D :=
  mkPs2 (device s) (sent s) (known_devices s) (<[line := dev]> (active_devices s)) (ps2_manager s)
    (ps2_irq s) (ps2_keyboard s).

Lemma probe_line_done fuel line s : (∀ d, drained fuel d = true) → line_ok line → ready s →
  known_devices s = [keyboard_driver] → crashed (probe_line fuel line s) ∨
  ∃ o d l, probe_line fuel line s = Done (tt, with_active (with_dev s d l) (line_id line) o) ∧ no_conf l.
Proof.
  intros Hd Hl Hs Hk. unfold probe_line. rewrite gets_bind, Hk. cbn [probe_known].
  unfold device_probe. cbn [keyboard_driver Z.eqb Pos.eqb].
  rewrite bind_bind.
  destruct (harmless_probe fuel line Hd Hl s Hs) as [?|(b & d & l & E & Hno)]; [left; by apply crashed_bind|right].
  rewrite (bind_done _ _ _ _ _ E).
  exists (if b then Some keyboard_driver else None), d, l. by destruct b.
Qed.

Lemma probe_devices_done fuel s : (∀ d, drained fuel d = true) → ready s →
  known_devices s = [keyboard_driver] → crashed (probe_devices fuel s) ∨
  ∃ a1 a2 d l, probe_devices fuel s =
    Done (tt, with_active (with_active (with_dev s d l) 0 a1) 1 a2) ∧ no_conf l.
Proof.
  intros Hd Hs Hk. destruct lines_ok as [H1 H2]. unfold probe_devices. rewrite each_line_eq.
  destruct (probe_line_done fuel first_line s Hd H1 Hs Hk) as [?|(o1 & d1 & l1 & E1 & Hn1)];
    [left; by apply crashed_bind|].
  rewrite (bind_done _ _ _ _ _ E1).
  destruct (probe_line_done fuel second_line (with_active (with_dev s d1 l1) 0 o1) Hd H2 Hs Hk)
    as [?|(o2 & d2 & l2 & E2 & Hn2)]; [left; by apply crashed_bind|right].
  rewrite (bind_done _ _ _ _ _ E2). exists o1, o2, d2, (l1 ++ l2). split; [|by apply no_conf_app].
  unfold with_active, with_dev, mret, prog_ret. cbn. by rewrite app_assoc.
Qed.

(** ** The last steps *)
Definition switched (line : IPS2Line) (a : option Z) (conf : Z) : Z * list (Z * Z) :=
  match a with
  | Some _ => (conf_set (enable_interrups_mask line) conf, [])
  | None => (conf, [command (cmd_disable line)])
  end.

(** The device after some writes. *)
Definition replay (l : list (Z * Z)) (d : D) : D := fold_left (λ d w, dev_write w.1 w.2 d) l d.

Lemma switch_line_done line conf s : let r := switched line (active_devices s (line_id line)) conf in
  switch_line line conf s = Done (r.1, with_dev s (replay r.2 (device s)) r.2).
Proof.
  unfold switch_line, switched. rewrite gets_bind.
  destruct (active_devices s (line_id line)) as [dev|]; cbn [fst snd].
  - rewrite with_dev_none. by destruct s.
  - unfold line_disable, send_command, port_out. rewrite modify_bind.
    unfold with_dev, command, mret, prog_ret. by rewrite u8_small by (destruct (cmd_disable line); done).
Qed.

(** The configuration a device reports, and the device behind the report. *)
Definition reported (d : D) : Z := u8 (dev_read PS2_PORT_DATA (dev_write PS2_PORT_COMMAND (cmd_value read_cb) d)).1.
Definition after_report (d : D) : D := (dev_read PS2_PORT_DATA (dev_write PS2_PORT_COMMAND (cmd_value read_cb) d)).2.

Lemma read_conf_done s :
  read_conf s = Done (reported (device s), with_dev s (after_report (device s)) [command read_cb]).
Proof.
  unfold read_conf, send_command, port_out. rewrite modify_bind. unfold receive_byte, port_in, reported, after_report.
  cbn [device]. change (u8 (cmd_value read_cb)) with (cmd_value read_cb).
  by destruct (dev_read PS2_PORT_DATA _) as [v d].
Qed.

(** What the last steps write, for the lines that are active. *)
Definition last_writes (a1 a2 : option Z) (c : Z) : list (Z * Z) :=
  from_option (λ _, []) [command disable_1] a1 ++ from_option (λ _, []) [command disable_2] a2 ++
  [command write_cb; (PS2_PORT_DATA, c)].

(** The configuration written at the end: that reported, with the interrupts of the active lines. *)
Definition enabled_for (a1 a2 : option Z) (c1 c : Z) : Prop := ∀ k, 0 ≤ k < 8 →
  Z.testbit c k = Z.testbit c1 k || (k =? 0) && bool_decide (is_Some a1) || (k =? 1) && bool_decide (is_Some a2).

Lemma switched_bits a1 a2 c :
  enabled_for a1 a2 c (u8 (switched second_line a2 (switched first_line a1 c).1).1).
Proof.
  intros k Hk. unfold switched. cbn [first_line second_line enable_interrups_mask]. unfold int_first, int_second.
  rewrite u8_bit by done.
  destruct a1, a2; cbn [fst]; rewrite ?conf_set_bit by lia;
    repeat (rewrite bool_decide_true by done || rewrite bool_decide_false by (by intros [? ?]));
    by rewrite ?andb_true_r, ?andb_false_r, ?orb_false_r.
Qed.

Lemma enabled_for_lines a1 a2 c1 c : enabled_for a1 a2 c1 c →
  conf_is_set int_first c = conf_is_set int_first c1 || bool_decide (is_Some a1) ∧
  conf_is_set int_second c = conf_is_set int_second c1 || bool_decide (is_Some a2).
Proof.
  intros Hc. unfold int_first, int_second. rewrite !conf_is_set_bit, !Hc by lia. cbn [Z.eqb Pos.eqb andb].
  by rewrite !orb_false_r.
Qed.

Lemma last_steps_done s : ready s → let a1 := active_devices s 0 in let a2 := active_devices s 1 in
  ∃ c, (conf ← read_conf; conf ← switch_line first_line conf; conf ← switch_line second_line conf;
     write_conf conf) s = Done (tt, with_dev s (replay (last_writes a1 a2 c) (after_report (device s)))
                                      (command read_cb :: last_writes a1 a2 c)) ∧
    enabled_for a1 a2 (reported (device s)) c.
Proof.
  intros Hs a1 a2. rewrite (bind_done _ _ _ _ _ (read_conf_done s)). set (s1 := with_dev s _ _).
  rewrite (bind_done _ _ _ _ _ (switch_line_done first_line _ s1)).
  change (active_devices s1 (line_id first_line)) with a1. set (s2 := with_dev s1 _ _).
  rewrite (bind_done _ _ _ _ _ (switch_line_done second_line _ s2)).
  change (active_devices s2 (line_id second_line)) with a2. set (c := (switched second_line a2 _).1).
  set (s3 := with_dev s2 _ _). exists (u8 c). split; [|apply switched_bits].
  unfold write_conf, send_command, send_byte, port_out. rewrite modify_bind. unfold modify.
  change (u8 (cmd_value write_cb)) with (cmd_value write_cb). unfold s3, s2, s1, with_dev, last_writes.
  cbn [device sent known_devices active_devices ps2_manager ps2_irq ps2_keyboard]. unfold replay.
  by destruct a1, a2; cbn [switched fst snd app from_option]; rewrite ?fold_left_app, <- ?app_assoc; cbn [app fold_left fst snd].
Qed.
(** Run one quiet call at the head of the goal, whose first case is that of a crash. *)
Ltac quiet_run L Hs d l Hl :=
  let a := fresh in let E := fresh in
  match goal with
  | |- context [mbind ?k ?p ?s] =>
      destruct (L s Hs) as [?|(a & d & l & E & Hl)];
      [left; by apply crashed_bind|rewrite (bind_done _ k s a _ E); clear E]
  end.

(** The first part, for a controller whose self test passes. *)
Lemma prepare_done fuel s : (∀ d, drained fuel d = true) → ready s → known_devices s = [] →
  crashed (prepare_controller fuel s) ∨
  prepare_controller fuel s = Panic "PS/2: controller self-test failed!" ∨
  ∃ d c0 l, masked c0 ∧ no_conf l ∧ prepare_controller fuel s =
    Done (tt, with_dev (mkPs2 (device s) (sent s) [keyboard_driver] (active_devices s) (ps2_manager s) (ps2_irq s)
                         (ps2_keyboard s)) d
      ([command disable_1; command disable_2; command read_cb; command write_cb; (PS2_PORT_DATA, c0);
        command self_test] ++ l)).
Proof.
  intros Hdrain Hs Hknown. destruct lines_ok as [H1 H2].
  unfold prepare_controller, init_subsystems, keyboard_init, register_driver.
  rewrite modify_bind, Hknown. cbn [length Nat.ltb Nat.leb MAX_REGISTERED_DEVICES app].
  set (s0 := mkPs2 _ _ _ _ _ _ _). assert (Hs0 : ready s0) by done.
  quiet_run (quiet_silence fuel Hdrain) Hs0 d1 l1 Hl1. destruct Hl1 as (c0 & Hc0 & ->).
  set (s1 := with_dev s0 d1 _). assert (Hs1 : ready s1) by done.
  destruct (quiet_selftest s1 Hs1) as [?|(ok & d2 & l2 & E2 & ->)]; [left; by apply crashed_bind|].
  rewrite (bind_done _ _ _ _ _ E2). clear E2.
  destruct ok; [|right; by left]. cbn [negb].
  set (s2 := with_dev s1 d2 _). assert (Hs2 : ready s2) by done.
  quiet_run (harmless_enable _ H2) Hs2 d3 l3 Hl3. set (s3 := with_dev s2 d3 l3). assert (Hs3 : ready s3) by done.
  quiet_run harmless_read_conf Hs3 d4 l4 Hl4. set (s4 := with_dev s3 d4 l4). assert (Hs4 : ready s4) by done.
  quiet_run (harmless_disable _ H2) Hs4 d5 l5 Hl5. set (s5 := with_dev s4 d5 l5). assert (Hs5 : ready s5) by done.
  destruct (harmless_lines (λ line, line_test line ;; mret tt)
    (λ line Hl, quiet_harmless _ _ (harmless_test line Hl) (λ _, harmless_ret tt)) s5 Hs5)
    as [?|([] & d6 & l6 & E6 & Hl6)]; [by left|right; right].
  exists d6, c0, (l3 ++ l4 ++ l5 ++ l6). split; [done|]. split; [by repeat apply no_conf_app|].
  rewrite E6. unfold s5, s4, s3, s2, s1. by rewrite !with_dev_twice.
Qed.

(** The second part; [d1] is the device when it is asked for its configuration last. *)
Lemma finish_done fuel s : (∀ d, drained fuel d = true) → ready s → known_devices s = [keyboard_driver] →
  crashed (finish_controller fuel s) ∨
  ∃ a1 a2 d1 l c, no_conf l ∧ enabled_for a1 a2 (reported d1) c ∧
    finish_controller fuel s = Done (tt, with_active (with_active
      (with_dev s (replay (last_writes a1 a2 c) (after_report d1)) (l ++ command read_cb :: last_writes a1 a2 c)) 0 a1) 1 a2).
Proof.
  intros Hdrain Hs Hk. unfold finish_controller.
  quiet_run (harmless_lines line_enable harmless_enable) Hs d9 l9 Hl9.
  set (s9 := with_dev s d9 l9). assert (Hs9 : ready s9) by done.
  destruct (probe_devices_done fuel s9 Hdrain Hs9 Hk) as [?|(a1 & a2 & d10 & l10 & E10 & Hl10)];
    [left; by apply crashed_bind|right].
  rewrite (bind_done _ _ _ _ _ E10). clear E10. set (s10 := with_active _ 1 a2). assert (Hs10 : ready s10) by done.
  destruct (last_steps_done s10 Hs10) as (c & E11 & Hc).
  change (active_devices s10 0) with a1 in *. change (active_devices s10 1) with a2 in *.
  exists a1, a2, d10, (l9 ++ l10), c. split; [by apply no_conf_app|]. split; [done|].
  rewrite E11. unfold s10, s9, with_active, with_dev. cbn. by rewrite <- !app_assoc.
Qed.
End Quiet.

(** * Properties *)

(** C15: the initialization of the PS/2 controller lets no line interrupt before
    a driver is in place: it first switches both lines off and writes a
    configuration with their interrupts and the translation masked, writes no
    other configuration before the last, and in the last adds to what the
    controller then reports the interrupts of exactly the lines with an active
    device, after switching the other lines off.  Or it stops because the self
    test failed, or - before the scheduler is made - because a wait, for a byte of
    the controller or for room for one, found the status other than it wants and no
    tick passed, and so yields through the null scheduler. *)
Theorem ps2_initialize_correct {D} `{PS2Device D} `{SC : Sleeping} fuel handler (s : ps2 D) (Hnaps : naps D)
    (Hdrain : ∀ d, drained fuel d = true) (Hs : ready s) (Hknown : known_devices s = []) :
  crashed (D := D) (initialize_controller fuel true true handler s) ∨
  initialize_controller fuel true true handler s = Panic "PS/2: controller self-test failed!" ∨
  ∃ s' c0 l d1 c, initialize_controller fuel true true handler s = Done (tt, s') ∧
    let a1 := active_devices s' 0 in let a2 := active_devices s' 1 in
    let c1 := reported d1 in
    let last := from_option (λ _, []) [command disable_1] a1 ++ from_option (λ _, []) [command disable_2] a2 ++
                [command write_cb; (PS2_PORT_DATA, c)] in
    sent s' = sent s ++
      [command disable_1; command disable_2; command read_cb; command write_cb; (PS2_PORT_DATA, c0);
       command self_test] ++ l ++ command read_cb :: last ∧
    masked c0 ∧ no_conf l ∧
    device s' = replay last (after_report d1) ∧
    conf_is_set int_first c = conf_is_set int_first c1 || bool_decide (is_Some a1) ∧
    conf_is_set int_second c = conf_is_set int_second c1 || bool_decide (is_Some a2) ∧
    (∀ k, 2 ≤ k < 8 → Z.testbit c k = Z.testbit c1 k) ∧
    head (irq_handlers (ps2_manager s') FIRST_LINE_IRQ) = Some handler ∧
    head (irq_handlers (ps2_manager s') SECOND_LINE_IRQ) = Some handler.
Proof.
  unfold initialize_controller.
  destruct (prepare_done Hnaps fuel s Hdrain Hs Hknown) as [Hc|[E|(d1 & c0 & l1 & Hc0 & Hl1 & E)]].
  { left. by apply crashed_bind. }
  { right; left. by apply bind_panic. }
  rewrite (bind_done _ _ _ _ _ E). clear E. set (s1 := with_dev _ _ _).
  rewrite (bind_done _ _ s1 tt _ eq_refl). set (s2 := mkPs2 _ _ _ _ _ _ _).
  rewrite (bind_done _ _ s2 tt _ eq_refl). set (s3 := mkPs2 _ _ _ _ _ _ _).
  destruct (finish_done Hnaps fuel s3 Hdrain Hs eq_refl) as [Hc|(a1 & a2 & d2 & l2 & c & Hl2 & Hc & E)]; [by left|].
  right; right. rewrite E.
  eexists _, c0, (l1 ++ l2), d2, c. split; [reflexivity|]. cbv zeta.
  set (dl := with_dev s3 _ _). cbn [active_devices with_active].
  change (<[1:=a2]> (<[0:=a1]> (active_devices dl)) 0) with a1.
  change (<[1:=a2]> (<[0:=a1]> (active_devices dl)) 1) with a2.
  destruct (enabled_for_lines _ _ _ _ Hc) as [Hb1 Hb2].
  split_and!; [|done|by apply no_conf_app|done|done|done| |done|done].
  - cbn [sent with_active with_dev dl s3 s2 s1]. unfold last_writes. by rewrite <- !app_assoc.
  - intros k Hk. rewrite Hc by lia. destruct (Z.eqb_spec k 0), (Z.eqb_spec k 1); [lia..|]. by rewrite !orb_false_r.
Qed.

(** Polling the controller is bounded: [wait_for_flag] returns what the flag
    was at its last poll, which is the first that shows the value waited for, or
    the one behind [ms] sleeps of a millisecond; nothing is written meanwhile.  It
    crashes only when there is no scheduler ... *)
Theorem wait_for_flag_correct {D} `{PS2Device D} `{SC : Sleeping} flag val ms (s : ps2 D)
    (Hnaps : naps D) (Hs : ready s) (Hms : 0 ≤ ms) :
  wait_crashed flag val (wait_for_flag flag val ms s) ∨
  ∃ k, (k ≤ Z.to_nat ms)%nat ∧
    (∀ j, (j < k)%nat → poll flag j (device s) = negb val) ∧
    (poll flag k (device s) = val ∨ k = Z.to_nat ms) ∧
    wait_for_flag flag val ms s = Done (poll flag k (device s),
      with_dev s (dev_read PS2_PORT_STATUS (polled k (device s))).2 []).
Proof.
  destruct (wait_loop_done Hnaps flag val ms (S (Z.to_nat ms)) 0 s Hs) as [?|(k & Hk & Hb & Ha & E)];
    [lia..|by left|right].
  rewrite Z.sub_0_r in *. by exists k.
Qed.

(** ... and does so as soon as a poll fails and the next tick has not come yet. *)
Theorem wait_before_scheduling {D} `{PS2Device D} `{SC : Sleeping} flag val ms (s : ps2 D)
    (Hnull : sched_instance = nullptr) (Hfuel : (1 ≤ sleep_fuel)%nat) (Hs : ready s) (Hms : 0 < ms)
    (Hstalled : stalled flag val (device s)) :
  wait_for_flag flag val ms s = Fault null_scheduler.
Proof.
  destruct Hstalled as [Hpoll Hclock].
  unfold wait_for_flag. cbn [wait_loop]. rewrite (bind_done _ _ _ _ _ (status_done s)).
  fold (poll flag 0 (device s)). unfold poll, polled in Hpoll. rewrite Hpoll.
  replace (if val then negb (negb val) else negb val) with true by (by destruct val). rewrite (proj2 (Z.ltb_lt 0 ms) Hms).
  cbn [andb]. unfold mbind at 1, prog_bind. unfold sleep_1ms, sleep_ms, sleep.
  change (ps2_irq (with_dev s _ _)) with (ps2_irq s). rewrite Hs. unfold is_enabled.
  cbn [if_flag interrupts_enabled eqb device with_dev]. change (ms_to_ticks 1) with 1.
  rewrite Hnull, sleep_loop_null by done. by rewrite (proj2 (Z.ltb_lt _ _) Hclock).
Qed.

(** C28: an interrupt of the PS/2 controller reaches the driver of the line it
    came from: the handler takes one byte from the data port and hands it to the
    keyboard's state machine, when the line has the keyboard; for a line without a
    device, and for other vectors, it takes nothing and reports so. *)
Theorem ps2_interrupt_correct {D} `{PS2Device D} fuel vector (s : ps2 D) :
  let line := if vector =? FIRST_LINE_IRQ then Some dev_1
              else if vector =? SECOND_LINE_IRQ then Some dev_2 else None in
  let active := line ≫= active_devices s in
  (active = None → PS2IRQHandler_handle_irq fuel vector s = Done (NONE, s)) ∧
  (active = Some keyboard_driver → ∀ kb' (byte := u8 (dev_read PS2_PORT_DATA (device s)).1),
     handle_byte fuel byte (ps2_keyboard s) = Done (tt, kb') →
     ∃ s', PS2IRQHandler_handle_irq fuel vector s = Done (HANDLED, s') ∧ ps2_keyboard s' = kb' ∧
       device s' = (dev_read PS2_PORT_DATA (device s)).2 ∧ sent s' = sent s).
Proof.
  intros line active.
  assert (E : PS2IRQHandler_handle_irq fuel vector s =
    match active with Some dev => device_handle_irq fuel dev s | None => Done (NONE, s) end).
  { unfold PS2IRQHandler_handle_irq, active, line, ps2_irq_handler.
    destruct (vector =? FIRST_LINE_IRQ); [|destruct (vector =? SECOND_LINE_IRQ); [|done]];
      rewrite gets_bind; cbn [mbind option_bind]; by destruct (active_devices s _). }
  rewrite E. split; [by intros ->|]. intros -> kb' byte Hkb.
  unfold device_handle_irq. cbn [keyboard_driver Z.eqb Pos.eqb]. unfold keyboard_handle_irq.
  unfold receive_byte, port_in. unfold mbind at 1, prog_bind. fold byte.
  destruct (dev_read PS2_PORT_DATA (device s)) as [v d] eqn:Ed. cbn [fst snd] in byte.
  unfold mbind, prog_bind, zoom. cbn [ps2_keyboard]. fold byte. rewrite Hkb. by eexists.
Qed.

(** ** Witnesses: a controller with a keyboard on its first line and, perhaps, a mouse on its second *)
Record i8042 : Type := mk8042 {
  ram : Z; out_queue : list Z; expects : Z (* 0, 1: the new byte, 2: line 2 *); mouse : bool
}.

Definition reply (l : list Z) (d : i8042) : i8042 := mk8042 (ram d) (out_queue d ++ l) 0 (mouse d).

#[export] Instance i8042_device : PS2Device i8042 := {|
  dev_read port d :=
    if port =? PS2_PORT_DATA
    then (default 0 (head (out_queue d)), mk8042 (ram d) (tail (take 8 (out_queue d))) (expects d) (mouse d))
    else (match out_queue d with [] => 0 | _ => 1 end, d);
  dev_write port v d :=
    if port =? PS2_PORT_COMMAND then
      if v =? 0x20 then reply [ram d] d
      else if v =? 0x60 then mk8042 (ram d) (out_queue d) 1 (mouse d)
      else if v =? 0xaa then reply [self_test_ok] d
      else if (v =? 0xab) || (v =? 0xa9) then reply [port_test_ok] d
      else if v =? 0xd4 then mk8042 (ram d) (out_queue d) 2 (mouse d)
      else d
    else if expects d =? 1 then mk8042 v (out_queue d) 0 (mouse d)
    else if expects d =? 2 then
      if mouse d then reply (if v =? ps2_dcmd_identify then [ps2_keyboard_ack; 0] else [ps2_keyboard_ack]) d
      else mk8042 (ram d) (out_queue d) 0 false
    else if v =? ps2_dcmd_identify then reply [ps2_keyboard_ack; 0xab; 0x83] d
    else reply [ps2_keyboard_ack] d;
  dev_wait d := d;
  dev_clock d n := Z.of_nat n / 2
|}.

Lemma i8042_drains (d : i8042) : drained 10 d = true.
Proof.
  assert (H : ∀ n d, (length (out_queue d) < n)%nat → drained n d = true).
  { induction n as [|n IH]; intros [r q e o] Hn; [cbn in Hn; lia|]. cbn in Hn |- *.
    destruct q as [|b q]; [done|]. cbn. apply IH. cbn. cbn in Hn. rewrite length_take. lia. }
  destruct d as [r [|b q] e o]; [done|].
  change (drained 9 (mk8042 r (tail (take 8 (b :: q))) e o) = true). apply H.
  cbn [out_queue tail take]. rewrite length_take. lia.
Qed.

(** Its clock lets a sleep end behind one yield. *)
Lemma i8042_naps `{SC : Sleeping} : (2 ≤ sleep_fuel)%nat → naps i8042.
Proof. intros Hf. split; [lia|]. intros _ d. exists 2%nat. by split; [lia|vm_compute]. Qed.

Definition example_ps2 : ps2 i8042 :=
  mkPs2 (mk8042 0x77 [] 0 true) [] [] (λ _, None) InterruptsManager_new (mkIrq true true) PS2DefaultKeyboard_new.

(** During the boot there is no scheduler; afterwards it is somewhere in memory. *)
Definition unscheduled : Sleeping := mkSleeping nullptr 2.
Definition scheduled : Sleeping := mkSleeping 0x100000 2.

Lemma ps2_initialize_correct_witness :
  crashed (D := i8042) (SC := scheduled) (initialize_controller (SC := scheduled) 10 true true 500 example_ps2) ∨
  initialize_controller (SC := scheduled) 10 true true 500 example_ps2 = Panic "PS/2: controller self-test failed!" ∨
  ∃ s' c0 l d1 c, initialize_controller (SC := scheduled) 10 true true 500 example_ps2 = Done (tt, s') ∧
    let a1 := active_devices s' 0 in let a2 := active_devices s' 1 in
    let c1 := reported d1 in
    let last := from_option (λ _, []) [command disable_1] a1 ++ from_option (λ _, []) [command disable_2] a2 ++
                [command write_cb; (PS2_PORT_DATA, c)] in
    sent s' = [] ++
      [command disable_1; command disable_2; command read_cb; command write_cb; (PS2_PORT_DATA, c0);
       command self_test] ++ l ++ command read_cb :: last ∧
    masked c0 ∧ no_conf l ∧
    device s' = replay last (after_report d1) ∧
    conf_is_set int_first c = conf_is_set int_first c1 || bool_decide (is_Some a1) ∧
    conf_is_set int_second c = conf_is_set int_second c1 || bool_decide (is_Some a2) ∧
    (∀ k, 2 ≤ k < 8 → Z.testbit c k = Z.testbit c1 k) ∧
    head (irq_handlers (ps2_manager s') FIRST_LINE_IRQ) = Some 500 ∧
    head (irq_handlers (ps2_manager s') SECOND_LINE_IRQ) = Some 500.
Proof.
  exact (ps2_initialize_correct (SC := scheduled) 10 500 example_ps2 (i8042_naps (SC := scheduled) (le_n 2)) i8042_drains eq_refl eq_refl).
Defined.

(** On that controller the keyboard is found on the first line only, and the last
    configuration lets that line interrupt - with a scheduler and without. *)
Example ps2_example_run :
  let run (S : Sleeping) :=
    match initialize_controller 10 true true 500 example_ps2 with
    | Done (_, s) => active_devices s 0 = Some keyboard_driver ∧ active_devices s 1 = None ∧
        last (sent s) = Some (PS2_PORT_DATA, 0x35)
    | _ => False
    end in run scheduled ∧ run unscheduled.
Proof. by vm_compute. Qed.

(** Without a mouse the probe of the second line waits: before the scheduler is made, the kernel
    yields through a null pointer there. *)
Example ps2_no_mouse_run :
  let s := mkPs2 (mk8042 0x77 [] 0 false) [] [] (λ _, None) InterruptsManager_new (mkIrq true true)
             PS2DefaultKeyboard_new in
  initialize_controller (SC := unscheduled) 10 true true 500 s = Fault null_scheduler ∧
  match initialize_controller (SC := scheduled) 10 true true 500 s with
  | Done (_, s) => active_devices s 0 = Some keyboard_driver ∧ active_devices s 1 = None
  | _ => False
  end.
Proof. by vm_compute. Qed.

Lemma wait_for_flag_correct_witness :
  ∃ k, (k ≤ 5)%nat ∧
    (∀ j, (j < k)%nat → poll out_buf_status j (mk8042 0x77 [] 0 true) = negb true) ∧
    (poll out_buf_status k (mk8042 0x77 [] 0 true) = true ∨ k = 5%nat).
Proof.
  destruct (wait_for_flag_correct (SC := scheduled) out_buf_status true 5 example_ps2 (i8042_naps (SC := scheduled) (le_n 2)) eq_refl ltac:(lia))
    as [(Hi & _)|(k & Hk & Hj & Hk' & _)]; [done|].
  exists k. exact (conj Hk (conj Hj Hk')).
Defined.

Lemma wait_before_scheduling_witness :
  wait_for_flag (SC := unscheduled) out_buf_status true 5 example_ps2 = Fault null_scheduler.
Proof. apply wait_before_scheduling; [done|by vm_compute; lia|done|lia|split; by vm_compute]. Defined.

Definition example_release : ps2 i8042 :=
  mkPs2 (mk8042 0x77 [0xf0] 0 true) [] [keyboard_driver] (<[0 := Some keyboard_driver]> (λ _, None))
    InterruptsManager_new (mkIrq false true) PS2DefaultKeyboard_new.

Lemma ps2_interrupt_correct_witness :
  ∃ s', PS2IRQHandler_handle_irq 3 33 example_release = Done (HANDLED, s') ∧
    ps2_keyboard s' = mkKeyboard OneByteKeyReleasedState (λ _, false) [] ∧
    device s' = mk8042 0x77 [] 0 true ∧ sent s' = [].
Proof.
  destruct (ps2_interrupt_correct 3 33 example_release) as [_ Hk].
  exact (Hk eq_refl (mkKeyboard OneByteKeyReleasedState (λ _, false) []) eq_refl).
Defined.
