(* ===== verification/IrqEntry.v ===== *)
(** * Entry into the interrupt handlers

    The assembly stub [_asm_irq_handler] and [c_irq_dispatcher_] of
    [x86/src/idt.cpp], with what the processor does before and behind them.  The
    stub is taken to have no prologue of the compiler's, as with the frame pointer
    left out at the optimization level the build sets. *)
From stdpp Require Import base tactics numbers list gmap strings.
From S2P Require Import Prelude MemUtils Irq Segments.

(** ** The processor, as far as the stub touches it *)
Record machine : Type := mkMachine {
  eax : Z; ecx : Z; edx : Z; ebx : Z; ebp : Z; esi : Z; edi : Z;
  esp : Z; eip : Z; m_cs : Z; m_eflags : Z; memory : mem
}.

Definition set_stack (sp : Z) (m : mem) (s : machine) : machine :=
  mkMachine (eax s) (ecx s) (edx s) (ebx s) (ebp s) (esi s) (edi s) sp (eip s) (m_cs s) (m_eflags s) m.

Definition push (v : Z) (s : machine) : machine :=
  set_stack (u32 (esp s - 4)) (store32 (memory s) (u32 (esp s - 4)) v) s.

(** [EFlags::interrupts] is bit 9. *)
Definition clear_if (flags : Z) : Z := Z.ldiff flags (Z.shiftl 1 9).

(** Through an interrupt gate of the same ring: the processor saves where it was,
    with an error code for some exceptions, masks interrupts and enters the stub. *)
Definition cpu_interrupt (gate : Z) (error : option Z) (s : machine) : machine :=
  let s := push (eip s) (push (m_cs s) (push (m_eflags s) s)) in
  let s := match error with Some e => push e s | None => s end in
  mkMachine (eax s) (ecx s) (edx s) (ebx s) (ebp s) (esi s) (edi s) (esp s)
    (hw_gate_offset gate) (hw_gate_selector gate) (clear_if (m_eflags s)) (memory s).

Definition pushal (s : machine) : machine :=
  let sp := esp s in
  push (edi s) (push (esi s) (push (ebp s) (push sp (push (ebx s) (push (edx s) (push (ecx s)
    (push (eax s) s))))))).

Definition popal (s : machine) : machine :=
  let w i := load32 (memory s) (u32 (esp s + 4 * i)) in
  mkMachine (w 7) (w 6) (w 5) (w 4) (w 2) (w 1) (w 0) (u32 (esp s + 32)) (eip s) (m_cs s) (m_eflags s)
    (memory s).

Definition iret (s : machine) : machine :=
  let w i := load32 (memory s) (u32 (esp s + 4 * i)) in
  mkMachine (eax s) (ecx s) (edx s) (ebx s) (ebp s) (esi s) (edi s) (u32 (esp s + 12))
    (w 0) (u16 (w 1)) (w 2) (memory s).

(** A C function of two arguments on the stack, [c_irq_dispatcher_] for the stub. *)
Abbreviation c_function := (Z → Z → machine → outcome machine).

(** [_asm_irq_handler<N>] *)
Definition asm_irq_handler (c_irq_dispatcher : c_function) (N : Z) (s : machine) : outcome machine :=
  let s := pushal s in
  let s := push (esp s) s in
  let s := push N s in
  match c_irq_dispatcher (load32 (memory s) (esp s)) (load32 (memory s) (u32 (esp s + 4))) s with
  | Done s => Done (iret (popal (set_stack (u32 (esp s + 8)) (memory s) s)))
  | e => e
  end.

(** [c_irq_dispatcher_]; [global_handler] is null or the function installed by
    [set_global_handler]. *)
Definition c_irq_dispatcher (global_handler : option c_function) : c_function := λ vector frame s,
  match global_handler with Some handler => handler vector frame s | None => Done s end.

Definition set_global_handler (handler : option c_function) (old : option c_function)
    : option c_function * option c_function := (handler, old).

(** * Verification *)

(** ** The stub *)
Definition regs_of (s : machine) : list Z := [eax s; ecx s; edx s; ebx s; ebp s; esi s; edi s].

Record machine_ok (s : machine) : Prop := {
  mo_regs : Forall (λ r, 0 ≤ r < 2 ^ 32) (regs_of s);
  mo_esp : 64 ≤ esp s < 2 ^ 32;
  mo_eip : 0 ≤ eip s < 2 ^ 32;
  mo_cs : 0 ≤ m_cs s < 2 ^ 16;
  mo_flags : 0 ≤ m_eflags s < 2 ^ 32
}.

(** What a C function leaves alone: the stack pointer and the words the stub saved. *)
Definition keeps_frame (f : c_function) : Prop := ∀ v p s s', f v p s = Done s' →
  esp s' = esp s ∧ ∀ i, 0 ≤ i < 12 → load32 (memory s') (p + 4 * i) = load32 (memory s) (p + 4 * i).

(** Words pushed one after the other lie one below the other. *)
Fixpoint push_list (vs : list Z) (s : machine) : machine :=
  match vs with [] => s | v :: vs => push_list vs (push v s) end.

Lemma push_list_done vs : ∀ s, 4 * Z.of_nat (length vs) ≤ esp s < 2 ^ 32 →
  esp (push_list vs s) = esp s - 4 * Z.of_nat (length vs) ∧
  (∀ i v, vs !! i = Some v → load32 (memory (push_list vs s)) (esp s - 4 * (Z.of_nat i + 1)) = u32 v) ∧
  (∀ a, esp s ≤ a → load32 (memory (push_list vs s)) a = load32 (memory s) a).
Proof.
  induction vs as [|v vs IH]; intros s Hs; cbn [push_list length] in *.
  - split_and!; [lia|done|done].
  - assert (He : esp (push v s) = esp s - 4) by (cbn; apply u32_small; lia).
    assert (Hm : memory (push v s) = store32 (memory s) (esp s - 4) v) by (unfold push, set_stack; cbn [memory]; by rewrite u32_small by lia).
    destruct (IH (push v s)) as (E & Hw & Ho); [rewrite He; lia|]. rewrite He in E, Hw, Ho.
    split_and!; [lia| |].
    + intros [|i] w Hi; cbn in Hi.
      * simplify_eq. rewrite Ho, Hm by lia. apply load32_store32_eq.
      * rewrite <- (Hw i w Hi). f_equal. lia.
    + intros a Ha. rewrite Ho, Hm by lia. apply load32_store32_ne. lia.
Qed.

Lemma push_list_app vs ws s : push_list (vs ++ ws) s = push_list ws (push_list vs s).
Proof. revert s. induction vs as [|v vs IH]; intros s; [done|]. apply IH. Qed.

(** The stack depends on the stack only. *)
Lemma push_list_ext vs : ∀ s s', esp s = esp s' ∧ memory s = memory s' →
  esp (push_list vs s) = esp (push_list vs s') ∧ memory (push_list vs s) = memory (push_list vs s').
Proof.
  induction vs as [|v vs IH]; intros s s' [He Hm]; [done|]. cbn [push_list]. apply IH.
  unfold push, set_stack. cbn [esp memory]. by rewrite He, Hm.
Qed.

(** What is on the stack when the dispatcher is called, the first word highest. *)
Definition stub_words (s : machine) (N : Z) (error : option Z) : list Z :=
  [m_eflags s; m_cs s; eip s] ++ from_option (λ e, [e]) [] error ++
  [eax s; ecx s; edx s; ebx s; esp s - 12 - from_option (λ _, 4) 0 error; ebp s; esi s; edi s;
   esp s - 44 - from_option (λ _, 4) 0 error; N].

Lemma stub_stack s N gate error : machine_ok s →
  let s1 := push N (let s := pushal (cpu_interrupt gate error s) in push (esp s) s) in
  esp s1 = esp (push_list (stub_words s N error) s) ∧
  memory s1 = memory (push_list (stub_words s N error) s).
Proof.
  intros [_ Hsp _ _ _] s1.
  assert (Hp : ∀ vs s', 4 * Z.of_nat (length vs) ≤ esp s' < 2 ^ 32 →
    esp (push_list vs s') = esp s' - 4 * Z.of_nat (length vs)) by (intros vs s' Hl; by apply push_list_done).
  assert (E1 : esp (cpu_interrupt gate error s) = esp s - 12 - from_option (λ _, 4) 0 error).
  { destruct error as [e|]; cbn [from_option].
    - change (esp (push_list [m_eflags s; m_cs s; eip s; e] s) = esp s - 12 - 4). rewrite Hp; simpl; lia.
    - change (esp (push_list [m_eflags s; m_cs s; eip s] s) = esp s - 12 - 0). rewrite Hp; simpl; lia. }
  assert (E2 : esp (pushal (cpu_interrupt gate error s)) = esp s - 44 - from_option (λ _, 4) 0 error).
  { set (c := cpu_interrupt gate error s) in *.
    assert (0 ≤ from_option (λ _ : Z, 4) 0 error ≤ 4) by (destruct error; simpl; lia).
    change (esp (push_list [eax c; ecx c; edx c; ebx c; esp c; ebp c; esi c; edi c] c) =
      esp s - 44 - from_option (λ _, 4) 0 error). rewrite Hp, E1; cbn [length]; rewrite ?E1; lia. }
  set (c := cpu_interrupt gate error s) in *.
  assert (Ec : esp c = esp (push_list ([m_eflags s; m_cs s; eip s] ++ from_option (λ e, [e]) [] error) s) ∧
    memory c = memory (push_list ([m_eflags s; m_cs s; eip s] ++ from_option (λ e, [e]) [] error) s))
    by (unfold c; by destruct error).
  assert (Er : regs_of c = regs_of s) by (unfold c; by destruct error).
  injection Er as R1 R2 R3 R4 R5 R6 R7.
  assert (Es1 : s1 = push_list [eax s; ecx s; edx s; ebx s; esp c; ebp s; esi s; edi s; esp (pushal c); N] c).
  { rewrite <- R1, <- R2, <- R3, <- R4, <- R5, <- R6, <- R7. done. }
  rewrite Es1, E1, E2. unfold stub_words. rewrite app_assoc, push_list_app.
  by apply push_list_ext.
Qed.

(** The saved words, from the frame upwards. *)
Lemma stub_frame s N gate error : machine_ok s → 0 ≤ N < 2 ^ 32 → (∀ e, error = Some e → 0 ≤ e < 2 ^ 32) →
  let k := from_option (λ _, 4) 0 error in
  let p := esp s - 44 - k in
  let s1 := push N (let s := pushal (cpu_interrupt gate error s) in push (esp s) s) in
  esp s1 = p - 8 ∧ load32 (memory s1) (p - 8) = N ∧ load32 (memory s1) (p - 4) = p ∧
  load32 (memory s1) p = edi s ∧ load32 (memory s1) (p + 4) = esi s ∧ load32 (memory s1) (p + 8) = ebp s ∧
  load32 (memory s1) (p + 16) = ebx s ∧ load32 (memory s1) (p + 20) = edx s ∧
  load32 (memory s1) (p + 24) = ecx s ∧ load32 (memory s1) (p + 28) = eax s ∧
  (∀ e, error = Some e → load32 (memory s1) (p + 32) = e) ∧
  load32 (memory s1) (p + 32 + k) = eip s ∧ load32 (memory s1) (p + 36 + k) = m_cs s ∧
  load32 (memory s1) (p + 40 + k) = m_eflags s.
Proof.
  intros Hs HN He. destruct (stub_stack s N gate error Hs) as [Es Em].
  destruct Hs as [Hr Hsp Hip Hcs Hfl]. unfold regs_of in Hr. rewrite !Forall_cons in Hr.
  destruct Hr as (? & ? & ? & ? & ? & ? & ? & _). cbv zeta in Es, Em |- *. rewrite Es, Em. clear Es Em.
  destruct (push_list_done (stub_words s N error) s) as (Esp & Hw & _).
  { unfold stub_words. rewrite !length_app. destruct error; simpl; lia. }
  assert (Hat : ∀ a i v, stub_words s N error !! i = Some v → 0 ≤ v < 2 ^ 32 → a = esp s - 4 * (Z.of_nat i + 1) →
    load32 (memory (push_list (stub_words s N error) s)) a = v).
  { intros a i v Hi Hv ->. rewrite (Hw i v Hi). by apply u32_small. }
  rewrite Esp. set (m := memory _) in *. clearbody m.
  destruct error as [e|]; [specialize (He e eq_refl)|]; cbn [from_option] in *.
  - split_and!; [simpl; lia|eapply (Hat _ 13%nat)|eapply (Hat _ 12%nat)|eapply (Hat _ 11%nat)|eapply (Hat _ 10%nat)
      |eapply (Hat _ 9%nat)|eapply (Hat _ 7%nat)|eapply (Hat _ 6%nat)|eapply (Hat _ 5%nat)|eapply (Hat _ 4%nat)
      |intros e' [= <-]; eapply (Hat _ 3%nat)|eapply (Hat _ 2%nat)|eapply (Hat _ 1%nat)|eapply (Hat _ 0%nat)];
      first [reflexivity|simpl; lia].
  - split_and!; [simpl; lia|eapply (Hat _ 12%nat)|eapply (Hat _ 11%nat)|eapply (Hat _ 10%nat)|eapply (Hat _ 9%nat)
      |eapply (Hat _ 8%nat)|eapply (Hat _ 6%nat)|eapply (Hat _ 5%nat)|eapply (Hat _ 4%nat)|eapply (Hat _ 3%nat)
      |done|eapply (Hat _ 2%nat)|eapply (Hat _ 1%nat)|eapply (Hat _ 0%nat)];
      first [reflexivity|simpl; lia].
Qed.

(** The stub returns to what the words above the saved registers say. *)
Lemma stub_returns (f : c_function) s N gate error s2 : machine_ok s → 0 ≤ N < 2 ^ 32 →
  (∀ e, error = Some e → 0 ≤ e < 2 ^ 32) → keeps_frame f →
  let k := from_option (λ _, 4) 0 error in
  let p := esp s - 44 - k in
  let s1 := push N (let s := pushal (cpu_interrupt gate error s) in push (esp s) s) in
  f N p s1 = Done s2 →
  asm_irq_handler f N (cpu_interrupt gate error s) = Done
    (mkMachine (eax s) (ecx s) (edx s) (ebx s) (ebp s) (esi s) (edi s) (esp s - k)
       (from_option id (eip s) error) (from_option (λ _, u16 (eip s)) (m_cs s) error)
       (from_option (λ _, m_cs s) (m_eflags s) error) (memory s2)).
Proof.
  intros Hs HN He Hf k p s1 Efs.
  destruct (stub_frame s N gate error Hs HN He) as (Hesp & HwN & Hwp & H0 & H1 & H2 & H4 & H5 & H6 & H7 & H8 & H9 & H10 & H11).
  fold k p s1 in Hesp, HwN, Hwp, H0, H1, H2, H4, H5, H6, H7, H8, H9, H10, H11.
  destruct (Hf _ _ _ _ Efs) as [Hsp2 Hkeep].
  assert (Hk : k = 0 ∨ k = 4) by (unfold k; destruct error; auto).
  destruct Hs as [_ Hsp Hip Hcs Hfl].
  unfold asm_irq_handler. fold s1. rewrite Hesp, HwN, u32_small by lia.
  replace (p - 8 + 4) with (p - 4) by lia. rewrite Hwp, Efs. f_equal.
  assert (Hw : ∀ i, 0 ≤ i < 12 → load32 (memory s2) (u32 (p + 4 * i)) = load32 (memory s1) (p + 4 * i)).
  { intros i Hi. rewrite u32_small by lia. by apply Hkeep. }
  unfold iret, popal, set_stack. cbn [eax ecx edx ebx ebp esi edi esp eip m_cs m_eflags memory].
  rewrite Hsp2, Hesp. replace (u32 (p - 8 + 8)) with p by (rewrite u32_small; lia).
  replace (u32 (p + 32)) with (p + 32) by (rewrite u32_small; lia).
  replace (p + 32 + 4 * 0) with (p + 4 * 8) by lia. replace (p + 32 + 4 * 1) with (p + 4 * 9) by lia.
  replace (p + 32 + 4 * 2) with (p + 4 * 10) by lia.
  rewrite !Hw by lia. replace (p + 4 * 0) with p by lia. replace (u32 (p + 32 + 12)) with (esp s - k) by (rewrite u32_small; lia).
  change (4 * 1) with 4. change (4 * 2) with 8. change (4 * 4) with 16. change (4 * 5) with 20.
  change (4 * 6) with 24. change (4 * 7) with 28. change (4 * 8) with 32. change (4 * 9) with 36. change (4 * 10) with 40.
  rewrite H0, H1, H2, H4, H5, H6, H7. destruct error as [e|]; cbn [from_option id] in *.
  - replace (p + 32 + k) with (p + 36) in H9 by (unfold k; lia). replace (p + 36 + k) with (p + 40) in H10 by (unfold k; lia).
    by rewrite (H8 e eq_refl), H9, H10.
  - replace (p + 32 + k) with (p + 32) in H9 by (unfold k; lia). replace (p + 36 + k) with (p + 36) in H10 by (unfold k; lia).
    replace (p + 40 + k) with (p + 40) in H11 by (unfold k; lia).
    by rewrite H9, H10, H11, u16_small.
Qed.


(** * Properties *)

(** C13: an interrupt is transparent: entered through its gate, with a dispatcher
    that leaves the saved words alone, the stub for vector [N] calls it with [N] and
    with the address of a frame that reads as the interrupted registers, and
    returns with every register, the stack pointer, the flags and the place of the
    interrupted code; but of an exception with an error code it does not drop the
    code, and continues at the error code as an address. *)
Theorem interrupt_transparent (handler : c_function) s N gate error s2 (Hs : machine_ok s)
    (HN : 0 ≤ N < 2 ^ 32) (Herror : ∀ e, error = Some e → 0 ≤ e < 2 ^ 32) (Hkeep : keeps_frame handler)
    (p := esp s - 44 - from_option (λ _, 4) 0 error)
    (s1 := push N (let s := pushal (cpu_interrupt gate error s) in push (esp s) s))
    (Hhandler : handler N p s1 = Done s2) :
  let f := frame_at (memory s1) (bool_decide (is_Some error)) p in
  [regs_eax f; regs_ecx f; regs_edx f; regs_ebx f; regs_ebp f; regs_esi f; regs_edi f] = regs_of s ∧
  frame_error f = error ∧ exe_eip f = eip s ∧
  ∃ s', asm_irq_handler (c_irq_dispatcher (Some handler)) N (cpu_interrupt gate error s) = Done s' ∧
    regs_of s' = regs_of s ∧
    match error with
    | None => esp s' = esp s ∧ eip s' = eip s ∧ m_cs s' = m_cs s ∧ m_eflags s' = m_eflags s
    | Some e => esp s' = esp s - 4 ∧ eip s' = e ∧ m_cs s' = u16 (eip s) ∧ m_eflags s' = m_cs s
    end.
Proof.
  destruct (stub_frame s N gate error Hs HN Herror)
    as (_ & _ & _ & H0 & H1 & H2 & H4 & H5 & H6 & H7 & H8 & H9 & _).
  fold p s1 in H0, H1, H2, H4, H5, H6, H7, H8, H9.
  pose proof (stub_returns handler s N gate error s2 Hs HN Herror Hkeep Hhandler) as E.
  split; [|split; [|split; [|eexists; split; [exact E|split; [done|]]]]].
  - unfold regs_of, frame_at. cbn [regs_eax regs_ecx regs_edx regs_ebx regs_ebp regs_esi regs_edi].
    change (4 * 0) with 0. change (4 * 1) with 4. change (4 * 2) with 8. change (4 * 4) with 16.
    change (4 * 5) with 20. change (4 * 6) with 24. change (4 * 7) with 28. rewrite Z.add_0_r.
    by rewrite H0, H1, H2, H4, H5, H6, H7.
  - destruct error as [e|]; [|done]. cbn [frame_at frame_error bool_decide].
    change (4 * 8) with 32. f_equal. by apply H8.
  - destruct error as [e|]; cbn [frame_at exe_eip from_option] in *; [done|].
    by rewrite Z.add_0_r in H9 |- *.
  - destruct error as [e|]; cbn [esp eip m_cs m_eflags from_option id]; split_and!; try done; lia.
Qed.

(** ** Witnesses *)
Definition example_machine : machine :=
  mkMachine 1 2 3 4 5 6 7 0x1000 0x100000 8 0x202 ∅.

Lemma interrupt_transparent_witness :
  ∃ s', asm_irq_handler (c_irq_dispatcher (Some (λ _ _ s, Done s))) 32
          (cpu_interrupt (gate_pattern (interrupt_gate 0x2000)) None example_machine) = Done s' ∧
    regs_of s' = [1; 2; 3; 4; 5; 6; 7] ∧
    esp s' = 0x1000 ∧ eip s' = 0x100000 ∧ m_cs s' = 8 ∧ m_eflags s' = 0x202.
Proof.
  assert (Hok : machine_ok example_machine).
  { split; cbn; [by repeat constructor|lia..]. }
  destruct (interrupt_transparent (λ _ _ s, Done s) example_machine 32 (gate_pattern (interrupt_gate 0x2000)) None _
    Hok ltac:(lia) ltac:(done) ltac:(by intros ? ? ? ? [= ->]) eq_refl) as (_ & _ & _ & E).
  exact E.
Defined.
