(* ===== verification/ContextSwitch.v ===== *)
(** * The switch of stacks

    [Scheduler::switch_tasks_impl] of [sched/scheduler.cpp] and [Task::start_on_new_frame] of
    [sched/task.cpp], instruction by instruction, on the machine of [IrqEntry.v].  [Scheduler.v] keeps
    of a suspended task the place in its code and the interrupt flag that [pushfl] saved; the theorems
    here show that the code saves and finds again all that is needed: the stack pointer in the task
    object, and [ebp] and the flags on the stack. *)
From stdpp Require Import base tactics numbers list gmap strings.
From S2P Require Import Prelude MemUtils CString ForwardList CircularList Irq Buddy PageProvider KernelHeap Scheduler.
From S2P Require Import Segments IrqEntry.

(** ** Instructions *)
Definition top (s : machine) : Z := load32 (memory s) (esp s).
Definition drop (s : machine) : machine := set_stack (u32 (esp s + 4)) (memory s) s.

Definition set_ecx (v : Z) (s : machine) : machine :=
  mkMachine (eax s) v (edx s) (ebx s) (ebp s) (esi s) (edi s) (esp s) (eip s) (m_cs s) (m_eflags s) (memory s).
Definition set_ebp (v : Z) (s : machine) : machine :=
  mkMachine (eax s) (ecx s) (edx s) (ebx s) v (esi s) (edi s) (esp s) (eip s) (m_cs s) (m_eflags s) (memory s).
Definition set_eip (v : Z) (s : machine) : machine :=
  mkMachine (eax s) (ecx s) (edx s) (ebx s) (ebp s) (esi s) (edi s) (esp s) v (m_cs s) (m_eflags s) (memory s).
Definition set_eflags (v : Z) (s : machine) : machine :=
  mkMachine (eax s) (ecx s) (edx s) (ebx s) (ebp s) (esi s) (edi s) (esp s) (eip s) (m_cs s) v (memory s).

Definition pop_ebp (s : machine) : machine := drop (set_ebp (top s) s).
Definition pop_ecx (s : machine) : machine := drop (set_ecx (top s) s).
Definition pop_flags (s : machine) : machine := drop (set_eflags (top s) s).
Definition ret (s : machine) : machine := drop (set_eip (top s) s).
(** [back] is the address behind the instruction. *)
Definition call (target back : Z) (s : machine) : machine := set_eip target (push back s).

(** ** The code *)

(** [Task::_esp] by its offset in the object. *)
Definition esp_at (task : Z) : Z := task + 52.

(** The assembly statement of [switch_tasks_impl]. *)
Definition switch_code (prev next : Z) (s : machine) : machine :=
  let s := push (ebp s) (push (m_eflags s) s) in
  let s := set_stack (esp s) (store32 (memory s) (esp_at prev) (esp s)) s in
  let s := set_stack (load32 (memory s) (esp_at next)) (memory s) s in
  pop_flags (pop_ebp s).

(** The end of the compiled function, for which [create_task] lays down [ebp1] and [eip]. *)
Definition switch_return (s : machine) : machine := ret (pop_ebp s).

(** [start_on_new_frame] is naked: the task is taken from the stack and handed over in [ecx]. *)
Definition start_code (wrapperForRun back : Z) (s : machine) : machine := call wrapperForRun back (pop_ecx s).

(** * Verification *)

Ltac registers := cbn [eax ecx edx ebx ebp esi edi esp eip m_cs m_eflags memory set_stack set_ecx set_ebp set_eip set_eflags].

(** ** A suspended task in memory: its stack pointer, and the two words from there on *)
Record suspended (m : mem) (task sp bp flags : Z) : Prop := {
  su_slot : load32 m (esp_at task) = sp;
  su_ebp : load32 m sp = bp;
  su_flags : load32 m (sp + 4) = flags
}.

(** The addresses of these words. *)
Definition saved_at (task sp a : Z) : Prop := in_block a (esp_at task) 4 ∨ in_block a sp 8.

(** Two tasks that share no word, as tasks with objects and stacks of their own. *)
Definition tasks_apart (task sp task' sp' : Z) : Prop := ∀ a, saved_at task sp a → ¬ saved_at task' sp' a.

(** The registers hold words, the stack has room, and the task object is not on the stack. *)
Record can_suspend (task : Z) (s : machine) : Prop := {
  cs_ebp : 0 ≤ ebp s < 2 ^ 32;
  cs_flags : 0 ≤ m_eflags s < 2 ^ 32;
  cs_stack : 8 ≤ esp s < 2 ^ 32;
  cs_object : esp_at task + 4 ≤ esp s - 8 ∨ esp s ≤ esp_at task
}.

Lemma load32_agree m m' a : (∀ b, in_block b a 4 → load8 m' b = load8 m b) → load32 m' a = load32 m a.
Proof. intros H. unfold load32. by rewrite !H by lia. Qed.

Lemma suspended_agree m m' task sp bp flags : suspended m task sp bp flags →
  (∀ a, saved_at task sp a → load8 m' a = load8 m a) → suspended m' task sp bp flags.
Proof.
  intros [H1 H2 H3] H. unfold saved_at in H. split; rewrite (load32_agree m) by (intros b Hb; apply H; lia); done.
Qed.

(** The memory behind the switch. *)
Definition switched_memory (prev : Z) (s : machine) : mem :=
  store32 (store32 (store32 (memory s) (esp s - 4) (m_eflags s)) (esp s - 8) (ebp s)) (esp_at prev) (esp s - 8).

Lemma switched_outside prev s a : ¬ saved_at prev (esp s - 8) a → load8 (switched_memory prev s) a = load8 (memory s) a.
Proof. unfold saved_at. intros Ha. unfold switched_memory. by rewrite !load8_store32_ne by lia. Qed.

Lemma switched_suspended prev s : can_suspend prev s →
  suspended (switched_memory prev s) prev (esp s - 8) (ebp s) (m_eflags s).
Proof.
  intros [Hb Hf Hs Ho]. unfold switched_memory. split.
  - rewrite load32_store32_eq. apply u32_small. lia.
  - rewrite load32_store32_ne, load32_store32_eq by lia. by apply u32_small.
  - rewrite !load32_store32_ne by lia. replace (esp s - 8 + 4) with (esp s - 4) by lia.
    rewrite load32_store32_eq. by apply u32_small.
Qed.

(** The machine behind the switch: another task's saved registers. *)
Definition on_task (sp bp flags : Z) (m : mem) (s : machine) : machine :=
  set_eflags flags (set_ebp bp (set_stack (u32 (sp + 8)) m s)).

Lemma switch_code_eq prev next s sp bp flags : can_suspend prev s →
  suspended (switched_memory prev s) next sp bp flags → 0 ≤ sp ≤ 2 ^ 32 - 8 →
  switch_code prev next s = on_task sp bp flags (switched_memory prev s) s.
Proof.
  intros [_ _ Hs _] [H1 H2 H3] Hsp. unfold switch_code, push. registers.
  rewrite (u32_small (esp s - 4)) by lia. replace (esp s - 4 - 4) with (esp s - 8) by lia.
  rewrite (u32_small (esp s - 8)) by lia. fold (switched_memory prev s). rewrite H1.
  unfold pop_flags, pop_ebp, top, drop, on_task. registers.
  rewrite (u32_small (sp + 4)) by lia. rewrite H2, H3. by replace (sp + 4 + 4) with (sp + 8) by lia.
Qed.

(** ** The switch suspends one task and resumes another *)
Theorem switch_to_suspended prev next s sp bp flags : can_suspend prev s →
  suspended (memory s) next sp bp flags → 0 ≤ sp ≤ 2 ^ 32 - 8 → tasks_apart next sp prev (esp s - 8) →
  switch_code prev next s = on_task sp bp flags (memory (switch_code prev next s)) s ∧
  suspended (memory (switch_code prev next s)) prev (esp s - 8) (ebp s) (m_eflags s) ∧
  ∀ a, ¬ saved_at prev (esp s - 8) a → load8 (memory (switch_code prev next s)) a = load8 (memory s) a.
Proof.
  intros Hc Hn Hsp Hap.
  assert (Hn' : suspended (switched_memory prev s) next sp bp flags).
  { apply (suspended_agree (memory s)); [done|]. intros a Ha. by apply switched_outside, Hap. }
  rewrite (switch_code_eq prev next s sp bp flags Hc Hn' Hsp).
  split; [done|]. split; [by apply switched_suspended|apply switched_outside].
Qed.

(** [start_scheduling] switches from the scheduler task to itself, to fill in its data. *)
Theorem switch_to_itself prev s : can_suspend prev s →
  switch_code prev prev s = set_stack (esp s) (memory (switch_code prev prev s)) s ∧
  suspended (memory (switch_code prev prev s)) prev (esp s - 8) (ebp s) (m_eflags s).
Proof.
  intros Hc. pose proof (switched_suspended prev s Hc) as Hp. pose proof (cs_stack _ _ Hc) as Hs.
  rewrite (switch_code_eq prev prev s _ _ _ Hc Hp ltac:(lia)). split; [|done].
  unfold on_task. replace (esp s - 8 + 8) with (esp s) by lia. rewrite u32_small by lia. by destruct s.
Qed.

(** A task that was switched away from goes on with the registers it had, whatever ran in between,
    as long as nothing wrote to the words it saved. *)
Theorem switch_there_and_back prev next s sp bp flags other s' : can_suspend prev s →
  suspended (memory s) next sp bp flags → 0 ≤ sp ≤ 2 ^ 32 - 8 → tasks_apart next sp prev (esp s - 8) →
  (∀ a, saved_at prev (esp s - 8) a → load8 (memory s') a = load8 (memory (switch_code prev next s)) a) →
  can_suspend other s' → tasks_apart prev (esp s - 8) other (esp s' - 8) →
  let s'' := switch_code other prev s' in
  esp s'' = esp s ∧ ebp s'' = ebp s ∧ m_eflags s'' = m_eflags s.
Proof.
  intros Hc Hn Hsp Hap Hkeep Ho Hap'. pose proof (cs_stack _ _ Hc) as Hs.
  destruct (switch_to_suspended prev next s sp bp flags Hc Hn Hsp Hap) as (_ & Hp & _).
  pose proof (suspended_agree _ (memory s') _ _ _ _ Hp Hkeep) as Hp'.
  destruct (switch_to_suspended other prev s' _ _ _ Ho Hp' ltac:(lia) Hap') as (-> & _).
  unfold on_task. registers. replace (esp s - 8 + 8) with (esp s) by lia. by rewrite u32_small by lia.
Qed.

(** ** The frame of a new task *)

(** The first switch to a task leaves the frame of [create_task] through the end of the function, and
    [start_on_new_frame] calls [wrapperForRun] with the task in [ecx] and an empty stack. *)
Theorem switch_to_fresh prev next s sp wrapperForRun back : can_suspend prev s →
  load32 (memory s) (esp_at next) = sp → 0 ≤ sp ≤ 2 ^ 32 - NewTaskStack_size →
  (∀ a, in_block a (esp_at next) 4 ∨ in_block a sp NewTaskStack_size → ¬ saved_at prev (esp s - 8) a) →
  let f := load_frame (memory s) sp in
  let s1 := switch_return (switch_code prev next s) in
  let s2 := start_code wrapperForRun back s1 in
  m_eflags s1 = frame_flags f ∧ ebp s1 = ebp1 f ∧ eip s1 = frame_eip f ∧ esp s1 = sp + 16 ∧
  ecx s2 = frame_task f ∧ eip s2 = wrapperForRun ∧ esp s2 = sp + 16.
Proof.
  unfold NewTaskStack_size. intros Hc Hslot Hsp Hap.
  assert (Hn : suspended (memory s) next sp (load32 (memory s) sp) (load32 (memory s) (sp + 4))) by done.
  destruct (switch_to_suspended prev next s _ _ _ Hc Hn ltac:(lia)) as (E & _ & Hm).
  { intros a Ha. apply Hap. unfold saved_at in Ha. lia. }
  assert (Hw : ∀ i, 0 ≤ i ≤ 16 → load32 (memory (switch_code prev next s)) (sp + i) = load32 (memory s) (sp + i)).
  { intros i Hi. apply load32_agree. intros b Hb. apply Hm, Hap. lia. }
  rewrite E. unfold start_code, switch_return, call, ret, pop_ebp, pop_ecx, top, drop, on_task, push. registers.
  rewrite !u32_small by (rewrite ?u32_small; lia). unfold load_frame. cbn [frame_flags ebp1 frame_eip frame_task].
  pose proof (Hw 8 ltac:(lia)). pose proof (Hw 12 ltac:(lia)). pose proof (Hw 16 ltac:(lia)).
  replace (sp + 8 + 4) with (sp + 12) by lia. replace (sp + 12 + 4) with (sp + 16) by lia.
  split_and!; try done. zify_wraps.
Qed.

Lemma return_flags s : m_eflags (switch_return s) = m_eflags s.
Proof. done. Qed.

(** ** The switch of [Scheduler.v] *)

(** The task record stands for the words in memory. *)
Record represents (m : mem) (p : Z) (t : Task) (sp : Z) : Prop := {
  rp_slot : load32 m (esp_at p) = sp;
  rp_fresh : resume_place t = Fresh → sp = _esp t;
  rp_flag : resume_place t ≠ Fresh → Z.testbit (load32 m (sp + 4)) 9 = saved_if t
}.

(** The assembly suspends a task as [suspend_at] does, and what [Scheduler.switch_tasks_impl] goes on
    with is what the machine goes on with: the interrupt flag it has popped and, for a new task, the
    code it returns to and the task it finds there. *)
Theorem switch_refines {W} `{KH : KernelHeap W} start at_ prev next tp tn sp wrapperForRun back (st : sched_state)
    (s : machine) :
  task_objects st !! prev = Some tp → task_objects st !! next = Some tn → prev ≠ next → at_ ≠ Fresh →
  can_suspend prev s → Z.testbit (m_eflags s) 9 = if_flag (irqs st) →
  represents (memory s) next tn sp → 0 ≤ sp ≤ 2 ^ 32 - NewTaskStack_size →
  (∀ a, in_block a (esp_at next) 4 ∨ in_block a sp NewTaskStack_size → ¬ saved_at prev (esp s - 8) a) →
  load_frame (heap_mem (heap st)) sp = load_frame (memory s) sp →
  let s' := switch_code prev next s in
  let st' := put_objects (<[prev := suspend_at at_ (if_flag (irqs st)) tp]> (task_objects st)) st in
  represents (memory s') prev (suspend_at at_ (if_flag (irqs st)) tp) (esp s - 8) ∧
  switch_tasks_impl start at_ prev next st =
    (popfl (Z.testbit (m_eflags s') 9) ;;
     match resume_place tn with
     | Fresh =>
         if eip (switch_return s') =? start then run (ecx (start_code wrapperForRun back (switch_return s')))
         else fault "return to an address that is no code"
     | _ => on_irq enable
     end) st'.
Proof.
  intros Hp Hn Hne Hat Hc Hif [Hslot Hfresh Hflag] Hsp Hap Hframe s' st'.
  destruct (switch_to_fresh prev next s sp wrapperForRun back Hc Hslot Hsp Hap) as (Ef & _ & Ei & _ & Ec & _).
  fold s' in Ef, Ei, Ec. unfold NewTaskStack_size in *.
  destruct (switch_to_suspended prev next s sp (load32 (memory s) sp) (load32 (memory s) (sp + 4)) Hc
    ltac:(by split) ltac:(lia)) as (_ & [H1 _ H3] & _).
  { intros a Ha. apply Hap. unfold saved_at in Ha. lia. }
  fold s' in H1, H3. split; [split; [done|done|by intros _; rewrite H3]|].
  rewrite return_flags in Ef.
  unfold switch_tasks_impl. rewrite gets_bind. erewrite bind_done by (by apply (update_task_done _ _ tp)).
  fold st'. unfold resume. erewrite bind_done.
  2:{ unfold task_at, st'. cbn [task_objects put_objects]. by rewrite lookup_insert_ne, Hn. }
  rewrite Ef, Ei, Ec.
  destruct (resume_place tn) eqn:Epl.
  { rewrite gets_bind. cbn [heap st' put_objects]. rewrite <- Hfresh by done. by rewrite Hframe. }
  all: rewrite <- Hflag by done; done.
Qed.

(** Two tasks at 1000 and 2000: there, and back again. *)
Definition example_machine : machine :=
  mkMachine 1 2 3 4 11 5 6 5000 0x100 8 0x46 (store32 (store32 (store32 ∅ 2052 6000) 6000 7) 6004 0x202).
Example switch_example :
  let s1 := switch_code 1000 2000 example_machine in
  let s2 := switch_code 2000 1000 s1 in
  (esp s1, ebp s1, m_eflags s1) = (6008, 7, 0x202) ∧ (esp s2, ebp s2, m_eflags s2) = (5000, 11, 0x46).
Proof. by vm_compute. Qed.
