(* ===== verification/Traps.v ===== *)
(** * The trap handlers

    The printing of frames of [x86/src/irq.cpp], the handlers of
    [x86/src/traps.cpp] and the backtrace of [libkernelcxx/src/backtrace.cpp].  A handler prints on
    its stream and calls [panic]; what the stream's buffer does with the characters and what
    [panic] does are parameters, so that what is printed is not lost with the outcome. *)
From stdpp Require Import base tactics numbers list gmap strings.
From S2P Require Import Prelude MemUtils Irq OStream Emits.

(** ** Printing frames *)
Section Print.
Context {B : Type} `{StreamBuf B}.
Abbreviation stream_prog := (prog (ostream * B)).

Definition char_space : Z := 32.
Definition lit (s : string) : stream_prog unit := show_literal (chars_of s).
Definition show_u32 (v : Z) : stream_prog unit := show_numerical_value unsigned_int_type v.

(** [<< " eax = " << setw(8) << value << setw(0) << ' '] *)
Definition show_register (name : string) (v : Z) : stream_prog unit :=
  lit name ;; setw 8 ;; show_u32 v ;; setw 0 ;; show_char char_space.

Definition show_registers (f : int_frame) : stream_prog unit :=
  with_format_guard (
    setw 0 ;; hex ;; setfill char_space ;;
    lit " eax = " ;; setw 8 ;; setfill char_0 ;; show_u32 (regs_eax f) ;;
    setfill char_space ;; setw 0 ;; show_char char_space ;;
    show_register " ebx = " (regs_ebx f) ;;
    show_register " ecx = " (regs_ecx f) ;;
    show_register " edx = " (regs_edx f) ;;
    endl ;;
    show_register " esi = " (regs_esi f) ;;
    show_register " edi = " (regs_edi f) ;;
    show_register " ebp = " (regs_ebp f) ;;
    show_register " esp = " (regs_esp f)).

Definition show_execution_info (f : int_frame) : stream_prog unit :=
  with_format_guard (
    setw 0 ;; hex ;;
    lit "eflg = " ;; setw 8 ;; show_u32 (exe_eflags f) ;; setw 0 ;; show_char char_space ;;
    lit "  cs = " ;; setw 8 ;; show_numerical_value unsigned_short_type (exe_cs f) ;; setw 0 ;; show_char char_space ;;
    lit " eip = " ;; setw 8 ;; show_pointer (exe_eip f) ;; setw 0).

(** [int_frame_error_t] and [int_frame_noerror_t]. *)
Definition show_frame (f : int_frame) : stream_prog unit :=
  with_format_guard (
    match frame_error f with
    | Some error_code =>
        hex ;; setw 0 ;; lit " err = " ;; setw 8 ;; show_u32 error_code ;; endl ;;
        show_execution_info f ;; endl ;; show_registers f
    | None =>
        setw 0 ;; hex ;; show_execution_info f ;; endl ;; show_registers f
    end).

(** ** [backtrace.cpp]; the addresses are those of [kernel_object.cpp] *)
Context (code_begin code_end stack_begin stack_end : Z).

Definition is_inside_code (ptr : Z) : bool := (code_begin <=? ptr) && (ptr <? code_end).
Definition is_inside_stack (ptr : Z) : bool := (stack_begin <=? ptr) && (ptr <? stack_end).

(** [stack_frame_t] with its address. *)
Definition show_stack_frame (addr callers_ebp return_address : Z) : stream_prog unit :=
  with_format_guard (
    hex ;; lit "frame[" ;; show_pointer addr ;; setw 0 ;; lit "]: ebp = " ;; setw 8 ;;
    (if is_inside_stack callers_ebp then show_pointer callers_ebp else lit "invalid") ;;
    setw 0 ;; lit " eip = " ;; setw 8 ;;
    (if is_inside_code return_address then show_pointer return_address else lit "invalid")).

(** The [do]-[while] loop from the frame at [frame] with the given contents. *)
Fixpoint backtrace_loop (fuel : nat) (m : mem) (frame callers_ebp return_address : Z) : stream_prog unit :=
  match fuel with
  | O => no_fuel
  | S n =>
      show_stack_frame frame callers_ebp return_address ;;
      endl ;;
      let new_frame := callers_ebp in
      if frame =? new_frame then mret tt
      else if is_inside_stack new_frame && is_inside_code (load32 m (new_frame + 4)) then
        backtrace_loop n m new_frame (load32 m new_frame) (load32 m (new_frame + 4))
      else mret tt
  end.

(** [tmp_frame] is the address of the local copy, [cur_ebp] the register. *)
Definition show_backtrace (fuel : nat) (m : mem) (tmp_frame cur_ebp ebp eip : Z) : stream_prog unit :=
  with_format_guard (
    setw 50 ;; setfill char_minus ;; show_char char_newline ;; setfill char_space ;; setw 0 ;;
    let ebp := if ebp =? nullptr then cur_ebp else ebp in
    if eip =? nullptr then backtrace_loop fuel m ebp (load32 m ebp) (load32 m (ebp + 4))
    else backtrace_loop fuel m tmp_frame ebp eip).

(** ** [traps.cpp]: the two handlers; [stop] is [panic] of [panic.cpp] *)
Context (stop : string → stream_prog unit).

Definition PrintingErrcodeHandler_handle (fuel : nat) (m : mem) (tmp_frame cur_ebp : Z)
    (message : string) (p : Z) : stream_prog unit :=
  let f := frame_at m true p in
  lit message ;; endl ;; show_frame f ;; endl ;;
  lit "error code is " ;; show_u32 (default 0 (frame_error f)) ;; endl ;;
  show_backtrace fuel m tmp_frame cur_ebp (regs_ebp f) (exe_eip f) ;;
  stop "Forbidden exception in kernel code!".

Definition PrintingNoErrcodeHandler_handle (fuel : nat) (m : mem) (tmp_frame cur_ebp : Z)
    (message : string) (p : Z) : stream_prog unit :=
  let f := frame_at m false p in
  lit message ;; endl ;; show_frame f ;; endl ;;
  show_backtrace fuel m tmp_frame cur_ebp (regs_ebp f) (exe_eip f) ;;
  stop "Forbidden exception in kernel mode!".

(** A trap as [install_traps] lists it. *)
Definition handle_trap (fuel : nat) (m : mem) (tmp_frame cur_ebp : Z) (trap : Z * bool * string) (p : Z)
    : stream_prog unit :=
  let '(_, with_error, message) := trap in
  if (with_error : bool) then PrintingErrcodeHandler_handle fuel m tmp_frame cur_ebp message p
  else PrintingNoErrcodeHandler_handle fuel m tmp_frame cur_ebp message p.
End Print.

(** * Verification *)

(** ** The texts *)
Definition hex_text (v : Z) : list Z := radix digits_fuel 16 v.
Definition padded (fillch v : Z) : list Z := field fillch 8 (hex_text v).
Definition new_line : list Z := [char_newline].

Definition register_text (name : string) (fillch v : Z) : list Z := chars_of name ++ padded fillch v ++ [char_space].

Definition registers_text (f : int_frame) : list Z :=
  register_text " eax = " char_0 (regs_eax f) ++
  register_text " ebx = " char_space (regs_ebx f) ++
  register_text " ecx = " char_space (regs_ecx f) ++
  register_text " edx = " char_space (regs_edx f) ++
  new_line ++
  register_text " esi = " char_space (regs_esi f) ++
  register_text " edi = " char_space (regs_edi f) ++
  register_text " ebp = " char_space (regs_ebp f) ++
  register_text " esp = " char_space (regs_esp f).

(** [fillch] is the padding of the stream. *)
Definition execution_info_text (fillch : Z) (f : int_frame) : list Z :=
  register_text "eflg = " fillch (exe_eflags f) ++
  register_text "  cs = " fillch (exe_cs f) ++
  chars_of " eip = " ++ padded fillch (exe_eip f).

Definition frame_text (fillch : Z) (f : int_frame) : list Z :=
  match frame_error f with
  | Some error_code => chars_of " err = " ++ padded fillch error_code ++ new_line
  | None => []
  end ++ execution_info_text fillch f ++ new_line ++ registers_text f.

Section Backtrace.
Context (m : mem) (code_begin code_end stack_begin stack_end : Z).
Abbreviation inside_code := (is_inside_code code_begin code_end).
Abbreviation inside_stack := (is_inside_stack stack_begin stack_end).

(** A frame: its address and its two words. *)
Definition stack_frame_text (frame : Z * Z * Z) : list Z :=
  let '(addr, ebp, ret) := frame in
  let word inside v := if inside v : bool then padded char_space v else field char_space 8 (chars_of "invalid") in
  chars_of "frame[" ++ hex_text addr ++ chars_of "]: ebp = " ++ word inside_stack ebp ++
  chars_of " eip = " ++ word inside_code ret.

(** The caller's frame is another one, on the stack, with a return address in the code. *)
Definition goes_up (addr ebp : Z) : Prop :=
  addr ≠ ebp ∧ inside_stack ebp = true ∧ inside_code (load32 m (ebp + 4)) = true.

(** The frames from one on, up to the first that does not go up. *)
Inductive calls : Z → Z → Z → list (Z * Z * Z) → Prop :=
  | calls_end addr ebp ret : ¬ goes_up addr ebp → calls addr ebp ret [(addr, ebp, ret)]
  | calls_up addr ebp ret frames : goes_up addr ebp →
      calls ebp (load32 m ebp) (load32 m (ebp + 4)) frames →
      calls addr ebp ret ((addr, ebp, ret) :: frames).

(** The frames of a backtrace that is asked for [ebp] and [eip]. *)
Definition backtrace_calls (tmp_frame cur_ebp ebp eip : Z) : list (Z * Z * Z) → Prop :=
  let ebp := if ebp =? nullptr then cur_ebp else ebp in
  if eip =? nullptr then calls ebp (load32 m ebp) (load32 m (ebp + 4)) else calls tmp_frame ebp eip.

Definition backtrace_text (frames : list (Z * Z * Z)) : list Z :=
  repeat char_minus 49 ++ new_line ++ concat ((λ frame, stack_frame_text frame ++ new_line) <$> frames).
End Backtrace.

(** All that a handler prints, on a stream with the format of [o]. *)
Definition trap_text cb ce sb se (o : ostream) (message : string) (f : int_frame) (frames : list (Z * Z * Z)) : list Z :=
  field (fillch_ o) (width_ o) (chars_of message) ++ new_line ++ frame_text (fillch_ o) f ++ new_line ++
  match frame_error f with
  | Some error_code =>
      field (fillch_ o) (width_ o) (chars_of "error code is ") ++
      field (fillch_ o) (width_ o) (numeral_text unsigned_int_type (format_ o) error_code) ++ new_line
  | None => []
  end ++ backtrace_text cb ce sb se frames.

Definition trap_panic (with_error : bool) : string :=
  if with_error then "Forbidden exception in kernel code!" else "Forbidden exception in kernel mode!".

(** ** Printing *)
Record frame_ok (f : int_frame) : Prop := {
  fo_words : Forall (λ v, 0 ≤ v < 2 ^ 32)
    [regs_edi f; regs_esi f; regs_ebp f; regs_esp f; regs_ebx f; regs_edx f; regs_ecx f; regs_eax f;
     default 0 (frame_error f); exe_eip f; exe_eflags f];
  fo_cs : 0 ≤ exe_cs f < 2 ^ 16
}.

Lemma frame_at_ok m e p : frame_ok (frame_at m e p).
Proof.
  split; cbn.
  - repeat (apply Forall_cons; split); try apply load32_range; [|by constructor].
    destruct e; simpl; [apply load32_range|lia].
  - unfold load16. pose proof (load8_range m (p + 32 + (if e then 4 else 0) + 4)).
    pose proof (load8_range m (p + 32 + (if e then 4 else 0) + 4 + 1)). lia.
Qed.

(** The format that [hex] leaves. *)
Definition hex_format (format : Z) : Z := Z.lor (Z.ldiff format basefield) fmt_hex.

Lemma hex_format_base format : Z.land (hex_format format) basefield = fmt_hex.
Proof.
  apply Z.bits_inj'. intros n Hn. unfold hex_format. rewrite Z.land_spec, Z.lor_spec, Z.ldiff_spec.
  change fmt_hex with (2 ^ 1). change basefield with (Z.ones 2). rewrite Z.pow2_bits_eqb, Z.testbit_ones_nonneg by lia.
  destruct (Z.eqb_spec 1 n), (Z.ltb_spec n 2), (Z.testbit format n); done || lia.
Qed.

Lemma numeral_hex_text ty format v : 0 ≤ v < 2 ^ int_bits ty → numeral_text ty (hex_format format) v = hex_text v.
Proof.
  intros Hv. unfold numeral_text, hex_text. rewrite hex_format_base, Z.eqb_refl. cbn [andb app].
  change (fmt_hex =? fmt_dec) with false. cbn [andb app]. by rewrite Z.mod_small.
Qed.

Section Printing.
Context {B : Type} `{StreamBuf B}.
Abbreviation stream f w c := (mkOstream true f w c).

Lemma emits_to_hex f w c : emits hex (stream f w c) (stream (hex_format f) w c) [].
Proof. apply emits_format. Qed.
Lemma emits_setw f w c n : emits (setw n) (stream f w c) (stream f n c) [].
Proof. apply emits_format. Qed.
Lemma emits_setfill f w c d : emits (setfill d) (stream f w c) (stream f w d) [].
Proof. apply emits_format. Qed.
Lemma emits_endl f w c : emits endl (stream f w c) (stream f w c) new_line.
Proof. by apply emits_put. Qed.

Lemma emits_lit_field f w c s : 0 ≤ w < 2 ^ 32 →
  emits (lit s) (stream f w c) (stream f w c) (field c w (chars_of s)).
Proof. intros Hw. by apply (emits_literal (stream f w c)). Qed.

Lemma emits_char_in f w c d : 0 ≤ w < 2 ^ 32 → emits (show_char d) (stream f w c) (stream f w c) (field c w [d]).
Proof. intros Hw. by apply (emits_char_field (stream f w c)). Qed.

Lemma emits_hex_number f w c ty v : 0 ≤ w < 2 ^ 32 → 8 ≤ int_bits ty ≤ 32 → int_signed ty = false →
  0 ≤ v < 2 ^ int_bits ty →
  emits (show_numerical_value ty v) (stream (hex_format f) w c) (stream (hex_format f) w c) (field c w (hex_text v)).
Proof.
  intros Hw Hty Hs Hv. rewrite <- (numeral_hex_text ty f v Hv).
  apply (emits_number_field (stream (hex_format f) w c)); [done|done|]. unfold in_type. by rewrite Hs.
Qed.

Lemma emits_hex_word f w c v : 0 ≤ w < 2 ^ 32 → 0 ≤ v < 2 ^ 32 →
  emits (show_u32 v) (stream (hex_format f) w c) (stream (hex_format f) w c) (field c w (hex_text v)).
Proof. intros Hw Hv. by apply emits_hex_number. Qed.
End Printing.

(** The text of a sequence, from its parts; [piece] knows the texts of the parts of this file. *)
Ltac piece := fail.
Ltac printing :=
  lazymatch goal with
  | |- emits (_ ;; _) _ _ _ => eapply emits_then; [printing|printing]
  | |- emits (lit _) _ _ _ => apply emits_lit_field; lia
  | |- emits hex _ _ _ => apply emits_to_hex
  | |- emits (setw _) _ _ _ => apply emits_setw
  | |- emits (setfill _) _ _ _ => apply emits_setfill
  | |- emits endl _ _ _ => apply emits_endl
  | |- emits (show_char _) _ _ _ => apply emits_char_in; lia
  | |- emits (show_u32 _) _ _ _ => apply emits_hex_word; lia
  | |- emits (show_pointer _) _ _ _ => apply emits_hex_word; lia
  | |- _ => piece
  end.

(** A guarded sequence prints the text. *)
Ltac guarded :=
  eapply emits_text; [eapply emits_guard; [printing|reflexivity]|rewrite ?field_none, <- ?app_assoc].

Section Frames.
Context {B : Type} `{StreamBuf B}.
Abbreviation stream f w c := (mkOstream true f w c).

Lemma emits_register f c name v : 0 ≤ v < 2 ^ 32 →
  emits (show_register name v) (stream (hex_format f) 0 c) (stream (hex_format f) 0 c) (register_text name c v).
Proof.
  intros Hv. eapply emits_text; [unfold show_register; printing|].
  unfold register_text, padded. by rewrite !field_none.
Qed.

Ltac piece ::= apply emits_register; lia.

Lemma emits_registers f w c fr : frame_ok fr →
  emits (show_registers fr) (stream f w c) (stream f w c) (registers_text fr).
Proof.
  intros [Hw _]. rewrite !Forall_cons in Hw. destruct_and!. unfold show_registers. guarded.
  cbn [app]. unfold registers_text, register_text, padded. by rewrite <- !app_assoc.
Qed.

Ltac piece ::= apply emits_hex_number; done || lia.

Lemma emits_execution_info f w c fr : frame_ok fr →
  emits (show_execution_info fr) (stream f w c) (stream f w c) (execution_info_text c fr).
Proof.
  intros [Hw Hcs]. rewrite !Forall_cons in Hw. destruct_and!. unfold show_execution_info. guarded.
  unfold execution_info_text, register_text, padded. rewrite <- ?app_assoc. cbn [app]. by rewrite app_nil_r.
Qed.

Ltac piece ::=
  lazymatch goal with
  | |- emits (show_execution_info _) _ _ _ => by apply emits_execution_info
  | |- emits (show_registers _) _ _ _ => by apply emits_registers
  end.

Lemma emits_frame f w c fr : frame_ok fr → emits (show_frame fr) (stream f w c) (stream f w c) (frame_text c fr).
Proof.
  intros Hf. pose proof Hf as [Hw _]. rewrite !Forall_cons in Hw. destruct_and!.
  unfold show_frame, frame_text. destruct (frame_error fr) as [e|]; cbn [default from_option id] in *; guarded.
  all: cbn [app]; rewrite <- ?app_assoc; unfold padded.
  all: reflexivity.
Qed.
End Frames.

(** ** The backtrace *)
Section Chains.
Context (m : mem) (cb ce sb se : Z) (Hsb : 0 ≤ sb) (Hse : se ≤ 2 ^ 32).
Abbreviation calls := (calls m cb ce sb se).

(** The frames go up, or end: a frame's caller is itself, higher, or no frame of
    the stack. *)
Definition chain_ok : Prop := ∀ a, is_inside_stack sb se a = true →
  load32 m a = a ∨ a < load32 m a ∨ is_inside_stack sb se (load32 m a) = false ∨
  is_inside_code cb ce (load32 m (load32 m a + 4)) = false.

Lemma inside_word a : is_inside_stack sb se a = true → 0 ≤ a < 2 ^ 32 ∧ sb ≤ a < se.
Proof using Hsb Hse. intros [?%Z.leb_le ?%Z.ltb_lt]%andb_true_iff. lia. Qed.

#[local] Instance goes_up_dec addr ebp : Decision (goes_up m cb ce sb se addr ebp).
Proof. unfold goes_up. apply _. Defined.

(** The test at the end of the loop. *)
Lemma goes_up_test addr ebp : goes_up m cb ce sb se addr ebp ↔
  (addr =? ebp) = false ∧ is_inside_stack sb se ebp && is_inside_code cb ce (load32 m (ebp + 4)) = true.
Proof. unfold goes_up. rewrite andb_true_iff, Z.eqb_neq. tauto. Qed.

Lemma chain_calls_from : chain_ok → ∀ n frame ret, is_inside_stack sb se frame = true → se - frame < Z.of_nat n →
  ∃ frames, calls frame (load32 m frame) ret frames ∧ (length frames ≤ n)%nat.
Proof using Hsb Hse.
  intros Hc. induction n as [|n IH]; intros frame ret Hin Hn; [destruct (inside_word _ Hin); lia|].
  destruct (goes_up_dec frame (load32 m frame)) as [Hup|Hend].
  - pose proof Hup as (Hne & Hs & Hcode).
    destruct (IH (load32 m frame) (load32 m (load32 m frame + 4)) Hs) as (frames & Hcalls & Hl).
    { destruct (Hc frame Hin) as [?|[?|[?|?]]]; [congruence|lia|congruence|congruence]. }
    exists ((frame, load32 m frame, ret) :: frames). split; [by constructor|simpl; lia].
  - exists [(frame, load32 m frame, ret)]. split; [by constructor|simpl; lia].
Qed.

Lemma chain_calls n frame ebp ret : chain_ok → se - sb < Z.of_nat n →
  ∃ frames, calls frame ebp ret frames ∧ (length frames ≤ S n)%nat.
Proof using Hsb Hse.
  intros Hc Hn. destruct (goes_up_dec frame ebp) as [Hup|Hend].
  - pose proof Hup as (_ & Hs & _). destruct (inside_word _ Hs).
    destruct (chain_calls_from Hc n ebp (load32 m (ebp + 4)) Hs ltac:(lia)) as (frames & Hcalls & Hl).
    exists ((frame, ebp, ret) :: frames). split; [by constructor|simpl; lia].
  - exists [(frame, ebp, ret)]. split; [by constructor|simpl; lia].
Qed.

Lemma backtrace_calls_exist n tmp cur ebp eip : chain_ok → se - sb < Z.of_nat n →
  ∃ frames, backtrace_calls m cb ce sb se tmp cur ebp eip frames ∧ (length frames ≤ S n)%nat.
Proof using Hsb Hse. intros Hc Hn. unfold backtrace_calls. destruct (eip =? nullptr); by apply chain_calls. Qed.

(** There is one list of frames only. *)
Lemma calls_unique addr ebp ret l1 l2 : calls addr ebp ret l1 → calls addr ebp ret l2 → l1 = l2.
Proof.
  intros H1. revert l2. induction H1 as [a e r Hend|a e r l Hup H1 IH]; intros l2 H2; inversion H2; subst; try done.
  f_equal. by apply IH.
Qed.

Section Trace.
Context {B : Type} `{StreamBuf B}.
Abbreviation stream f w c := (mkOstream true f w c).

Lemma emits_word_if f (b : bool) v : 0 ≤ v < 2 ^ 32 →
  emits (if b then show_pointer v else lit "invalid") (stream (hex_format f) 8 char_space)
    (stream (hex_format f) 8 char_space)
    (if b then padded char_space v else field char_space 8 (chars_of "invalid")).
Proof. intros Hv. destruct b; printing. Qed.

Ltac piece ::= apply emits_word_if; done.

Lemma emits_stack_frame f addr ebp ret : 0 ≤ addr < 2 ^ 32 → 0 ≤ ebp < 2 ^ 32 → 0 ≤ ret < 2 ^ 32 →
  emits (show_stack_frame cb ce sb se addr ebp ret) (stream f 0 char_space) (stream f 0 char_space)
    (stack_frame_text cb ce sb se (addr, ebp, ret)).
Proof.
  intros Ha He Hr. unfold show_stack_frame. guarded. unfold stack_frame_text. cbn [app]. reflexivity.
Qed.

(** The loop prints a line for each frame. *)
Lemma emits_backtrace_loop f : ∀ addr ebp ret frames, calls addr ebp ret frames →
  0 ≤ addr < 2 ^ 32 → 0 ≤ ebp < 2 ^ 32 → 0 ≤ ret < 2 ^ 32 → ∀ fuel, (length frames ≤ fuel)%nat →
  emits (backtrace_loop cb ce sb se fuel m addr ebp ret) (stream f 0 char_space) (stream f 0 char_space)
    (concat ((λ frame, stack_frame_text cb ce sb se frame ++ new_line) <$> frames)).
Proof using Hsb Hse.
  intros addr ebp ret frames Hcalls.
  induction Hcalls as [a e r Hend|a e r frames Hup Hcalls IH]; intros Ha He Hr fuel Hfuel;
    (destruct fuel as [|fuel]; [simpl in Hfuel; lia|]); cbn [backtrace_loop fmap list_fmap concat]; cbv zeta;
    rewrite <- app_assoc.
  all: eapply emits_then; [by apply emits_stack_frame|]; eapply emits_then; [apply emits_endl|].
  - rewrite goes_up_test in Hend. destruct (a =? e); [apply emits_ret|].
    destruct (is_inside_stack sb se e && is_inside_code cb ce (load32 m (e + 4))); [tauto|apply emits_ret].
  - pose proof Hup as [-> ->]%goes_up_test. destruct Hup as (_ & Hs & _).
    apply IH; [by apply inside_word|apply load32_range..|simpl in Hfuel; lia].
Qed.

(** Two frames that name each other. *)
Record cyclic_frames (a b : Z) : Prop := {
  cf_ne : a ≠ b;
  cf_stack : is_inside_stack sb se a = true ∧ is_inside_stack sb se b = true;
  cf_links : load32 m a = b ∧ load32 m b = a;
  cf_code : is_inside_code cb ce (load32 m (a + 4)) = true ∧ is_inside_code cb ce (load32 m (b + 4)) = true
}.
End Trace.
End Chains.

(** No fuel is enough for them, on a buffer that takes any text. *)
Lemma backtrace_cycles m cb ce sb se : 0 ≤ sb → se ≤ 2 ^ 32 → ∀ fuel a b ret f (text : list Z),
  cyclic_frames m cb ce sb se a b → 0 ≤ ret < 2 ^ 32 →
  backtrace_loop cb ce sb se fuel m a b ret (mkOstream true f 0 char_space, text) = Fuel.
Proof.
  intros Hsb Hse. induction fuel as [|fuel IH]; intros a b ret f text Hc Hr; [done|].
  destruct Hc as [Hne [Hsa Hsb'] [Hla Hlb] [Hca Hcb]]. cbn [backtrace_loop].
  rewrite (emits_before _ _ _ _ _ _ (emits_stack_frame cb ce sb se f a b ret
    (proj1 (inside_word sb se Hsb Hse a Hsa)) (proj1 (inside_word sb se Hsb Hse b Hsb')) Hr)).
  erewrite bind_done; [|unfold on_buf, zoom; cbn [fst snd]; by rewrite send_collect]. cbn [fst].
  erewrite bind_done by done. cbv zeta. rewrite (proj2 (Z.eqb_neq a b)) by done.
  rewrite Hsb', Hcb. cbn [andb]. rewrite Hlb. apply IH; [|apply load32_range]. by split.
Qed.

Section Handlers.
Context (m : mem) (cb ce sb se : Z) (Hsb : 0 ≤ sb) (Hse : se ≤ 2 ^ 32) {B : Type} `{StreamBuf B}.

Lemma emits_backtrace f w c fuel tmp cur ebp eip frames :
  backtrace_calls m cb ce sb se tmp cur ebp eip frames → (length frames ≤ fuel)%nat →
  0 ≤ tmp < 2 ^ 32 → 0 ≤ cur < 2 ^ 32 → 0 ≤ ebp < 2 ^ 32 → 0 ≤ eip < 2 ^ 32 →
  emits (show_backtrace cb ce sb se fuel m tmp cur ebp eip) (mkOstream true f w c) (mkOstream true f w c)
    (backtrace_text cb ce sb se frames).
Proof using Hsb Hse.
  intros Hcalls Hfuel Ht Hcur He Hi. unfold show_backtrace, backtrace_text.
  apply (emits_guard _ _ (mkOstream true f 0 char_space)); [|done].
  do 2 (eapply emits_after; [printing|]). rewrite app_assoc. eapply emits_then; [by apply emits_char_in|].
  do 2 (eapply emits_after; [printing|]). cbv zeta. unfold backtrace_calls in Hcalls. cbv zeta in Hcalls.
  assert (Hebp : 0 ≤ (if ebp =? nullptr then cur else ebp) < 2 ^ 32) by (by destruct (ebp =? nullptr)).
  destruct (eip =? nullptr); by apply emits_backtrace_loop; try apply load32_range.
Qed.
End Handlers.

(** * Properties *)

(** C20: an exception of the kernel stops the machine and says why.  Whatever the frame holds, whatever
    the buffer of the stream does with the characters and whatever [panic] does, the handler of a trap
    is the same as sending one text to the buffer and calling [panic] with the format of the stream
    as it was.  The text is the message, the registers of the frame in hexadecimal, the error code
    where the processor pushes one, and one line for each frame of the chain of calls.  The chain is
    printed to its end, as long as the frame pointers on the kernel stack go up. *)
Theorem trap_handler_panics {B} `{StreamBuf B} (stop : string → prog (ostream * B) unit) fuel m cb ce sb se tmp cur
    trap p (o : ostream) (b : B)
    (Hstack : 0 ≤ sb ∧ se ≤ 2 ^ 32) (Hchain : chain_ok m cb ce sb se)
    (Htmp : 0 ≤ tmp < 2 ^ 32) (Hcur : 0 ≤ cur < 2 ^ 32) (Ho : ready o) (Hfuel : se - sb < Z.of_nat fuel) :
  let '(_, with_error, message) := trap in
  let f := frame_at m with_error p in
  ∃ frames, backtrace_calls m cb ce sb se tmp cur (regs_ebp f) (exe_eip f) frames ∧
    handle_trap cb ce sb se stop (S fuel) m tmp cur trap p (o, b) =
      (on_buf (send (trap_text cb ce sb se o message f frames)) ;; stop (trap_panic with_error)) (o, b).
Proof.
  destruct trap as [[v e] message], Hstack as [Hsb Hse].
  assert (Hf := frame_at_ok m e p). assert (Hw := fo_words _ Hf). rewrite !Forall_cons in Hw.
  destruct Hw as (_ & _ & Hebp & _ & _ & _ & _ & _ & Herr & Heip & _ & _).
  destruct (backtrace_calls_exist m cb ce sb se Hsb Hse fuel tmp cur (regs_ebp (frame_at m e p))
    (exe_eip (frame_at m e p)) Hchain Hfuel) as (frames & Hcalls & Hl).
  exists frames. split; [done|]. destruct o as [sb_ f w c]. pose proof Ho as [Hbuf Hwidth]. cbn in Hbuf, Hwidth. subst sb_.
  pose proof (emits_backtrace m cb ce sb se Hsb Hse f w c _ _ _ _ _ _ Hcalls Hl Htmp Hcur Hebp Heip) as Hback.
  pose proof (emits_frame f w c _ Hf) as Hframe. cbn [default from_option id] in Herr.
  destruct e; unfold handle_trap, PrintingErrcodeHandler_handle, PrintingNoErrcodeHandler_handle, trap_text;
    cbv zeta; cbn [fillch_ width_ format_ trap_panic]; revert b.
  all: eapply emits_before_then; [by apply emits_lit_field|].
  all: eapply emits_before_then; [apply emits_endl|].
  all: eapply emits_before_then; [exact Hframe|].
  all: eapply emits_before_then; [apply emits_endl|].
  - cbn [frame_at frame_error default from_option id] in Herr |- *. rewrite <- !app_assoc.
    eapply emits_before_then; [by apply emits_lit_field|].
    eapply emits_before_then; [by apply (emits_number_field (mkOstream true f w c) unsigned_int_type)|].
    eapply emits_before_then; [apply emits_endl|]. intros b. by apply emits_before.
  - cbn [frame_at frame_error app]. intros b. by apply emits_before.
Qed.

(** ** Witnesses *)
Lemma empty_chain_ok : chain_ok ∅ 1 2 100 108.
Proof.
  intros a Ha. right; right; left. assert (H : load32 ∅ a = 0) by (unfold load32, load8; by rewrite !lookup_empty).
  by rewrite H.
Qed.

Lemma trap_handler_panics_witness :
  ∃ frames, backtrace_calls ∅ 1 2 100 108 500 600 0 0 frames ∧
    handle_trap 1 2 100 108 panic 10 ∅ 500 600 (14, true, "Page fault") 1000 (ostream_over_buffer, []) =
      (on_buf (send (trap_text 1 2 100 108 ostream_over_buffer "Page fault" (frame_at ∅ true 1000) frames)) ;;
       panic "Forbidden exception in kernel code!") (ostream_over_buffer, []).
Proof.
  exact (trap_handler_panics (B := list Z) panic 9 ∅ 1 2 100 108 500 600 (14, true, "Page fault") 1000
    ostream_over_buffer [] ltac:(lia) empty_chain_ok ltac:(lia) ltac:(lia)
    (plain_ready ostream_over_buffer ltac:(by split)) ltac:(lia)).
Defined.

(** The screen after a page fault in a function that was called from the code at 0x13. The frame
    is at 1000, the calling function's frame at 100. *)
Definition example_memory : mem :=
  store32 (store32 (store32 (store32 (store32 ∅ (1000 + 8) 100) 1032 2) (1000 + 36) 0x12) 100 0) 104 0x13.
Definition example_screen : list string := [
  "Page fault"; " err =        2"; "eflg =        0   cs =        0  eip =       12";
  " eax = 00000000  ebx =        0  ecx =        0  edx =        0 ";
  " esi =        0  edi =        0  ebp =       64  esp =        0 "; "error code is 2";
  "-------------------------------------------------";
  "frame[1f4]: ebp =       64 eip =       12"; "frame[64]: ebp =  invalid eip =       13"
]%string.
Example page_fault_text :
  match handle_trap 0x10 0x20 100 108 (λ _, mret tt) 10 example_memory 500 600 (14, true, "Page fault") 1000
      (ostream_over_buffer, []) with
  | Done (_, (_, text)) => Some text
  | _ => None
  end = Some (concat ((λ line, chars_of line ++ new_line) <$> example_screen)).
Proof. by vm_compute. Qed.
