(* ===== verification/Printers.v ===== *)
(** * The output operators of the kernel's own types

    [operator<<] of [memory/free_list.cpp], [memory/buddy_allocator.hpp], [sched/task.cpp],
    [x86/src/tss.cpp], [x86/src/idt.cpp] and [static_string.hpp], with [src/compiler.cpp].
    The operators run on a stream over any [StreamBuf].  What they print is exact, leaves
    the format of the stream as it was, and can be read back. *)
From stdpp Require Import base tactics numbers list gmap strings.
From S2P Require Import Prelude MemUtils FreeList Buddy CString OStream Emits Scheduler Segments Traps.

Section Operators.
Context {B : Type} `{StreamBuf B}.
Abbreviation stream_prog := (prog (ostream * B)).

(** [for (auto *item = fl.list_; item; item = item->next) stream << " " << item;] *)
Fixpoint show_items (fuel : nat) (m : mem) (item : Z) : stream_prog unit :=
  match fuel with
  | O => no_fuel
  | S n =>
      if item =? nullptr then mret tt
      else lit " " ;; show_pointer item ;; show_items n m (load32 m item)
  end.

Definition show_FreeList (fuel : nat) (m : mem) (fl : FreeList) : stream_prog unit :=
  lit "[FreeList(" ;; show_u32 (order_ fl) ;; lit ", " ;; show_bool (disable_squashing_ fl) ;; lit "):" ;;
  show_items fuel m (list_ fl) ;;
  lit "]".

Definition show_pblk (blk : pblk_t) : stream_prog unit :=
  lit "pblk_t {" ;; show_pointer (blk_ptr blk) ;; lit ", " ;; show_u32 (blk_size blk) ;; lit "}".

Definition show_TaskId (id : Z) : stream_prog unit := with_format_guard (dec ;; show_u32 id).

(** The task at [this], whose name is in memory. *)
Definition show_Task (fuel : nat) (m : mem) (this : Z) (task : Task) : stream_prog unit :=
  with_format_guard (
    lit "Task[" ;; show_string fuel m (name_at this) ;; lit "](" ;; show_TaskId (_id task) ;; lit ")" ;;
    lit "{.esp=" ;; hex ;; show_pointer (_esp task) ;;
    lit ",.stack=" ;; show_pointer (_stack task) ;;
    lit "}").

Definition show_SegmentRegister (r : SegmentRegister) : stream_prog unit :=
  with_format_guard (dec ;; show_unsigned_short (seg_segment r)).

Definition show_ProtectionRingStack (s : ProtectionRingStack) : stream_prog unit :=
  with_format_guard (
    dec ;; show_unsigned_short (seg_segment (ring_segment s)) ;; lit ":" ;; hex ;; show_pointer (ring_pointer s)).

(** [tss.stack] is an array of three, so that [stack[0]] is there. *)
Definition show_TaskStateSegment (tss : TaskStateSegment) : stream_prog unit :=
  with_format_guard (
    hex ;;
    lit "tss{" ;;
    lit "prev=" ;; show_unsigned_short (previous_task_link tss) ;;
    lit ",stack_0=" ;;
    match tss_stack tss with
    | stack_0 :: _ => show_ProtectionRingStack stack_0
    | [] => fault "no stack"
    end ;;
    lit ",isp=" ;; show_u32 (instruction_ptr tss) ;;
    lit ",eflags=" ;; show_u32 (tss_eflags tss) ;;
    lit ",cs=" ;; show_SegmentRegister (sp_cs (tss_segments tss)) ;;
    lit "}").

(** [compiler.cpp] *)
Definition unreachable {St A} : prog St A := panic "reached unreachable statement".

(** The switch over the three bits of the type, of which [GateType] names three values. *)
Definition show_gate_type (kind : Z) : stream_prog unit :=
  if kind =? GateType_value Gate_task then lit "Task{}"
  else if kind =? GateType_value Gate_interrupt then lit "Interrupt{}"
  else if kind =? GateType_value Gate_trap then lit "Trap{}"
  else unreachable.

Definition show_Gate (gate : Gate) : stream_prog unit := show_gate_type (GateType_value (gate_kind gate)).

(** [(out << ... << Chars)] *)
Fixpoint show_static_string (chars : list Z) : stream_prog unit :=
  match chars with [] => mret tt | c :: chars => show_char c ;; show_static_string chars end.
End Operators.

(** * Verification *)

(** ** The text of a number *)
Definition is_digit (c : Z) : bool := bool_decide (is_Some (digit_value 16 c)).

Abbreviation text_of := numeral_text.

(** The numbers the operators print are not negative. *)
Definition printable (ty : int_type) (v : Z) : Prop :=
  8 ≤ int_bits ty ≤ 32 ∧ int_signed ty = false ∧ 0 ≤ v < 2 ^ int_bits ty.

Lemma printable_in_type ty v : printable ty v → in_type ty v.
Proof. intros (_ & Hs & Hv). unfold in_type. by rewrite Hs. Qed.

Lemma printable_word v : 0 ≤ v < 2 ^ 32 → printable unsigned_int_type v.
Proof. intros Hv. by split. Qed.

Lemma printable_half v : 0 ≤ v < 2 ^ 16 → printable unsigned_short_type v.
Proof. intros Hv. by split. Qed.

(** What reading a number needs: digits only, and their value. *)
Record numeral (base v : Z) (text : list Z) : Prop := {
  num_digits : Forall (λ c, is_digit c = true) text;
  num_value : parse_nat base text = Some v
}.

Lemma digit_value_16 base c d : base ≤ 16 → digit_value base c = Some d → is_digit c = true.
Proof.
  intros Hb. unfold digit_value, is_digit. destruct (list_find _ _) as [[i x]|] eqn:E; [|done]. intros _.
  apply list_find_Some in E as (Hi & -> & _). apply bool_decide_eq_true_2. unfold digit_value.
  assert (Hin : c ∈ take (Z.to_nat 16) digit_chars).
  { apply list_elem_of_lookup_2 with i. apply lookup_take_Some in Hi as [Hi Hlt]. apply lookup_take_Some.
    split; [done|lia]. }
  destruct (list_find (λ d, d = c) (take (Z.to_nat 16) digit_chars)) as [[j y]|] eqn:E; [by eexists|].
  apply list_find_None in E. rewrite Forall_forall in E. by destruct (E c Hin).
Qed.

Lemma parse_digits_all base : base ≤ 16 → ∀ text v u, parse_digits base v text = Some u →
  Forall (λ c, is_digit c = true) text.
Proof.
  intros Hb. induction text as [|c text IH]; intros v u E; [by constructor|]. cbn [parse_digits] in E.
  destruct (digit_value base c) as [d|] eqn:Ed; [|done]. constructor; [by eapply digit_value_16|by eapply IH].
Qed.

Lemma parse_numeral base v text : base ≤ 16 → parse_nat base text = Some v → numeral base v text.
Proof.
  intros Hb E. split; [|done]. unfold parse_nat in E. destruct text; [done|]. by eapply parse_digits_all.
Qed.

Lemma text_of_numeral ty format v : printable ty v → has_base format →
  numeral (base_of format) v (text_of ty format v).
Proof.
  intros Hp Hf. pose proof Hp as (Hbits & Hs & Hv).
  destruct (numeral_text_correct ty format v Hbits (printable_in_type _ _ Hp)) as [_ Hdec Hhex _ _].
  unfold base_of. destruct Hf as [Hf|Hf].
  - rewrite Hf in *. change (fmt_dec =? fmt_hex) with false. apply parse_numeral; [lia|].
    rewrite <- (Hdec eq_refl). unfold numeral_text. rewrite Hf, Z.eqb_refl. destruct (Z.ltb_spec v 0); [lia|].
    change (fmt_dec =? fmt_hex) with false. cbn [andb app]. rewrite (Z.abs_eq v) by lia.
    assert (Hv' : v < 10 ^ Z.of_nat digits_fuel).
    { assert (2 ^ int_bits ty ≤ 2 ^ 32) by (apply Z.pow_le_mono_r; lia). change (10 ^ Z.of_nat digits_fuel) with (10 ^ 33). lia. }
    destruct (radix_head 10 ltac:(lia) digits_fuel v) as (d & t & Er & Hd & _); [lia|unfold digits_fuel; lia|].
    rewrite Er. unfold parse_dec. destruct (digit_char_minus d ltac:(lia)) as [Hm _].
    by rewrite (proj2 (Z.eqb_neq _ _) Hm).
  - rewrite Hf in *. rewrite Z.eqb_refl. apply parse_numeral; [lia|]. rewrite (Hhex eq_refl).
    by rewrite Z.mod_small by lia.
Qed.

Lemma emits_number {B} `{StreamBuf B} o ty v : plain o → printable ty v →
  emits (show_numerical_value ty v) o o (text_of ty (format_ o) v).
Proof.
  intros Ho Hp. pose proof Hp as (Hbits & _ & _).
  rewrite <- (field_none (fillch_ o) (text_of _ _ _)), <- (plain_width o Ho).
  apply emits_number_field; [by apply plain_ready|done|by apply printable_in_type].
Qed.

(** ** Reading back *)
Fixpoint expect (l text : list Z) : option (list Z) :=
  match l, text with
  | [], _ => Some text
  | c :: l, d :: text => if c =? d then expect l text else None
  | _ :: _, [] => None
  end.

Fixpoint digits (text : list Z) : list Z * list Z :=
  match text with
  | c :: text' => if is_digit c then let '(ds, rest) := digits text' in (c :: ds, rest) else ([], text)
  | [] => ([], [])
  end.

Definition number (base : Z) (text : list Z) : option (Z * list Z) :=
  let '(ds, rest) := digits text in
  v ← parse_nat base ds; Some (v, rest).

(** The same on a text that is read from its end. *)
Definition number_back (base : Z) (text : list Z) : option (Z * list Z) :=
  let '(ds, rest) := digits text in
  v ← parse_nat base (rev ds); Some (v, rest).

(** The text behind a number starts with something else. *)
Definition no_digit (rest : list Z) : Prop := match rest with [] => True | c :: _ => is_digit c = false end.

Lemma expect_app l rest : expect l (l ++ rest) = Some rest.
Proof. induction l as [|c l IH]; [done|]. cbn [expect app]. by rewrite Z.eqb_refl. Qed.

Lemma digits_app ds rest : Forall (λ c, is_digit c = true) ds → no_digit rest → digits (ds ++ rest) = (ds, rest).
Proof.
  intros Hd Hr. induction Hd as [|c ds Hc Hd IH]; cbn [app digits].
  - destruct rest as [|c rest]; [done|]. cbn [digits]. simpl in Hr. by rewrite Hr.
  - by rewrite Hc, IH.
Qed.

Lemma number_app base v ds rest : numeral base v ds → no_digit rest → number base (ds ++ rest) = Some (v, rest).
Proof.
  intros [Hd Hv] Hr. unfold number. rewrite digits_app by done. by rewrite Hv.
Qed.

Lemma number_back_app base v ds rest : numeral base v ds → no_digit rest →
  number_back base (rev ds ++ rest) = Some (v, rest).
Proof.
  intros [Hd Hv] Hr. unfold number_back.
  rewrite digits_app by (done || by apply Forall_rev). by rewrite rev_involutive, Hv.
Qed.

(** Readers: what an operator has printed, in the base of the stream where the
    operator does not choose one. *)
Fixpoint read_items (fuel : nat) (base : Z) (text : list Z) : option (list Z * list Z) :=
  match fuel with
  | O => None
  | S n =>
      match expect (chars_of " ") text with
      | Some text =>
          '(x, text) ← number base text; '(xs, text) ← read_items n base text; Some (x :: xs, text)
      | None => Some ([], text)
      end
  end.

Definition read_bool (text : list Z) : option (bool * list Z) :=
  match expect (chars_of "true") text with
  | Some text => Some (true, text)
  | None => text ← expect (chars_of "false") text; Some (false, text)
  end.

(** The order, the flag and the blocks of a list. *)
Definition read_FreeList (base : Z) (text : list Z) : option (Z * bool * list Z) :=
  text ← expect (chars_of "[FreeList(") text;
  '(order, text) ← number base text;
  text ← expect (chars_of ", ") text;
  '(flag, text) ← read_bool text;
  text ← expect (chars_of "):") text;
  '(blocks, text) ← read_items (S (length text)) base text;
  text ← expect (chars_of "]") text;
  if decide (text = []) then Some (order, flag, blocks) else None.

Definition read_pblk (base : Z) (text : list Z) : option pblk_t :=
  text ← expect (chars_of "pblk_t {") text;
  '(ptr, text) ← number base text;
  text ← expect (chars_of ", ") text;
  '(size, text) ← number base text;
  text ← expect (chars_of "}") text;
  if decide (text = []) then Some (mkPblk ptr size) else None.

(** The name, the number, the stack pointer and the stack of a task.  The name may hold
    any characters, so the text is read from its end. *)
Definition read_Task (text : list Z) : option (list Z * Z * Z * Z) :=
  back ← expect (rev (chars_of "}")) (rev text);
  '(stack, back) ← number_back 16 back;
  back ← expect (rev (chars_of ",.stack=")) back;
  '(esp, back) ← number_back 16 back;
  back ← expect (rev (chars_of "{.esp=")) back;
  back ← expect (rev (chars_of ")")) back;
  '(id, back) ← number_back 10 back;
  back ← expect (rev (chars_of "](")) back;
  name ← expect (chars_of "Task[") (rev back);
  Some (name, id, esp, stack).

(** The link, the first stack, the instruction pointer, the flags and the code segment. *)
Definition read_TaskStateSegment (text : list Z) : option (Z * (Z * Z) * Z * Z * Z) :=
  text ← expect (chars_of "tss{") text;
  text ← expect (chars_of "prev=") text;
  '(prev, text) ← number 16 text;
  text ← expect (chars_of ",stack_0=") text;
  '(segment, text) ← number 10 text;
  text ← expect (chars_of ":") text;
  '(pointer, text) ← number 16 text;
  text ← expect (chars_of ",isp=") text;
  '(isp, text) ← number 16 text;
  text ← expect (chars_of ",eflags=") text;
  '(eflags, text) ← number 16 text;
  text ← expect (chars_of ",cs=") text;
  '(cs, text) ← number 10 text;
  text ← expect (chars_of "}") text;
  if decide (text = []) then Some (prev, (segment, pointer), isp, eflags, cs) else None.

(** ** The manipulators *)
Lemma set_base f format : Z.land f basefield = f →
  Z.land (Z.lor (Z.ldiff format basefield) f) basefield = f.
Proof.
  intros Hf. rewrite Z.land_lor_distr_l, Hf.
  replace (Z.land (Z.ldiff format basefield) basefield) with 0; [done|].
  apply Z.bits_inj'. intros n Hn. rewrite Z.land_spec, Z.ldiff_spec, Z.bits_0.
  by destruct (Z.testbit format n), (Z.testbit basefield n).
Qed.

Definition o_dec (o : ostream) : ostream := (setf_mask fmt_dec basefield o).1.
Definition o_hex (o : ostream) : ostream := (setf_mask fmt_hex basefield o).1.

Lemma o_dec_base o : base_of (format_ (o_dec o)) = 10 ∧ has_base (format_ (o_dec o)).
Proof.
  unfold base_of, has_base, o_dec, setf_mask. cbn [fst format_].
  rewrite !(set_base fmt_dec) by done. split; [done|by left].
Qed.

Lemma o_hex_base o : base_of (format_ (o_hex o)) = 16 ∧ has_base (format_ (o_hex o)).
Proof.
  unfold base_of, has_base, o_hex, setf_mask. cbn [fst format_].
  rewrite !(set_base fmt_hex) by done. split; [done|by right].
Qed.

Lemma plain_dec o : plain o → plain (o_dec o).
Proof. intros [Hs Hw]. by split. Qed.

Lemma plain_hex o : plain o → plain (o_hex o).
Proof. intros [Hs Hw]. by split. Qed.

#[export] Hint Resolve plain_dec plain_hex : kernel.

Section Pieces.
Context {B : Type} `{StreamBuf B}.

Lemma emits_dec o : emits dec o (o_dec o) [].
Proof. apply emits_format. Qed.

Lemma emits_hex o : emits hex o (o_hex o) [].
Proof. apply emits_format. Qed.

Lemma emits_bool o (v : bool) : plain o → emits (show_bool v) o o (chars_of (if v then "true" else "false")).
Proof. intros Ho. unfold show_bool. by apply emits_lit. Qed.

Lemma emits_word o v : plain o → 0 ≤ v < 2 ^ 32 →
  emits (show_u32 v) o o (text_of unsigned_int_type (format_ o) v).
Proof. intros Ho Hv. apply emits_number; [done|]. by apply printable_word. Qed.

Lemma emits_half o v : plain o → 0 ≤ v < 2 ^ 16 →
  emits (show_unsigned_short v) o o (text_of unsigned_short_type (format_ o) v).
Proof. intros Ho Hv. apply emits_number; [done|]. by apply printable_half. Qed.
End Pieces.

(** The text of a sequence, from its parts. *)
Ltac emit :=
  lazymatch goal with
  | |- emits (_ ;; _) _ _ _ => eapply emits_then; [emit|emit]
  | |- emits (lit _) _ _ _ => apply emits_lit; auto with kernel
  | |- emits dec _ _ _ => apply emits_dec
  | |- emits hex _ _ _ => apply emits_hex
  | |- emits (show_bool _) _ _ _ => apply emits_bool; auto with kernel
  | |- emits (show_u32 _) _ _ _ => apply emits_word; auto with kernel
  | |- emits (show_pointer _) _ _ _ => apply emits_word; auto with kernel
  | |- emits (show_unsigned_short _) _ _ _ => apply emits_half; auto with kernel
  | |- _ => auto with kernel
  end.

Lemma numeral_dec ty o v : printable ty v → numeral 10 v (text_of ty (format_ (o_dec o)) v).
Proof. intros Hv. destruct (o_dec_base o) as [<- Hb]. by apply text_of_numeral. Qed.

Lemma numeral_hex ty o v : printable ty v → numeral 16 v (text_of ty (format_ (o_hex o)) v).
Proof. intros Hv. destruct (o_hex_base o) as [<- Hb]. by apply text_of_numeral. Qed.

#[export] Hint Resolve text_of_numeral numeral_dec numeral_hex printable_word printable_half : kernel.

(** ** The operators *)
Section Values.
Context {B : Type} `{StreamBuf B}.
Abbreviation word := (text_of unsigned_int_type).
Abbreviation half := (text_of unsigned_short_type).

Lemma emits_TaskId o id : plain o → 0 ≤ id < 2 ^ 32 → emits (show_TaskId id) o o (word (format_ (o_dec o)) id).
Proof. intros Ho Hid. apply (emits_guard _ o (o_dec o)); [|done]. apply (emits_then _ _ o (o_dec o) _ []); emit. Qed.

Lemma emits_SegmentRegister o r : plain o → 0 ≤ seg_segment r < 2 ^ 16 →
  emits (show_SegmentRegister r) o o (half (format_ (o_dec o)) (seg_segment r)).
Proof. intros Ho Hr. apply (emits_guard _ o (o_dec o)); [|done]. apply (emits_then _ _ o (o_dec o) _ []); emit. Qed.

Lemma emits_ProtectionRingStack o s : plain o →
  0 ≤ seg_segment (ring_segment s) < 2 ^ 16 → 0 ≤ ring_pointer s < 2 ^ 32 →
  emits (show_ProtectionRingStack s) o o
    (half (format_ (o_dec o)) (seg_segment (ring_segment s)) ++ chars_of ":" ++
     word (format_ (o_hex (o_dec o))) (ring_pointer s)).
Proof.
  intros Ho Hs Hp. apply (emits_guard _ o (o_hex (o_dec o))); [|done].
  apply (emits_then _ _ o (o_dec o) _ []); [emit|]. apply (emits_then _ _ _ (o_dec o)); [emit|].
  apply (emits_then _ _ _ (o_dec o)); [emit|]. apply (emits_then _ _ _ (o_hex (o_dec o)) _ []); emit.
Qed.

(** The blocks of a list, one after the other. *)
Definition items_text (format : Z) (l : list Z) : list Z :=
  concat ((λ x, chars_of " " ++ word format x) <$> l).

Lemma emits_items o fuel m p l : plain o → chain m p l → (length l < fuel)%nat →
  emits (show_items fuel m p) o o (items_text (format_ o) l).
Proof.
  intros Ho. revert p l. induction fuel as [|fuel IH]; intros p l Hc Hf; [lia|]. cbn [show_items].
  destruct l as [|x l]; [by rewrite Hc|]. destruct Hc as (-> & Hx & Hc). rewrite node_ok_not_null by done.
  unfold items_text. cbn [fmap list_fmap concat]. rewrite <- (app_assoc (chars_of " ")).
  apply (emits_then _ _ o o); [emit|]. apply (emits_then _ _ o o).
  - apply emits_word; [done|]. by apply node_ok_range.
  - apply IH; [done|]. cbn [length] in Hf. lia.
Qed.
End Values.

Lemma read_items_done base format l rest : base = base_of format → has_base format → Forall node_ok l →
  no_digit rest → expect (chars_of " ") rest = None → ∀ fuel, (length l < fuel)%nat →
  read_items fuel base (items_text format l ++ rest) = Some (l, rest).
Proof.
  intros -> Hf Hl Hr He. induction Hl as [|x l Hx Hl IH]; intros fuel Hn; (destruct fuel as [|fuel]; [simpl in Hn; lia|]).
  - cbn [items_text fmap list_fmap concat app read_items]. by rewrite He.
  - unfold items_text. cbn [fmap list_fmap concat read_items]. rewrite <- !app_assoc, expect_app.
    rewrite (number_app _ x).
    + cbn [mbind option_bind]. fold (items_text format l). rewrite IH; [done|]. simpl in Hn. lia.
    + apply text_of_numeral; [|done]. by apply printable_word, node_ok_range.
    + destruct l; [done|]. reflexivity.
Qed.

(** ** Running a reader *)
Lemma expect_bind {A} l rest (k : list Z → option A) : expect l (l ++ rest) ≫= k = k rest.
Proof. by rewrite expect_app. Qed.

Lemma expect_all {A} l (k : list Z → option A) : expect l l ≫= k = k [].
Proof. rewrite <- (app_nil_r l) at 2. apply expect_bind. Qed.

Lemma number_bind {A} base v ds rest (k : Z * list Z → option A) : numeral base v ds → no_digit rest →
  number base (ds ++ rest) ≫= k = k (v, rest).
Proof. intros Hn Hr. by rewrite (number_app _ v). Qed.

Lemma number_back_bind {A} base v ds rest (k : Z * list Z → option A) : numeral base v ds → no_digit rest →
  number_back base (rev ds ++ rest) ≫= k = k (v, rest).
Proof. intros Hn Hr. by rewrite (number_back_app _ v). Qed.

Lemma read_bool_bind {A} (v : bool) rest (k : bool * list Z → option A) :
  read_bool (chars_of (if v then "true" else "false") ++ rest) ≫= k = k (v, rest).
Proof. by destruct v. Qed.

Lemma items_text_length format l : (length l ≤ length (items_text format l))%nat.
Proof.
  induction l as [|x l IH]; [done|]. unfold items_text in *. cbn [fmap list_fmap concat].
  rewrite !length_app. change (length (chars_of " ")) with 1%nat. cbn [length]. lia.
Qed.

Lemma read_items_bind {A} base format l rest (k : list Z * list Z → option A) :
  base = base_of format → has_base format → Forall node_ok l → no_digit rest →
  expect (chars_of " ") rest = None →
  read_items (S (length (items_text format l ++ rest))) base (items_text format l ++ rest) ≫= k = k (l, rest).
Proof.
  intros Hb Hf Hl Hr He. rewrite (read_items_done base format l rest); [done..|].
  pose proof (items_text_length format l). rewrite length_app. lia.
Qed.

(** One step after the other. *)
Ltac read :=
  repeat first
    [ rewrite expect_bind | rewrite expect_all | rewrite read_bool_bind
    | erewrite number_bind; [|solve [eauto with kernel]|reflexivity]
    | erewrite number_back_bind; [|solve [eauto with kernel]|reflexivity] ].

(** * Properties *)

(** A free list in memory is printed to the end, the stream keeps its format, and the text
    reads back as the order, the flag and all blocks of the list. *)
Theorem show_FreeList_reads_back {B} `{StreamBuf B} fuel m fl l (o : ostream)
    (Hchain : chain m (list_ fl) l) (Horder : 0 ≤ order_ fl < 2 ^ 32) (Hfuel : (length l < fuel)%nat)
    (Ho : plain o) (Hbase : has_base (format_ o)) :
  ∃ text, emits (show_FreeList fuel m fl) o o text ∧
    read_FreeList (base_of (format_ o)) text = Some (order_ fl, disable_squashing_ fl, l).
Proof.
  eexists. split.
  { unfold show_FreeList. repeat (eapply emits_then; [emit; by eapply emits_items|]). emit. }
  unfold read_FreeList. read. rewrite read_items_bind by (done || by eapply lseg_nodes). by read.
Qed.

(** A block is printed exactly, whatever it is. *)
Theorem show_pblk_reads_back {B} `{StreamBuf B} blk (o : ostream)
    (Hptr : 0 ≤ blk_ptr blk < 2 ^ 32) (Hsize : 0 ≤ blk_size blk < 2 ^ 32)
    (Ho : plain o) (Hbase : has_base (format_ o)) :
  ∃ text, emits (show_pblk blk) o o text ∧ read_pblk (base_of (format_ o)) text = Some blk.
Proof.
  eexists. split; [unfold show_pblk; emit|]. unfold read_pblk. read. by destruct blk.
Qed.

(** A task is printed whatever its name is; the number is decimal and the stack hexadecimal on
    any stream, the format stays, and the text tells the name and the three numbers. *)
Theorem show_Task_reads_back {B} `{StreamBuf B} fuel m this t name (o : ostream)
    (Hname : c_string m (name_at this) name) (Hfuel : (length name < fuel)%nat)
    (Hid : 0 ≤ _id t < 2 ^ 32) (Hesp : 0 ≤ _esp t < 2 ^ 32) (Hstack : 0 ≤ _stack t < 2 ^ 32)
    (Ho : plain o) :
  ∃ text, emits (show_Task fuel m this t) o o text ∧
    read_Task text = Some (name, _id t, _esp t, _stack t).
Proof.
  eexists. split.
  { unfold show_Task. apply (emits_guard _ o (o_hex o)); [|done].
    eapply emits_then; [emit|]. eapply emits_then; [by apply emits_string|].
    eapply emits_then; [emit|]. eapply emits_then; [by apply emits_TaskId|]. emit. }
  unfold read_Task. cbn [app]. rewrite !rev_app_distr, <- !app_assoc. read.
  rewrite rev_app_distr, !rev_involutive. by read.
Qed.

(** A task state segment is printed in the bases its fields have, whatever the base of the
    stream: the guards around the nested operators put each base back. *)
Theorem show_TaskStateSegment_reads_back {B} `{StreamBuf B} tss stack_0 stacks (o : ostream)
    (Hstack : tss_stack tss = stack_0 :: stacks)
    (Hprev : 0 ≤ previous_task_link tss < 2 ^ 16)
    (Hsegment : 0 ≤ seg_segment (ring_segment stack_0) < 2 ^ 16) (Hpointer : 0 ≤ ring_pointer stack_0 < 2 ^ 32)
    (Hisp : 0 ≤ instruction_ptr tss < 2 ^ 32) (Heflags : 0 ≤ tss_eflags tss < 2 ^ 32)
    (Hcs : 0 ≤ seg_segment (sp_cs (tss_segments tss)) < 2 ^ 16) (Ho : plain o) :
  ∃ text, emits (show_TaskStateSegment tss) o o text ∧
    read_TaskStateSegment text = Some (previous_task_link tss,
      (seg_segment (ring_segment stack_0), ring_pointer stack_0), instruction_ptr tss, tss_eflags tss,
      seg_segment (sp_cs (tss_segments tss))).
Proof.
  eexists. split.
  { unfold show_TaskStateSegment. rewrite Hstack. apply (emits_guard _ o (o_hex o)); [|done].
    eapply emits_then; [emit|]. do 4 (eapply emits_then; [emit|]).
    eapply emits_then; [apply emits_ProtectionRingStack; auto with kernel|].
    do 5 (eapply emits_then; [emit|]).
    eapply emits_then; [apply emits_SegmentRegister; auto with kernel|]. emit. }
  unfold read_TaskStateSegment. cbn [app]. rewrite <- !app_assoc. by read.
Qed.

(** The switch in the printing of a gate covers every type a gate can be made of, so that
    [unreachable] is not reached. *)
Theorem show_Gate_done {B} `{StreamBuf B} gate (o : ostream) (Ho : plain o) :
  ∃ name, name ∈ ["Task{}"; "Interrupt{}"; "Trap{}"] ∧ emits (show_Gate gate) o o (chars_of name).
Proof.
  unfold show_Gate, show_gate_type.
  destruct (gate_kind gate); cbn [GateType_value Z.eqb Pos.eqb];
    (eexists; split; [|by apply emits_lit]); set_solver.
Qed.

(** A static string prints the characters it is made of. *)
Theorem show_static_string_done {B} `{StreamBuf B} chars (o : ostream) (Ho : plain o) :
  emits (show_static_string chars) o o chars.
Proof.
  induction chars as [|c chars IH]; [apply emits_ret|].
  apply (emits_then _ _ o o o [c]); [by apply emits_char|done].
Qed.

(** The descriptor over a task covers the object that the scheduler allocates. *)
Lemma sizeof_Task_agrees : sizeof_Task = task_size.
Proof. done. Qed.

(** ** Witnesses *)
Lemma plain_over_buffer : plain ostream_over_buffer.
Proof. by split. Qed.

(** Two blocks, printed by a stream over a list of characters. *)
Lemma show_FreeList_reads_back_witness :
  ∃ text, emits (B := list Z) (show_FreeList 3 example_mem example_list) ostream_over_buffer ostream_over_buffer text ∧
    read_FreeList 10 text = Some (0, false, [8192; 20480]).
Proof.
  apply (show_FreeList_reads_back (B := list Z) 3 example_mem example_list [8192; 20480] ostream_over_buffer);
    [|by split|simpl; lia|apply plain_over_buffer|by left].
  repeat split; (by vm_compute || (unfold node_ok, PAGE_SIZE; lia)).
Defined.

Example free_list_text :
  show_FreeList 3 example_mem example_list (ostream_over_buffer, []) =
    Done (tt, (ostream_over_buffer, chars_of "[FreeList(0, false): 8192 20480]")).
Proof. vm_compute. reflexivity. Qed.

Lemma show_pblk_reads_back_witness :
  ∃ text, emits (B := list Z) (show_pblk (mkPblk 4096 3)) ostream_over_buffer ostream_over_buffer text ∧
    read_pblk (base_of (format_ ostream_over_buffer)) text = Some (mkPblk 4096 3).
Proof. apply (show_pblk_reads_back (B := list Z) (mkPblk 4096 3)); [cbn; lia|cbn; lia|apply plain_over_buffer|by left]. Defined.

(** A task at address 4096 whose name looks like the text behind a name. *)
Definition example_name : list Z := chars_of "](x".
Definition example_name_mem : mem := store8 (store8 (store8 ∅ 4116 93) 4117 40) 4118 120.
Definition example_task : Task := mkTask 0 0 7 false 65536 131052 Fresh false.

Lemma example_name_string : c_string example_name_mem (name_at 4096) example_name.
Proof.
  split; [repeat first [apply Forall_nil_2 | apply Forall_cons_2; [by vm_compute|]]|by vm_compute| |done].
  intros i Hi. cbn in Hi. assert (i = 0 ∨ i = 1 ∨ i = 2) as [->|[->| ->]] by lia; done.
Qed.

Lemma show_Task_reads_back_witness :
  ∃ text, emits (B := list Z) (show_Task 4 example_name_mem 4096 example_task) ostream_over_buffer ostream_over_buffer text ∧
    read_Task text = Some (example_name, 7, 131052, 65536).
Proof.
  apply (show_Task_reads_back (B := list Z) 4 example_name_mem 4096 example_task example_name ostream_over_buffer);
    [apply example_name_string|cbn; lia|cbn; lia|cbn; lia|cbn; lia|apply plain_over_buffer].
Defined.

Example task_text :
  show_Task 4 example_name_mem 4096 example_task (ostream_over_buffer, []) =
    Done (tt, (ostream_over_buffer, chars_of "Task[](x](7){.esp=1ffec,.stack=10000}")).
Proof. vm_compute. reflexivity. Qed.

Lemma show_TaskStateSegment_reads_back_witness :
  ∃ text, emits (B := list Z) (show_TaskStateSegment TaskStateSegment_default) ostream_over_buffer ostream_over_buffer text ∧
    read_TaskStateSegment text = Some (0, (0, 0), 0, 0, 0).
Proof.
  apply (show_TaskStateSegment_reads_back (B := list Z) TaskStateSegment_default (ProtectionRingStack_new 0 nullptr)
           [ProtectionRingStack_default; ProtectionRingStack_default] ostream_over_buffer);
    [done|cbn; lia|cbn; lia|cbn; unfold nullptr; lia|cbn; unfold nullptr; lia|cbn; lia|cbn; lia|apply plain_over_buffer].
Defined.
