(* ===== verification/KernelObject.v ===== *)
(** * The image of the kernel

    [kobj/src/kernel_object.cpp] and the symbols that [kernel.ld] lays out for it, for
    the constructors ([src/cxxabi.cpp]) and for the tests ([ost/src/ost.cpp]).  The
    sections the compiler emits are the argument; sections the script does not name
    are left out. *)
From stdpp Require Import base tactics numbers list gmap strings.
From S2P Require Import Prelude MemUtils MemoryInit Traps.

(** ** [kernel.ld] *)

(** An output section: its alignment, and what its input sections take, in the order of
    the script, with the padding between them. *)
Record section : Type := mkSection { sec_align : Z; sec_inputs : list Z }.

Definition inputs_size (inputs : list Z) : Z := foldr Z.add 0 inputs.

Record image : Type := mkImage {
  sec_text : section;          (* the header, the code *)
  sec_ctors : section;         (* the constructors *)
  sec_ost_callers : section;   (* the calling functions, the callers *)
  sec_rodata : section;
  sec_eh_frame_hdr : section;
  sec_eh_frame : section;
  sec_gcc_except_table : section;
  sec_data : section;
  sec_bss : section;
  sec_kernel_stack : section;  (* the stack *)
  sec_comment : section
}.

Record symbols : Type := mkSymbols {
  object_begin : Z; object_end : Z; text_begin : Z; text_end : Z; ctors_begin : Z; ctors_end : Z;
  ost_callers_begin_label : Z; ost_callers_end_label : Z; sym_stack_begin : Z; sym_stack_end : Z
}.

Definition load_address : Z := 0x100000.

(** [ALIGN(a)] at the location [dot]. *)
Definition ALIGN (a dot : Z) : Z := (dot + a - 1) / a * a.

(** Where a section starts, its [k]-th place between inputs, and where it ends. *)
Definition sec_start (dot : Z) (s : section) : Z := ALIGN (sec_align s) dot.
Definition sec_place (k : nat) (dot : Z) (s : section) : Z := sec_start dot s + inputs_size (take k (sec_inputs s)).
Definition sec_end (dot : Z) (s : section) : Z := sec_start dot s + inputs_size (sec_inputs s).

Definition link (i : image) : symbols :=
  let dot := load_address in
  let begin := dot in
  let dot := ALIGN 4 dot in
  let text_begin := sec_place 1 dot (sec_text i) in
  let dot := sec_end dot (sec_text i) in
  let text_end := dot in
  let ctors_begin := sec_start dot (sec_ctors i) in
  let dot := sec_end dot (sec_ctors i) in
  let ctors_end := dot in
  let ost_begin := sec_place 1 dot (sec_ost_callers i) in
  let dot := sec_end dot (sec_ost_callers i) in
  let ost_end := dot in
  let dot := fold_left sec_end
    [sec_rodata i; sec_eh_frame_hdr i; sec_eh_frame i; sec_gcc_except_table i; sec_data i; sec_bss i] dot in
  let stack_begin := sec_start dot (sec_kernel_stack i) in
  let dot := sec_end dot (sec_kernel_stack i) in
  let stack_end := dot in
  let dot := sec_end dot (sec_comment i) in
  mkSymbols begin dot text_begin text_end ctors_begin ctors_end ost_begin ost_end stack_begin stack_end.

(** ** [kernel_object.cpp] *)
Definition kobj_begin (s : symbols) : Z := object_begin s.
Definition kobj_end (s : symbols) : Z := object_end s.
Definition kobj_code_begin (s : symbols) : Z := text_begin s.
Definition kobj_code_end (s : symbols) : Z := text_end s.
Definition kobj_stack_begin (s : symbols) : Z := sym_stack_begin s.
Definition kobj_stack_end (s : symbols) : Z := sym_stack_end s.

(** * Verification *)

(** What a linker works on: alignments are positive and nothing has a negative size. *)
Definition section_ok (s : section) : Prop := 0 < sec_align s ∧ Forall (λ n, 0 ≤ n) (sec_inputs s).

Definition sections (i : image) : list section :=
  [sec_text i; sec_ctors i; sec_ost_callers i; sec_rodata i; sec_eh_frame_hdr i; sec_eh_frame i;
   sec_gcc_except_table i; sec_data i; sec_bss i; sec_kernel_stack i; sec_comment i].

Definition image_ok (i : image) : Prop := Forall section_ok (sections i).

Lemma ALIGN_above a dot : 0 < a → dot ≤ ALIGN a dot < dot + a ∧ ALIGN a dot mod a = 0.
Proof.
  intros Ha. unfold ALIGN. split; [|by rewrite Z.mul_comm, Z.mul_mod, Z.mod_same, Z.mul_0_l, Z.mod_0_l by lia].
  pose proof (Z.div_mod (dot + a - 1) a). pose proof (Z.mod_pos_bound (dot + a - 1) a). lia.
Qed.

Lemma inputs_size_pos l : Forall (λ n, 0 ≤ n) l → 0 ≤ inputs_size l.
Proof. intros Hl. unfold inputs_size. induction Hl; simpl; lia. Qed.

Lemma inputs_size_take k l : Forall (λ n, 0 ≤ n) l → 0 ≤ inputs_size (take k l) ≤ inputs_size l.
Proof.
  intros Hl. split; [by apply inputs_size_pos, Forall_take|].
  rewrite <- (take_drop k l) at 2. unfold inputs_size. rewrite foldr_app.
  pose proof (inputs_size_pos (drop k l) ltac:(by apply Forall_drop)) as Hd. unfold inputs_size in Hd.
  enough (∀ x y l, x ≤ y → foldr Z.add x l ≤ foldr Z.add y l) as Hmono by (by apply Hmono).
  clear. intros x y l Hxy. induction l; simpl; lia.
Qed.

(** The location counter only moves up. *)
Lemma section_placed k dot s : section_ok s →
  dot ≤ sec_start dot s ∧ sec_start dot s mod sec_align s = 0 ∧
  sec_start dot s ≤ sec_place k dot s ≤ sec_end dot s.
Proof.
  intros [Ha Hl]. destruct (ALIGN_above (sec_align s) dot Ha) as [[H1 _] H2].
  pose proof (inputs_size_take k _ Hl). unfold sec_place, sec_end, sec_start. lia.
Qed.

Lemma sections_placed dot l : Forall section_ok l → dot ≤ fold_left sec_end l dot.
Proof.
  intros Hl. revert dot. induction Hl as [|s l Hs Hl IH]; intros dot; cbn [fold_left]; [lia|].
  specialize (IH (sec_end dot s)). pose proof (section_placed 0 dot s Hs). lia.
Qed.

(** * Properties *)

(** The symbols are in the order in which the script writes them, from the load address on:
    code, constructors, callers of tests and stack are apart from each other and inside the
    object; the constructors, the stack and, with the header in front, the code start at the
    boundary their section asks for. *)
Theorem link_ordered i (Hi : image_ok i) (s := link i) :
  kobj_begin s = load_address ∧ load_address ≤ kobj_code_begin s ∧
  kobj_code_begin s ≤ kobj_code_end s ∧ kobj_code_end s ≤ ctors_begin s ∧ ctors_begin s ≤ ctors_end s ∧
  ctors_end s ≤ ost_callers_begin_label s ∧ ost_callers_begin_label s ≤ ost_callers_end_label s ∧
  ost_callers_end_label s ≤ kobj_stack_begin s ∧ kobj_stack_begin s ≤ kobj_stack_end s ∧
  kobj_stack_end s ≤ kobj_end s ∧
  ctors_begin s mod sec_align (sec_ctors i) = 0 ∧ kobj_stack_begin s mod sec_align (sec_kernel_stack i) = 0.
Proof.
  unfold image_ok, sections in Hi. rewrite !Forall_cons in Hi.
  destruct Hi as (Ht & Hc & Ho & Hr & Hh & He & Hg & Hd & Hb & Hk & Hm & _).
  unfold s, link, kobj_begin, kobj_code_begin, kobj_code_end, kobj_stack_begin, kobj_stack_end, kobj_end.
  cbn [object_begin object_end text_begin text_end ctors_begin ctors_end ost_callers_begin_label
    ost_callers_end_label sym_stack_begin sym_stack_end].
  destruct (ALIGN_above 4 load_address) as [[H4 _] _]; [lia|].
  pose proof (section_placed 1 (ALIGN 4 load_address) _ Ht). set (d1 := sec_end (ALIGN 4 load_address) _) in *.
  pose proof (section_placed 1 d1 _ Hc). set (d2 := sec_end d1 _) in *.
  pose proof (section_placed 1 d2 _ Ho). set (d3 := sec_end d2 _) in *.
  pose proof (sections_placed d3 [sec_rodata i; sec_eh_frame_hdr i; sec_eh_frame i; sec_gcc_except_table i;
    sec_data i; sec_bss i] ltac:(by rewrite !Forall_cons)).
  set (d4 := fold_left _ _ _) in *.
  pose proof (section_placed 1 d4 _ Hk). set (d5 := sec_end d4 _) in *.
  pose proof (section_placed 1 d5 _ Hm). split_and!; lia.
Qed.

(** An image that ends below 2 GiB meets what the start of the memory and the backtrace ask of
    the addresses: the object starts where high memory does, the stack does not wrap, and no
    address is both in the code and on the stack. *)
Theorem linked_image_fits i (Hi : image_ok i) (s := link i) (Hend : kobj_end s < 2 ^ 31) :
  highmem_start = kobj_begin s ∧ highmem_start ≤ kobj_end s < 2 ^ 31 ∧
  (0 ≤ kobj_stack_begin s ∧ kobj_stack_end s ≤ 2 ^ 32) ∧
  ∀ p, is_inside_code (kobj_code_begin s) (kobj_code_end s) p &&
       is_inside_stack (kobj_stack_begin s) (kobj_stack_end s) p = false.
Proof.
  pose proof (link_ordered i Hi) as Ho. fold s in Ho. unfold highmem_start. unfold load_address in Ho.
  split_and!; [lia..|]. intros p. unfold is_inside_code, is_inside_stack.
  destruct (Z.leb_spec (kobj_code_begin s) p), (Z.ltb_spec p (kobj_code_end s)),
    (Z.leb_spec (kobj_stack_begin s) p), (Z.ltb_spec p (kobj_stack_end s)); simpl; lia.
Qed.

(** ** Witnesses *)
Definition example_section (n : Z) : section := mkSection 16 [n].
Definition example_image : image :=
  mkImage (mkSection 16 [48; 60000]) (mkSection 4 [40]) (mkSection 4 [100; 24]) (example_section 9000)
    (example_section 0) (example_section 7000) (example_section 300) (example_section 5000) (example_section 20000)
    (mkSection 16 [16384]) (mkSection 1 [40]).

Lemma example_image_ok : image_ok example_image.
Proof.
  assert (Hs : ∀ a n, 0 < a → 0 ≤ n → section_ok (mkSection a [n])).
  { intros a n Ha Hn. split; [done|]. by apply Forall_singleton. }
  assert (Hs2 : ∀ a n k, 0 < a → 0 ≤ n → 0 ≤ k → section_ok (mkSection a [n; k])).
  { intros a n k Ha Hn Hk. split; [done|]. apply Forall_cons. by rewrite Forall_singleton. }
  unfold image_ok, sections, example_image, example_section. cbn. rewrite !Forall_cons.
  split_and!; first [apply Hs; lia | apply Hs2; lia | constructor].
Qed.

Lemma link_ordered_witness : kobj_code_end (link example_image) ≤ ctors_begin (link example_image) ∧
  ctors_begin (link example_image) mod 4 = 0.
Proof.
  destruct (link_ordered example_image example_image_ok) as (_ & _ & _ & H1 & _ & _ & _ & _ & _ & _ & H2 & _).
  exact (conj H1 H2).
Defined.

Lemma linked_image_fits_witness : highmem_start ≤ kobj_end (link example_image) < 2 ^ 31.
Proof.
  destruct (linked_image_fits example_image example_image_ok) as (_ & H & _); [by vm_compute|]. exact H.
Defined.

Example example_symbols :
  link example_image = mkSymbols 1048576 1166552 1048624 1108624 1108624 1108664 1108764 1108788 1150128 1166512.
Proof. vm_compute. reflexivity. Qed.
