(* ===== verification/Log.v ===== *)
(** * Logging

    [devices/serial]: the serial port; [log]: the buffers that put a header in
    front of every line and send it to the console and to the serial port, and the
    logger with a stream for each level.  Characters are values of [char]. *)
From stdpp Require Import base tactics numbers list gmap strings.
From S2P Require Import Prelude MemUtils Ports OStream Vga.

(** ** [serial]: ports and registers *)
Definition COM1 : Z := 0x3F8.
Definition COM2 : Z := 0x2F8.
Definition COM3 : Z := 0x3E8.
Definition COM4 : Z := 0x2E8.

Record IOPorts : Type := mkIOPorts {
  DATA : Z; ENABLE_INTERRUPT : Z; DIVISOR_LSB : Z; DIVISOR_MSB : Z; INTERRUPT_ID : Z;
  LCR : Z; MCR : Z; LSR : Z; MSR : Z; SCRATCH : Z
}.

Definition IOPorts_new (first_address : Z) : IOPorts :=
  mkIOPorts first_address (u16 (first_address + 1)) first_address (u16 (first_address + 1))
    (u16 (first_address + 2)) (u16 (first_address + 3)) (u16 (first_address + 4))
    (u16 (first_address + 5)) (u16 (first_address + 6)) 7.

Record LineControlRegister : Type := mkLcr { _char_size : Z; _other : bool; _set_baud_rate_divisor : bool }.
Definition lcr_default : LineControlRegister := mkLcr 0 false false.
Definition set_char_size (size : Z) (r : LineControlRegister) : LineControlRegister :=
  mkLcr ((size - 5) mod 2 ^ 2) (_other r) (_set_baud_rate_divisor r).
Definition set_set_baud_rate_divisor (set : bool) (r : LineControlRegister) : LineControlRegister :=
  mkLcr (_char_size r) (_other r) set.
Definition clear_set_baud_rate_divisor (r : LineControlRegister) : LineControlRegister :=
  set_set_baud_rate_divisor false r.
Definition lcr_byte (r : LineControlRegister) : Z :=
  _char_size r + 2 ^ 2 * Z.b2z (_other r) + 2 ^ 7 * Z.b2z (_set_baud_rate_divisor r).

Record LineStatusRegister : Type := mkLsr {
  data_ready : bool; overrun_error : bool; parity_error : bool; framing_error : bool;
  break_indicator : bool; can_send : bool; transmitter_empty : bool; impending_error : bool
}.
Definition LineStatusRegister_of (byte : Z) : LineStatusRegister :=
  let b := Z.testbit byte in mkLsr (b 0) (b 1) (b 2) (b 3) (b 4) (b 5) (b 6) (b 7).

(** ** [SerialPort] *)
Section SerialPort.
Context (ports : IOPorts).

Definition set_baud_rate_divisor (divisor : Z) : io_prog unit :=
  let lcr := set_set_baud_rate_divisor true lcr_default in
  let lcr := set_char_size 8 lcr in
  outb (LCR ports) (lcr_byte lcr) ;;
  outb (DIVISOR_LSB ports) (Z.land divisor 0xff) ;;
  outb (DIVISOR_MSB ports) (Z.land (Z.shiftr divisor 8) 0xff) ;;
  let lcr := clear_set_baud_rate_divisor lcr in
  outb (LCR ports) (lcr_byte lcr).

Definition configure : io_prog unit := set_baud_rate_divisor 1.

Definition can_write : io_prog bool :=
  lsr ← inb (LSR ports); mret (can_send (LineStatusRegister_of lsr)).

Definition serial_write (fuel : nat) (chr : Z) : io_prog unit :=
  while_loop fuel (ok ← can_write; mret (negb ok)) (mret tt) ;;
  outb (DATA ports) chr.
End SerialPort.

Definition SerialPort_new (port : Z) : io_prog IOPorts :=
  let ports := IOPorts_new port in configure ports ;; mret ports.

(** ** Buffers: [SimpleStreamBuf], [SerialBuf], [VgaBuf] *)
Section SimpleBuf.
Context {W : Type} (buf_overflow : Z → prog W Z).

Fixpoint feed (s : list Z) : prog W unit :=
  match s with [] => mret tt | c :: s => buf_overflow c ;; feed s end.

Definition simple_xsputn (s : list Z) : prog W Z := feed s ;; mret (Z.of_nat (length s)).
End SimpleBuf.

Definition SerialBuf_overflow (fuel : nat) (ports : IOPorts) (c : Z) : io_prog Z :=
  (if c =? LF then serial_write ports fuel LF ;; serial_write ports fuel CR
   else serial_write ports fuel c) ;; mret c.

Definition VgaBuf_overflow (c : Z) : vga_prog Z := putc c ;; mret c.

(** ** Levels *)
Inductive LogLevel : Type := CRITICAL | ERROR | WARNING | NOTICE | INFO | DEBUG.
#[export] Instance LogLevel_eq_dec : EqDecision LogLevel.
Proof. solve_decision. Defined.
Definition LogLevel_value (l : LogLevel) : Z :=
  match l with CRITICAL => 0 | ERROR => 1 | WARNING => 2 | NOTICE => 3 | INFO => 4 | DEBUG => 5 end.

Definition green : Z := 2.
Definition red : Z := 4.
Definition bright_green : Z := 10.
Definition bright_red : Z := 12.
Definition yellow : Z := 14.
Definition color (level : LogLevel) : Z :=
  match level with
  | CRITICAL => red | ERROR => bright_red | WARNING => yellow
  | NOTICE => green | INFO => bright_green | DEBUG => bright_green
  end.

(** ** [StaticDelegatingLogBuf]

    [H] are the fields of the derived class and [W] is what the delegate works on;
    the three hooks are the virtual functions. *)
Record log_buf : Type := mkLogBuf {
  prefix : list Z; _log_level : LogLevel; _show_header : bool; _delegate : bool
}.

Section DelegatingLogBuf.
Context {H W : Type} (enabled_log_level : LogLevel) (delegate_overflow : Z → prog W Z).
Context (handle_pre_prefix handle_post_prefix handle_end_line : prog (H * W) unit).
Abbreviation log_prog := (prog (log_buf * (H * W))).

Definition hook {A} : prog (H * W) A → log_prog A := zoom snd (λ hw s, (s.1, hw)).
Definition on_delegate {A} : prog W A → prog (H * W) A := zoom snd (λ w s, (s.1, w)).
Definition set_delegate (delegate : bool) (b : log_buf) : log_buf :=
  mkLogBuf (prefix b) (_log_level b) (_show_header b) delegate.
Definition set_show_header (show : bool) : log_prog unit :=
  modify (λ s, (mkLogBuf (prefix s.1) (_log_level s.1) show (_delegate s.1), s.2)).

Definition do_start_log_line : log_prog unit :=
  b ← gets fst;
  hook handle_pre_prefix ;;
  (if _delegate b then hook (on_delegate (feed delegate_overflow (prefix b))) else mret tt) ;;
  hook handle_post_prefix.

Definition do_end_long_line : log_prog unit :=
  b ← gets fst; if _delegate b then hook handle_end_line else mret tt.

Definition log_overflow (c : Z) : log_prog Z :=
  b ← gets fst;
  if LogLevel_value enabled_log_level <? LogLevel_value (_log_level b) then mret c
  else
    (if _show_header b then
       (if _delegate b then do_start_log_line else mret tt) ;; set_show_header false
     else mret tt) ;;
    result ← (if _delegate b then hook (on_delegate (delegate_overflow c)) else mret c);
    (if c =? LF then
       (if _delegate b then do_end_long_line else mret tt) ;; set_show_header true
     else mret tt) ;;
    mret result.
End DelegatingLogBuf.

(** ** [StaticSerialLogBuf] and [StaticVgaDelegatingLogBuf] *)
Record vga_colors : Type := mkColors { _expected_color : Z; _saved_color : Z }.

Definition vga_pre_prefix : prog (vga_colors * vga) unit :=
  c ← gets fst;
  saved ← on_delegate get_fg;
  modify (λ s, (mkColors (_expected_color c) saved, s.2)) ;;
  on_delegate (set_fg (_expected_color c)).

Definition vga_end_line : prog (vga_colors * vga) unit :=
  c ← gets fst; on_delegate (set_fg (_saved_color c)).

Definition vga_log_overflow (enabled : LogLevel) : Z → prog (log_buf * (vga_colors * vga)) Z :=
  log_overflow enabled VgaBuf_overflow vga_pre_prefix (mret tt) vga_end_line.

Definition serial_log_overflow (fuel : nat) (ports : IOPorts) (enabled : LogLevel)
    : Z → prog (log_buf * (unit * io)) Z :=
  log_overflow enabled (SerialBuf_overflow fuel ports) (mret tt) (mret tt) (mret tt).

Definition vga_sb (level : LogLevel) (prefix : list Z) (color : Z) : log_buf * vga_colors :=
  (set_delegate true (mkLogBuf prefix level true true), mkColors color color).

(** Every buffer of a logger configures the port three times: when its delegate is
    made, when the local port is made, and once more. *)
Definition serial_sb (level : LogLevel) (prefix : list Z) : io_prog log_buf :=
  SerialPort_new COM1 ;;
  port ← SerialPort_new COM1;
  configure port ;;
  mret (set_delegate true (mkLogBuf prefix level true true)).

(** ** [CompositeBuf] and [StaticLogger] *)
Record sink : Type := mkSink {
  snk_a : option (log_buf * vga_colors); snk_b : option log_buf; snk_vga : vga; snk_io : io
}.

Definition on_a {A} (result : A) (p : prog (log_buf * (vga_colors * vga)) A) : prog sink A := λ s,
  match snk_a s with
  | None => Done (result, s)
  | Some (b, h) =>
      match p (b, (h, snk_vga s)) with
      | Done (a, (b, (h, v))) => Done (a, mkSink (Some (b, h)) (snk_b s) v (snk_io s))
      | Panic m => Panic m | Fault m => Fault m | Fuel => Fuel
      end
  end.

Definition on_b {A} (result : A) (p : prog (log_buf * (unit * io)) A) : prog sink A := λ s,
  match snk_b s with
  | None => Done (result, s)
  | Some b =>
      match p (b, (tt, snk_io s)) with
      | Done (a, (b, (_, i))) => Done (a, mkSink (snk_a s) (Some b) (snk_vga s) i)
      | Panic m => Panic m | Fault m => Fault m | Fuel => Fuel
      end
  end.

Section Logger.
Context (fuel : nat) (enabled : LogLevel).

Definition comp_overflow (c : Z) : prog sink Z :=
  result ← on_a c (vga_log_overflow enabled c);
  on_b result (serial_log_overflow fuel (IOPorts_new COM1) enabled c).

Definition comp_xsputn (s : list Z) : prog sink Z :=
  result ← on_a 0 (simple_xsputn (vga_log_overflow enabled) s);
  on_b result (simple_xsputn (serial_log_overflow fuel (IOPorts_new COM1) enabled) s).

#[export] Instance composite_buf : StreamBuf sink := {| overflow := comp_overflow; xsputn := comp_xsputn |}.
End Logger.

(** The six buffers with their streams; the two devices are shared. *)
Record log_channel : Type := mkChannel {
  ch_stream : ostream; ch_vga : option (log_buf * vga_colors); ch_serial : option log_buf
}.
Record StaticLogger : Type := mkLogger { lg_level : LogLevel; lg_channel : LogLevel → log_channel }.

Definition build_sb (prefix : list Z) (level : LogLevel) : io_prog log_channel :=
  serial ← serial_sb level prefix;
  mret (mkChannel ostream_over_buffer (Some (vga_sb level prefix (color level))) (Some serial)).

Definition StaticLogger_new (prefix : list Z) (level : LogLevel) : io_prog StaticLogger :=
  debug ← build_sb prefix DEBUG;
  info ← build_sb prefix INFO;
  notice ← build_sb prefix NOTICE;
  warning ← build_sb prefix WARNING;
  error ← build_sb prefix ERROR;
  critical ← build_sb prefix CRITICAL;
  mret (mkLogger level (λ l, match l with
    | DEBUG => debug | INFO => info | NOTICE => notice
    | WARNING => warning | ERROR => error | CRITICAL => critical end)).

(** [logger.info() << ...]: a statement on the stream of a level. *)
Definition log_statement (l : LogLevel) (p : prog (ostream * sink) unit)
    : prog (StaticLogger * (vga * io)) unit := λ '(lg, (v, i)),
  let ch := lg_channel lg l in
  match p (ch_stream ch, mkSink (ch_vga ch) (ch_serial ch) v i) with
  | Done (_, (o, s)) =>
      Done (tt, (mkLogger (lg_level lg) (λ l', if decide (l' = l)
                   then mkChannel o (snk_a s) (snk_b s) else lg_channel lg l'), (snk_vga s, snk_io s)))
  | Panic m => Panic m | Fault m => Fault m | Fuel => Fuel
  end.

(** * Verification *)

(** ** Feeding characters *)
Lemma feed_app {W} (f : Z → prog W Z) l1 l2 w : feed f (l1 ++ l2) w = (feed f l1 ;; feed f l2) w.
Proof.
  revert w. induction l1 as [|c l1 IH]; intros w; [done|]. cbn [feed app]. rewrite bind_bind.
  unfold mbind, prog_bind. destruct (f c w) as [[r w']| | |]; [|done..]. apply IH.
Qed.

(** A buffer whose function does not fail is a function on its state. *)
Lemma feed_steps {W} (f : Z → prog W Z) (I : W → Prop) (step : Z → W → W) s w :
  (∀ c w, I w → ∃ r, f c w = Done (r, step c w) ∧ I (step c w)) → I w →
  feed f s w = Done (tt, foldl (λ w c, step c w) w s) ∧ I (foldl (λ w c, step c w) w s).
Proof.
  intros Hf. revert w. induction s as [|c s IH]; intros w Hw; [done|]. cbn [feed foldl].
  destruct (Hf c w Hw) as (r & E & Hw'). rewrite (bind_done _ _ _ _ _ E). by apply IH.
Qed.

Lemma hook_done {H W A} (p : prog (H * W) A) (b : log_buf) hw :
  hook p (b, hw) = match p hw with
                   | Done (a, hw) => Done (a, (b, hw))
                   | Panic m => Panic m | Fault m => Fault m | Fuel => Fuel
                   end.
Proof. done. Qed.

(** ** One line through a buffer: the hooks and the header around the text *)
Section Line.
Context {H W : Type} (enabled : LogLevel) (out : Z → prog W Z).
Context (pre post fin : prog (H * W) unit).
Abbreviation over := (log_overflow enabled out pre post fin).

Definition line_out (header l : list Z) : prog (H * W) unit :=
  pre ;; on_delegate (feed out header) ;; post ;; on_delegate (feed out (l ++ [LF])) ;; fin.

Definition lines_out (header : list Z) : list (list Z) → prog (H * W) unit :=
  fix go lines := match lines with [] => mret tt | l :: lines => line_out header l ;; go lines end.

Lemma over_disabled b hw s : LogLevel_value enabled < LogLevel_value (_log_level b) →
  feed over s (b, hw) = Done (tt, (b, hw)).
Proof.
  intros Hb. induction s as [|c s IH]; [done|]. cbn [feed].
  rewrite (bind_done _ _ _ c (b, hw)); [done|]. unfold log_overflow. rewrite gets_bind. cbn [fst].
  by rewrite (proj2 (Z.ltb_lt _ _) Hb).
Qed.

Context (hd : list Z) (lv : LogLevel) (Hlv : LogLevel_value lv ≤ LogLevel_value enabled).
Abbreviation buf show := (mkLogBuf hd lv show true).

(** A character inside of a line goes to the delegate. *)
Lemma over_char c hw : c ≠ LF →
  over c (buf false, hw) = hook (on_delegate (out c)) (buf false, hw).
Proof.
  intros Hc. unfold log_overflow. rewrite gets_bind. cbn [fst _log_level _show_header _delegate].
  rewrite (proj2 (Z.ltb_ge _ _) Hlv), (proj2 (Z.eqb_neq c LF)) by done. rewrite ret_bind.
  unfold mbind, prog_bind. by destruct (hook _ _) as [[??]| | |].
Qed.

Lemma over_newline hw :
  over LF (buf false, hw) = hook (r ← on_delegate (out LF); fin ;; mret r) (buf true, hw).
Proof.
  unfold log_overflow. rewrite gets_bind. cbn [fst _log_level _show_header _delegate].
  rewrite (proj2 (Z.ltb_ge _ _) Hlv), ret_bind. cbn [Z.eqb LF Pos.eqb].
  unfold do_end_long_line, hook, zoom, set_show_header, modify, gets, mbind, prog_bind, mret, prog_ret.
  cbn [snd]. destruct (on_delegate (out LF) hw) as [[r hw1]| | |]; [|done..]. cbn [fst snd _delegate].
  by destruct (fin hw1) as [[[] hw2]| | |].
Qed.

Lemma over_inside l hw : LF ∉ l →
  feed over (l ++ [LF]) (buf false, hw) = hook (on_delegate (feed out (l ++ [LF])) ;; fin) (buf true, hw).
Proof.
  revert hw. induction l as [|c l IH]; intros hw Hl.
  - cbn [app feed]. unfold mbind at 1, prog_bind at 1. rewrite over_newline. rewrite !hook_done.
    unfold on_delegate, zoom, mbind, prog_bind, mret, prog_ret.
    destruct (out LF _) as [[r w]| | |]; [|done..]. by destruct (fin _) as [[[] hw2]| | |].
  - apply not_elem_of_cons in Hl as [Hc Hl]. cbn [app feed]. unfold mbind at 1, prog_bind at 1.
    rewrite over_char, hook_done by done. rewrite hook_done.
    unfold on_delegate, zoom, mbind, prog_bind, mret, prog_ret in IH |- *.
    destruct (out c _) as [[r w]| | |]; [|done..]. by rewrite IH, hook_done.
Qed.

Definition header_out : prog (H * W) unit := pre ;; on_delegate (feed out hd) ;; post.

Lemma over_start c hw :
  over c (buf true, hw) =
    match header_out hw with
    | Done (_, hw) => over c (buf false, hw)
    | Panic m => Panic m | Fault m => Fault m | Fuel => Fuel
    end.
Proof.
  unfold log_overflow, do_start_log_line, header_out, set_show_header, hook, zoom, gets, modify,
    mbind, prog_bind, mret, prog_ret.
  cbn [fst snd _log_level _show_header _delegate prefix]. rewrite (proj2 (Z.ltb_ge _ _) Hlv).
  cbn [fst snd _log_level _show_header _delegate prefix].
  destruct (pre hw) as [[[] hw1]| | |]; [|done..].
  cbn [fst snd]. destruct (on_delegate _ hw1) as [[[] hw2]| | |]; [|done..].
  cbn [fst snd]. destruct (post hw2) as [[[] hw3]| | |]; [|done..]. cbn [fst snd _log_level _delegate prefix]. done.
Qed.

Lemma over_line l hw : LF ∉ l →
  feed over (l ++ [LF]) (buf true, hw) = hook (line_out hd l) (buf true, hw).
Proof.
  intros Hl.
  assert (Hstart : feed over (l ++ [LF]) (buf true, hw) =
    match header_out hw with
    | Done (_, hw) => feed over (l ++ [LF]) (buf false, hw)
    | Panic m => Panic m | Fault m => Fault m | Fuel => Fuel
    end).
  { destruct (l ++ [LF]) as [|c l'] eqn:E; [by destruct l|]. cbn [feed].
    unfold mbind at 1, prog_bind at 1. rewrite over_start. by destruct (header_out hw) as [[[] hw1]| | |]. }
  rewrite Hstart, hook_done. unfold line_out, header_out.
  unfold mbind at 1 2 3 4 5 6, prog_bind at 1 2 3 4 5 6.
  destruct (pre hw) as [[[] hw1]| | |]; [|done..].
  destruct (on_delegate (feed out hd) hw1) as [[[] hw2]| | |]; [|done..].
  destruct (post hw2) as [[[] hw3]| | |]; [|done..].
  rewrite over_inside, hook_done by done. done.
Qed.

Lemma over_lines lines hw : Forall (λ l, LF ∉ l) lines →
  feed over (concat ((λ l, l ++ [LF]) <$> lines)) (buf true, hw) = hook (lines_out hd lines) (buf true, hw).
Proof.
  intros Hl. revert hw. induction Hl as [|l lines Hlf Hl IH]; intros hw; [done|].
  cbn [fmap list_fmap concat lines_out]. rewrite feed_app. unfold mbind at 1, prog_bind at 1.
  rewrite over_line by done. rewrite !hook_done. unfold mbind, prog_bind.
  destruct (line_out hd l hw) as [[[] hw1]| | |]; [|done..]. rewrite IH, hook_done. done.
Qed.
End Line.

(** ** The serial port: what goes out, and that it goes out *)
Definition out_bytes (port : Z) (i : io) : list Z :=
  omap (λ e, match e with Out p b => if p =? port then Some b else None | In _ _ => None end) (io_log i).

(** Every wait for the transmitter ends within [fuel] polls. *)
Definition serial_ready (fuel : nat) (i : io) : Prop :=
  ∀ n, ∃ k, (k < fuel)%nat ∧ Z.testbit (u8 (io_input i (n + k))) 5 = true.

Definition serial_bytes (s : list Z) : list Z :=
  concat ((λ c, if c =? LF then [LF; CR] else [u8 c]) <$> s).

Lemma serial_bytes_app s1 s2 : serial_bytes (s1 ++ s2) = serial_bytes s1 ++ serial_bytes s2.
Proof. unfold serial_bytes. by rewrite fmap_app, concat_app. Qed.

(** Steps of the port that add [l] to what it sent. *)
Definition sends (i i' : io) (l : list Z) : Prop :=
  io_input i' = io_input i ∧ out_bytes COM1 i' = out_bytes COM1 i ++ l.

Lemma sends_trans i i1 i2 l1 l2 : sends i i1 l1 → sends i1 i2 l2 → sends i i2 (l1 ++ l2).
Proof. intros [H1 O1] [H2 O2]. split; [congruence|]. by rewrite O2, O1, app_assoc. Qed.

Lemma sends_ready fuel i i' l : sends i i' l → serial_ready fuel i → serial_ready fuel i'.
Proof. intros [H _] Hr n. rewrite H. apply Hr. Qed.

Lemma serial_poll_done fuel k i : (k < fuel)%nat → Z.testbit (u8 (io_input i (io_reads i + k))) 5 = true →
  ∃ i', while_loop fuel (ok ← can_write (IOPorts_new COM1); mret (negb ok)) (mret tt) i = Done (tt, i') ∧
    sends i i' [].
Proof.
  revert fuel i. induction k as [|k IH]; intros fuel i Hk Hin; (destruct fuel as [|fuel]; [lia|]); cbn [while_loop].
  - unfold can_write, inb. rewrite !bind_bind. unfold mbind, prog_bind, mret, prog_ret.
    rewrite Nat.add_0_r in Hin. cbn [can_send LineStatusRegister_of]. rewrite Hin. cbn [negb].
    eexists. split; [done|]. split; [done|]. unfold out_bytes. cbn [io_log].
    by rewrite omap_app.
  - unfold can_write, inb. rewrite !bind_bind. unfold mbind at 1 2 3 4, prog_bind at 1 2 3 4. unfold mret, prog_ret at 1 2 3.
    cbn [can_send LineStatusRegister_of].
    set (i1 := mkIo _ _ _). assert (Hs1 : sends i i1 []).
    { split; [done|]. unfold out_bytes, i1. cbn [io_log]. by rewrite omap_app. }
    destruct (Z.testbit (u8 (io_input i (io_reads i))) 5) eqn:Eb; cbn [negb].
    + by exists i1.
    + destruct (IH fuel i1) as (i' & E & Hs); [lia| |].
      { unfold i1. cbn [io_input io_reads]. by replace (S (io_reads i) + k)%nat with (io_reads i + S k)%nat by lia. }
      exists i'. split; [exact E|]. by apply (sends_trans i i1 i' [] []).
Qed.

Lemma serial_write_done fuel c i : serial_ready fuel i →
  ∃ i', serial_write (IOPorts_new COM1) fuel c i = Done (tt, i') ∧ sends i i' [u8 c].
Proof.
  intros Hr. destruct (Hr (io_reads i)) as (k & Hk & Hin).
  destruct (serial_poll_done fuel k i Hk Hin) as (i1 & E & Hs). unfold serial_write.
  rewrite (bind_done _ _ _ _ _ E). eexists. split; [reflexivity|].
  apply (sends_trans i i1 _ [] [u8 c]); [done|]. split; [done|]. unfold out_bytes. cbn [io_log].
  by rewrite omap_app.
Qed.

Lemma feed_serial fuel s i : serial_ready fuel i →
  ∃ i', feed (SerialBuf_overflow fuel (IOPorts_new COM1)) s i = Done (tt, i') ∧ sends i i' (serial_bytes s).
Proof.
  revert i. induction s as [|c s IH]; intros i Hr.
  - exists i. split; [done|]. split; [done|]. by rewrite app_nil_r.
  - assert (Hc : ∃ i1, SerialBuf_overflow fuel (IOPorts_new COM1) c i = Done (c, i1) ∧
      sends i i1 (if c =? LF then [LF; CR] else [u8 c])).
    { unfold SerialBuf_overflow. destruct (c =? LF).
      - destruct (serial_write_done fuel LF i Hr) as (i1 & E1 & H1).
        destruct (serial_write_done fuel CR i1) as (i2 & E2 & H2); [by eapply sends_ready|].
        exists i2. rewrite bind_bind, (bind_done _ _ _ _ _ E1), (bind_done _ _ _ _ _ E2).
        split; [done|]. by apply (sends_trans i i1 i2 [LF] [CR] H1).
      - destruct (serial_write_done fuel c i Hr) as (i1 & E1 & H1).
        exists i1. by rewrite (bind_done _ _ _ _ _ E1). }
    destruct Hc as (i1 & E1 & H1). destruct (IH i1) as (i2 & E2 & H2); [by eapply sends_ready|].
    exists i2. cbn [feed]. rewrite (bind_done _ _ _ _ _ E1). split; [exact E2|].
    by eapply (sends_trans i i1 i2 _ _ H1).
Qed.

Lemma serial_lines fuel hd lines i : serial_ready fuel i →
  ∃ i', lines_out (SerialBuf_overflow fuel (IOPorts_new COM1)) (mret tt) (mret tt) (mret tt) hd lines (tt, i) =
      Done (tt, (tt, i')) ∧
    sends i i' (serial_bytes (concat ((λ l, hd ++ l ++ [LF]) <$> lines))).
Proof.
  revert i. induction lines as [|l lines IH]; intros i Hr.
  - exists i. split; [done|]. split; [done|]. by rewrite app_nil_r.
  - destruct (feed_serial fuel hd i Hr) as (i1 & E1 & H1).
    destruct (feed_serial fuel (l ++ [LF]) i1) as (i2 & E2 & H2); [by eapply sends_ready|].
    destruct (IH i2) as (i3 & E3 & H3); [eapply sends_ready, sends_ready; done|].
    exists i3. cbn [lines_out]. unfold line_out. rewrite !bind_bind, ret_bind, !bind_bind.
    unfold on_delegate, zoom. unfold mbind, prog_bind, mret, prog_ret. cbn [fst snd].
    rewrite E1. cbn [fst snd]. rewrite E2. cbn [fst snd]. split; [exact E3|].
    replace (serial_bytes (concat ((λ l, hd ++ l ++ [LF]) <$> l :: lines)))
      with ((serial_bytes hd ++ serial_bytes (l ++ [LF])) ++ serial_bytes (concat ((λ l, hd ++ l ++ [LF]) <$> lines)))
      by (cbn [fmap list_fmap concat]; by rewrite <- !serial_bytes_app, app_assoc).
    eapply sends_trans; [|exact H3]. by eapply sends_trans.
Qed.

(** ** The console: a log line is a coloured [puts] *)
Definition print_line (color : Z) (text : list Z) : vga_prog unit :=
  old ← get_fg; set_fg color ;; puts text ;; set_fg old.

Fixpoint print_lines (color : Z) (texts : list (list Z)) : vga_prog unit :=
  match texts with [] => mret tt | t :: texts => print_line color t ;; print_lines color texts end.

(** Programs of the console return and keep the colours. *)
Definition keeps_colors (p : vga_prog unit) : Prop := ∀ v, ∃ v', p v = Done (tt, v') ∧
  global_fg v' = global_fg v ∧ global_bg v' = global_bg v.

Lemma keeps_colors_bind p (k : unit → vga_prog unit) : keeps_colors p → keeps_colors (k tt) → keeps_colors (p ≫= k).
Proof.
  intros Hp Hk v. destruct (Hp v) as (v1 & E1 & F1 & B1). destruct (Hk v1) as (v2 & E2 & F2 & B2).
  exists v2. rewrite (bind_done _ _ _ _ _ E1). split; [done|]. by rewrite F2, B2.
Qed.

Lemma keeps_colors_gets {A} (f : vga → A) (k : A → vga_prog unit) :
  (∀ a, keeps_colors (k a)) → keeps_colors (gets f ≫= k).
Proof. intros Hk v. rewrite gets_bind. apply Hk. Qed.

Lemma keeps_colors_ret : keeps_colors (mret tt).
Proof. intros v. by exists v. Qed.

Lemma keeps_colors_line l : keeps_colors (set_line l).
Proof. intros v. by eexists. Qed.
Lemma keeps_colors_column c : keeps_colors (set_column c).
Proof. intros v. by eexists. Qed.
Lemma keeps_colors_mem f : keeps_colors (on_vga_mem f).
Proof. intros v. by eexists. Qed.

#[local] Hint Resolve keeps_colors_bind keeps_colors_gets keeps_colors_ret keeps_colors_line
  keeps_colors_column keeps_colors_mem : core.

Lemma line_break_colors : keeps_colors line_break.
Proof.
  unfold line_break, new_line, carriage_return, scroll, empty_cell.
  apply keeps_colors_bind; [|auto]. apply keeps_colors_gets. intros l.
  apply keeps_colors_bind; [auto|]. destruct (_ =? _); auto.
Qed.

Lemma putc_color_colors c fg bg : keeps_colors (putc_color c fg bg).
Proof.
  unfold putc_color, cursor_next, carriage_return, cursor_address.
  destruct (c =? LF); [apply line_break_colors|]. destruct (c =? CR); [auto|].
  apply keeps_colors_gets. intros p. apply keeps_colors_bind; [auto|].
  apply keeps_colors_gets. intros l. apply keeps_colors_bind; [auto|].
  destruct (_ =? _); [apply line_break_colors|auto].
Qed.

Lemma puts_color_colors s fg bg : keeps_colors (puts_color s fg bg).
Proof.
  induction s as [|c s IH]; [apply keeps_colors_ret|]. cbn [puts_color].
  apply keeps_colors_bind; [apply putc_color_colors|done].
Qed.

Lemma feed_vga s v : feed VgaBuf_overflow s v = puts_color s (global_fg v) (global_bg v) v.
Proof.
  revert v. induction s as [|c s IH]; intros v; [done|]. cbn [feed puts_color].
  destruct (putc_color_colors c (global_fg v) (global_bg v) v) as (v' & E & F & B).
  assert (E' : VgaBuf_overflow c v = Done (c, v')).
  { unfold VgaBuf_overflow, putc, get_fg, get_bg. repeat step_prog. by rewrite (bind_done _ _ _ _ _ E). }
  rewrite (bind_done _ _ _ _ _ E), (bind_done _ _ _ _ _ E'), IH. by rewrite F, B.
Qed.

Lemma print_line_fg color t v : ∃ v', print_line color t v = Done (tt, v') ∧ global_fg v' = global_fg v.
Proof.
  unfold print_line, get_fg, set_fg, get_bg. rewrite gets_bind, modify_bind.
  edestruct (puts_color_colors t) as (v' & E & F & B). rewrite (bind_done _ _ _ _ _ (E : puts t _ = _)). by eexists.
Qed.

Lemma vga_line hd l e sv v :
  line_out VgaBuf_overflow vga_pre_prefix (mret tt) vga_end_line hd l (mkColors e sv, v) =
    match print_line e (hd ++ l ++ [LF]) v with
    | Done (_, v') => Done (tt, (mkColors e (global_fg v), v'))
    | Panic m => Panic m | Fault m => Fault m | Fuel => Fuel
    end.
Proof.
  set (v1 := mkVga (vga_mem v) (cursor_line v) (cursor_column v) e (global_bg v)).
  destruct (puts_color_colors hd e (global_bg v) v1) as (v2 & E2 & F2 & B2).
  destruct (puts_color_colors (l ++ [LF]) e (global_bg v) v2) as (v3 & E3 & F3 & B3).
  assert (E : feed VgaBuf_overflow (hd ++ l ++ [LF]) v1 = Done (tt, v3)).
  { rewrite feed_app. rewrite (bind_done _ _ _ tt v2) by by rewrite feed_vga.
    by rewrite feed_vga, F2, B2. }
  unfold line_out, print_line, vga_pre_prefix, vga_end_line, get_fg, set_fg, puts, get_bg, on_delegate, zoom, gets,
    modify, mbind, prog_bind, mret, prog_ret.
  cbn [fst snd _expected_color _saved_color global_fg global_bg vga_mem cursor_line cursor_column]. fold v1.
  rewrite !feed_vga. change (global_fg v1) with e. change (global_bg v1) with (global_bg v).
  rewrite E2. cbn [fst snd]. rewrite feed_vga, F2, B2. change (global_fg v1) with e. change (global_bg v1) with (global_bg v).
  rewrite E3. cbn [fst snd _saved_color].
  rewrite feed_vga in E. change (global_fg v1) with e in E. change (global_bg v1) with (global_bg v) in E.
  change (get_fg v1) with (Done (e, v1)). cbn beta iota. change (global_bg v1) with (global_bg v). by rewrite E.
Qed.

Lemma vga_lines hd lines e sv v : ∃ v', print_lines e ((λ l, hd ++ l ++ [LF]) <$> lines) v = Done (tt, v') ∧
  global_fg v' = global_fg v ∧
  lines_out VgaBuf_overflow vga_pre_prefix (mret tt) vga_end_line hd lines (mkColors e sv, v) =
    Done (tt, (mkColors e (if lines is [] then sv else global_fg v), v')).
Proof.
  revert sv v. induction lines as [|l lines IH]; intros sv v; [by exists v|].
  destruct (print_line_fg e (hd ++ l ++ [LF]) v) as (v1 & E1 & F1).
  destruct (IH (global_fg v) v1) as (v2 & E2 & F2 & E3). exists v2.
  cbn [fmap list_fmap print_lines lines_out]. rewrite (bind_done _ _ _ _ _ E1).
  split; [done|]. split; [congruence|].
  erewrite bind_done by (rewrite vga_line, E1; reflexivity). rewrite E3. destruct lines; [done|]. by rewrite F1.
Qed.

(** ** Both buffers of a channel *)
Section Channel.
Context (fuel : nat) (enabled : LogLevel).
#[local] Existing Instance composite_buf.

Lemma feed_comp text bA h v bB i bA' h' v' bB' i' :
  feed (vga_log_overflow enabled) text (bA, (h, v)) = Done (tt, (bA', (h', v'))) →
  feed (serial_log_overflow fuel (IOPorts_new COM1) enabled) text (bB, (tt, i)) = Done (tt, (bB', (tt, i'))) →
  feed (comp_overflow fuel enabled) text (mkSink (Some (bA, h)) (Some bB) v i) =
    Done (tt, mkSink (Some (bA', h')) (Some bB') v' i').
Proof.
  revert bA h v bB i. induction text as [|c text IH]; intros bA h v bB i; cbn [feed].
  - intros [= -> -> ->] [= -> ->]. done.
  - intros Ha Hb.
    destruct (vga_log_overflow enabled c (bA, (h, v))) as [[ra [bA1 [h1 v1]]]| | |] eqn:Ea;
      [|by unfold mbind, prog_bind in Ha; rewrite Ea in Ha..].
    destruct (serial_log_overflow fuel (IOPorts_new COM1) enabled c (bB, (tt, i))) as [[rb [bB1 [[] i1]]]| | |] eqn:Eb;
      [|by unfold mbind, prog_bind in Hb; rewrite Eb in Hb..].
    rewrite (bind_done _ _ _ _ _ Ea) in Ha. rewrite (bind_done _ _ _ _ _ Eb) in Hb.
    rewrite (bind_done _ _ _ rb (mkSink (Some (bA1, h1)) (Some bB1) v1 i1)); [by apply IH|].
    unfold comp_overflow, on_a, on_b, mbind, prog_bind. cbn [snk_a snk_b snk_vga snk_io].
    rewrite Ea. cbn [snk_a snk_b snk_vga snk_io]. by rewrite Eb.
Qed.

Lemma put_all_feed text o (s : sink) : streambuf_ o = true →
  put_all (H := composite_buf fuel enabled) text (o, s) =
    match feed (comp_overflow fuel enabled) text s with
    | Done (_, s') => Done (tt, (o, s'))
    | Panic m => Panic m | Fault m => Fault m | Fuel => Fuel
    end.
Proof.
  intros Ho. revert s. induction text as [|c text IH]; intros s; [done|]. cbn [put_all feed].
  assert (Ep : put (H := composite_buf fuel enabled) c (o, s) =
    match comp_overflow fuel enabled c s with
    | Done (_, s1) => Done (tt, (o, s1))
    | Panic m => Panic m | Fault m => Fault m | Fuel => Fuel
    end).
  { unfold put, on_buf, zoom, sputc. rewrite gets_bind. cbn [fst]. rewrite Ho.
    unfold mbind, prog_bind. cbn [snd fst overflow composite_buf]. by destruct (comp_overflow fuel enabled c s) as [[??]| | |]. }
  unfold mbind at 1 2, prog_bind at 1 2. rewrite Ep.
  destruct (comp_overflow fuel enabled c s) as [[r s1]| | |]; [|done..]. apply IH.
Qed.

Lemma show_literal_feed text (s : sink) :
  show_literal (H := composite_buf fuel enabled) text (ostream_over_buffer, s) =
    match feed (comp_overflow fuel enabled) text s with
    | Done (_, s') => Done (tt, (ostream_over_buffer, s'))
    | Panic m => Panic m | Fault m => Fault m | Fuel => Fuel
    end.
Proof.
  unfold show_literal. rewrite gets_bind. unfold fill_field. rewrite bind_bind, gets_bind.
  cbn [fst ostream_over_buffer width_ fillch_]. change (Z.to_nat 0) with O. cbn [fill_loop].
  destruct (Z.ltb_spec (Z.of_nat (length text)) 0); [lia|]. rewrite ret_bind. by apply put_all_feed.
Qed.
End Channel.

(** A channel between two lines. *)
Definition at_line (prefix : list Z) (lg : StaticLogger) (l : LogLevel) : Prop :=
  ∃ saved, lg_channel lg l = mkChannel ostream_over_buffer
    (Some (mkLogBuf prefix l true true, mkColors (color l) saved)) (Some (mkLogBuf prefix l true true)).

(** A new logger stands between lines on every level; making it sends nothing but
    the configuration of the port. *)
Lemma build_sb_done prefix l i : ∃ i',
  build_sb prefix l i = Done (mkChannel ostream_over_buffer
    (Some (mkLogBuf prefix l true true, mkColors (color l) (color l))) (Some (mkLogBuf prefix l true true)), i') ∧
  io_input i' = io_input i.
Proof. eexists. split; reflexivity. Qed.

Lemma StaticLogger_new_at_line prefix level i :
  ∃ lg i', StaticLogger_new prefix level i = Done (lg, i') ∧ lg_level lg = level ∧ io_input i' = io_input i ∧
    ∀ l, at_line prefix lg l.
Proof.
  destruct (build_sb_done prefix DEBUG i) as (i1 & E1 & H1).
  destruct (build_sb_done prefix INFO i1) as (i2 & E2 & H2).
  destruct (build_sb_done prefix NOTICE i2) as (i3 & E3 & H3).
  destruct (build_sb_done prefix WARNING i3) as (i4 & E4 & H4).
  destruct (build_sb_done prefix ERROR i4) as (i5 & E5 & H5).
  destruct (build_sb_done prefix CRITICAL i5) as (i6 & E6 & H6).
  unfold StaticLogger_new.
  rewrite (bind_done _ _ _ _ _ E1), (bind_done _ _ _ _ _ E2), (bind_done _ _ _ _ _ E3),
    (bind_done _ _ _ _ _ E4), (bind_done _ _ _ _ _ E5), (bind_done _ _ _ _ _ E6).
  do 2 eexists. split; [reflexivity|]. split; [done|]. split; [congruence|].
  intros []; by eexists.
Qed.

(** * Properties *)

(** C31: a log statement prints its lines with the header of the logger: text made of
    whole lines, on a level that is enabled, appears on the console with the prefix
    in front of every line, each in the colour of the level and with the old colour
    put back behind it, and the same text leaves the serial port, a line break as LF
    and CR; on a level that is not enabled nothing happens at all. *)
Theorem log_lines_correct fuel lg l prefix lines v i
    (Hlines : Forall (λ line, LF ∉ line) lines) (Hat : at_line prefix lg l) (Hready : serial_ready fuel i) :
  let text := concat ((λ line, line ++ [LF]) <$> lines) in
  let shown := (λ line, prefix ++ line ++ [LF]) <$> lines in
  let enabled := lg_level lg in
  ∃ lg' v' i', log_statement l (show_literal (H := composite_buf fuel enabled) text) (lg, (v, i)) =
      Done (tt, (lg', (v', i'))) ∧
    at_line prefix lg' l ∧ lg_level lg' = enabled ∧ (∀ l', l' ≠ l → lg_channel lg' l' = lg_channel lg l') ∧
    global_fg v' = global_fg v ∧ serial_ready fuel i' ∧
    if LogLevel_value l <=? LogLevel_value enabled then
      print_lines (color l) shown v = Done (tt, v') ∧
      out_bytes COM1 i' = out_bytes COM1 i ++ serial_bytes (concat shown)
    else v' = v ∧ i' = i.
Proof.
  intros text shown enabled. destruct Hat as [sv Hat]. unfold log_statement. rewrite Hat.
  cbn [ch_stream ch_vga ch_serial]. rewrite show_literal_feed.
  destruct (Z.leb_spec (LogLevel_value l) (LogLevel_value enabled)) as [Hl|Hl].
  - destruct (vga_lines prefix lines (color l) sv v) as (v' & Ep & Ef & Ev).
    destruct (serial_lines fuel prefix lines i Hready) as (i' & Ei & Hs).
    assert (Ha : feed (vga_log_overflow enabled) text (mkLogBuf prefix l true true, (mkColors (color l) sv, v)) =
      Done (tt, (mkLogBuf prefix l true true, (mkColors (color l) (if lines is [] then sv else global_fg v), v')))).
    { unfold vga_log_overflow, text. by rewrite over_lines, hook_done, Ev. }
    assert (Hb : feed (serial_log_overflow fuel (IOPorts_new COM1) enabled) text (mkLogBuf prefix l true true, (tt, i)) =
      Done (tt, (mkLogBuf prefix l true true, (tt, i')))).
    { unfold serial_log_overflow, text. by rewrite over_lines, hook_done, Ei. }
    rewrite (feed_comp _ _ _ _ _ _ _ _ _ _ _ _ _ Ha Hb).
    do 3 eexists. split; [reflexivity|]. split_and!; try done.
    + eexists. cbn [lg_channel snk_a snk_b]. by rewrite decide_True.
    + intros l' Hne. cbn [lg_channel]. by rewrite decide_False.
    + by eapply sends_ready.
    + apply Hs.
  - set (b := mkLogBuf prefix l true true).
    assert (Ha : feed (vga_log_overflow enabled) text (b, (mkColors (color l) sv, v)) =
      Done (tt, (b, (mkColors (color l) sv, v)))) by by apply over_disabled.
    assert (Hb : feed (serial_log_overflow fuel (IOPorts_new COM1) enabled) text (b, (tt, i)) = Done (tt, (b, (tt, i))))
      by by apply over_disabled.
    rewrite (feed_comp _ _ _ _ _ _ _ _ _ _ _ _ _ Ha Hb).
    do 3 eexists. split; [reflexivity|]. split_and!; try done.
    + eexists. cbn [lg_channel snk_a snk_b]. by rewrite decide_True.
    + intros l' Hne. cbn [lg_channel]. by rewrite decide_False.
Qed.

(** ** Witnesses *)
Lemma log_lines_correct_witness :
  ∃ lg i, StaticLogger_new (chars_of "main: ") NOTICE (io_start (λ _, 0x20)) = Done (lg, i) ∧
    ∃ lg' v' i', log_statement WARNING (show_literal (H := composite_buf 1 NOTICE) (chars_of "up" ++ [LF]))
        (lg, (vga_start ∅, i)) = Done (tt, (lg', (v', i'))) ∧
      print_lines yellow [chars_of "main: up" ++ [LF]] (vga_start ∅) = Done (tt, v').
Proof.
  destruct (StaticLogger_new_at_line (chars_of "main: ") NOTICE (io_start (λ _, 0x20))) as (lg & i & E & El & Hi & Hat).
  exists lg, i. split; [exact E|]. rewrite <- El.
  edestruct (log_lines_correct 1 lg) with (l := WARNING) (lines := [chars_of "up"]) (v := vga_start ∅)
    as (lg' & v' & i' & E' & H).
  - constructor; [vm_compute; set_solver|constructor].
  - apply Hat.
  - intros n. exists 0%nat. rewrite Hi. split; [lia|reflexivity].
  - exists lg', v', i'. split; [exact E'|]. rewrite El in H. apply H.
Defined.
