(* ===== verification/Boot.v ===== *)
(** * From the boot loader to the scheduler

    [main.cpp]: [kernel_main] up to the start of the scheduler, as the composition
    of the components it brings up; [libkernelcxx/src/cxxabi.cpp]: the global
    constructors and the guards of local statics.  Objects come from [kmalloc]. *)
From stdpp Require Import base functions tactics numbers list gmap strings.
From S2P Require Import Prelude MemUtils MemoryRegion FreeList Buddy BitArray PageProvider KernelHeap PageAllocator.
From S2P Require Import Slab Mallocator Multiboot MemoryInit SelfTest Ports Irq Timer Keyboard Vga Containers Segments Ps2.

(** ** [cxxabi.cpp]: guards of local statics

    A guard is an atomic boolean; the second component says whether the caller is
    to construct the object. *)
Definition cxa_guard_acquire (g : Z) : Z * Z :=
  let '(g, ok) := atomic_compare_exchange 0 1 g in (g, if ok then 1 else 0).
Definition cxa_guard_release (g : Z) : Z := g.
Definition cxa_guard_abort (g : Z) : Z := (atomic_compare_exchange 1 0 g).1.

(** A call of a virtual function that no class defines yet; destructors of globals are
    never registered, because the kernel does not end. *)
Definition cxa_pure_virtual {St A} : prog St A :=
  panic ("Pure virtual function is called" +:+ String (Ascii.ascii_of_N 10) EmptyString).
Definition cxa_atexit (destructor arg dso : Z) : Z := 0.

(** A local static with its guard and initialiser, as the compiler uses them. *)
Definition static_local {St} (get : St → Z) (put : Z → St → St) (init : prog St unit) : prog St unit :=
  g ← gets get;
  let '(g, fresh) := cxa_guard_acquire g in
  modify (put g) ;;
  if fresh =? 1 then init ;; modify (λ s, put (cxa_guard_release (get s)) s) else mret tt.

(** ** The kernel *)
Record kernel (D : Type) : Type := mkKernel {
  k_cpu : cpu;
  k_idt : IDT;
  k_idtr : option Z;
  k_global_handler : bool;
  k_memory : kernel_memory;
  k_vga : vga;
  k_io : io;
  k_pic : option (Z * bool);   (* [InterruptController::_instance] and its [_controller_initialized] *)
  k_divider : FrequencyDivider;
  k_instance : Z;   (* [InterruptsManager::_instance] *)
  k_ps2 : ps2 D     (* with the interrupts manager *)
}.
Arguments mkKernel {D}. Arguments k_cpu {D}. Arguments k_idt {D}. Arguments k_idtr {D}.
Arguments k_global_handler {D}. Arguments k_memory {D}. Arguments k_vga {D}. Arguments k_io {D}.
Arguments k_pic {D}. Arguments k_divider {D}. Arguments k_instance {D}. Arguments k_ps2 {D}.

(** What the compiler lays out. *)
Record object_sizes : Type := mkSizes {
  sizeof_InterruptsManager : Z; sizeof_PIC8259 : Z; sizeof_trap_handler : Z; sizeof_list_node : Z;
  sizeof_FrequencyDivider : Z; sizeof_PitIRQHandler : Z; sizeof_PS2IRQHandler : Z
}.

Section Main.
Context {D : Type} `{PS2Device D}.
Context (fuel : nat) (Hfuel : 2 ^ 20 + 1 < Z.of_nat fuel) (ps2_fuel : nat) (sizes : object_sizes).
(** Addresses: the stubs, the task state segment, the linker's end of the image and
    what the loader passed. *)
Context (asm_irq_handler : Z → Z) (single_task kobj_end temp_boot_info : Z).
Abbreviation kprog := (prog (kernel D)).

Definition set_cpu (c : cpu) (k : kernel D) : kernel D :=
  mkKernel c (k_idt k) (k_idtr k) (k_global_handler k) (k_memory k) (k_vga k) (k_io k)
    (k_pic k) (k_divider k) (k_instance k) (k_ps2 k).
Definition set_idtr (r : option Z) (k : kernel D) : kernel D :=
  mkKernel (k_cpu k) (k_idt k) r (k_global_handler k) (k_memory k) (k_vga k) (k_io k)
    (k_pic k) (k_divider k) (k_instance k) (k_ps2 k).
Definition set_memory (m : kernel_memory) (k : kernel D) : kernel D :=
  mkKernel (k_cpu k) (k_idt k) (k_idtr k) (k_global_handler k) m (k_vga k) (k_io k)
    (k_pic k) (k_divider k) (k_instance k) (k_ps2 k).
Definition set_vga (v : vga) (k : kernel D) : kernel D :=
  mkKernel (k_cpu k) (k_idt k) (k_idtr k) (k_global_handler k) (k_memory k) v (k_io k)
    (k_pic k) (k_divider k) (k_instance k) (k_ps2 k).
Definition set_io (i : io) (pic : option (Z * bool)) (d : FrequencyDivider) (k : kernel D) : kernel D :=
  mkKernel (k_cpu k) (k_idt k) (k_idtr k) (k_global_handler k) (k_memory k) (k_vga k) i
    pic d (k_instance k) (k_ps2 k).
Definition set_ps2 (p : ps2 D) (k : kernel D) : kernel D :=
  mkKernel (k_cpu k) (k_idt k) (k_idtr k) (k_global_handler k) (k_memory k) (k_vga k) (k_io k)
    (k_pic k) (k_divider k) (k_instance k) p.
Definition set_manager_object (p : Z) (k : kernel D) : kernel D :=
  mkKernel (k_cpu k) (k_idt k) (k_idtr k) true (k_memory k) (k_vga k) (k_io k)
    (k_pic k) (k_divider k) p (k_ps2 k).

Definition on_cpu {A} : cpu_prog A → kprog A := zoom k_cpu set_cpu.
Definition on_memory {A} : km_prog A → kprog A := zoom k_memory set_memory.
Definition on_console {A} : vga_prog A → kprog A := zoom k_vga set_vga.
Definition on_ports {A} : io_prog A → kprog A :=
  zoom k_io (λ i k, set_io i (k_pic k) (k_divider k) k).

(** The PS/2 part sees the one interrupt state. *)
Definition with_irq (i : irq_state) (p : ps2 D) : ps2 D :=
  mkPs2 (device p) (sent p) (known_devices p) (active_devices p) (ps2_manager p) i (ps2_keyboard p).
Definition on_ps2 {A} : prog (ps2 D) A → kprog A :=
  zoom (λ k, with_irq (cpu_irq (k_cpu k)) (k_ps2 k))
    (λ p k, set_ps2 p (set_cpu (mkCpu (cpu_gdt (k_cpu k)) (cpu_gdtr (k_cpu k)) (cpu_data (k_cpu k))
                                  (cpu_cs (k_cpu k)) (cpu_tr (k_cpu k)) (ps2_irq p)) k)).

(** ** [new]: the compiler does not test what [operator new] returns.  The node of a list
    is an array of one behind its cookie, so the test of the list for null never holds. *)
Definition new_object (size : Z) : kprog Z :=
  p ← on_memory (kmalloc fuel Hfuel size);
  if p =? nullptr then fault null_object else mret p.

Definition push_node : kprog bool :=
  p ← on_memory (kmalloc fuel Hfuel (sizeof_list_node sizes + array_cookie));
  if p =? nullptr then fault null_object else mret true.

Definition on_manager (f : InterruptsManager → outcome InterruptsManager) : kprog unit := λ k,
  if k_instance k =? nullptr then Fault "no interrupts manager"
  else match f (ps2_manager (k_ps2 k)) with
       | Done m => Done (tt, set_ps2 (mkPs2 (device (k_ps2 k)) (sent (k_ps2 k)) (known_devices (k_ps2 k))
                                        (active_devices (k_ps2 k)) m (ps2_irq (k_ps2 k)) (ps2_keyboard (k_ps2 k))) k)
       | Panic msg => Panic msg | Fault msg => Fault msg | Fuel => Fuel
       end.

Definition add_handler (vector handler : Z) : kprog unit :=
  push ← push_node; on_manager (add_irq_handler push vector handler).
Definition add_trap_handler (exc handler : Z) : kprog unit :=
  push ← push_node; on_manager (add_exception_handler push exc handler).

(** ** The stages *)
Fixpoint call_global_ctors (ctors : list (kprog unit)) : kprog unit :=
  match ctors with [] => mret tt | f :: ctors => f ;; call_global_ctors ctors end.

(** The constructors of the globals that are not initialised statically: those of
    [memory.cpp] and the processor of [main.cpp]. *)
Definition construct_memory : kprog unit := modify (λ k,
  let m := k_memory k in
  set_memory (mkKernelMemory (boot_info m) MemoryRegion_default
    (mkPages (pg_mem (highmem_pages m)) BuddyAllocator_default PageAllocator_default) Mallocator_default) k).

Definition construct_processor : kprog unit := modify (λ k,
  mkKernel (mkCpu (mkVector (repeat 0 1024) 0) (cpu_gdtr (k_cpu k)) (cpu_data (k_cpu k)) (cpu_cs (k_cpu k))
              (cpu_tr (k_cpu k)) (cpu_irq (k_cpu k)))
    (IDT_new asm_irq_handler) (k_idtr k) (k_global_handler k) (k_memory k) (k_vga k) (k_io k)
    (k_pic k) (k_divider k) (k_instance k) (k_ps2 k)).

Definition global_ctors : list (kprog unit) := [construct_memory; construct_processor].

Definition init_multiboot : kprog unit := modify (λ k,
  let m := k_memory k in
  set_memory (mkKernelMemory (multiboot_init temp_boot_info (pg_mem (highmem_pages m))) (highmem m)
    (highmem_pages m) (highmem_mallocator m)) k).

Definition load_interrupts_table : kprog unit := modify (λ k, set_idtr (Some (idt_limit (k_idt k))) k).

Fixpoint install_traps (traps : list (Z * bool * string)) : kprog unit :=
  match traps with
  | [] => mret tt
  | (exc, _, _) :: traps =>
      h ← new_object (sizeof_trap_handler sizes);
      add_trap_handler exc h ;;
      install_traps traps
  end.

Definition InterruptsManager_init : kprog unit :=
  p ← new_object (sizeof_InterruptsManager sizes);
  modify (λ k, set_manager_object p
    (set_ps2 (mkPs2 (device (k_ps2 k)) (sent (k_ps2 k)) (known_devices (k_ps2 k)) (active_devices (k_ps2 k))
                InterruptsManager_new (ps2_irq (k_ps2 k)) (ps2_keyboard (k_ps2 k))) k)) ;;
  install_traps installed_traps.

(** [InterruptController::instance]: the first call makes the object.  The later ones, of the timer,
    of the PS/2 lines and of the handlers, find it and change nothing; they are left out. *)
Definition InterruptController_instance : kprog Z :=
  pic ← gets k_pic;
  match pic with
  | Some (p, _) => mret p
  | None =>
      p ← new_object (sizeof_PIC8259 sizes);
      modify (λ k, set_io (k_io k) (Some (p, false)) (k_divider k) k) ;;
      mret p
  end.

Definition init_pic : kprog unit :=
  interrupt_controller ← InterruptController_instance;
  initialized ← gets (λ k, from_option snd false (k_pic k));
  initialized ← on_ports (Irq.initialize_controller initialized);
  modify (λ k, set_io (k_io k) (Some (interrupt_controller, initialized)) (k_divider k) k).

Definition init_pit : kprog unit :=
  new_object (sizeof_FrequencyDivider sizes) ;;
  divider ← on_ports pit_init;
  h ← new_object (sizeof_PitIRQHandler sizes);
  modify (λ k, set_io (k_io k) (k_pic k) divider k) ;;
  add_handler (min_irq_vector + 0) h.

(** The sleeps of the boot run before [init_scheduling]. *)
Definition boot_sleeping : Sleeping := mkSleeping nullptr ps2_fuel.

Definition init_ps2 : kprog unit :=
  on_ps2 (prepare_controller (SC := boot_sleeping) ps2_fuel) ;;
  h ← new_object (sizeof_PS2IRQHandler sizes);
  add_handler FIRST_LINE_IRQ h ;;
  add_handler SECOND_LINE_IRQ h ;;
  on_ps2 (finish_controller (SC := boot_sleeping) ps2_fuel).

(** [kernel_main] up to the start of the scheduler, in parts; log output is left out. *)
Definition early_init : kprog unit :=
  on_cpu (on_cpu_irq disable) ;;
  init_multiboot ;;
  call_global_ctors global_ctors ;;
  on_console clear_screen ;;
  on_cpu (load_kernel_segments single_task) ;;
  load_interrupts_table.

Definition device_init : kprog unit :=
  InterruptsManager_init ;;
  init_pic ;;
  init_pit ;;
  on_cpu (on_cpu_irq enable) ;;
  init_ps2.

Definition kernel_init (ost_callers : list (km_prog unit)) : kprog unit :=
  early_init ;; on_memory (memory_init fuel Hfuel kobj_end) ;; device_init ;; on_memory (ost_run ost_callers).
End Main.

(** * Verification *)

(** ** Guards: the initialiser of a local static runs on the first pass only *)
Lemma static_local_once {St} (get : St → Z) put (init : prog St unit) s s1 s2 :
  (∀ g s, get (put g s) = g) → (∀ g g' s, put g (put g' s) = put g s) → (∀ s, put (get s) s = s) →
  get s = 0 → init (put 1 s) = Done (tt, s1) → get s1 = 1 →
  static_local get put init s = Done (tt, s1) ∧
  (get s2 = 1 → static_local get put init s2 = Done (tt, s2)).
Proof.
  intros Hget Hput Hid Hs Hi H1. split.
  - unfold static_local. rewrite gets_bind, Hs. change (cxa_guard_acquire 0) with (1, 1). cbn beta iota.
    rewrite modify_bind. cbn [Z.eqb Pos.eqb]. rewrite (bind_done _ _ _ _ _ Hi).
    unfold modify, cxa_guard_release. by rewrite Hid.
  - intros H2. unfold static_local. rewrite gets_bind, H2. change (cxa_guard_acquire 1) with (1, 0). cbn beta iota.
    rewrite modify_bind. cbn [Z.eqb]. rewrite <- H2 at 1. by rewrite Hid.
Qed.

(** Membership in a list that is written out. *)
Ltac in_list := repeat first [apply list_elem_of_here | apply list_elem_of_further].

(** ** How the start can end *)
Definition boot_panics : list string :=
  [ "Initializing of internal allocator failed!"; "Initializing of chain failed!";
    "PS/2: controller self-test failed!" ].

Section Boot.
Context {D : Type} `{PS2Device D}.
Context (fuel : nat) (Hfuel : 2 ^ 20 + 1 < Z.of_nat fuel) (Hslab : 2 ^ 29 ≤ Z.of_nat fuel).
Context (ps2_fuel : nat) (Hdrain : ∀ d, drained ps2_fuel d = true).
Context (sizes : object_sizes) (asm_irq_handler : Z → Z) (single_task kobj_end temp_boot_info : Z).
Abbreviation kprog := (prog (kernel D)).
Let provider : PageProvider pages := pages_provider fuel Hfuel.

(** A null pointer that is used: what [new] returned, or the scheduler that is not made yet, by a wait
    for the PS/2 controller that is not satisfied at once. *)
Definition stalled_wait : Prop := ∃ d : D, stalled out_buf_status true d ∨ stalled in_buf_status false d.
Definition null_used (msg : string) : Prop := msg = null_object ∨ msg = null_scheduler ∧ stalled_wait.

Lemma crashed_stalled `{SC : Sleeping} {A} (r : outcome A) : crashed (D := D) r → r = Fault null_scheduler ∧ stalled_wait.
Proof. intros [(_ & E & d & Hd)|(_ & E & d & Hd)]; (split; [done|exists d]); tauto. Qed.

(** Returned with [Q], or stopped in one of the ways above. *)
Definition allowed {A} (Q : A → kernel D → Prop) (o : outcome (A * kernel D)) : Prop :=
  match o with
  | Done (a, k) => Q a k
  | Panic msg => msg ∈ boot_panics ∨ exhausted msg
  | Fault msg => null_used msg
  | Fuel => False
  end.

Lemma allowed_elim (Q : kernel D → Prop) (o : outcome (unit * kernel D)) : allowed (λ _, Q) o →
  match o with
  | Done (_, k) => Q k
  | Panic msg => msg ∈ boot_panics ∨ exhausted msg | Fault msg => null_used msg | Fuel => False
  end.
Proof. by destruct o as [[??]| | |]. Qed.

Lemma allowed_bind {A B} (p : kprog A) (f : A → kprog B) Q R k :
  allowed Q (p k) → (∀ a k', Q a k' → allowed R (f a k')) → allowed R ((p ≫= f) k).
Proof. unfold mbind, prog_bind. destruct (p k) as [[a k']| | |]; cbn; auto. Qed.

Lemma allowed_done {A B} (p : kprog A) (f : A → kprog B) R k a k' :
  p k = Done (a, k') → allowed R (f a k') → allowed R ((p ≫= f) k).
Proof. intros E. by rewrite (bind_done _ _ _ _ _ E). Qed.

(** ** Allocation and registration *)
Definition put_manager (mg : InterruptsManager) (k : kernel D) : kernel D :=
  set_ps2 (mkPs2 (device (k_ps2 k)) (sent (k_ps2 k)) (known_devices (k_ps2 k)) (active_devices (k_ps2 k)) mg
             (ps2_irq (k_ps2 k)) (ps2_keyboard (k_ps2 k))) k.
Abbreviation manager k := (ps2_manager (k_ps2 k)).

(** [k'] is [k] with more allocated and with the manager [mg]. *)
Definition grown (mg : InterruptsManager) (k k' : kernel D) : Prop :=
  ∃ m, k' = set_memory m (put_manager mg k) ∧ memory_up fuel Hfuel m ∧ highmem m = highmem (k_memory k).

Lemma grown_refl k : memory_up fuel Hfuel (k_memory k) → grown (manager k) k k.
Proof. intros Hm. exists (k_memory k). split; [|done]. by destruct k as [? ? ? ? ? ? ? ? ? ? []]. Qed.

Lemma grown_trans mg1 mg2 k k1 k2 : grown mg1 k k1 → grown mg2 k1 k2 → grown mg2 k k2.
Proof. intros (m1 & -> & _ & H1) (m2 & -> & Hm2 & H2). exists m2. split; [done|]. split; [done|]. by rewrite H2. Qed.

Lemma grown_up mg k k' : grown mg k k' → memory_up fuel Hfuel (k_memory k').
Proof. by intros (m & -> & Hm & _). Qed.
Lemma grown_manager mg k k' : grown mg k k' → manager k' = mg.
Proof. by intros (m & -> & _). Qed.
Lemma grown_instance mg k k' : grown mg k k' → k_instance k' = k_instance k.
Proof. by intros (m & -> & _). Qed.

Lemma kmalloc_grown n k : memory_up fuel Hfuel (k_memory k) → 1 ≤ n ≤ 2 ^ 20 →
  ∃ p k', on_memory (kmalloc fuel Hfuel n) k = Done (p, k') ∧ grown (manager k) k k'.
Proof.
  intros Hm Hn. destruct (kmalloc_up fuel Hfuel Hslab n (k_memory k) Hm Hn) as (p & m' & E & Hm' & Hh).
  exists p, (set_memory m' k). unfold on_memory, zoom. rewrite E. split; [done|].
  exists m'. split; [|done]. by destruct k as [? ? ? ? ? ? ? ? ? ? []].
Qed.

Lemma new_object_allowed n k : memory_up fuel Hfuel (k_memory k) → 1 ≤ n ≤ 2 ^ 19 →
  allowed (λ p k', p ≠ nullptr ∧ grown (manager k) k k') (new_object fuel Hfuel n k).
Proof.
  intros Hm Hn. destruct (kmalloc_grown n k Hm ltac:(lia)) as (p & k' & E & Hg).
  unfold new_object. apply (allowed_done _ _ _ _ _ _ E). destruct (Z.eqb_spec p nullptr); [by left|done].
Qed.

Lemma push_node_allowed k : memory_up fuel Hfuel (k_memory k) → 1 ≤ sizeof_list_node sizes ≤ 2 ^ 19 →
  allowed (λ b k', b = true ∧ grown (manager k) k k') (push_node fuel Hfuel sizes k).
Proof.
  intros Hm Hn. destruct (kmalloc_grown (sizeof_list_node sizes + array_cookie) k Hm) as (p & k' & E & Hg);
    [unfold array_cookie; lia|].
  unfold push_node. apply (allowed_done _ _ _ _ _ _ E). destruct (Z.eqb_spec p nullptr); [by left|done].
Qed.

(** Registering, with what [f] makes of the manager. *)
Lemma register_allowed (f : bool → InterruptsManager → outcome InterruptsManager) mg k :
  memory_up fuel Hfuel (k_memory k) → 1 ≤ sizeof_list_node sizes ≤ 2 ^ 19 → k_instance k ≠ nullptr →
  f true (manager k) = Done mg →
  allowed (λ _ k', grown mg k k') ((push ← push_node fuel Hfuel sizes; on_manager (f push)) k).
Proof.
  intros Hm Hn Hi Ht. eapply allowed_bind; [by apply push_node_allowed|]. intros b k' [-> Hg].
  unfold on_manager. rewrite (grown_instance _ _ _ Hg).
  destruct (Z.eqb_spec (k_instance k) nullptr); [done|].
  change (ps2_manager (k_ps2 k')) with (manager k'). rewrite (grown_manager _ _ _ Hg), Ht. cbn [allowed].
  eapply grown_trans; [exact Hg|]. exists (k_memory k'). split; [done|]. split; [by eapply grown_up|done].
Qed.

Lemma add_handler_allowed vector h k :
  memory_up fuel Hfuel (k_memory k) → 1 ≤ sizeof_list_node sizes ≤ 2 ^ 19 → k_instance k ≠ nullptr →
  allowed (λ _ k', grown (mkManager (<[vector := h :: irq_handlers (manager k) vector]> (irq_handlers (manager k)))
                            (exceptions_handlers (manager k))) k k')
    (add_handler fuel Hfuel sizes vector h k).
Proof. intros. by eapply (register_allowed (λ push, add_irq_handler push vector h)). Qed.

(** The handlers [install_traps] leaves: one in front for each trap in its list. *)
Definition trap_count (traps : list (Z * bool * string)) (e : Z) : nat :=
  length (filter (λ t, t.1.1 = e) traps).

Definition sizes_ok : Prop := Forall (λ n, 1 ≤ n ≤ 2 ^ 19)
  [sizeof_InterruptsManager sizes; sizeof_PIC8259 sizes; sizeof_trap_handler sizes; sizeof_list_node sizes;
   sizeof_FrequencyDivider sizes; sizeof_PitIRQHandler sizes; sizeof_PS2IRQHandler sizes].

Lemma install_traps_allowed traps k : sizes_ok → Forall (λ t, t.1.1 < exception_max) traps → memory_up fuel Hfuel (k_memory k) → k_instance k ≠ nullptr →
  allowed (λ _ k', ∃ mg, grown mg k k' ∧ irq_handlers mg = irq_handlers (manager k) ∧
      ∀ e, length (exceptions_handlers mg e) =
           (trap_count traps e + length (exceptions_handlers (manager k) e))%nat)
    (install_traps fuel Hfuel sizes traps k).
Proof.
  intros Hs Ht. assert (Hs' := Hs). unfold sizes_ok in Hs'. rewrite Forall_forall in Hs'. revert k.
  induction Ht as [|[[exc b] msg] traps Hexc Ht IH]; intros k Hm Hi; cbn [install_traps].
  { cbn. exists (manager k). split; [by apply grown_refl|done]. }
  eapply allowed_bind; [apply new_object_allowed; [done|apply Hs'; in_list]|]. intros h k1 [Hh Hg1].
  eapply allowed_bind.
  { cbn [fst] in Hexc. assert (Hlt : (exception_max <=? exc) = false) by (apply Z.leb_gt; lia).
    eapply (register_allowed (λ push, add_exception_handler push exc h));
      [by eapply grown_up|apply Hs'; in_list|by rewrite (grown_instance _ _ _ Hg1)|].
    unfold add_exception_handler. rewrite Hlt. reflexivity. }
  intros [] k2 Hg2. assert (Hi2 : k_instance k2 ≠ nullptr) by (by rewrite (grown_instance _ _ _ Hg2), (grown_instance _ _ _ Hg1)).
  specialize (IH k2 (grown_up _ _ _ Hg2) Hi2). destruct (install_traps _ _ _ _ k2) as [[[] k3]| | |]; [|done..].
  destruct IH as (mg & Hg3 & Hirq & Hcount). exists mg.
  rewrite (grown_manager _ _ _ Hg2), (grown_manager _ _ _ Hg1) in Hirq, Hcount.
  split; [eapply grown_trans; [|exact Hg3]; by eapply grown_trans|]. split; [done|].
  intros e. rewrite Hcount. cbn [exceptions_handlers]. unfold trap_count. rewrite filter_cons. cbn [fst].
  destruct (decide (exc = e)) as [->|Hne].
  - rewrite fn_lookup_insert. cbn [length]. lia.
  - by rewrite fn_lookup_insert_ne.
Qed.

(** ** The stages *)

(** Memory behind the constructors. *)
Definition loader_info (k : kernel D) : boot_info_t :=
  multiboot_init temp_boot_info (pg_mem (highmem_pages (k_memory k))).

Record early (k0 k : kernel D) : Prop := {
  early_irq : cpu_irq (k_cpu k) = mkIrq false false;
  early_segments : segments_loaded single_task (k_cpu k);
  early_idt : k_idt k = IDT_new asm_irq_handler ∧ k_idtr k = Some (idt_limit (IDT_new asm_irq_handler));
  early_memory : k_memory k = kernel_memory_default (pg_mem (highmem_pages (k_memory k0))) (loader_info k0);
  early_pic : k_pic k = k_pic k0;
  early_ps2 : k_ps2 k = k_ps2 k0
}.

Lemma early_done k0 : 0 ≤ single_task < 2 ^ 32 →
  ∃ k, early_init asm_irq_handler single_task temp_boot_info k0 = Done (tt, k) ∧ early k0 k.
Proof.
  intros Ht. unfold early_init.
  erewrite bind_done by reflexivity. erewrite bind_done by reflexivity.
  erewrite bind_done by reflexivity. set (k1 := mkKernel _ _ _ _ _ _ _ _ _ _ _).
  destruct (clear_screen_done (k_vga k1)) as (mv & Ev & _).
  erewrite bind_done by (unfold on_console, zoom; rewrite Ev; reflexivity).
  set (k2 := set_vga _ k1).
  destruct (load_kernel_segments_done single_task (k_cpu k2) Ht) as (c & Ec & Hi & Hs);
    [done|vm_compute; split; [discriminate|reflexivity]|done|].
  erewrite bind_done by (unfold on_cpu, zoom; rewrite Ec; reflexivity).
  eexists. split; [reflexivity|].
  constructor; [exact Hi|exact Hs|split; reflexivity|reflexivity..].
Qed.

Lemma memory_stage k k0 : early k0 k → is_meminfo_valid (loader_info k0) = true →
  0 ≤ high_memory (loader_info k0) < 2 ^ 21 → highmem_start ≤ kobj_end < 2 ^ 31 →
  (let r := highmem_region (high_memory (loader_info k0)) in
   align_up PAGE_SIZE kobj_end + PAGE_SIZE * map_pages r ≤ end_ r) →
  allowed (λ _ k', ∃ m, k' = set_memory m k ∧ memory_up fuel Hfuel m ∧ highmem m = highmem_region (high_memory (loader_info k0)))
    (on_memory (memory_init fuel Hfuel kobj_end) k).
Proof.
  intros He Hv Hk Hend Hroom. unfold on_memory, zoom. rewrite (early_memory _ _ He).
  destruct (memory_init_done fuel Hfuel (pg_mem (highmem_pages (k_memory k0))) (loader_info k0) kobj_end Hv Hk Hend Hroom)
    as [[[E|E] _]|(s & E & Hr & _ & al & ls & _ & _ & Hm)]; rewrite E; cbn [allowed].
  - left. in_list.
  - left. in_list.
  - exists s. split; [done|]. split; [by exists al, (λ _, ∅)|done].
Qed.

Lemma interrupts_stage k : sizes_ok → memory_up fuel Hfuel (k_memory k) →
  allowed (λ _ k', ∃ p mg, p ≠ nullptr ∧ grown mg (set_manager_object p k) k' ∧ (∀ v, irq_handlers mg v = []) ∧
      ∀ e, length (exceptions_handlers mg e) = trap_count installed_traps e)
    (InterruptsManager_init fuel Hfuel sizes k).
Proof.
  intros Hs Hm. assert (Hs' := Hs). unfold sizes_ok in Hs'. rewrite Forall_forall in Hs'.
  unfold InterruptsManager_init.
  eapply allowed_bind; [apply new_object_allowed; [done|apply Hs'; in_list]|].
  intros p k1 [Hp (m & -> & Hm' & Hh)]. rewrite modify_bind. set (k2 := set_manager_object p _).
  assert (Ht : allowed (λ _ k', ∃ mg, grown mg k2 k' ∧ irq_handlers mg = irq_handlers (manager k2) ∧
      ∀ e, length (exceptions_handlers mg e) =
           (trap_count installed_traps e + length (exceptions_handlers (manager k2) e))%nat)
    (install_traps fuel Hfuel sizes installed_traps k2)).
  { apply install_traps_allowed; [exact Hs| |exact Hm'|exact Hp]. repeat constructor. }
  destruct (install_traps _ _ _ _ k2) as [[[] k3]| | |]; [|done..].
  destruct Ht as (mg & (m3 & -> & Hm3 & Hh3) & Hirq & Hexc). exists p, mg. split; [exact Hp|]. split; [|split].
  - exists m3. split; [reflexivity|]. split; [exact Hm3|]. rewrite Hh3. exact Hh.
  - intros v. rewrite Hirq. reflexivity.
  - intros e. rewrite Hexc. apply Nat.add_0_r.
Qed.

Lemma pic_stage (k : kernel D) : sizes_ok → memory_up fuel Hfuel (k_memory k) → k_pic k = None →
  allowed (λ _ k', ∃ p i, p ≠ nullptr ∧ grown (manager k) (set_io i (Some (p, true)) (k_divider k) k) k')
    (init_pic fuel Hfuel sizes k).
Proof.
  intros Hs Hm Hp. unfold sizes_ok in Hs. rewrite Forall_forall in Hs. unfold init_pic, InterruptController_instance.
  rewrite bind_bind, gets_bind, Hp, bind_bind.
  eapply allowed_bind; [apply new_object_allowed; [done|apply Hs; in_list]|].
  intros p k1 [Hpn (m & -> & Hm1 & Hh1)]. exists p. eexists. split; [exact Hpn|].
  exists m. split; [reflexivity|]. by split.
Qed.

Lemma pit_stage (k : kernel D) : sizes_ok → memory_up fuel Hfuel (k_memory k) → k_instance k ≠ nullptr →
  allowed (λ _ k', ∃ h i d, h ≠ nullptr ∧
      grown (mkManager (<[32 := h :: irq_handlers (manager k) 32]> (irq_handlers (manager k)))
               (exceptions_handlers (manager k))) (set_io i (k_pic k) d k) k')
    (init_pit fuel Hfuel sizes k).
Proof.
  intros Hs Hm Hi. unfold sizes_ok in Hs. rewrite Forall_forall in Hs. unfold init_pit.
  eapply allowed_bind; [apply new_object_allowed; [done|apply Hs; in_list]|].
  intros dv k1 [_ (m1 & -> & Hm1 & Hh1)].
  eapply allowed_done; [reflexivity|]. set (k2 := set_io _ _ _ _).
  eapply allowed_bind; [apply new_object_allowed; [done|apply Hs; in_list]|].
  intros h k3 [Hh (m3 & -> & Hm3 & Hh3)]. rewrite modify_bind. set (k4 := set_io _ _ _ _).
  assert (Ha := add_handler_allowed (min_irq_vector + 0) h k4 Hm3 (Hs (sizeof_list_node sizes) ltac:(in_list)) Hi).
  destruct (add_handler _ _ _ _ _ k4) as [[[] k5]| | |]; [|done..].
  destruct Ha as (m5 & -> & Hm5 & Hh5). exists h. do 2 eexists. split; [exact Hh|].
  exists m5. split; [reflexivity|]. split; [exact Hm5|]. rewrite Hh5. cbn. rewrite Hh3. exact Hh1.
Qed.

(** What the devices' stage leaves alone. *)
Definition tables_kept (k k' : kernel D) : Prop :=
  k_cpu k' = k_cpu k ∧ k_idt k' = k_idt k ∧ k_idtr k' = k_idtr k ∧
  k_global_handler k' = k_global_handler k ∧ k_pic k' = k_pic k.

Lemma grown_kept mg k k' : grown mg k k' → tables_kept k k'.
Proof. by intros (m & -> & _). Qed.

Lemma tables_kept_trans k k1 k2 : tables_kept k k1 → tables_kept k1 k2 → tables_kept k k2.
Proof. unfold tables_kept. intuition congruence. Qed.

Lemma on_ps2_done {A} (p : prog (ps2 D) A) k a s : cpu_irq (k_cpu k) = mkIrq true true →
  p (with_irq (mkIrq true true) (k_ps2 k)) = Done (a, s) → ps2_irq s = mkIrq true true →
  on_ps2 p k = Done (a, set_ps2 s k).
Proof.
  intros Hi E Hs. unfold on_ps2, zoom. rewrite Hi, E, Hs. f_equal. f_equal.
  destruct k as [[g r d c t i] ? ? ? ? ? ? ? ? ? ?]. cbn in Hi. by subst i.
Qed.

Lemma ps2_stage (k : kernel D) : cpu_irq (k_cpu k) = mkIrq true true → known_devices (k_ps2 k) = [] →
  sizes_ok → memory_up fuel Hfuel (k_memory k) → k_instance k ≠ nullptr →
  allowed (λ _ k', ∃ h, h ≠ nullptr ∧ tables_kept k k' ∧ memory_up fuel Hfuel (k_memory k') ∧
      highmem (k_memory k') = highmem (k_memory k) ∧
      known_devices (k_ps2 k') = [keyboard_driver] ∧
      exceptions_handlers (manager k') = exceptions_handlers (manager k) ∧
      let f := <[FIRST_LINE_IRQ := h :: irq_handlers (manager k) FIRST_LINE_IRQ]> (irq_handlers (manager k)) in
      irq_handlers (manager k') = <[SECOND_LINE_IRQ := h :: f SECOND_LINE_IRQ]> f)
    (init_ps2 fuel Hfuel ps2_fuel sizes k).
Proof.
  intros Hirq Hk Hs Hm Hi. assert (Hs' := Hs). unfold sizes_ok in Hs'. rewrite Forall_forall in Hs'. unfold init_ps2.
  assert (Hnaps : naps (SC := boot_sleeping ps2_fuel) D).
  { split; [|done]. specialize (Hdrain (device (k_ps2 k))). cbn. destruct ps2_fuel; [done|lia]. }
  destruct (prepare_done Hnaps ps2_fuel (with_irq (mkIrq true true) (k_ps2 k)) Hdrain eq_refl Hk)
    as [[E Hst]%crashed_stalled|[E|(d1 & c0 & l1 & _ & _ & E)]].
  { assert (E' : on_ps2 (prepare_controller (SC := boot_sleeping ps2_fuel) ps2_fuel) k = Fault null_scheduler)
      by (unfold on_ps2, zoom; by rewrite Hirq, E).
    unfold mbind, prog_bind. rewrite E'. right. by split. }
  { assert (E' : on_ps2 (prepare_controller (SC := boot_sleeping ps2_fuel) ps2_fuel) k = Panic "PS/2: controller self-test failed!")
      by (unfold on_ps2, zoom; by rewrite Hirq, E).
    rewrite (bind_panic _ _ _ _ E'). cbn [allowed]. left. in_list. }
  apply (allowed_done _ _ _ _ _ _ (on_ps2_done _ _ _ _ Hirq E eq_refl)). set (k1 := set_ps2 _ k).
  eapply allowed_bind; [apply (new_object_allowed _ k1); [exact Hm|apply Hs'; in_list]|].
  intros h k2 [Hh Hg2]. assert (Hi2 : k_instance k2 ≠ nullptr) by (by rewrite (grown_instance _ _ _ Hg2)).
  eapply allowed_bind; [apply (add_handler_allowed FIRST_LINE_IRQ h k2 (grown_up _ _ _ Hg2)); [apply Hs'; in_list|exact Hi2]|].
  intros [] k3 Hg3. assert (Hi3 : k_instance k3 ≠ nullptr) by (by rewrite (grown_instance _ _ _ Hg3)).
  eapply allowed_bind; [apply (add_handler_allowed SECOND_LINE_IRQ h k3 (grown_up _ _ _ Hg3)); [apply Hs'; in_list|exact Hi3]|].
  intros [] k4 Hg4.
  rewrite (grown_manager _ _ _ Hg3), (grown_manager _ _ _ Hg2) in Hg4.
  assert (Hg := grown_trans _ _ _ _ _ (grown_trans _ _ _ _ _ Hg2 Hg3) Hg4).
  destruct Hg as (m & -> & Hm4 & Hh4). set (k5 := set_memory _ _).
  destruct (finish_done Hnaps ps2_fuel (with_irq (mkIrq true true) (k_ps2 k5)) Hdrain eq_refl eq_refl)
    as [[E5 Hst]%crashed_stalled|(a1 & a2 & d & l & c & _ & _ & E5)].
  { assert (E' : on_ps2 (finish_controller (SC := boot_sleeping ps2_fuel) ps2_fuel) k5 = Fault null_scheduler).
    { unfold on_ps2, zoom. change (cpu_irq (k_cpu k5)) with (cpu_irq (k_cpu k)). by rewrite Hirq, E5. }
    rewrite E'. right. by split. }
  rewrite (on_ps2_done _ k5 _ _ Hirq E5 eq_refl). cbn [allowed]. exists h.
  split; [exact Hh|]. split; [by split_and!|]. split; [exact Hm4|]. split; [exact Hh4|]. by split_and!.
Qed.

(** The kernel in front of the scheduler. *)
Record booted (region : MemoryRegion) (k : kernel D) : Prop := {
  booted_irq : cpu_irq (k_cpu k) = mkIrq true true;
  booted_segments : segments_loaded single_task (k_cpu k);
  booted_idt : k_idt k = IDT_new asm_irq_handler ∧ k_idtr k = Some (idt_limit (IDT_new asm_irq_handler)) ∧
    k_global_handler k = true;
  booted_memory : memory_up fuel Hfuel (k_memory k) ∧ highmem (k_memory k) = region;
  booted_pic : ∃ p, p ≠ nullptr ∧ k_pic k = Some (p, true);
  booted_lines : ∀ v, length (irq_handlers (manager k) v) =
    (if decide (v ∈ [min_irq_vector; FIRST_LINE_IRQ; SECOND_LINE_IRQ]) then 1 else 0)%nat;
  booted_traps : ∀ e, length (exceptions_handlers (manager k) e) = trap_count installed_traps e;
  booted_drivers : known_devices (k_ps2 k) = [keyboard_driver]
}.

Lemma device_stage (k : kernel D) : cpu_irq (k_cpu k) = mkIrq false false →
  segments_loaded single_task (k_cpu k) →
  k_idt k = IDT_new asm_irq_handler ∧ k_idtr k = Some (idt_limit (IDT_new asm_irq_handler)) →
  k_pic k = None → known_devices (k_ps2 k) = [] → sizes_ok → memory_up fuel Hfuel (k_memory k) →
  allowed (λ _ k', booted (highmem (k_memory k)) k') (device_init fuel Hfuel ps2_fuel sizes k).
Proof.
  intros Hirq Hseg Hidt Hpic Hkn Hs Hm. unfold device_init.
  eapply allowed_bind; [apply interrupts_stage; done|]. intros [] k1 (p & mg & Hp & (m1 & -> & Hm1 & Hh1) & Hnone & Hexc).
  set (k1 := set_memory _ _). eapply allowed_bind; [apply (pic_stage k1 Hs Hm1 Hpic)|].
  intros [] k2 (pp & i & Hpp & (m2 & -> & Hm2 & Hh2)). set (k2 := set_memory _ _).
  eapply allowed_bind; [apply (pit_stage k2 Hs Hm2 Hp)|]. intros [] k3 (h & i3 & d3 & Hh & (m3 & -> & Hm3 & Hh3)).
  set (k3 := set_memory _ _). eapply allowed_done; [reflexivity|]. set (k4 := set_cpu _ k3).
  pose proof (ps2_stage k4 eq_refl Hkn Hs Hm3 Hp) as Hps.
  destruct (init_ps2 _ _ _ _ k4) as [[[] k5]| | |]; [|done..].
  destruct Hps as (h2 & _ & (Ec & Et & Er & Eg & Ep) & Hm5 & Hh5 & Hk5 & He5 & Hi5). constructor.
  - by rewrite Ec.
  - rewrite Ec. exact Hseg.
  - rewrite Et, Er, Eg. split; [apply Hidt|]. split; [apply Hidt|reflexivity].
  - split; [exact Hm5|]. rewrite Hh5. change (highmem m3 = highmem (k_memory k)). rewrite Hh3. exact (eq_trans Hh2 Hh1).
  - rewrite Ep. by exists pp.
  - intros v. rewrite Hi5. change (manager k4) with (mkManager (<[32 := h :: irq_handlers mg 32]> (irq_handlers mg)) (exceptions_handlers mg)).
    cbn [irq_handlers]. change min_irq_vector with 32. change FIRST_LINE_IRQ with 33. change SECOND_LINE_IRQ with 44.
    destruct (decide (v ∈ [32; 33; 44])) as [Hin|Hout].
    + repeat (apply elem_of_cons in Hin as [->|Hin]); [..|by apply elem_of_nil in Hin];
        repeat first [rewrite fn_lookup_insert|rewrite fn_lookup_insert_ne by done]; by rewrite Hnone.
    + rewrite !not_elem_of_cons in Hout. destruct Hout as (H1 & H2 & H3 & _).
      rewrite !fn_lookup_insert_ne by done. by rewrite Hnone.
  - intros e. rewrite He5. apply Hexc.
  - exact Hk5.
Qed.

Lemma test_stage region (k : kernel D) callers : booted region k → (∀ t, t ∈ callers → t ∈ suite fuel Hfuel) →
  allowed (λ _ k', booted region k') (on_memory (ost_run callers) k).
Proof.
  intros Hk Hc. destruct (booted_memory _ _ Hk) as [Hm Hr]. unfold on_memory, zoom.
  pose proof (ost_run_done fuel Hfuel Hslab callers (k_memory k) Hc Hm) as Ht.
  unfold wp in Ht. destruct (ost_run callers (k_memory k)) as [[[] m]| | |]; [|by right|done..].
  destruct Ht as [Hm' Hr']. destruct Hk. split; try done. cbn. split; [done|congruence].
Qed.
End Boot.

(** * Properties *)

(** The kernel comes up: from any state of the machine, with a loader that
    reported less than 2 GiB of high memory and an image that leaves room for the
    page map, the initialization of [kernel_main] and the tests it runs on itself
    terminate.  It stops in a panic for lack of memory or for a failed self test of
    the PS/2 controller, or by using a null pointer: one that [new] returned and nobody
    tests, or the scheduler that a PS/2 wait yields to before it is made; or it reaches the scheduler with interrupts on, flat segments, a gate for every vector, working
    allocators, one handler for each trap, for the timer and for the two PS/2 lines
    and none elsewhere. *)
Theorem kernel_boots {D} `{PS2Device D} fuel Hfuel ps2_fuel sizes asm_irq_handler single_task kobj_end
    temp_boot_info callers (k0 : kernel D) (info := loader_info temp_boot_info k0)
    (region := highmem_region (high_memory info))
    (Hslab : 2 ^ 29 ≤ Z.of_nat fuel) (Hdrain : ∀ d, drained ps2_fuel d = true) (Hsizes : sizes_ok sizes)
    (Htask : 0 ≤ single_task < 2 ^ 32) (Hvalid : is_meminfo_valid info = true)
    (Hkb : 0 ≤ high_memory info < 2 ^ 21) (Hend : highmem_start ≤ kobj_end < 2 ^ 31)
    (Hroom : align_up PAGE_SIZE kobj_end + PAGE_SIZE * map_pages region ≤ end_ region)
    (Hpic : k_pic k0 = None) (Hdrivers : known_devices (k_ps2 k0) = [])
    (Hcallers : ∀ t, t ∈ callers → t ∈ suite fuel Hfuel) :
  match kernel_init fuel Hfuel ps2_fuel sizes asm_irq_handler single_task kobj_end temp_boot_info callers k0 with
  | Done (_, k) => booted fuel Hfuel asm_irq_handler single_task region k
  | Panic msg => msg ∈ boot_panics ∨ exhausted msg
  | Fault msg => null_used (D := D) msg
  | Fuel => False
  end.
Proof.
  apply allowed_elim. unfold kernel_init. destruct (early_done asm_irq_handler single_task temp_boot_info k0 Htask) as (k1 & E1 & He).
  apply (allowed_done _ _ _ _ _ _ E1).
  eapply allowed_bind; [apply (memory_stage fuel Hfuel asm_irq_handler single_task kobj_end temp_boot_info k1 k0 He Hvalid Hkb Hend Hroom)|].
  intros [] k2 (m & -> & Hm & Hh).
  pose proof (device_stage fuel Hfuel Hslab ps2_fuel Hdrain sizes asm_irq_handler single_task (set_memory m k1)
    (early_irq _ _ _ _ _ He) (early_segments _ _ _ _ _ He) (early_idt _ _ _ _ _ He)) as Hd.
  change (highmem (k_memory (set_memory m k1))) with (highmem m) in Hd. rewrite Hh in Hd.
  eapply allowed_bind; [apply Hd|].
  - by rewrite <- Hpic, <- (early_pic _ _ _ _ _ He).
  - cbn. by rewrite (early_ps2 _ _ _ _ _ He).
  - done.
  - done.
  - intros [] k3 Hk3. by apply test_stage.
Qed.

(** ** Witnesses *)
(** A machine with 128 MiB of high memory; the loader's structure is at 0x9000. *)
Definition example_kernel : kernel i8042 :=
  mkKernel (mkCpu (mkVector [] 0) None 0 0 0 (mkIrq true false)) (mkIdt [] 0) None false
    (mkKernelMemory example_info MemoryRegion_default
       (mkPages {[0x9000 := 1; 0x900A := 2]} BuddyAllocator_default PageAllocator_default) Mallocator_default)
    (vga_start ∅) (io_start (λ _, 0)) None FrequencyDivider_default nullptr example_ps2.

Lemma kernel_boots_witness :
  match kernel_init boot_fuel boot_fuel_enough 10 (mkSizes 1184 8 8 8 12 8 4) (λ v, 0x100000 + 16 * v) 0x123450 1253377
          0x9000 (suite boot_fuel boot_fuel_enough) example_kernel with
  | Done (_, k) => booted boot_fuel boot_fuel_enough (λ v, 0x100000 + 16 * v) 0x123450 (highmem_region 131072) k
  | Panic msg => msg ∈ boot_panics ∨ exhausted msg
  | Fault msg => null_used (D := i8042) msg
  | Fuel => False
  end.
Proof.
  apply (kernel_boots boot_fuel boot_fuel_enough 10 (mkSizes 1184 8 8 8 12 8 4) (λ v, 0x100000 + 16 * v) 0x123450
    1253377 0x9000 (suite boot_fuel boot_fuel_enough) example_kernel).
  - unfold boot_fuel. rewrite Z2Nat.id; lia.
  - apply i8042_drains.
  - repeat constructor; cbn; lia.
  - lia.
  - reflexivity.
  - vm_compute. split; [discriminate|reflexivity].
  - unfold highmem_start. lia.
  - vm_compute. discriminate.
  - reflexivity.
  - reflexivity.
  - done.
Defined.
