(* ===== verification/KernelMain.v ===== *)
(** * The whole kernel, from the boot loader to its tasks

    [main.cpp]: [kernel_main] brings the components up ([Boot.v]) and starts the
    scheduler ([Scheduler.v]) on the heap they leave behind ([KernelMemory.v]); from
    there on the tasks run ([Tasks.v]). *)
From stdpp Require Import base functions tactics numbers list gmap strings relations.
From S2P Require Import Prelude MemUtils MemoryRegion ForwardList CircularList FreeList Buddy BitArray PageProvider KernelHeap.
From S2P Require Import PageAllocator Slab Mallocator Multiboot MemoryInit KernelMemory SelfTest Ports Irq Scheduler Timer Tasks.
From S2P Require Import Keyboard Vga Containers Segments Ps2 Traps KernelObject Boot.

Section KernelMain.
Context {D : Type} `{PS2Device D}.
Context (fuel : nat) (Hfuel : 2 ^ 20 + 1 < Z.of_nat fuel) (Hslab : 2 ^ 29 ≤ Z.of_nat fuel).
Context (ps2_fuel : nat) (sizes : object_sizes) (sizeof_Scheduler : Z).
(** Addresses: the stubs, the task state segment, the end of the image, what the loader
    passed, the code of the tasks and the names of the first two. *)
Context (asm_irq_handler : Z → Z) (single_task kobj_end temp_boot_info : Z).
Context (start_on_new_frame scheduling_task_routine multithreaded_init_stage scheduler_name main_name : Z).
Let KH : KernelHeap kernel_memory := kernel_heap fuel Hfuel Hslab.
#[local] Existing Instance KH.
Abbreviation st := (sched_state (W := kernel_memory)).

(** The kernel and the statics of [sched/]; both see the one heap and the one interrupt
    state. *)
Abbreviation main_prog := (prog (kernel D * st)).

Definition see_kernel (k : kernel D) (s : st) : st := put_heap (k_memory k) (put_irqs (cpu_irq (k_cpu k)) s).
Definition see_scheduler (s : st) (k : kernel D) : kernel D :=
  set_memory (heap s) (set_cpu (mkCpu (cpu_gdt (k_cpu k)) (cpu_gdtr (k_cpu k)) (cpu_data (k_cpu k))
                                  (cpu_cs (k_cpu k)) (cpu_tr (k_cpu k)) (irqs s)) k).

Definition on_kernel {A} : prog (kernel D) A → main_prog A := zoom fst (λ k x, (k, see_kernel k x.2)).
Definition on_scheduler {A} : prog st A → main_prog A := zoom snd (λ s x, (see_scheduler s x.1, s)).

(** The statics of [sched/] before anything runs. *)
Definition sched_statics (k : kernel D) : st :=
  mkSched (cpu_irq (k_cpu k)) (mkCircular nullptr ∅) forward_list_empty ∅ nullptr nullptr 0 (k_memory k).

(** [kernel_main]; [flags] are the other bits of the flags register.  [init_scheduling]
    does not come back, so the panic behind it is never reached. *)
Definition kernel_main (ost_callers : list (km_prog unit)) (flags : Z) : main_prog unit :=
  on_kernel (kernel_init fuel Hfuel ps2_fuel sizes asm_irq_handler single_task kobj_end temp_boot_info ost_callers) ;;
  on_scheduler (init_scheduling start_on_new_frame scheduling_task_routine sizeof_Scheduler flags
    multithreaded_init_stage scheduler_name main_name).

(** * Verification *)

(** The scheduler is started on the heap of the booted kernel. *)
Lemma scheduler_stage region (k : kernel D) flags :
  booted fuel Hfuel asm_irq_handler single_task region k →
  0 ≤ start_on_new_frame < 2 ^ 32 → 1 ≤ sizeof_Scheduler ≤ 2 ^ 31 → multithreaded_init_stage ≠ nullptr →
  match init_scheduling start_on_new_frame scheduling_task_routine sizeof_Scheduler flags
          multithreaded_init_stage scheduler_name main_name (sched_statics k) with
  | Done (_, s) => ∃ m, dom (task_objects s) = {[ _scheduler_task s; m ]} ∧ irqs s = mkIrq true true ∧
      ∀ j, 0 ≤ j → sys_inv start_on_new_frame m (boot_system s m j)
  | Fault msg => out_of_memory msg
  | Panic _ | Fuel => False
  end.
Proof.
  intros Hk Hstart Hsize Hmain.
  assert (sched_statics k = boot_state (k_memory k)) as ->.
  { unfold sched_statics. by rewrite (booted_irq _ _ _ _ _ _ Hk). }
  destruct (booted_memory _ _ _ _ _ _ Hk) as [Hm _]. apply (memory_up_heap fuel Hfuel Hslab) in Hm.
  destruct (init_done start_on_new_frame scheduling_task_routine sizeof_Scheduler (k_memory k) ∅ ∅ flags
    multithreaded_init_stage scheduler_name main_name Hstart Hsize Hm Hmain)
    as [(msg & E & Hmsg)|(s & t1 & t2 & al & os & E & H0 & _ & Hs & _ & Hx)]; fold KH in E; rewrite E; [done|].
  exists t2. split_and!.
  - apply set_eq. intros t. rewrite (st_objects _ _ _ _ _ (si_static _ _ _ _ _ _ H0)), Hs. set_solver.
  - apply (si_irqs _ _ _ _ _ _ H0).
  - intros j Hj. apply (boot_inv start_on_new_frame s [t1; t2] al os); [done|by rewrite Hs|done|done].
Qed.
End KernelMain.

(** * Properties *)

(** C11: the kernel comes up and runs: from any state of the machine, with a loader that
    reported less than 2 GiB of high memory and an image, linked as [kernel.ld] says from any
    sections of the compiler, that ends below 2 GiB and leaves room for the page map,
    [kernel_main] terminates its initialization and the tests it runs on itself and starts
    the scheduler.  It stops in a panic for lack of memory or for a failed self test of the
    PS/2 controller, or where it uses a null pointer: that of a [new] it does not test, or the
    scheduler, before it is made, that a PS/2 wait yields to which is not satisfied at once; or the
    machine has interrupts on, flat segments, a gate for every vector, working allocators,
    one handler for each trap, for the timer and for the two PS/2 lines and none elsewhere,
    and in every state that its tasks reach from there, whatever the timer does and whatever
    else uses the heap, they go on as [main.cpp] means them to, but for a [new] without
    memory. *)
Theorem kernel_main_runs {D} `{PS2Device D} fuel Hfuel Hslab ps2_fuel sizes sizeof_Scheduler asm_irq_handler
    single_task image temp_boot_info start routine test_task test_task_name main scheduler_name main_name callers
    flags (k0 : kernel D) (s0 : sched_state) (info := loader_info temp_boot_info k0)
    (region := highmem_region (high_memory info)) (object_end := kobj_end (link image))
    (Hdrain : ∀ d, drained ps2_fuel d = true) (Hsizes : sizes_ok sizes) (Hsize : 1 ≤ sizeof_Scheduler ≤ 2 ^ 31)
    (Htask : 0 ≤ single_task < 2 ^ 32) (Hstart : 0 ≤ start < 2 ^ 32) (Hmain : main ≠ nullptr)
    (Hvalid : is_meminfo_valid info = true)
    (Hkb : 0 ≤ high_memory info < 2 ^ 21) (Himage : image_ok image) (Hend : object_end < 2 ^ 31)
    (Hroom : align_up PAGE_SIZE object_end + PAGE_SIZE * map_pages region ≤ end_ region)
    (Hpic : k_pic k0 = None) (Hdrivers : known_devices (k_ps2 k0) = [])
    (Hstatics : s0 = sched_statics k0) (Hcallers : ∀ t, t ∈ callers → t ∈ suite fuel Hfuel) :
  match kernel_main fuel Hfuel Hslab ps2_fuel sizes sizeof_Scheduler asm_irq_handler single_task object_end temp_boot_info
          start routine main scheduler_name main_name callers flags (k0, s0) with
  | Done (_, (k, s)) =>
      (∃ k1, booted fuel Hfuel asm_irq_handler single_task region k1 ∧ k = see_scheduler s k1 ∧
         cpu_irq (k_cpu k) = mkIrq true true) ∧
      ∃ m, dom (task_objects s) = {[ _scheduler_task s; m ]} ∧
        ∀ j y, 0 ≤ j → rtc (sys_step (KH := kernel_heap fuel Hfuel Hslab) start test_task test_task_name)
                         (boot_system s m j) y →
          system_ok (KH := kernel_heap fuel Hfuel Hslab) start test_task test_task_name m y
  | Panic msg => msg ∈ boot_panics ∨ exhausted msg
  | Fault msg => out_of_memory msg ∨ msg = null_scheduler ∧ stalled_wait (D := D)
  | Fuel => False
  end.
Proof.
  destruct (linked_image_fits image Himage Hend) as (_ & Hbounds & _).
  pose proof (kernel_boots fuel Hfuel ps2_fuel sizes asm_irq_handler single_task object_end temp_boot_info callers k0
    Hslab Hdrain Hsizes Htask Hvalid Hkb Hbounds Hroom Hpic Hdrivers Hcallers) as Hb.
  unfold kernel_main, mbind, prog_bind, on_kernel, on_scheduler, zoom. cbn [fst snd].
  destruct (kernel_init _ _ _ _ _ _ _ _ _ k0) as [[[] k1]| | |]; [|exact Hb|destruct Hb as [->|Hst]; [by left; left|by right]|done].
  pose proof (scheduler_stage fuel Hfuel Hslab sizeof_Scheduler asm_irq_handler single_task start routine main
    scheduler_name main_name region k1 flags Hb Hstart Hsize Hmain) as Hs.
  cbn [fst snd]. assert (see_kernel k1 s0 = sched_statics k1) as -> by by subst s0.
  destruct (init_scheduling _ _ _ _ _ _ _ (sched_statics k1)) as [[[] s]| | |]; [|done|by left|done].
  destruct Hs as (m & Hdom & Hirq & Hrun). split; [by exists k1|]. exists m. split; [done|]. intros j y Hj Hr.
  apply inv_system_ok; [done|]. eapply sys_reachable; [done|exact Hr|]. by apply Hrun.
Qed.

Lemma kernel_main_runs_witness :
  match kernel_main boot_fuel boot_fuel_enough boot_fuel_slabs 10 (mkSizes 1184 8 8 16 12 8 4) 32
          (λ v, 0x100000 + 16 * v) 0x123450 (kobj_end (link example_image)) 0x9000 77 66 55 0 0 (suite boot_fuel boot_fuel_enough) 0
          (example_kernel, sched_statics example_kernel) with
  | Done (_, (k, s)) =>
      (∃ k1, booted boot_fuel boot_fuel_enough (λ v, 0x100000 + 16 * v) 0x123450 (highmem_region 131072) k1 ∧
         k = see_scheduler s k1 ∧ cpu_irq (k_cpu k) = mkIrq true true) ∧
      ∃ m, dom (task_objects s) = {[ _scheduler_task s; m ]} ∧
        ∀ j y, 0 ≤ j → rtc (sys_step (KH := kernel_heap boot_fuel boot_fuel_enough boot_fuel_slabs) 77 88 0)
                         (boot_system s m j) y →
          system_ok (KH := kernel_heap boot_fuel boot_fuel_enough boot_fuel_slabs) 77 88 0 m y
  | Panic msg => msg ∈ boot_panics ∨ exhausted msg
  | Fault msg => out_of_memory msg ∨ msg = null_scheduler ∧ stalled_wait (D := i8042)
  | Fuel => False
  end.
Proof.
  apply (kernel_main_runs boot_fuel boot_fuel_enough boot_fuel_slabs 10 (mkSizes 1184 8 8 16 12 8 4) 32
    (λ v, 0x100000 + 16 * v) 0x123450 example_image 0x9000 77 66 88 0 55 0 0 (suite boot_fuel boot_fuel_enough) 0
    example_kernel (sched_statics example_kernel)).
  - apply i8042_drains.
  - repeat constructor; cbn; lia.
  - lia.
  - lia.
  - lia.
  - done.
  - reflexivity.
  - vm_compute. split; [discriminate|reflexivity].
  - apply example_image_ok.
  - by vm_compute.
  - vm_compute. discriminate.
  - reflexivity.
  - reflexivity.
  - reflexivity.
  - done.
Defined.
